(* ===== verification/_CoqProject ===== *)
-Q . S2P
Prelude.v
Buffers.v
Varint.v
Common.v
ArrayRangeSet.v
RangeSet.v
NumSet.v
Packet.v
Frame.v
Time.v
Timer.v
Space.v
Path.v
Send.v
Recv.v
Streams.v
Connection.v
Accounting.v
Driver.v
Quiet.v
Typed.v
Wire.v
Acks.v
Datagrams.v
Offences.v
Peers.v
Handshake.v
Closing.v
Endpoint.v
Marker.v
Admission.v
Display.v
Programs.v
Transfer.v
PingPong.v
Network.v
Delivery.v
Gaps.v
Echo.v
