(* ===== verification/Prelude.v ===== *)
(** * mzquic: a verification development of a QUIC implementation

    The repository holds [mzquic], a QUIC transport in Rust, in two crates
    under [src/quic-starter-code-rust/]: [proto] (the wire format) and [core]
    (connections and the endpoint), with the programs of a test client and a
    test server.  This development models them as executable functions and
    proves what they compute.  File names below are relative to
    that directory.

    ** The parts and how they interact

    A datagram that the endpoint receives goes to the task of a connection.
    The connection decodes its header, expands the packet number, passes it
    through the duplicate filter of its packet number space, notes it for
    acknowledgement and hands the payload to the frame parser.  ACK frames take
    packets out of the books of the space and the path, report acknowledged
    stream data to the streams and feed the round-trip estimator and the
    congestion controller; STREAM frames are reassembled by the receive
    streams.  In the other direction the connection is polled for packets: it
    writes acknowledgements, control frames and stream data into a buffer,
    records what the packet carried and queues it on the path, from which it is
    sent.  Timers drive loss detection, delayed acknowledgements and closing.
    Events about connection and streams go to the handler of the program, which
    calls the public operations of the connection.

    ** Which file models what

    - [Prelude]: this header; outcomes and results, machine integers, bytes,
      ranges, and the automation ([outcome_inv], [u64_lia]).
    - [Buffers]: the traits [Buf] and [BufMut] of the [bytes] crate as classes
      with their documented laws, what it means that a function emits or reads
      given bytes, and two buffers that satisfy the laws.
    - [Varint]: [proto/src/varint.rs].
    - [Common]: [proto/src/common.rs] and [proto/src/error.rs].
    - [ArrayRangeSet], [RangeSet]: the two implementations of sets of ranges
      under [proto/src/range_set/]; [NumSet] is the interface they share, the
      set of numbers they stand for, against which their updates are proved.
    - [Packet]: [proto/src/packet.rs], packet numbers and headers.
    - [Frame]: [proto/src/frame.rs], frames, their encoders and the parser.
    - [Time]: the durations and instants of the standard library.
    - [Timer]: [core/src/connection/timer.rs].
    - [Space]: [core/src/connection/space.rs], a packet number space with its
      duplicate filter, pending acknowledgements and sent packets.
    - [Path]: [core/src/connection/path.rs], round-trip times, bytes in flight,
      NewReno and the queue of packets to send.
    - [Send], [Recv]: [core/src/connection/stream/send.rs] and [recv.rs], the
      two halves of a stream.
    - [Streams]: [core/src/connection/stream/state.rs], the table of streams
      and the queue of those with data to send, and the handles of the
      application.
    - [Connection]: [core/src/connection/mod.rs], the operations of a
      connection, composed as the code composes them.
    - [Accounting]: the invariant of a connection, [conn_inv], and that every
      operation keeps it.
    - [Driver]: [run_connection] in [mod.rs], the loop of a connection, as a
      function of what the outside world contributes to each round; the
      connections it can reach; the theorems about all of them.
    - [Quiet]: which operations announce nothing to the application and leave the
      receive streams alone, and the send streams as long and as open as they
      were ([quiet]); what a received frame can announce ([calm], [greets]).
    - [Typed]: the types of what a connection keeps, and what the application
      has written to each stream, finished and reset ([Written]); every
      connection of the loop keeps to them.
    - [Wire]: the packets that a connection writes, as frames: what each writer
      appends ([appends]) and how a datagram is read ([understood]).
    - [Acks], [Datagrams], [Offences], [Closing]: theorems about acknowledgements
      and loss, about datagrams that arrive again, about the frames that end a
      connection, and about closing.
    - [Peers]: the peer as a consumer of spaces, numbers and frames ([deliver]),
      which is what [handle_data] does with the packets of [poll_transmit];
      [Handshake]: a client and a server connect.
    - [Endpoint]: [core/src/endpoint.rs] with the loop [run], and the connection
      tasks of [mod.rs].
    - [Marker]: [src/file_notice_macos.rs], the file by which a client waits for
      its server, and the start of the two programs as steps on a shared file
      system.
    - [Admission]: what the first datagram of a peer can do to an endpoint.
    - [Display]: the texts that errors, identifiers and frames are printed as.
    - [Programs]: [src/bin/client.rs] and [src/bin/server.rs], the handlers of
      the four programs, with the interface [PublicCalls] that each of them
      satisfies, and the loop of a connection with its handler.
    - [Transfer]: the client of the file transfer, given the frames it gets,
      and the server's first packets; [PingPong]: how many pings the ping-pong
      client sends, and which ends of streams the handlers do not survive.
    - [Network]: both programs of the file transfer and a network that loses,
      repeats and reorders what the server sends ([World], [world_step]).
    - [Delivery]: the file transfer when both programs run after the handshake,
      packet by packet: which files arrive.
    - [Gaps]: what the application is told of data that fills a gap, and what
      that means for the client of the file transfer.
    - [Echo]: the client that has its streams echoed.

    ** Conventions

    A function that can panic returns an [outcome]; one that returns a Rust
    [Result] returns a [result]; state is passed explicitly, and the state that
    a failing operation leaves behind is part of its result.  Integers are [Z]
    with the checks of the profile with overflow checks and debug assertions,
    so that a theorem that excludes a panic also excludes a wrap-around.  A
    comment such as [state.rs:235-282] names the lines that a definition
    translates.  Maps with integer keys are [gmap]; where the code iterates in
    the order of the keys, so does the model ([btree_iter]).  The sender and
    the receiver of the channel of events are the list [events] of the table of
    streams, to which connection and streams append.

    ** What the theorems show

    - The wire format: varints, packet numbers, headers, frames and ACK frames
      are read back as they were written; the parser consumes every payload
      and stops, or panics on an oversized identifier; on which inputs header
      decoding panics.
    - Sets of ranges: insertion and removal compute union and difference, and both
      implementations the same sets.
    - Packet number spaces: the duplicate filter accepts no number twice and
      agrees with the set of received numbers inside its window; pending
      acknowledgements stay well-formed and always fit a packet.
    - Recovery: the congestion window and the round-trip estimate stay within
      their bounds; loss detection gives up exactly the packets that the time
      threshold makes lost, and its timer stays armed for the others; what
      an ACK frame does, errors included.
    - Streams: reassembly delivers a prefix of the sent bytes in order, and all
      of them when all have arrived; each byte is handed out once until it is
      lost; streams with data are never forgotten by the queue, which is
      first-in first-out within a priority; writing frames terminates.
    - Connections: over any rounds the books of path and spaces balance and
      packet numbers are unique; a connection never goes back to an earlier
      stage; a datagram delivered twice is handled once; the first frame of a
      packet that the connection cannot go on with decides how it ends.
    - Two connections: a connection stays well-typed; its packets are read by
      the peer as the frames that it recorded, and their stream data is what
      the application wrote; so that a client and a server connect when no
      packet is lost.
    - Endpoint: datagrams reach the connection of their peer while it lives; the
      client's endpoint runs until its connection has ended, and no longer; an
      unknown peer can panic it with oversized connection identifiers only.
    - Start: a client that waits for the lock connects after its server listens.
    - Texts: different streams and identifiers are printed differently; reasons
      that are no UTF-8 are replaced, others are shown as they are.
    - Programs: over any rounds, a connection with the real handlers does what
      it does over rounds with some public calls, so that all of the above
      holds for it; what the client of the file transfer has written is, whatever
      the network does, a prefix of the server's file until it closes the
      connection, and all of it in that round; how large the file is decides
      what happens: from 1450 bytes on the server panics, up to 1442 bytes the
      client drops the only packet, and a file in between arrives once its two
      packets do ([file_size_decides]); the ping-pong client sends twenty pings,
      if the server opens no stream of its own; the echo client panics in the
      round after it wrote its messages ([echo_client_panics]).
    - Defects: theorems of kind [error] pin down behaviour that differs from
      what the code means to do (panics on large writes and on oversized
      connection identifiers, probes that never probe, a close that is never
      announced, packets that two writes corrupt, routes to connections that
      ended, gaps that are filled without a word to the application, a FIN that
      has to come with data, a repeated first frame that is appended to the file
      once more).

    ** Bounds and fuel

    Loops that are not structural take fuel, and each has a lemma that the
    fuel given is enough: the frame parser and the loops over frames take the
    number of unread bytes and one more ([parse_all_to_end],
    [frame_loop_fold]); iterating over an ACK frame reads at least a byte per
    range; [write_stream_frames] takes the length of the queue and the room of
    the buffer ([write_stream_frames_terminates]); sending takes the length of
    the queue ([sending_empties_queue]); the loops of the handlers over chunks
    take the buffered bytes and buffers ([chunk_loop_enough]).  The 128 polls
    of a burst are the bound of the code.

    ** Not modelled

    Sockets, the clock and the asynchronous runtime: what they return is an
    argument ([send_one], [Round], the steps of the endpoint), and wakers and
    yields have no counterpart.  The [slab] of the endpoint is a finite map
    with a parameter for the next key.  Derived [Debug] output, logging, the
    command line and the opening of files have no state that matters here; what
    [File::write_all] does to a file is a parameter. *)
From Stdlib Require Export ZArith Lia List Bool.
From stdpp Require Export base option list numbers strings gmap sorting.
#[global] Open Scope Z_scope.

(** ** Outcomes of Rust code

    [outcome A] is the value of a Rust expression that may panic; [result A E]
    is Rust's [Result].  Code that can do both has type
    [outcome (result A E)]. *)
Inductive outcome (A : Type) : Type :=
| Ret (a : A)
| Panic.
Arguments Ret {A} a.
Arguments Panic {A}.

Inductive result (A E : Type) : Type :=
| Ok (a : A)
| Err (e : E).
Arguments Ok {A E} a.
Arguments Err {A E} e.

Definition obind {A B} (m : outcome A) (k : A -> outcome B) : outcome B :=
  match m with
  | Ret a => k a
  | Panic => Panic
  end.

(** Rust's [?]: go on with the value, or return the error, converted by [From]. *)
Definition rbind {A B E F} (conv : E -> F) (m : outcome (result A E))
    (k : A -> outcome (result B F)) : outcome (result B F) :=
  match m with
  | Ret (Ok a) => k a
  | Ret (Err e) => Ret (Err (conv e))
  | Panic => Panic
  end.

Declare Scope rust_scope.
Delimit Scope rust_scope with rust.
Notation "'let!' x := m 'in' k" := (obind m (fun x => k))
  (at level 10, x name, m at level 100, k at level 200,
   format "'[v' 'let!'  x  :=  m  'in' '/' k ']'") : rust_scope.
Notation "'let!' ' p := m 'in' k" := (obind m (fun x => match x with p => k end))
  (at level 10, p strict pattern, m at level 100, k at level 200,
   format "'[v' 'let!'  ' p  :=  m  'in' '/' k ']'") : rust_scope.
Notation "'let?' x := m 'in' k" := (rbind id m (fun x => k))
  (at level 10, x name, m at level 100, k at level 200,
   format "'[v' 'let?'  x  :=  m  'in' '/' k ']'") : rust_scope.
Notation "'let?' ' p := m 'in' k" := (rbind id m (fun x => match x with p => k end))
  (at level 10, p strict pattern, m at level 100, k at level 200,
   format "'[v' 'let?'  ' p  :=  m  'in' '/' k ']'") : rust_scope.
Notation "'let?' ' p := m 'as' c 'in' k" := (rbind c m (fun x => match x with p => k end))
  (at level 10, p strict pattern, m at level 100, c at level 100, k at level 200,
   format "'[v' 'let?'  ' p  :=  m  'as'  c  'in' '/' k ']'") : rust_scope.
#[global] Open Scope rust_scope.

Lemma obind_ret {A B} (m : outcome A) (k : A -> outcome B) b :
  obind m k = Ret b <-> exists a, m = Ret a /\ k a = Ret b.
Proof. destruct m; naive_solver. Qed.

Lemma obind_assoc {A B C} (m : outcome A) (f : A -> outcome B) (g : B -> outcome C) :
  obind (obind m f) g = obind m (fun a => obind (f a) g).
Proof. by destruct m. Qed.

Lemma rbind_ok {A B E F} (conv : E -> F) (m : outcome (result A E))
    (k : A -> outcome (result B F)) b :
  rbind conv m k = Ret (Ok b) <-> exists a, m = Ret (Ok a) /\ k a = Ret (Ok b).
Proof. destruct m as [[]|]; naive_solver. Qed.

(** [Option::unwrap]/[expect]: panics on [None]. *)
Definition unwrap {A} (o : option A) : outcome A :=
  match o with Some a => Ret a | None => Panic end.

(** [assert!] and, in the profile modelled here, [debug_assert!]. *)
Definition assert (b : bool) : outcome unit := if b then Ret tt else Panic.

(** ** Machine integers

    An unsigned [w]-bit integer is a [Z] between [0] and [2 ^ w]; [usize] is
    64 bits wide.  The model follows the profile with overflow checks and
    debug assertions: an operation whose exact result does not fit panics.
    A theorem that an execution does not panic therefore also covers the
    release profile, whose wrapping results then agree with the exact ones. *)
Definition U8 : Z := 2 ^ 8.
Definition U16 : Z := 2 ^ 16.
Definition U32 : Z := 2 ^ 32.
Definition U64 : Z := 2 ^ 64.
Definition U64_MAX : Z := 2 ^ 64 - 1.

Definition is_u64 (x : Z) : Prop := 0 <= x < U64.
Definition is_byte (x : Z) : Prop := 0 <= x < U8.

Definition u64_add (a b : Z) : outcome Z := if a + b <? U64 then Ret (a + b) else Panic.
Definition u64_sub (a b : Z) : outcome Z := if b <=? a then Ret (a - b) else Panic.
Definition u64_mul (a b : Z) : outcome Z := if a * b <? U64 then Ret (a * b) else Panic.
Definition checked_sub (a b : Z) : option Z := if b <=? a then Some (a - b) else None.
Definition saturating_sub (a b : Z) : Z := Z.max 0 (a - b).
Definition saturating_add (a b : Z) : Z := Z.min U64_MAX (a + b).
(** [x as uN]: keep the low bits. *)
Definition as_u8 (x : Z) : Z := x mod U8.
Definition as_u16 (x : Z) : Z := x mod U16.
Definition as_u32 (x : Z) : Z := x mod U32.
Definition as_u64 (x : Z) : Z := x mod U64.

Definition zlen {A} (l : list A) : Z := Z.of_nat (length l).

(** [std::ops::Range<u64>] *)
Record range := Range { rstart : Z; rend : Z }.

#[export] Instance range_eq_dec : EqDecision range.
Proof. solve_decision. Defined.

Definition range_is_empty (r : range) : bool := negb (rstart r <? rend r).
Definition range_contains (r : range) (x : Z) : bool := (rstart r <=? x) && (x <? rend r).

(** The numbers a range stands for. *)
Definition in_range (x : Z) (r : range) : Prop := rstart r <= x < rend r.

Lemma range_contains_spec r x : range_contains r x = true <-> in_range x r.
Proof. unfold range_contains, in_range. lia. Qed.

(** ** Lemmas on the checked operations *)
Lemma u64_add_ret a b c : u64_add a b = Ret c <-> c = a + b /\ a + b < U64.
Proof. unfold u64_add. destruct (Z.ltb_spec (a + b) U64); split; intros; naive_solver lia. Qed.
Lemma u64_sub_ret a b c : u64_sub a b = Ret c <-> c = a - b /\ b <= a.
Proof. unfold u64_sub. destruct (Z.leb_spec b a); split; intros; naive_solver lia. Qed.
Lemma u64_mul_ret a b c : u64_mul a b = Ret c <-> c = a * b /\ a * b < U64.
Proof. unfold u64_mul. destruct (Z.ltb_spec (a * b) U64); split; intros; naive_solver lia. Qed.
Lemma checked_sub_some a b c : checked_sub a b = Some c <-> c = a - b /\ b <= a.
Proof. unfold checked_sub. destruct (Z.leb_spec b a); split; intros; naive_solver lia. Qed.
Lemma checked_sub_none a b : checked_sub a b = None <-> a < b.
Proof. unfold checked_sub. destruct (Z.leb_spec b a); split; intros; naive_solver lia. Qed.

Lemma u64_add_ok a b : a + b < U64 -> u64_add a b = Ret (a + b).
Proof. intros. by apply u64_add_ret. Qed.
Lemma u64_sub_ok a b : b <= a -> u64_sub a b = Ret (a - b).
Proof. intros. by apply u64_sub_ret. Qed.
Lemma u64_mul_ok a b : a * b < U64 -> u64_mul a b = Ret (a * b).
Proof. intros. by apply u64_mul_ret. Qed.

Lemma zlen_app {A} (l k : list A) : zlen (l ++ k) = zlen l + zlen k.
Proof. unfold zlen. rewrite length_app. lia. Qed.
Lemma zlen_cons {A} (x : A) l : zlen (x :: l) = 1 + zlen l.
Proof. unfold zlen. simpl length. lia. Qed.
Lemma zlen_nil {A} : zlen (@nil A) = 0.
Proof. done. Qed.
Lemma zlen_nonneg {A} (l : list A) : 0 <= zlen l.
Proof. unfold zlen. lia. Qed.
Lemma zlen_0 {A} (l : list A) : zlen l = 0 -> l = [].
Proof. destruct l; [done|]. unfold zlen; simpl; lia. Qed.
Lemma zlen_take {A} n (l : list A) :
  0 <= n <= zlen l -> zlen (take (Z.to_nat n) l) = n.
Proof. unfold zlen. rewrite length_take. lia. Qed.
Lemma zlen_drop {A} n (l : list A) :
  0 <= n <= zlen l -> zlen (drop (Z.to_nat n) l) = zlen l - n.
Proof. unfold zlen. rewrite length_drop. lia. Qed.

Create Rewrite HintDb zlen.
#[export] Hint Rewrite @zlen_app @zlen_cons @zlen_nil : zlen.

(** ** Automation

    [outcome_inv] turns an equation between a monadic term and [Ret _] into
    equations about its steps; [u64_lia] is [lia] with the widths known. *)
Create HintDb rust discriminated.
#[export] Hint Resolve zlen_nonneg : rust.

Ltac u64_consts := unfold is_u64, is_byte, U64_MAX, U64, U32, U16, U8 in *.
Ltac u64_lia := u64_consts; lia.

Ltac split3 := split; [|split].

Ltac outcome_inv :=
  repeat match goal with
  | H : obind _ _ = Ret _ |- _ =>
      let a := fresh "v" in let H1 := fresh "Hv" in
      apply obind_ret in H; destruct H as (a & H1 & H)
  | H : rbind _ _ _ = Ret (Ok _) |- _ =>
      let a := fresh "v" in let H1 := fresh "Hv" in
      apply rbind_ok in H; destruct H as (a & H1 & H)
  | H : u64_add _ _ = Ret _ |- _ => apply u64_add_ret in H; destruct H as [? ?]
  | H : u64_sub _ _ = Ret _ |- _ => apply u64_sub_ret in H; destruct H as [? ?]
  | H : u64_mul _ _ = Ret _ |- _ => apply u64_mul_ret in H; destruct H as [? ?]
  | H : Ret _ = Ret _ |- _ => injection H as H
  | H : Ok _ = Ok _ |- _ => injection H as H
  | H : Panic = Ret _ |- _ => discriminate H
  | H : Ret _ = Panic |- _ => discriminate H
  | H : Err _ = Ok _ |- _ => discriminate H
  | H : Ok _ = Err _ |- _ => discriminate H
  end.

(** ** Bits

    The masks of the wire format as quotients and remainders. *)
Lemma land_ones_mod a n : 0 <= n -> Z.land a (2 ^ n - 1) = a mod 2 ^ n.
Proof. intros. rewrite <- Z.land_ones by done. by rewrite Z.ones_equiv, Z.sub_1_r. Qed.

Lemma lor_disjoint_add a b n :
  0 <= n -> 0 <= b < 2 ^ n -> Z.lor (a * 2 ^ n) b = a * 2 ^ n + b.
Proof.
  intros Hn Hb. rewrite <- Z.shiftl_mul_pow2 by done.
  rewrite Z.add_nocarry_lxor, Z.lxor_lor; try done.
  all: apply Z.bits_inj'; intros i Hi; rewrite Z.land_spec, Z.bits_0, Z.shiftl_spec by done.
  all: destruct (Z.lt_ge_cases i n).
  1,3: by rewrite Z.testbit_neg_r by lia.
  all: rewrite <- (Z.mod_small b (2 ^ n)) by done.
  all: by rewrite Z.mod_pow2_bits_high, andb_false_r by lia.
Qed.

Lemma lor_bound a b n : 0 <= a < 2 ^ n -> 0 <= b < 2 ^ n -> 0 <= Z.lor a b < 2 ^ n.
Proof.
  intros [Ha Ha'] [Hb Hb'].
  assert (0 <= n) by (destruct (Z.le_gt_cases 0 n); [done|]; rewrite Z.pow_neg_r in Ha'; lia).
  split; [by apply Z.lor_nonneg|].
  assert (Z.lor a b = Z.lor a b mod 2 ^ n) as ->; [|apply Z.mod_pos_bound; lia].
  rewrite <- Z.land_ones, Z.land_lor_distr_l, !Z.land_ones by done.
  by rewrite !Z.mod_small.
Qed.

(** ** Big-endian integers *)
Fixpoint be_bytes (n : nat) (v : Z) : list Z :=
  match n with
  | O => []
  | S k => (v / 256 ^ Z.of_nat k) mod 256 :: be_bytes k v
  end.

Definition be_value (bs : list Z) : Z := fold_left (fun acc b => acc * 256 + b) bs 0.

Definition bytes_ok (bs : list Z) : Prop := Forall is_byte bs.

Lemma length_be_bytes n v : length (be_bytes n v) = n.
Proof. induction n; simpl; congruence. Qed.
Lemma zlen_be_bytes n v : zlen (be_bytes n v) = Z.of_nat n.
Proof. unfold zlen. by rewrite length_be_bytes. Qed.
#[export] Hint Rewrite zlen_be_bytes : zlen.

Lemma be_bytes_ok n v : bytes_ok (be_bytes n v).
Proof.
  induction n; constructor; [|done]. unfold is_byte, U8. apply Z.mod_pos_bound. lia.
Qed.

Lemma be_value_acc bs acc :
  fold_left (fun acc b => acc * 256 + b) bs acc = acc * 256 ^ zlen bs + be_value bs.
Proof.
  unfold be_value. revert acc. induction bs as [|b bs IH]; intros acc; simpl fold_left.
  { unfold zlen; simpl. lia. }
  rewrite IH, (IH (0 * 256 + b)), zlen_cons, Z.pow_add_r by (unfold zlen; lia). lia.
Qed.

Lemma be_value_cons b bs : be_value (b :: bs) = b * 256 ^ zlen bs + be_value bs.
Proof. unfold be_value at 1. simpl fold_left. rewrite be_value_acc. lia. Qed.

Lemma be_value_be_bytes_mod n v : be_value (be_bytes n v) = v mod 256 ^ Z.of_nat n.
Proof.
  induction n as [|n IH]; [by rewrite Z.mod_1_r|].
  cbn [be_bytes]. rewrite be_value_cons, IH, zlen_be_bytes, Nat2Z.inj_succ, Z.pow_succ_r by lia.
  rewrite (Z.mul_comm 256), Z.rem_mul_r by lia. lia.
Qed.

Lemma be_value_be_bytes n v : 0 <= v < 256 ^ Z.of_nat n -> be_value (be_bytes n v) = v.
Proof. intros. rewrite be_value_be_bytes_mod. by apply Z.mod_small. Qed.

Lemma be_value_bound bs : bytes_ok bs -> 0 <= be_value bs < 256 ^ zlen bs.
Proof.
  induction 1 as [|b bs Hb _ IH]; [by unfold zlen|].
  rewrite be_value_cons, zlen_cons, Z.pow_add_r by (unfold zlen; lia). unfold is_byte, U8 in Hb. nia.
Qed.

Lemma be_bytes_be_value bs : bytes_ok bs -> be_bytes (length bs) (be_value bs) = bs.
Proof.
  induction 1 as [|b bs Hb Hbs IH]; [done|]. simpl length. cbn [be_bytes].
  pose proof (be_value_bound bs Hbs) as Hv. unfold is_byte, U8 in Hb.
  rewrite be_value_cons. change (Z.of_nat (length bs)) with (zlen bs). f_equal.
  - rewrite Z.div_add_l, Z.div_small, Z.add_0_r by lia. by apply Z.mod_small.
  - etransitivity; [|exact IH]. generalize (be_value bs). clear IH Hv. intros v.
    assert (forall n c, (n <= length bs)%nat ->
      be_bytes n (c * 256 ^ zlen bs + v) = be_bytes n v) as Hgen; [|by apply Hgen].
    intros n c. induction n as [|n IHn]; intros Hn; [done|]. cbn [be_bytes].
    rewrite IHn by lia. f_equal.
    replace (zlen bs) with (Z.succ (zlen bs - Z.of_nat n - 1) + Z.of_nat n) by lia.
    unfold zlen in *. rewrite Z.pow_add_r, Z.mul_assoc, Z.div_add_l, Z.pow_succ_r by lia.
    rewrite Z.add_comm, (Z.mul_comm 256), Z.mul_assoc.
    by rewrite Z_mod_plus_full.
Qed.
