(* ===== verification/Buffers.v ===== *)
(** * Buffers: the interface of the [bytes] crate

    The codecs of [proto] are generic over the traits [Buf] and [BufMut] of the
    [bytes] crate, which is not part of the repository.  Here the traits are
    type classes, their documented behaviour is stated by law classes
    ([BufLaws], [BufMutLaws]), and everything the codecs do is proved from the
    laws only.  A byte sequence that has been read out (a [Bytes] value, a
    slice) is the list of its bytes.

    [emits] and [reads] are the two judgements all codec proofs use: what an
    encoder appends to any buffer, and what a decoder takes off the front of
    any buffer. *)
From S2P Require Import Prelude.

(** [bytes::TryGetError] *)
Record TryGetError := { requested : Z; available : Z }.

(** [bytes::Buf], with [view] the unread bytes of a buffer. *)
Class Buf (B : Type) := {
  view : B -> list Z;
  remaining : B -> Z;
  chunk : B -> list Z;
  (** [try_copy_to_slice] for a slice of the given length *)
  try_copy : Z -> B -> result (list Z * B) TryGetError;
  (** [Bytes::clear] *)
  clear : B -> B;
}.

Class BufLaws (B : Type) `{Buf B} : Prop := {
  remaining_view : forall b, remaining b = zlen (view b);
  chunk_head : forall b x l, view b = x :: l -> exists t, chunk b = x :: t;
  try_copy_ok : forall n b, 0 <= n <= zlen (view b) -> exists b',
    try_copy n b = Ok (take (Z.to_nat n) (view b), b') /\
    view b' = drop (Z.to_nat n) (view b);
  try_copy_err : forall n b, zlen (view b) < n ->
    try_copy n b = Err {| requested := n; available := zlen (view b) |};
  view_clear : forall b, view (clear b) = [];
}.

(** Buffers hold bytes, and their length fits in [usize]. *)
Class BufBytes (B : Type) `{BufLaws B} : Prop := {
  view_ok : forall b, bytes_ok (view b);
  view_u64 : forall b, zlen (view b) < U64;
}.

(** [bytes::BufMut], with [written] the bytes written so far. *)
Class BufMut (W : Type) := {
  written : W -> list Z;
  remaining_mut : W -> Z;
  put_slice : list Z -> W -> outcome W;
}.

Class BufMutLaws (W : Type) `{BufMut W} : Prop := {
  put_slice_ok : forall l w, zlen l <= remaining_mut w -> exists w',
    put_slice l w = Ret w' /\ written w' = written w ++ l /\
    remaining_mut w' = remaining_mut w - zlen l;
  remaining_mut_nonneg : forall w, 0 <= remaining_mut w;
  put_slice_panic : forall l w, remaining_mut w < zlen l -> put_slice l w = Panic;
}.

(** The big-endian accessors, all of them provided methods of the traits. *)
Section Accessors.
Context {B W : Type} `{Buf B} `{BufMut W}.

Definition try_get_uint (n : Z) (b : B) : outcome (result (Z * B) TryGetError) :=
  Ret match try_copy n b with
      | Ok (bs, b) => Ok (be_value bs, b)
      | Err e => Err e
      end.
Definition try_get_u8 := try_get_uint 1.
Definition try_get_u16 := try_get_uint 2.
Definition try_get_u32 := try_get_uint 4.
Definition try_get_u64 := try_get_uint 8.

Definition try_copy_to_slice (n : Z) (b : B) : outcome (result (list Z * B) TryGetError) :=
  Ret (try_copy n b).

(** [copy_to_bytes], and [Bytes::split_to]: panic beyond the end. *)
Definition copy_to_bytes (n : Z) (b : B) : outcome (list Z * B) :=
  match try_copy n b with
  | Ok r => Ret r
  | Err _ => Panic
  end.
Definition split_to := copy_to_bytes.

Definition put_uint (n : nat) (v : Z) (w : W) : outcome W := put_slice (be_bytes n v) w.
Definition put_u8 := put_uint 1.
Definition put_u16 := put_uint 2.
Definition put_u32 := put_uint 4.
Definition put_u64 := put_uint 8.
End Accessors.

(** ** Encoders *)
Section Emits.
Context {W : Type} `{BufMutLaws W}.

(** [f] appends exactly [bs], or panics when they do not fit. *)
Definition emits (f : W -> outcome W) (bs : list Z) : Prop :=
  forall w,
    if zlen bs <=? remaining_mut w then
      exists w', f w = Ret w' /\ written w' = written w ++ bs /\
                 remaining_mut w' = remaining_mut w - zlen bs
    else f w = Panic.

Lemma emits_put_slice l : emits (put_slice l) l.
Proof.
  intros w. destruct (Z.leb_spec (zlen l) (remaining_mut w)).
  - by apply put_slice_ok.
  - by apply put_slice_panic.
Qed.

Lemma emits_put_uint n v : emits (put_uint n v) (be_bytes n v).
Proof. apply emits_put_slice. Qed.

Lemma emits_put_u8 v : emits (put_u8 v) (be_bytes 1 v).
Proof. apply emits_put_uint. Qed.
Lemma emits_put_u16 v : emits (put_u16 v) (be_bytes 2 v).
Proof. apply emits_put_uint. Qed.
Lemma emits_put_u32 v : emits (put_u32 v) (be_bytes 4 v).
Proof. apply emits_put_uint. Qed.
Lemma emits_put_u64 v : emits (put_u64 v) (be_bytes 8 v).
Proof. apply emits_put_uint. Qed.

Lemma emits_bind f g b1 b2 :
  emits f b1 -> emits g b2 -> emits (fun w => let! w := f w in g w) (b1 ++ b2).
Proof.
  intros Hf Hg w. specialize (Hf w). rewrite zlen_app.
  pose proof (zlen_nonneg b1). pose proof (zlen_nonneg b2).
  destruct (Z.leb_spec (zlen b1) (remaining_mut w)).
  - destruct Hf as (w1 & -> & Hw1 & Hr1). cbn. specialize (Hg w1).
    destruct (Z.leb_spec (zlen b2) (remaining_mut w1)).
    + destruct Hg as (w2 & -> & Hw2 & Hr2).
      destruct (Z.leb_spec (zlen b1 + zlen b2) (remaining_mut w)); [|lia].
      exists w2. rewrite Hw2, Hw1, Hr2, Hr1. rewrite app_assoc. split_and!; [done..|lia].
    + rewrite Hg. destruct (Z.leb_spec (zlen b1 + zlen b2) (remaining_mut w)); [lia|done].
  - rewrite Hf. destruct (Z.leb_spec (zlen b1 + zlen b2) (remaining_mut w)); [lia|done].
Qed.

(** A step the code takes only when [c] holds. *)
Lemma emits_ret : emits (fun w => Ret w) [].
Proof.
  intros w. rewrite zlen_nil. destruct (Z.leb_spec 0 (remaining_mut w)).
  - exists w. rewrite app_nil_r, Z.sub_0_r. done.
  - exfalso. pose proof (remaining_mut_nonneg w). lia.
Qed.

Lemma emits_if (c : bool) f g b1 b2 :
  (c = true -> emits f b1) -> (c = false -> emits g b2) ->
  emits (fun w => if c then f w else g w) (if c then b1 else b2).
Proof. destruct c; auto. Qed.

Lemma emits_ext f g bs : (forall w, f w = g w) -> emits g bs -> emits f bs.
Proof. intros Hfg Hg w. rewrite Hfg. apply Hg. Qed.

Lemma emits_fits f bs w : emits f bs -> zlen bs <= remaining_mut w ->
  exists w', f w = Ret w' /\ written w' = written w ++ bs /\
             remaining_mut w' = remaining_mut w - zlen bs.
Proof. intros Hf ?. specialize (Hf w). destruct (Z.leb_spec (zlen bs) (remaining_mut w)); [done|lia]. Qed.

Lemma emits_panic f bs w : emits f bs -> remaining_mut w < zlen bs -> f w = Panic.
Proof. intros Hf ?. specialize (Hf w). destruct (Z.leb_spec (zlen bs) (remaining_mut w)); [lia|done]. Qed.

Lemma emits_written f bs w w' : emits f bs -> f w = Ret w' ->
  written w' = written w ++ bs /\ remaining_mut w' = remaining_mut w - zlen bs.
Proof.
  intros Hf Hw. specialize (Hf w).
  destruct (Z.leb_spec (zlen bs) (remaining_mut w)); [|congruence].
  destruct Hf as (w'' & Hf & ? & ?). assert (w'' = w') as -> by congruence. done.
Qed.
End Emits.

(** ** Decoders *)
Section Reads.
Context {B : Type} `{BufLaws B}.

(** On any buffer that starts with [bs], [f] yields [a] and leaves the rest. *)
Definition reads {A E} (f : B -> outcome (result (A * B) E)) (bs : list Z) (a : A) : Prop :=
  forall b rest, view b = bs ++ rest ->
    exists b', f b = Ret (Ok (a, b')) /\ view b' = rest.

Lemma reads_bind {A C E F} (conv : E -> F) f (g : A * B -> outcome (result (C * B) F)) b1 b2 a c :
  reads f b1 a -> reads (fun b => g (a, b)) b2 c ->
  reads (fun b => rbind conv (f b) g) (b1 ++ b2) c.
Proof.
  intros Hf Hg b rest Hb. rewrite <- app_assoc in Hb.
  destruct (Hf b _ Hb) as (b' & -> & Hb'). cbn. by apply Hg.
Qed.

Lemma reads_ret {A E} (a : A) : reads (E:=E) (fun b => Ret (Ok (a, b))) [] a.
Proof. intros b rest Hb. by exists b. Qed.

Lemma reads_ext {A E} (f g : B -> outcome (result (A * B) E)) bs a :
  (forall b, f b = g b) -> reads g bs a -> reads f bs a.
Proof. intros Hfg Hg b rest Hb. rewrite Hfg. by apply Hg. Qed.

Lemma try_copy_app bs b rest : view b = bs ++ rest ->
  exists b', try_copy (zlen bs) b = Ok (bs, b') /\ view b' = rest.
Proof.
  intros Hb. destruct (try_copy_ok (zlen bs) b) as (b' & Hc & Hb').
  { rewrite Hb, zlen_app. pose proof (zlen_nonneg rest). unfold zlen. lia. }
  exists b'. rewrite Hc, Hb', Hb. unfold zlen.
  by rewrite Nat2Z.id, take_app_length, drop_app_length.
Qed.

Lemma reads_try_copy bs : reads (try_copy_to_slice (zlen bs)) bs bs.
Proof.
  intros b rest Hb. unfold try_copy_to_slice.
  destruct (try_copy_app bs b rest Hb) as (b' & -> & ?). eauto.
Qed.

Lemma reads_uint n v : 0 <= v < 256 ^ Z.of_nat n ->
  reads (try_get_uint (Z.of_nat n)) (be_bytes n v) v.
Proof.
  intros Hv b rest Hb. unfold try_get_uint. rewrite <- (zlen_be_bytes n v).
  destruct (try_copy_app _ b rest Hb) as (b' & -> & ?). exists b'.
  by rewrite be_value_be_bytes.
Qed.

Lemma reads_u8 v : 0 <= v < 2 ^ 8 -> reads try_get_u8 (be_bytes 1 v) v.
Proof. apply (reads_uint 1). Qed.
Lemma reads_u16 v : 0 <= v < 2 ^ 16 -> reads try_get_u16 (be_bytes 2 v) v.
Proof. apply (reads_uint 2). Qed.
Lemma reads_u32 v : 0 <= v < 2 ^ 32 -> reads try_get_u32 (be_bytes 4 v) v.
Proof. apply (reads_uint 4). Qed.
Lemma reads_u64 v : 0 <= v < 2 ^ 64 -> reads try_get_u64 (be_bytes 8 v) v.
Proof. apply (reads_uint 8). Qed.

Lemma copy_to_bytes_app bs b rest : view b = bs ++ rest ->
  exists b', copy_to_bytes (zlen bs) b = Ret (bs, b') /\ view b' = rest.
Proof.
  intros Hb. unfold copy_to_bytes. destruct (try_copy_app bs b rest Hb) as (b' & -> & ?). eauto.
Qed.

(** The result of a decoder step on an arbitrary buffer. *)
Lemma try_get_uint_cases n b : 0 <= n ->
  (exists b', try_get_uint n b = Ret (Ok (be_value (take (Z.to_nat n) (view b)), b')) /\
     n <= zlen (view b) /\ view b' = drop (Z.to_nat n) (view b)) \/
  (zlen (view b) < n /\
   try_get_uint n b = Ret (Err {| requested := n; available := zlen (view b) |})).
Proof.
  intros Hn. unfold try_get_uint. destruct (Z.le_gt_cases n (zlen (view b))) as [Hle|Hgt].
  - left. destruct (try_copy_ok n b) as (b' & -> & Hb'); [lia|]. eauto.
  - right. by rewrite try_copy_err.
Qed.

Lemma try_copy_cases n b : 0 <= n ->
  (exists b', try_copy n b = Ok (take (Z.to_nat n) (view b), b') /\
     n <= zlen (view b) /\ view b' = drop (Z.to_nat n) (view b)) \/
  (zlen (view b) < n /\
   try_copy n b = Err {| requested := n; available := zlen (view b) |}).
Proof.
  intros Hn. destruct (Z.le_gt_cases n (zlen (view b))) as [Hle|Hgt].
  - left. destruct (try_copy_ok n b) as (b' & -> & Hb'); [lia|]. eauto.
  - right. by rewrite try_copy_err.
Qed.
End Reads.

#[global] Opaque try_get_uint put_uint.

(** [read_step H]: take the step [H : reads f bs a] in the goal, on the buffer
    whose unread bytes start with [bs]. *)
Ltac read_step H :=
  match goal with
  | Hv : view ?b = _ ++ ?rest |- _ =>
      let b' := fresh "b" in let He := fresh "He" in let Hv' := fresh "Hv" in
      destruct (H b rest Hv) as (b' & He & Hv');
      rewrite He; cbn [rbind]; clear He Hv
  end.

Create HintDb codec discriminated.
#[export] Hint Resolve emits_put_slice emits_put_uint emits_put_u8 emits_put_u16
  emits_put_u32 emits_put_u64 : codec.

(** Decompose an encoder into its steps. *)
Ltac emits_tac :=
  repeat first [solve [eauto with codec] | simple apply emits_bind].

(** ** Concrete buffers

    Instances that satisfy the laws: a list of bytes to read from, and a
    writer over a slice of fixed length.  They make every definition of the
    codecs executable. *)
Record slice_buf := SliceBuf { sb_bytes : list Z; sb_left : nat }.

#[export] Instance slice_BufMut : BufMut slice_buf := {|
  written := sb_bytes;
  remaining_mut := fun w => Z.of_nat (sb_left w);
  put_slice := fun l w =>
    if (length l <=? sb_left w)%nat then Ret (SliceBuf (sb_bytes w ++ l) (sb_left w - length l))
    else Panic;
|}.

#[export] Instance slice_BufMutLaws : BufMutLaws slice_buf.
Proof.
  split; cbn; unfold zlen; [|intros; lia|];
    intros l w Hl; destruct (Nat.leb_spec (length l) (sb_left w)); try lia; [|done].
  eexists. split; [done|]. cbn. split; [done|lia].
Qed.

(** Byte strings, with bounds as part of the type so that the laws hold. *)
Record in_memory := InMemory {
  im_bytes : list Z;
  im_ok : forallb (fun x => (0 <=? x) && (x <? 256)) im_bytes && (zlen im_bytes <? U64) = true }.

Lemma forallb_drop {A} (f : A -> bool) n l : forallb f l = true -> forallb f (drop n l) = true.
Proof. revert n. induction l; intros [|n]; simpl; try done. intros [? ?]%andb_prop. auto. Qed.

Lemma in_memory_drop n m :
  forallb (fun x => (0 <=? x) && (x <? 256)) (drop n (im_bytes m)) &&
  (zlen (drop n (im_bytes m)) <? U64) = true.
Proof.
  destruct m as [l Hl]. cbn [im_bytes]. apply andb_prop in Hl as [Hl1 Hl2%Z.ltb_lt].
  apply andb_true_intro. split; [by apply forallb_drop|]. apply Z.ltb_lt.
  unfold zlen in *. rewrite length_drop. lia.
Qed.

#[export] Instance in_memory_Buf : Buf in_memory := {|
  view := im_bytes;
  remaining := fun m => zlen (im_bytes m);
  chunk := im_bytes;
  try_copy := fun n m =>
    if n <=? zlen (im_bytes m) then
      Ok (take (Z.to_nat n) (im_bytes m), InMemory _ (in_memory_drop (Z.to_nat n) m))
    else Err {| requested := n; available := zlen (im_bytes m) |};
  clear := fun m => InMemory [] eq_refl;
|}.

#[export] Instance in_memory_BufLaws : BufLaws in_memory.
Proof.
  split; cbn.
  - done.
  - intros [l Hl] x t; cbn. eauto.
  - intros n m Hn. destruct (Z.leb_spec n (zlen (im_bytes m))); [|lia]. eauto.
  - intros n m Hn. destruct (Z.leb_spec n (zlen (im_bytes m))); [lia|done].
  - done.
Qed.

#[export] Instance in_memory_BufBytes : BufBytes in_memory.
Proof.
  split; cbn.
  - intros [l Hl]; cbn. apply andb_prop in Hl as [Hl _].
    apply Forall_forall. intros x Hx%list_elem_of_In.
    rewrite forallb_forall in Hl. specialize (Hl x Hx). unfold is_byte, U8. lia.
  - intros [l Hl]; cbn [im_bytes]. by apply andb_prop in Hl as [_ Hl%Z.ltb_lt].
Qed.

(** Slices, [&[u8]]: the implementation of [Buf] that the source uses to scan
    bytes that stay where they are. *)
#[export] Instance slice_Buf : Buf (list Z) := {|
  view := fun l => l;
  remaining := zlen;
  chunk := fun l => l;
  try_copy := fun n l =>
    if n <=? zlen l then Ok (take (Z.to_nat n) l, drop (Z.to_nat n) l)
    else Err {| requested := n; available := zlen l |};
  clear := fun _ => [];
|}.

#[export] Instance slice_BufLaws : BufLaws (list Z).
Proof.
  split; cbn; [done|eauto| | |done]; intros n l Hn; destruct (Z.leb_spec n (zlen l)); eauto; lia.
Qed.
