(* ===== verification/Varint.v ===== *)
(** * Varint: variable-length integers ([proto/src/varint.rs])

    Encoding and decoding of QUIC variable-length integers over abstract
    buffers, with the round trip, the exact length, the range of decoded
    values and the absence of panics on arbitrary input. *)
From S2P Require Import Prelude Buffers.

(** [varint.rs:3-7] the largest values of each width *)
Definition VARINT_MAX_1 : Z := 2 ^ 6 - 1.
Definition VARINT_MAX_2 : Z := 2 ^ 14 - 1.
Definition VARINT_MAX_4 : Z := 2 ^ 30 - 1.
Definition VARINT_MAX_8 : Z := 2 ^ 62 - 1.
Definition VARINT_MAX : Z := VARINT_MAX_8.

(** [varint.rs:9-23] [varint_len] *)
Definition varint_len (v : Z) : outcome Z :=
  if v <=? VARINT_MAX_1 then Ret 1
  else if v <=? VARINT_MAX_2 then Ret 2
  else if v <=? VARINT_MAX_4 then Ret 4
  else if v <=? VARINT_MAX_8 then Ret 8
  else Panic.

(** [varint.rs:25-28] [varint_parse_len] *)
Definition varint_parse_len (first : Z) : Z := Z.shiftl 1 (Z.shiftr first 6).

Section Codec.
Context {B W : Type} `{Buf B} `{BufMut W}.

(** [varint.rs:31-56] [BufExt::try_get_varint] *)
Definition try_get_varint (b : B) : outcome (result (Z * B) TryGetError) :=
  if remaining b <? 1 then
    Ret (Err {| requested := 1; available := remaining b |})
  else
    let! first := unwrap (hd_error (chunk b)) in
    let len := varint_parse_len first in
    if len =? 1 then
      let? '(x, b) := try_get_u8 b in Ret (Ok (Z.land x VARINT_MAX_1, b))
    else if len =? 2 then
      let? '(x, b) := try_get_u16 b in Ret (Ok (Z.land x VARINT_MAX_2, b))
    else if len =? 4 then
      let? '(x, b) := try_get_u32 b in Ret (Ok (Z.land x VARINT_MAX_4, b))
    else if len =? 8 then
      let? '(x, b) := try_get_u64 b in Ret (Ok (Z.land x VARINT_MAX_8, b))
    else Panic.

(** [varint.rs:58-74] [BufExt::try_get_bytes_with_varint_length] *)
Definition try_get_bytes_with_varint_length (b : B)
    : outcome (result (list Z * B) TryGetError) :=
  let? '(len, b) := try_get_varint b in
  if remaining b <? len then
    Ret (Err {| requested := len; available := remaining b |})
  else
    let! '(bytes, b) := copy_to_bytes len b in
    Ret (Ok (bytes, b)).

(** [varint.rs:80-92] [BufMutExt::put_varint] *)
Definition put_varint (v : Z) (w : W) : outcome W :=
  let! len := varint_len v in
  if len =? 1 then put_u8 (as_u8 v) w
  else if len =? 2 then put_u16 (Z.lor (Z.shiftl 1 14) (as_u16 v)) w
  else if len =? 4 then put_u32 (Z.lor (Z.shiftl 2 30) (as_u32 v)) w
  else if len =? 8 then put_u64 (Z.lor (Z.shiftl 3 62) v) w
  else Panic.

(** [varint.rs:94-101] [BufMutExt::put_bytes_with_varint_length] *)
Definition put_bytes_with_varint_length (bytes : list Z) (w : W) : outcome W :=
  let! w := put_varint (zlen bytes) w in
  put_slice bytes w.
End Codec.

(** ** Wire format *)

(** The tag of a width and the number of bytes after it. *)
Definition varint_bytes (v : Z) : list Z :=
  if v <=? VARINT_MAX_1 then be_bytes 1 v
  else if v <=? VARINT_MAX_2 then be_bytes 2 (1 * 2 ^ 14 + v)
  else if v <=? VARINT_MAX_4 then be_bytes 4 (2 * 2 ^ 30 + v)
  else be_bytes 8 (3 * 2 ^ 62 + v).

Definition is_varint (v : Z) : Prop := 0 <= v <= VARINT_MAX.

Ltac varint_consts := unfold is_varint, VARINT_MAX, VARINT_MAX_8, VARINT_MAX_4, VARINT_MAX_2,
  VARINT_MAX_1 in *; u64_consts.
Ltac varint_lia := varint_consts; lia.

Lemma varint_len_bytes v : is_varint v -> varint_len v = Ret (zlen (varint_bytes v)).
Proof.
  intros Hv. unfold varint_len, varint_bytes.
  repeat case_match; autorewrite with zlen; try done. varint_lia.
Qed.

Lemma varint_len_panic v : VARINT_MAX < v -> varint_len v = Panic.
Proof. intros Hv. unfold varint_len. repeat case_match; try done; varint_lia. Qed.

Lemma varint_bytes_length v : is_varint v -> 1 <= zlen (varint_bytes v) <= 8.
Proof. intros Hv. unfold varint_bytes. repeat case_match; autorewrite with zlen; lia. Qed.

Lemma varint_bytes_ok v : bytes_ok (varint_bytes v).
Proof. unfold varint_bytes. repeat case_match; apply be_bytes_ok. Qed.

Lemma varint_bytes_small v : is_varint v ->
  (v <= VARINT_MAX_1 -> zlen (varint_bytes v) = 1) /\
  (v <= VARINT_MAX_2 -> zlen (varint_bytes v) <= 2) /\
  (v <= VARINT_MAX_4 -> zlen (varint_bytes v) <= 4).
Proof.
  intros Hv. unfold varint_bytes. repeat case_match; autorewrite with zlen; varint_lia.
Qed.

(** The first byte selects the width: its two high bits are the tag. *)
Lemma be_bytes_first n k t v : (0 < n)%nat -> k = 8 * Z.of_nat n - 2 ->
  0 <= t < 4 -> 0 <= v < 2 ^ k ->
  exists x l, be_bytes n (t * 2 ^ k + v) = x :: l /\ 0 <= x < 256 /\ Z.shiftr x 6 = t.
Proof.
  intros Hn -> Ht Hv. destruct n as [|m]; [lia|].
  set (k := 8 * Z.of_nat (S m) - 2) in *.
  cbn [be_bytes]. eexists _, _. split; [done|].
  assert (Hk : 2 ^ k = 64 * 256 ^ Z.of_nat m).
  { change 256 with (2 ^ 8). rewrite <- Z.pow_mul_r by lia. change 64 with (2 ^ 6).
    rewrite <- Z.pow_add_r by lia. f_equal. lia. }
  set (q := 256 ^ Z.of_nat m) in *. assert (0 < q) by (subst q; lia).
  assert (Hdiv : (t * 2 ^ k + v) / q = t * 64 + v / q).
  { rewrite Hk, Z.mul_assoc, Z.div_add_l by lia. done. }
  assert (0 <= v / q < 64).
  { split; [apply Z.div_pos; lia|]. apply Z.div_lt_upper_bound; lia. }
  rewrite Hdiv, Z.mod_small by lia. split; [lia|].
  rewrite Z.shiftr_div_pow2 by lia. change (2 ^ 6) with 64.
  rewrite Z.div_add_l, (Z.div_small (v / q)) by lia. lia.
Qed.

(** [used] is an encoding of [v], not necessarily the shortest one. *)
Inductive varint_enc (used : list Z) (v : Z) : Prop :=
| VarintEnc (n : nat) k t : (0 < n)%nat -> k = 8 * Z.of_nat n - 2 -> 0 <= t < 4 ->
    Z.of_nat n = 2 ^ t -> 0 <= v < 2 ^ k -> used = be_bytes n (t * 2 ^ k + v) -> varint_enc used v.

(** The tag of an encoding is the quotient of its value. *)
Lemma be_value_tag x l k : bytes_ok (x :: l) -> k = 8 * zlen (x :: l) - 2 ->
  be_value (x :: l) / 2 ^ k = Z.shiftr x 6.
Proof.
  intros Hok ->. inversion Hok as [|? ? Hx Hl]; subst. pose proof (be_value_bound l Hl) as Hv.
  rewrite be_value_cons, zlen_cons. pose proof (zlen_nonneg l).
  assert (2 ^ (8 * (1 + zlen l) - 2) = 256 ^ zlen l * 64) as ->.
  { change 256 with (2 ^ 8). change 64 with (2 ^ 6). rewrite <- Z.pow_mul_r, <- Z.pow_add_r by lia.
    f_equal. lia. }
  rewrite <- Z.div_div by lia. rewrite Z.div_add_l, (Z.div_small (be_value l)), Z.add_0_r by lia.
  by rewrite Z.shiftr_div_pow2 by lia.
Qed.

Section CodecProofs.
Context {B W : Type} `{BufBytes B} `{BufMutLaws W}.

Lemma emits_put_varint v : is_varint v -> emits (put_varint (W:=W) v) (varint_bytes v).
Proof.
  intros Hv. assert (0 <= v) by varint_lia. unfold varint_bytes.
  destruct (Z.leb_spec v VARINT_MAX_1); [|destruct (Z.leb_spec v VARINT_MAX_2);
    [|destruct (Z.leb_spec v VARINT_MAX_4)]];
    refine (emits_ext _ (put_uint _ _) _ _ (emits_put_uint _ _)); intros w;
    unfold put_varint, varint_len, put_u8, put_u16, put_u32, put_u64, as_u8, as_u16, as_u32;
    do 4 try (case_match; [|try varint_lia]; try varint_lia); cbn [obind Z.eqb Pos.eqb];
    rewrite ?Z.mod_small by varint_lia; rewrite ?Z.shiftl_mul_pow2 by lia;
    rewrite ?lor_disjoint_add by varint_lia; done.
Qed.

Lemma put_varint_panic v (w : W) : VARINT_MAX < v -> put_varint v w = Panic.
Proof. intros. unfold put_varint. by rewrite varint_len_panic. Qed.

Lemma try_get_varint_tag (b : B) x l n v k : (0 < n)%nat ->
  view b = x :: l -> k = 8 * Z.of_nat n - 2 -> 
  0 <= v < 2 ^ k -> remaining b = zlen (view b) -> 
  forall t, 0 <= t < 4 -> Z.shiftr x 6 = t -> Z.of_nat n = 2 ^ t ->
  try_get_varint b =
    rbind id (try_get_uint (Z.of_nat n) b) (fun '(x, b) => Ret (Ok (Z.land x (2 ^ k - 1), b))).
Proof.
  intros Hn Hb -> Hv Hr t Ht Hx Hnt. unfold try_get_varint.
  rewrite Hr, Hb, zlen_cons. destruct (Z.ltb_spec (1 + zlen l) 1); [pose proof (zlen_nonneg l); lia|].
  destruct (chunk_head b x l Hb) as [tl ->]. cbn [hd_error unwrap obind].
  unfold varint_parse_len, try_get_u8, try_get_u16, try_get_u32, try_get_u64.
  rewrite Hx, Z.shiftl_mul_pow2, Z.mul_1_l by lia.
  assert (t = 0 \/ t = 1 \/ t = 2 \/ t = 3) as Hc by lia. rewrite Hnt.
  destruct Hc as [->|[->|[->| ->]]]; cbn [Z.eqb Z.pow Z.pow_pos Pos.iter Z.mul Pos.mul]; done.
Qed.

Lemma reads_varint_width (n : nat) k t v bs : (0 < n)%nat -> k = 8 * Z.of_nat n - 2 ->
  0 <= t < 4 -> Z.of_nat n = 2 ^ t -> 0 <= v < 2 ^ k -> bs = be_bytes n (t * 2 ^ k + v) ->
  reads (B:=B) try_get_varint bs v.
Proof.
  intros Hn Hk Ht Hnt Hv -> b rest Hb.
  destruct (be_bytes_first n k t v) as (x & l & Hl & _ & Hx); [done..|].
  pose proof Hb as Hb'. rewrite Hl in Hb'.
  rewrite (try_get_varint_tag b x (l ++ rest) n v k Hn Hb' Hk Hv (remaining_view b) t Ht Hx Hnt).
  destruct (reads_uint n (t * 2 ^ k + v)) with (b := b) (rest := rest) as (b' & -> & Hv'); [|done|].
  - assert (256 ^ Z.of_nat n = 4 * 2 ^ k) as ->; [|nia].
    change 256 with (2 ^ 8). change 4 with (2 ^ 2).
    rewrite <- Z.pow_mul_r, <- Z.pow_add_r by lia. f_equal. lia.
  - cbn. exists b'. rewrite land_ones_mod by lia. split; [|done]. do 4 f_equal.
    rewrite Z.add_comm, Z_mod_plus_full. by apply Z.mod_small.
Qed.

Lemma reads_varint_enc used v : varint_enc used v -> reads (B:=B) try_get_varint used v.
Proof. intros [n k t]. by apply (reads_varint_width n k t). Qed.

Lemma reads_varint v : is_varint v -> reads (B:=B) try_get_varint (varint_bytes v) v.
Proof.
  intros Hv. unfold varint_bytes. assert (0 <= v) by varint_lia.
  destruct (Z.leb_spec v VARINT_MAX_1); [|destruct (Z.leb_spec v VARINT_MAX_2);
    [|destruct (Z.leb_spec v VARINT_MAX_4)]].
  - apply (reads_varint_width 1 6 0); varint_lia || f_equal; lia.
  - apply (reads_varint_width 2 14 1); varint_lia || done.
  - apply (reads_varint_width 4 30 2); varint_lia || done.
  - apply (reads_varint_width 8 62 3); varint_lia || done.
Qed.

(** Decoding arbitrary bytes: never a panic, a value in range, and the
    unread bytes are a proper suffix of the input. *)
Lemma try_get_varint_cases (b : B) :
  (exists v b' used, try_get_varint b = Ret (Ok (v, b')) /\ is_varint v /\
     view b = used ++ view b' /\ 1 <= zlen used <= 8 /\ varint_enc used v) \/
  (exists e, try_get_varint b = Ret (Err e) /\ zlen (view b) < requested e).
Proof.
  destruct (view b) as [|x l] eqn:Hb.
  { right. unfold try_get_varint. rewrite remaining_view, Hb. eexists. split; [done|]. done. }
  assert (Hx : 0 <= x < 256).
  { pose proof (view_ok b) as Hok. rewrite Hb in Hok. by inversion Hok. }
  assert (Ht : 0 <= Z.shiftr x 6 < 4).
  { rewrite Z.shiftr_div_pow2 by lia. change (2 ^ 6) with 64.
    split; [apply Z.div_pos; lia|apply Z.div_lt_upper_bound; lia]. }
  pose (n := Z.to_nat (2 ^ Z.shiftr x 6)).
  assert (Hn : Z.of_nat n = 2 ^ Z.shiftr x 6) by (subst n; lia).
  assert (1 <= Z.of_nat n <= 8).
  { rewrite Hn. assert (Z.shiftr x 6 = 0 \/ Z.shiftr x 6 = 1 \/ Z.shiftr x 6 = 2 \/ Z.shiftr x 6 = 3)
      as [->|[->|[->| ->]]] by lia; lia. }
  rewrite (try_get_varint_tag b x l n 0 (8 * Z.of_nat n - 2)) with (t := Z.shiftr x 6);
    try done; [|lia|lia|apply remaining_view].
  destruct (try_get_uint_cases (Z.of_nat n) b) as [(b' & -> & Hle & Hv')|[Hlt ->]]; [lia| |].
  - left. cbn. eexists _, b', (take n (view b)). split; [done|]. rewrite <- Hb. split_and!.
    + rewrite land_ones_mod by lia.
      assert (0 <= be_value (take (Z.to_nat (Z.of_nat n)) (view b)) mod 2 ^ (8 * Z.of_nat n - 2)
        < 2 ^ (8 * Z.of_nat n - 2)) by (apply Z.mod_pos_bound; lia).
      assert (2 ^ (8 * Z.of_nat n - 2) <= 2 ^ 62) by (apply Z.pow_le_mono_r; lia).
      varint_lia.
    + by rewrite Hv', Nat2Z.id, take_drop.
    + unfold zlen in *. rewrite length_take. lia.
    + unfold zlen in *. rewrite length_take. lia.
    + rewrite Nat2Z.id. assert (Hlen : length (take n (view b)) = n).
      { rewrite length_take. unfold zlen in Hle. lia. }
      assert (Hok : bytes_ok (take n (view b))) by apply Forall_take, view_ok.
      apply (VarintEnc _ _ n (8 * Z.of_nat n - 2) (Z.shiftr x 6)); try done; try lia.
      { rewrite land_ones_mod by lia. apply Z.mod_pos_bound. lia. }
      assert (Htag : be_value (take n (view b)) / 2 ^ (8 * Z.of_nat n - 2) = Z.shiftr x 6).
      { destruct n as [|n']; [lia|]. rewrite Hb in *. cbn [take] in *.
        apply be_value_tag; [done|]. unfold zlen. rewrite Hlen. done. }
      rewrite land_ones_mod, <- Htag by lia. rewrite (Z.mul_comm (_ / _)), <- Z.div_mod by lia.
      rewrite <- (be_bytes_be_value (take n (view b)) Hok) at 1. by rewrite Hlen.
  - right. cbn. eexists. rewrite <- Hb. split; [done|]. done.
Qed.

Lemma emits_bytes_with_varint_length bs : is_varint (zlen bs) ->
  emits (put_bytes_with_varint_length (W:=W) bs) (varint_bytes (zlen bs) ++ bs).
Proof. intros. apply emits_bind; [by apply emits_put_varint|apply emits_put_slice]. Qed.

Lemma reads_bytes_with_varint_length bs : is_varint (zlen bs) ->
  reads (B:=B) try_get_bytes_with_varint_length (varint_bytes (zlen bs) ++ bs) bs.
Proof.
  intros Hl. apply (reads_bind id try_get_varint
    (fun p => let '(len, b) := p in
      if remaining b <? len then Ret (Err {| requested := len; available := remaining b |})
      else let! '(bytes, b) := copy_to_bytes len b in Ret (Ok (bytes, b))) _ _ (zlen bs));
    [by apply reads_varint|].
  intros b rest Hb. rewrite remaining_view, Hb, zlen_app.
  destruct (Z.ltb_spec (zlen bs + zlen rest) (zlen bs)); [pose proof (zlen_nonneg rest); lia|].
  destruct (copy_to_bytes_app bs b rest Hb) as (b' & -> & ?). cbn. eauto.
Qed.

Lemma try_get_bytes_cases (b : B) :
  (exists l b' used, try_get_bytes_with_varint_length b = Ret (Ok (l, b')) /\
     view b = used ++ l ++ view b' /\ 1 <= zlen used <= 8) \/
  (exists e, try_get_bytes_with_varint_length b = Ret (Err e)).
Proof.
  unfold try_get_bytes_with_varint_length.
  destruct (try_get_varint_cases b) as [(v & b' & used & -> & Hv & Hb & Hu & _)|(e & -> & _)];
    cbn; [|by eauto].
  rewrite remaining_view. destruct (Z.ltb_spec (zlen (view b')) v); [by eauto|].
  unfold copy_to_bytes. destruct (try_copy_ok v b') as (b2 & -> & Hb2); [varint_lia|].
  left. cbn. eexists _, b2, used. split; [done|]. split; [|done].
  by rewrite Hb2, take_drop.
Qed.
End CodecProofs.

#[export] Hint Resolve emits_put_varint emits_bytes_with_varint_length : codec.
#[export] Hint Resolve reads_varint reads_bytes_with_varint_length : codec.
#[global] Opaque varint_bytes.

(** ** Properties *)

(** Every number that fits a variable-length integer is written as exactly
    [varint_len] bytes, between 1 and 8, whatever buffer receives them (the
    writer panics only when there is no room), and reading these bytes back,
    whatever follows them, yields the number and leaves what follows; a number
    that does not fit is never written. *)
Theorem varint_roundtrip {B W : Type} `{BufLaws B} `{BufMutLaws W} (v : Z) : is_u64 v ->
  (is_varint v /\ exists bs, varint_len v = Ret (zlen bs) /\ 1 <= zlen bs <= 8 /\
     emits (W:=W) (put_varint v) bs /\ reads (B:=B) try_get_varint bs v) \/
  (VARINT_MAX < v /\ forall w : W, put_varint v w = Panic).
Proof.
  intros Hv. destruct (Z.le_gt_cases v VARINT_MAX); [left|right].
  - assert (is_varint v) as Hi by (unfold is_u64 in *; varint_lia). split; [done|].
    exists (varint_bytes v).
    auto using varint_len_bytes, varint_bytes_length, emits_put_varint, reads_varint.
  - split; [done|]. intros. by apply put_varint_panic.
Qed.

Lemma varint_roundtrip_witness :
  is_u64 15293 /\
  ((is_varint 15293 /\ exists bs, varint_len 15293 = Ret (zlen bs) /\ 1 <= zlen bs <= 8 /\
     emits (W:=slice_buf) (put_varint 15293) bs /\ reads (B:=in_memory) try_get_varint bs 15293) \/
  (VARINT_MAX < 15293 /\ forall w : slice_buf, put_varint 15293 w = Panic)).
Proof.
  assert (Hv : is_u64 15293) by (unfold is_u64, U64; lia).
  exact (conj Hv (varint_roundtrip (B:=in_memory) (W:=slice_buf) 15293 Hv)).
Defined.
