(* ===== verification/Common.v ===== *)
(** * Common: protocol primitives ([proto/src/common.rs], [proto/src/error.rs])

    Sides, directions, stream identifiers, connection identifiers, ECN
    codepoints and transport errors. *)
From S2P Require Import Prelude Buffers Varint.

(** [common.rs:9-28] *)
Inductive Side := Client | Server.
#[export] Instance Side_eq_dec : EqDecision Side.
Proof. solve_decision. Defined.

Definition Side_as_u64 (s : Side) : Z := match s with Client => 0 | Server => 1 end.

(** [common.rs:19-28] [!side] *)
Definition Side_not (s : Side) : Side :=
  match s with
  | Client => Server
  | Server => Client
  end.

(** [common.rs:30-40] *)
Inductive Dir := Bi | Uni.
#[export] Instance Dir_eq_dec : EqDecision Dir.
Proof. solve_decision. Defined.

Definition Dir_as_u64 (d : Dir) : Z := match d with Bi => 0 | Uni => 1 end.

(** [common.rs:42-44], [common.rs:88-100] [StreamId(u64)]: a stream identifier is
    its number; [From<u64>] and [Deref] are the identity. *)
Abbreviation StreamId := Z (only parsing).

Module StreamId.
(** [common.rs:59-62] *)
Definition new (initiator : Side) (dir : Dir) (index : Z) : StreamId :=
  Z.lor (Z.lor (as_u64 (Z.shiftl index 2)) (Z.shiftl (Dir_as_u64 dir) 1)) (Side_as_u64 initiator).

(** [common.rs:64-71] *)
Definition initiator (id : StreamId) : Side :=
  if Z.land id 1 =? 0 then Client else Server.

(** [common.rs:73-80] *)
Definition dir (id : StreamId) : Dir :=
  if Z.land id 2 =? 0 then Bi else Uni.

(** [common.rs:82-85] *)
Definition index (id : StreamId) : Z := Z.shiftr id 2.
End StreamId.

(** [common.rs:102-115] *)
Definition MAX_CID_SIZE : Z := 20.

Record ConnectionId := mkConnectionId { cid_len : Z; cid_bytes : list Z }.
#[export] Instance ConnectionId_eq_dec : EqDecision ConnectionId.
Proof. solve_decision. Defined.

Module ConnectionId.
(** [common.rs:171-183] [Deref]: the slice [&self.bytes[0..self.len as usize]] *)
Definition deref (cid : ConnectionId) : outcome (list Z) :=
  if cid_len cid <=? zlen (cid_bytes cid)
  then Ret (take (Z.to_nat (cid_len cid)) (cid_bytes cid)) else Panic.

Definition is_empty (cid : ConnectionId) : outcome bool :=
  let! s := deref cid in Ret (zlen s =? 0).

(** [common.rs:118-127] *)
Definition new (bytes : list Z) : outcome ConnectionId :=
  let! _ := assert (zlen bytes <=? MAX_CID_SIZE) in
  Ret {| cid_len := as_u8 (zlen bytes);
         cid_bytes := bytes ++ replicate (Z.to_nat (MAX_CID_SIZE - zlen bytes)) 0 |}.

Section Codec.
Context {B W : Type} `{Buf B} `{BufMut W}.

(** [common.rs:129-138]; the slice [res[..len]] that receives the bytes
    goes through [Deref], so a length beyond the array panics here too. *)
Definition from_buf (b : B) (len : Z) : outcome (result (ConnectionId * B) TryGetError) :=
  let! _ := assert (len <=? MAX_CID_SIZE) in
  let res := {| cid_len := as_u8 len;
                cid_bytes := replicate (Z.to_nat MAX_CID_SIZE) 0 |} in
  let! dst := deref res in
  let? '(src, b) := try_copy_to_slice (zlen dst) b in
  Ret (Ok ({| cid_len := cid_len res;
              cid_bytes := src ++ drop (length src) (cid_bytes res) |}, b)).

(** [common.rs:140-144] *)
Definition decode (b : B) : outcome (result (ConnectionId * B) TryGetError) :=
  let? '(len, b) := try_get_u8 b in
  from_buf b len.

(** [common.rs:146-150] *)
Definition encode (cid : ConnectionId) (w : W) : outcome W :=
  let! w := put_u8 (cid_len cid) w in
  let! s := deref cid in
  put_slice s w.
End Codec.
End ConnectionId.

(** [common.rs:185-195] *)
Inductive EcnCodepoint := Ect0 | Ect1 | Ce.

(** [common.rs:197-210] *)
Definition EcnCodepoint_from_bits (x : Z) : option EcnCodepoint :=
  let bits := Z.land x 3 in
  if bits =? 2 then Some Ect0
  else if bits =? 1 then Some Ect1
  else if bits =? 3 then Some Ce
  else None.

(** [common.rs:212-219] [ResetToken([u8; 16])] *)
Definition RESET_TOKEN_SIZE : Z := 16.
Abbreviation ResetToken := (list Z) (only parsing).

(** [common.rs:248-253] *)
Record IssuedCid := { issued_sequence : Z; issued_id : ConnectionId; issued_reset_token : ResetToken }.

(** ** Transport errors *)

(** [frame.rs:14-16] [FrameType(u64)] *)
Abbreviation FrameType := Z (only parsing).
(** [error.rs:31-33], [error.rs:42-54] [TransportErrorCode(u64)] *)
Abbreviation TransportErrorCode := Z (only parsing).

Module TransportErrorCode.
(** [error.rs:35-40] *)
Definition crypto (code : Z) : TransportErrorCode := Z.lor 256 code.

(** [error.rs:98-116] *)
Definition NO_ERROR : TransportErrorCode := 0.
Definition INTERNAL_ERROR : TransportErrorCode := 1.
Definition CONNECTION_REFUSED : TransportErrorCode := 2.
Definition FLOW_CONTROL_ERROR : TransportErrorCode := 3.
Definition STREAM_LIMIT_ERROR : TransportErrorCode := 4.
Definition STREAM_STATE_ERROR : TransportErrorCode := 5.
Definition FINAL_SIZE_ERROR : TransportErrorCode := 6.
Definition FRAME_ENCODING_ERROR : TransportErrorCode := 7.
Definition TRANSPORT_PARAMETER_ERROR : TransportErrorCode := 8.
Definition CONNECTION_ID_LIMIT_ERROR : TransportErrorCode := 9.
Definition PROTOCOL_VIOLATION : TransportErrorCode := 10.
Definition INVALID_TOKEN : TransportErrorCode := 11.
Definition APPLICATION_ERROR : TransportErrorCode := 12.
Definition CRYPTO_BUFFER_EXCEEDED : TransportErrorCode := 13.
Definition KEY_UPDATE_ERROR : TransportErrorCode := 14.
Definition AEAD_LIMIT_REACHED : TransportErrorCode := 15.
Definition NO_VIABLE_PATH : TransportErrorCode := 16.
End TransportErrorCode.

(** [error.rs:7-16] *)
Record TransportError := mkTransportError {
  te_code : TransportErrorCode;
  te_frame : option FrameType;
  te_reason : string;
}.

(** [error.rs:56-69] the constructors [TransportError::NAME(reason)] *)
Definition transport_error (code : TransportErrorCode) (reason : string) : TransportError :=
  {| te_code := code; te_frame := None; te_reason := reason |}.

(** ** Stream identifiers *)

Lemma StreamId_new_spec s d i : 0 <= i < 2 ^ 62 ->
  StreamId.new s d i = i * 4 + Dir_as_u64 d * 2 + Side_as_u64 s.
Proof.
  intros Hi. unfold StreamId.new, as_u64. rewrite Z.shiftl_mul_pow2 by lia.
  rewrite Z.mod_small by u64_lia.
  assert (0 <= Side_as_u64 s < 2 ^ 1) by (destruct s; cbn; lia).
  assert (0 <= Dir_as_u64 d < 2) by (destruct d; cbn; lia).
  rewrite Z.shiftl_mul_pow2 by lia. rewrite lor_disjoint_add by lia.
  replace (i * 2 ^ 2 + Dir_as_u64 d * 2 ^ 1) with ((i * 2 + Dir_as_u64 d) * 2 ^ 1) by lia.
  rewrite lor_disjoint_add by lia. lia.
Qed.

Lemma land_1 x : Z.land x 1 = x mod 2.
Proof. apply (land_ones_mod x 1). lia. Qed.

Lemma land_2 x : Z.land x 2 = 2 * ((x / 2) mod 2).
Proof.
  assert (Z.land x 2 = Z.shiftl (Z.land (Z.shiftr x 1) 1) 1) as ->.
  { apply Z.bits_inj'. intros n Hn.
    rewrite Z.shiftl_spec, !Z.land_spec by done. change 2 with (Z.shiftl 1 1).
    rewrite Z.shiftl_spec by done. destruct (Z.lt_ge_cases n 1).
    - by rewrite !(Z.testbit_neg_r _ (n - 1)), andb_false_r by lia.
    - rewrite Z.shiftr_spec by lia. do 2 f_equal. lia. }
  rewrite land_1, Z.shiftl_mul_pow2, Z.shiftr_div_pow2 by lia. by rewrite Z.mul_comm.
Qed.

(** What [initiator], [dir] and [index] compute. *)
Lemma StreamId_views id :
  StreamId.initiator id = (if id mod 2 =? 0 then Client else Server) /\
  StreamId.dir id = (if (id / 2) mod 2 =? 0 then Bi else Uni) /\
  StreamId.index id = id / 4.
Proof.
  unfold StreamId.initiator, StreamId.dir, StreamId.index.
  rewrite land_1, land_2, Z.shiftr_div_pow2 by lia. split_and!; [done| |done].
  pose proof (Z.mod_pos_bound (id / 2) 2). repeat case_match; lia || done.
Qed.

Lemma StreamId_parts s d i : 0 <= i < 2 ^ 62 ->
  StreamId.initiator (StreamId.new s d i) = s /\ StreamId.dir (StreamId.new s d i) = d.
Proof.
  intros Hi. rewrite StreamId_new_spec by done. destruct (StreamId_views (i * 4 + Dir_as_u64 d * 2 + Side_as_u64 s)) as (-> & -> & _).
  assert (Hm : (i * 4 + Dir_as_u64 d * 2 + Side_as_u64 s) mod 2 = Side_as_u64 s) by (destruct d, s; cbn; Z.div_mod_to_equations; lia).
  assert (Hd : (i * 4 + Dir_as_u64 d * 2 + Side_as_u64 s) / 2 mod 2 = Dir_as_u64 d) by (destruct d, s; cbn; Z.div_mod_to_equations; lia).
  rewrite Hm, Hd. by destruct d, s.
Qed.

(** ** Connection identifiers *)

(** What the constructors build: at most 20 bytes, zero-padded to the array. *)
Definition cid_wf (cid : ConnectionId) : Prop :=
  0 <= cid_len cid <= MAX_CID_SIZE /\ bytes_ok (cid_bytes cid) /\
  exists l, zlen l = cid_len cid /\
    cid_bytes cid = l ++ replicate (Z.to_nat (MAX_CID_SIZE - cid_len cid)) 0.

Lemma cid_deref cid l : zlen l = cid_len cid -> 
  cid_bytes cid = l ++ replicate (Z.to_nat (MAX_CID_SIZE - cid_len cid)) 0 ->
  ConnectionId.deref cid = Ret l.
Proof.
  intros Hl Hb. unfold ConnectionId.deref. rewrite Hb, <- Hl, zlen_app.
  destruct (Z.leb_spec (zlen l) (zlen l + zlen (replicate (Z.to_nat (MAX_CID_SIZE - zlen l)) 0)));
    [|pose proof (zlen_nonneg (replicate (Z.to_nat (MAX_CID_SIZE - zlen l)) 0)); lia].
  f_equal. unfold zlen. by rewrite Nat2Z.id, take_app_length.
Qed.

Lemma cid_new_wf bytes : bytes_ok bytes -> zlen bytes <= MAX_CID_SIZE ->
  exists cid, ConnectionId.new bytes = Ret cid /\ cid_wf cid /\ ConnectionId.deref cid = Ret bytes.
Proof.
  intros Hok Hl. unfold ConnectionId.new, assert. destruct (Z.leb_spec (zlen bytes) MAX_CID_SIZE); [|lia].
  cbn. pose proof (zlen_nonneg bytes). unfold MAX_CID_SIZE in *.
  assert (as_u8 (zlen bytes) = zlen bytes) as -> by (apply Z.mod_small; unfold U8; lia).
  eexists. split; [done|]. split; [|by apply cid_deref].
  split; [done|]. split; [|by eexists].
  apply Forall_app. split; [done|]. apply Forall_replicate. done.
Qed.

Section CidCodec.
Context {B W : Type} `{BufBytes B} `{BufMutLaws W}.

(** The wire form of a connection identifier in a long header. *)
Definition cid_wire (cid : ConnectionId) : list Z :=
  be_bytes 1 (cid_len cid) ++ take (Z.to_nat (cid_len cid)) (cid_bytes cid).

Lemma cid_wf_take cid : cid_wf cid -> exists l,
  ConnectionId.deref cid = Ret l /\ take (Z.to_nat (cid_len cid)) (cid_bytes cid) = l /\
  zlen l = cid_len cid /\ l ++ replicate (Z.to_nat (MAX_CID_SIZE - zlen l)) 0 = cid_bytes cid.
Proof.
  intros (Hlen & Hok & l & Hl & Hb). exists l. rewrite Hl. split_and!; [by apply cid_deref| |done..].
  rewrite Hb, <- Hl. unfold zlen. by rewrite Nat2Z.id, take_app_length.
Qed.

Lemma emits_cid_encode cid : cid_wf cid -> emits (ConnectionId.encode (W:=W) cid) (cid_wire cid).
Proof.
  intros Hcid. destruct (cid_wf_take cid Hcid) as (l & Hd & Ht & _).
  unfold cid_wire. rewrite Ht. apply emits_bind; [apply emits_put_uint|].
  intros w. rewrite Hd. apply emits_put_slice.
Qed.

Lemma reads_cid_from_buf cid l : cid_wf cid -> ConnectionId.deref cid = Ret l ->
  reads (B:=B) (fun b => ConnectionId.from_buf b (zlen l)) l cid.
Proof.
  intros Hcid Hd. destruct (cid_wf_take cid Hcid) as (l' & Hd' & _ & Hl & Hb).
  assert (l' = l) as -> by congruence.
  destruct Hcid as (Hlen & _ & _). unfold MAX_CID_SIZE in *.
  intros b rest Hv. unfold ConnectionId.from_buf, assert, MAX_CID_SIZE.
  destruct (Z.leb_spec (zlen l) 20); [|lia]. cbn [obind].
  assert (as_u8 (zlen l) = zlen l) as Hmod by (apply Z.mod_small; unfold U8; lia).
  unfold ConnectionId.deref. cbn [cid_len cid_bytes]. rewrite Hmod.
  change (zlen (replicate (Z.to_nat 20) 0)) with 20.
  destruct (Z.leb_spec (zlen l) 20); [|lia]. cbn [obind].
  rewrite zlen_take by (change (zlen (replicate (Z.to_nat 20) 0)) with 20; lia).
  destruct (reads_try_copy l b rest Hv) as (b' & -> & Hb'). cbn. exists b'. split; [|done].
  do 3 f_equal. destruct cid as [n bs]. cbn in *. subst n. f_equal. rewrite <- Hb. f_equal.
  rewrite drop_replicate. f_equal. unfold zlen. lia.
Qed.

Lemma reads_cid_decode cid : cid_wf cid ->
  reads (B:=B) ConnectionId.decode (cid_wire cid) cid.
Proof.
  intros Hcid. destruct (cid_wf_take cid Hcid) as (l & Hd & Ht & Hl & _).
  unfold cid_wire. rewrite Ht, <- Hl.
  apply (reads_bind id try_get_u8 (fun p => let '(len, b) := p in ConnectionId.from_buf b len)
    _ _ (zlen l)); [|by apply reads_cid_from_buf].
  apply (reads_uint 1). destruct Hcid as [? _]. unfold MAX_CID_SIZE in *. lia.
Qed.

Lemma cid_wire_ok cid : cid_wf cid -> bytes_ok (cid_wire cid) /\ zlen (cid_wire cid) <= 21.
Proof.
  intros Hcid. destruct (cid_wf_take cid Hcid) as (l & _ & Ht & Hl & _).
  destruct Hcid as (Hlen & Hok & _). unfold cid_wire. split.
  - apply Forall_app. split; [apply be_bytes_ok|by apply Forall_take].
  - rewrite Ht. autorewrite with zlen. unfold MAX_CID_SIZE in *. lia.
Qed.

(** Decoding arbitrary bytes: the length byte decides between success, the
    end of the input, and a panic. *)
Lemma from_buf_cases (b : B) len : 0 <= len ->
  (len <= MAX_CID_SIZE /\ exists cid b', ConnectionId.from_buf b len = Ret (Ok (cid, b')) /\
     cid_wf cid /\ cid_len cid = len /\ exists l, view b = l ++ view b' /\ zlen l = len) \/
  (len <= MAX_CID_SIZE /\ zlen (view b) < len /\
     exists e, ConnectionId.from_buf b len = Ret (Err e)) \/
  (MAX_CID_SIZE < len /\ ConnectionId.from_buf b len = Panic).
Proof.
  intros Hlen. unfold ConnectionId.from_buf, assert.
  destruct (Z.leb_spec len MAX_CID_SIZE) as [Hle|]; [|by auto]. cbn [obind].
  unfold MAX_CID_SIZE in *.
  assert (as_u8 len = len) as Hmod by (apply Z.mod_small; unfold U8; lia).
  unfold ConnectionId.deref. cbn [cid_len cid_bytes]. rewrite Hmod.
  change (zlen (replicate (Z.to_nat 20) 0)) with 20.
  destruct (Z.leb_spec len 20); [|lia]. cbn [obind].
  rewrite zlen_take by (change (zlen (replicate (Z.to_nat 20) 0)) with 20; lia).
  unfold try_copy_to_slice.
  destruct (try_copy_cases len b Hlen) as [(b' & -> & Hl & Hb')|[? ->]]; cbn; [|by eauto 10].
  left. split; [done|]. eexists _, b'. split; [done|].
  assert (Hz : zlen (take (Z.to_nat len) (view b)) = len) by (apply zlen_take; lia).
  split; [|split; [done|]].
  - split; [done|]. cbn. split.
    + apply Forall_app. split; [apply Forall_take, view_ok|].
      apply (Forall_drop _ _ (replicate (Z.to_nat 20) 0)), Forall_replicate. done.
    + eexists. split; [exact Hz|]. f_equal.
      change (0 :: replicate 19 0) with (replicate (Z.to_nat 20) 0).
      rewrite drop_replicate. f_equal. unfold zlen in Hz. unfold MAX_CID_SIZE. lia.
  - exists (take (Z.to_nat len) (view b)). by rewrite Hb', take_drop.
Qed.
Lemma try_get_u8_cases (b : B) :
  match view b with
  | x :: l => exists b', try_get_u8 b = Ret (Ok (x, b')) /\ view b' = l /\ 0 <= x < 256
  | [] => exists e, try_get_u8 b = Ret (Err e)
  end.
Proof.
  pose proof (view_ok b) as Hok.
  destruct (try_get_uint_cases 1 b ltac:(lia)) as [(b' & Hg & Hl & Hb')|[Hl Hg]];
    change (try_get_uint 1 b) with (try_get_u8 b) in Hg;
    destruct (view b) as [|x l]; autorewrite with zlen in *; try (pose proof (zlen_nonneg l)); try lia;
    try by eauto.
  exists b'. rewrite Hg, Hb'. inversion Hok as [|? ? Hx]; subst. split; [|done]. done.
Qed.

Lemma cid_decode_cases (b : B) :
  match view b with
  | n :: l =>
      if MAX_CID_SIZE <? n then ConnectionId.decode b = Panic
      else if n <=? zlen l then
        exists cid b', ConnectionId.decode b = Ret (Ok (cid, b')) /\ view b' = drop (Z.to_nat n) l /\
          cid_wf cid /\ cid_len cid = n
      else exists e, ConnectionId.decode b = Ret (Err e)
  | [] => exists e, ConnectionId.decode b = Ret (Err e)
  end.
Proof.
  unfold ConnectionId.decode. pose proof (try_get_u8_cases b) as Hg.
  destruct (view b) as [|n l]; destruct Hg as (? & Hg); [rewrite Hg; cbn; by eauto|].
  destruct Hg as (Hg & Hv & Hn). rewrite Hg. cbn [rbind].
  destruct (from_buf_cases x n ltac:(lia)) as
    [(Hle & cid & b' & -> & Hwf & Hcl & l' & Hl & Hz)|[(Hle & Hlt & e & ->)|(Hgt & ->)]];
    destruct (Z.ltb_spec MAX_CID_SIZE n); try lia; subst l; [| |done].
  - rewrite Hl. autorewrite with zlen. pose proof (zlen_nonneg (view b')).
    destruct (Z.leb_spec n (zlen l' + zlen (view b'))); [|lia].
    exists cid, b'. split; [done|]. split; [|done]. rewrite drop_app_length'; [done|]. unfold zlen in Hz. lia.
  - destruct (Z.leb_spec n (zlen (view x))); [lia|by eauto].
Qed.
End CidCodec.

#[export] Hint Resolve emits_cid_encode reads_cid_decode : codec.
