(* ===== verification/ArrayRangeSet.v ===== *)
(** * ArrayRangeSet: sets of packet numbers ([proto/src/range_set/array_range_set.rs])

    A set of numbers kept as a sorted array of ranges.  The [TinyVec] that
    stores the ranges (inline up to two, on the heap beyond) is represented by
    the list of its elements, so [Clone], which only chooses the storage, is
    the identity.  Loops over the index [idx] are recursions over the elements
    from [idx] on.

    The invariant [wf] says that the ranges are not empty, sorted and separated
    by gaps; under it every operation is the set operation of its name. *)
From S2P Require Import Prelude.

Abbreviation t := (list range) (only parsing).

(** [array_range_set.rs:44-46] *)
Definition new : t := [].

(** [array_range_set.rs:48-50] *)
Definition iter (s : t) : list range := s.

(** The numbers of a range, as [Range<u64>] iterates them. *)
Definition range_elts (r : range) : list Z := seqZ (rstart r) (rend r - rstart r).

(** [array_range_set.rs:52-54] *)
Definition elts (s : t) : list Z := concat (map range_elts (iter s)).

(** [array_range_set.rs:56-58] *)
Definition len (s : t) : Z := zlen s.

(** [array_range_set.rs:60-70] *)
Fixpoint contains (s : t) (x : Z) : bool :=
  match s with
  | [] => false
  | range :: rest =>
      if x <? rstart range then false
      else if range_contains range x then true
      else contains rest x
  end.

(** [array_range_set.rs:124-134] the inner loop of [insert]: merge the ranges
    that follow the one at [idx], here [curr], while they touch it. *)
Fixpoint merge_following (curr : range) (rest : list range) : list range :=
  match rest with
  | [] => [curr]
  | next :: rest' =>
      if rstart next <=? rend curr
      then merge_following (Range (rstart curr) (Z.max (rend next) (rend curr))) rest'
      else curr :: next :: rest'
  end.

(** [array_range_set.rs:93-144] the loop of [insert], from [idx] on. *)
Fixpoint insert_loop (x : range) (res : bool) (s : list range) : list range * bool :=
  match s with
  | [] => ([x], true)
  | range :: rest =>
      if rend x <? rstart range then (x :: range :: rest, true)
      else
        let '(res, range) :=
          if rstart x <? rstart range then (true, Range (rstart x) (rend range))
          else (res, range) in
        if rend x <=? rend range then (range :: rest, res)
        else if rstart x <=? rend range then
          (merge_following (Range (rstart range) (rend x)) rest, true)
        else
          let '(rest, r) := insert_loop x res rest in
          (range :: rest, r)
  end.

(** [array_range_set.rs:85-145] *)
Definition insert (x : range) (s : t) : t * bool :=
  if range_is_empty x then (s, false) else insert_loop x false s.

(** [array_range_set.rs:81-83] *)
Definition insert_one (x : Z) (s : t) : outcome (t * bool) :=
  let! e := u64_add x 1 in
  Ret (insert (Range x e) s).

(** [array_range_set.rs:155-186] the loop of [remove], from [idx] on. *)
Fixpoint remove_loop (x : range) (res : bool) (s : list range) : list range * bool :=
  match s with
  | [] => ([], res)
  | range :: rest =>
      if rstart x =? rend x then (range :: rest, res)
      else if rend x <=? rstart range then (range :: rest, res)
      else if rend range <=? rstart x then
        let '(rest, r) := remove_loop x res rest in (range :: rest, r)
      else
        let left := Range (rstart range) (rstart x) in
        let right := Range (rend x) (rend range) in
        let '(rest, r) := remove_loop x true rest in
        if range_is_empty left && range_is_empty right then (rest, r)
        else if range_is_empty left then (right :: rest, r)
        else if range_is_empty right then (left :: rest, r)
        else (left :: right :: rest, r)
  end.

(** [array_range_set.rs:147-189] *)
Definition remove (x : range) (s : t) : t * bool :=
  if range_is_empty x then (s, false) else remove_loop x false s.

(** [array_range_set.rs:72-79] *)
Definition subtract (s other : t) : t :=
  fold_left (fun s r => fst (remove r s)) other s.

(** [array_range_set.rs:191-193] *)
Definition is_empty (s : t) : bool := match s with [] => true | _ => false end.

(** [array_range_set.rs:195-201] *)
Definition pop_min (s : t) : t * option range :=
  match s with
  | [] => ([], None)
  | r :: rest => (rest, Some r)
  end.

(** [array_range_set.rs:203-205] *)
Definition min (s : t) : option Z := rstart <$> head (iter s).

(** [array_range_set.rs:207-209] *)
Definition max (s : t) : outcome (option Z) :=
  match last (iter s) with
  | Some x => let! m := u64_sub (rend x) 1 in Ret (Some m)
  | None => Ret None
  end.

(** ** The set a list of ranges stands for *)

Definition elem (y : Z) (s : t) : Prop := exists r, r ∈ s /\ in_range y r.

(** Non-empty ranges, sorted, each separated from the bound below it. *)
Fixpoint wf_from (lo : Z) (s : t) : Prop :=
  match s with
  | [] => True
  | r :: rest => lo < rstart r /\ rstart r < rend r /\ wf_from (rend r) rest
  end.

Definition wf (s : t) : Prop := wf_from (-1) s.

Lemma elem_nil y : elem y [] <-> False.
Proof. unfold elem. set_solver. Qed.
Lemma elem_cons y r s : elem y (r :: s) <-> in_range y r \/ elem y s.
Proof. unfold elem. set_solver. Qed.
Lemma elem_app y s k : elem y (s ++ k) <-> elem y s \/ elem y k.
Proof. unfold elem. set_solver. Qed.

Lemma wf_from_weaken lo lo' s : lo' <= lo -> wf_from lo s -> wf_from lo' s.
Proof. destruct s; simpl; intuition lia. Qed.

Lemma wf_from_above lo s y : wf_from lo s -> elem y s -> lo < y.
Proof.
  revert lo. induction s as [|r s IH]; intros lo; simpl; [by rewrite elem_nil|].
  rewrite elem_cons. unfold in_range. intros (? & ? & Hs) [?|Hy]; [lia|].
  specialize (IH _ Hs Hy). lia.
Qed.

Lemma wf_from_app lo s k : wf_from lo (s ++ k) ->
  wf_from lo s /\ wf_from lo k.
Proof.
  revert lo. induction s as [|r s IH]; intros lo; simpl; [done|].
  intros (? & ? & Hs). apply IH in Hs as [? ?]. split_and!; [done..|].
  by eapply wf_from_weaken; [|done]; lia.
Qed.

Lemma wf_range s r : wf s -> r ∈ s -> 0 <= rstart r < rend r.
Proof.
  unfold wf. intros Hwf Hin. apply list_elem_of_split in Hin as (l1 & l2 & ->).
  apply wf_from_app in Hwf as [_ Hwf]. simpl in Hwf. lia.
Qed.

(** ** Membership *)

Lemma array_contains_spec lo s x : wf_from lo s -> contains s x = true <-> elem x s.
Proof.
  revert lo. induction s as [|r s IH]; intros lo; simpl; [by rewrite elem_nil|].
  intros (H1 & H2 & Hs). rewrite elem_cons.
  destruct (Z.ltb_spec x (rstart r)).
  - split; [done|]. unfold in_range. intros [?|Hx]; [lia|].
    pose proof (wf_from_above _ _ _ Hs Hx). lia.
  - destruct (range_contains r x) eqn:Hc.
    + apply range_contains_spec in Hc. tauto.
    + rewrite (IH _ Hs). split; [tauto|]. intros [Hr|?]; [|done].
      apply range_contains_spec in Hr. congruence.
Qed.

(** ** Insertion is union *)

Lemma merge_following_spec curr rest lo : lo < rstart curr -> rstart curr < rend curr ->
  wf_from (rstart curr) rest ->
  wf_from lo (merge_following curr rest) /\
  forall y, elem y (merge_following curr rest) <-> in_range y curr \/ elem y rest.
Proof.
  revert curr. induction rest as [|next rest IH]; intros curr H1 H2; simpl.
  { split; [by simpl|]. intros y. rewrite elem_cons. tauto. }
  intros (H3 & H4 & Hrest). destruct (Z.leb_spec (rstart next) (rend curr)).
  - edestruct (IH (Range (rstart curr) (Z.max (rend next) (rend curr)))) as [Hw He];
      [simpl; lia..| |].
    { simpl. by eapply wf_from_weaken; [|done]; lia. }
    split; [done|]. intros y. rewrite He, elem_cons. unfold in_range in *; simpl.
    split; [|intuition lia]. intros [?|?]; [|tauto].
    destruct (Z.lt_ge_cases y (rend curr)); [left|right; left]; lia.
  - split; [|intros y; rewrite !elem_cons; tauto]. simpl. split_and!; lia || done.
Qed.

(** What [insert] promises: the result is sorted, its elements are the union,
    and the answer says whether there was a new one. *)
Definition inserted (x : range) (s : list range) (lo : Z) (res : list range * bool) : Prop :=
  wf_from lo (fst res) /\ (forall y, elem y (fst res) <-> elem y s \/ in_range y x) /\
  (snd res = false <-> forall y, in_range y x -> elem y s).

(** A new element is one the answer [true] is right about. *)
Lemma answer_new x s y : in_range y x -> ~ elem y s ->
  true = false <-> forall y, in_range y x -> elem y s.
Proof. intros Hy Hn. split; [done|]. intros Hall. by destruct Hn; apply Hall. Qed.

Lemma not_elem_below range s lo y : wf_from lo (range :: s) -> ~ in_range y range -> y < rend range ->
  ~ elem y (range :: s).
Proof.
  intros (_ & _ & Hs) Hr Hlt. rewrite elem_cons. intros [?|He]; [done|].
  pose proof (wf_from_above _ _ _ Hs He). lia.
Qed.

(** The new range starts before the first one and reaches it. *)
Lemma insert_left x range s lo : lo < rstart x -> rstart x < rend x -> wf_from lo (range :: s) ->
  rstart x < rstart range <= rend x -> inserted x (range :: s) lo (insert_loop x false (range :: s)).
Proof.
  intros H1 H2 Hwf Hl. pose proof Hwf as (H3 & H4 & Hs). unfold inserted. simpl.
  destruct (Z.ltb_spec (rend x) (rstart range)); [lia|].
  destruct (Z.ltb_spec (rstart x) (rstart range)); [cbn [rend rstart]|lia].
  assert (Hres := answer_new x (range :: s) (rstart x) ltac:(unfold in_range; lia)
    ltac:(apply (not_elem_below _ _ lo); [done|unfold in_range; lia..])).
  destruct (Z.leb_spec (rend x) (rend range)).
  - split3; [simpl; auto with lia| |exact Hres].
    intros y. cbn [fst]. rewrite !elem_cons. unfold in_range; simpl. split; [|intuition lia].
    intros [?|?]; [|tauto]. destruct (Z.lt_ge_cases y (rstart range)); [right|left; left]; lia.
  - destruct (Z.leb_spec (rstart x) (rend range)); [|lia].
    edestruct (merge_following_spec (Range (rstart x) (rend x)) s lo) as [Hw He];
      [simpl; lia..| |].
    { simpl. by eapply wf_from_weaken; [|done]; lia. }
    split3; [done| |exact Hres].
    intros y. cbn [fst]. rewrite He, elem_cons. unfold in_range; simpl. intuition lia.
Qed.

(** The new range starts inside the first one, or right at its end. *)
Lemma insert_right x range s lo : lo < rstart x -> rstart x < rend x -> wf_from lo (range :: s) ->
  rstart range <= rstart x <= rend range -> inserted x (range :: s) lo (insert_loop x false (range :: s)).
Proof.
  intros H1 H2 Hwf Hl. pose proof Hwf as (H3 & H4 & Hs). unfold inserted. simpl.
  destruct (Z.ltb_spec (rend x) (rstart range)); [lia|].
  destruct (Z.ltb_spec (rstart x) (rstart range)); [lia|cbn [rend rstart]].
  destruct (Z.leb_spec (rend x) (rend range)).
  { split3; [simpl; auto with lia| |].
    - intros y. cbn [fst]. rewrite elem_cons. unfold in_range. intuition lia.
    - split; [|done]. intros _ y Hy. rewrite elem_cons. unfold in_range in *. left. lia. }
  destruct (Z.leb_spec (rstart x) (rend range)); [|lia].
  edestruct (merge_following_spec (Range (rstart range) (rend x)) s lo) as [Hw He];
    [simpl; lia..| |].
  { simpl. by eapply wf_from_weaken; [|done]; lia. }
  split3; [done| |].
  - intros y. cbn [fst]. rewrite He, elem_cons. unfold in_range; simpl. split; [|intuition lia].
    intros [?|?]; [|tauto]. destruct (Z.lt_ge_cases y (rend range)); [left; left|right]; lia.
  - apply (answer_new _ _ (rend range)); [unfold in_range; lia|].
    rewrite elem_cons. unfold in_range. intros [?|Hc]; [lia|].
    pose proof (wf_from_above _ _ _ Hs Hc). lia.
Qed.

Lemma array_insert_loop_spec x s lo : lo < rstart x -> rstart x < rend x -> wf_from lo s ->
  inserted x s lo (insert_loop x false s).
Proof.
  revert lo. induction s as [|range s IH]; intros lo H1 H2 Hwf.
  { split3; [by simpl|intros y; simpl; rewrite elem_cons; tauto|].
    apply (answer_new _ _ (rstart x)); [unfold in_range; lia|by intros (? & ?%elem_of_nil & _)]. }
  pose proof Hwf as (H3 & H4 & Hs).
  destruct (Z.le_gt_cases (rstart range) (rend x)) as [Hge|Hlt]; cycle 1.
  { unfold inserted. simpl. destruct (Z.ltb_spec (rend x) (rstart range)); [|lia].
    split3; [simpl; auto with lia|intros y; cbn [fst]; rewrite elem_cons; tauto|].
    apply (answer_new _ _ (rstart x)); [unfold in_range; lia|].
    apply (not_elem_below _ _ lo); [done|unfold in_range; lia..]. }
  destruct (Z.lt_ge_cases (rstart x) (rstart range)); [by apply insert_left|].
  destruct (Z.le_gt_cases (rstart x) (rend range)) as [|Hgt]; [by apply insert_right|].
  destruct (IH (rend range)) as (Hw & He & Hr); [lia|done..|]. unfold inserted. simpl.
  destruct (Z.ltb_spec (rend x) (rstart range)); [lia|].
  destruct (Z.ltb_spec (rstart x) (rstart range)); [lia|].
  destruct (Z.leb_spec (rend x) (rend range)); [lia|].
  destruct (Z.leb_spec (rstart x) (rend range)); [lia|].
  destruct (insert_loop x false s) as [s' r]. cbn [fst snd] in *. split3; [simpl; auto with lia| |].
  - intros y. rewrite !elem_cons, He. tauto.
  - rewrite Hr. setoid_rewrite elem_cons. split; [intuition|].
    intros Hall y Hy. destruct (Hall y Hy) as [Hc|]; [|done]. unfold in_range in *. lia.
Qed.

Lemma array_insert_spec x s : wf s -> 0 <= rstart x ->
  wf (fst (insert x s)) /\
  (forall y, elem y (fst (insert x s)) <-> elem y s \/ in_range y x) /\
  (snd (insert x s) = false <-> forall y, in_range y x -> elem y s).
Proof.
  intros Hwf Hx. unfold insert, range_is_empty. destruct (Z.ltb_spec (rstart x) (rend x)); simpl.
  - pose proof (array_insert_loop_spec x s (-1)) as Hs. destruct (insert_loop x false s).
    apply Hs; [lia|done..].
  - unfold in_range. split3; [done| |]; intros; split; intros; try done; try tauto.
    + destruct H0; [done|lia].
    + lia.
Qed.

(** ** Removal is difference *)

Lemma array_remove_loop_spec x s lo res : rstart x < rend x -> wf_from lo s ->
  let '(s', r) := remove_loop x res s in
  wf_from lo s' /\ (forall y, elem y s' <-> elem y s /\ ~ in_range y x) /\
  (r = true <-> res = true \/ exists y, in_range y x /\ elem y s).
Proof.
  revert lo res. induction s as [|range s IH]; intros lo res H1 Hwf; simpl.
  { split3; [done|intros y; rewrite elem_nil; tauto|].
    split; [tauto|]. intros [?|(y & _ & Hy)]; [done|by apply elem_nil in Hy]. }
  destruct Hwf as (H3 & H4 & Hs).
  destruct (Z.eqb_spec (rstart x) (rend x)); [lia|].
  destruct (Z.leb_spec (rend x) (rstart range)).
  { assert (Hno : forall y, in_range y x -> ~ elem y (range :: s)).
    { intros y Hy [Hr|Hr]%elem_cons; unfold in_range in *; [lia|].
      pose proof (wf_from_above _ _ _ Hs Hr). lia. }
    split3; [simpl; auto| |].
    - intros y. split; [|tauto]. intros He. split; [done|]. intros Hy. by apply (Hno y).
    - split; [tauto|]. intros [?|(y & Hy & He)]; [done|]. by destruct (Hno y). }
  destruct (Z.leb_spec (rend range) (rstart x)).
  { specialize (IH (rend range) res). destruct (remove_loop x res s) as [s' r].
    destruct IH as (Hw & He & Hr); [done..|]. split3; [simpl; auto| |].
    - intros y. rewrite !elem_cons, He. unfold in_range in *. intuition lia.
    - rewrite Hr. setoid_rewrite elem_cons. unfold in_range in *.
      split; [naive_solver|]. intros [?|(y & Hy & [?|?])]; [tauto|lia|]. right. eauto. }
  specialize (IH (rend range) true). destruct (remove_loop x true s) as [s' r].
  destruct IH as (Hw & He & Hr); [done..|].
  assert (Hr' : r = true <-> res = true \/ exists y, in_range y x /\ elem y (range :: s)).
  { split; [intros _; right|intros _; apply Hr; tauto].
    exists (Z.max (rstart x) (rstart range)). rewrite elem_cons. unfold in_range.
    split; [lia|]. left. lia. }
  assert (Hsplit : forall y, elem y (range :: s) /\ ~ in_range y x <->
    in_range y (Range (rstart range) (rstart x)) \/ in_range y (Range (rend x) (rend range)) \/
    elem y s').
  { intros y. rewrite elem_cons, He. unfold in_range; simpl.
    split; [|intuition lia]. intros [[?|?] ?]; [|tauto].
    destruct (Z.lt_ge_cases y (rstart x)); [left|right; left]; lia. }
  unfold range_is_empty; cbn [rstart rend].
  destruct (Z.ltb_spec (rstart range) (rstart x)), (Z.ltb_spec (rend x) (rend range)); cbn [andb negb];
    (split3; [|intros y; rewrite Hsplit, ?elem_cons; unfold in_range; simpl; intuition lia|exact Hr']).
  - simpl. auto with lia.
  - simpl. split_and!; [done..|]. by eapply wf_from_weaken; [|done]; lia.
  - simpl. auto with lia.
  - by eapply wf_from_weaken; [|done]; lia.
Qed.

Lemma array_remove_spec x s : wf s ->
  wf (fst (remove x s)) /\
  (forall y, elem y (fst (remove x s)) <-> elem y s /\ ~ in_range y x) /\
  (snd (remove x s) = true <-> exists y, in_range y x /\ elem y s).
Proof.
  intros Hwf. unfold remove, range_is_empty. destruct (Z.ltb_spec (rstart x) (rend x)); simpl.
  - pose proof (array_remove_loop_spec x s (-1) false) as Hs. destruct (remove_loop x false s).
    destruct Hs as (? & ? & Hr); [done..|]. split3; [done..|]. rewrite Hr. naive_solver.
  - unfold in_range. split3; [done| |].
    + intros y. split; [|tauto]. intros. split; [done|lia].
    + split; [done|]. intros (y & ? & _). lia.
Qed.

Lemma subtract_spec s other : wf s -> 
  wf (subtract s other) /\ forall y, elem y (subtract s other) <-> elem y s /\ ~ elem y other.
Proof.
  unfold subtract. revert s. induction other as [|r other IH]; intros s Hwf; simpl.
  { split; [done|]. intros y. rewrite elem_nil. tauto. }
  destruct (array_remove_spec r s Hwf) as (Hw & He & _). destruct (IH _ Hw) as [Hw' He'].
  split; [done|]. intros y. rewrite He', He, elem_cons. tauto.
Qed.

(** ** Extremal elements *)

Lemma array_pop_min_spec s : wf s ->
  match pop_min s with
  | (s', Some r) => s = r :: s' /\ wf s' /\ forall y, elem y s' -> rend r < y
  | (s', None) => s = [] /\ s' = []
  end.
Proof.
  destruct s as [|r s]; [done|]. unfold wf; simpl. intros (? & ? & Hs).
  split3; [done|by eapply wf_from_weaken; [|done]; lia|].
  intros y. by apply wf_from_above.
Qed.

Lemma last_wf_from lo s r : wf_from lo s -> last s = Some r ->
  lo < rstart r < rend r /\ (forall y, elem y s -> y <= rend r - 1) /\ elem (rend r - 1) s.
Proof.
  revert lo. induction s as [|x s IH]; intros lo; [done|]. simpl wf_from. intros (H1 & H2 & Hs).
  destruct s as [|x' s].
  - intros [= ->]. split; [lia|]. setoid_rewrite elem_cons. setoid_rewrite elem_nil.
    unfold in_range. split; [intros y [?|[]]; lia|]. left. lia.
  - intros Hl. change (last (x :: x' :: s)) with (last (x' :: s)) in Hl.
    destruct (IH _ Hs Hl) as (H3 & H4 & H5). split; [lia|]. split; [|by apply elem_cons; right].
    intros y [Hy|Hy]%elem_cons; [unfold in_range in Hy; lia|by apply H4].
Qed.

(** Separate ranges below a bound are few. *)
Lemma wf_from_length lo s m : wf_from lo s -> (forall r, r ∈ s -> rend r <= m) -> lo <= m -> 2 * zlen s <= m - lo.
Proof.
  revert lo. induction s as [|x s IH]; intros lo; [change (zlen (@nil range)) with 0; intros; lia|]. intros (H1 & H2 & Hs) Hm Hlo. rewrite zlen_cons.
  pose proof (Hm x ltac:(by left)). specialize (IH _ Hs (fun r Hr => Hm r (list_elem_of_further _ _ _ Hr))). lia.
Qed.

Lemma max_spec s : wf s ->
  match s with
  | [] => max s = Ret None
  | _ => exists m, max s = Ret (Some m) /\ elem m s /\ forall y, elem y s -> y <= m
  end.
Proof.
  intros Hwf. destruct s as [|x s]; [done|]. unfold max, iter.
  destruct (last (x :: s)) as [r|] eqn:Hl; [|by apply last_None in Hl].
  destruct (last_wf_from _ _ _ Hwf Hl) as (? & ? & ?).
  rewrite u64_sub_ok by lia. cbn [obind]. eauto.
Qed.

Lemma elem_elts y s : y ∈ elts s <-> elem y s.
Proof.
  unfold elts, iter, elem. rewrite list_elem_of_In, in_concat. setoid_rewrite in_map_iff.
  unfold range_elts, in_range. setoid_rewrite <- list_elem_of_In. split.
  - intros (l & (r & <- & Hr) & Hy). rewrite elem_of_seqZ in Hy. eauto with lia.
  - intros (r & Hr & Hy). eexists. split; [by eexists|]. rewrite elem_of_seqZ. lia.
Qed.
