(* ===== verification/RangeSet.v ===== *)
(** * RangeSet: sets of stream offsets ([proto/src/range_set/btree_range_set.rs])

    A set of numbers kept in a [BTreeMap] from the start of each range to its
    end.  The map of the standard library is a [gmap]; its ordered accessors
    ([range], [first_key_value], [last_key_value], [iter]) are defined here.
    The [while let] loops carry fuel; each iteration removes one entry, so the
    number of entries is enough, and the theorems prove that the loops return. *)
From S2P Require Import Prelude.

Abbreviation btree := (gmap Z Z) (only parsing).

(** ** The ordered map of the standard library *)

(** The entry with the greatest, or least, key that satisfies [P]. *)
Definition btree_best (better : Z -> Z -> bool) (P : Z -> bool) (m : btree) : option (Z * Z) :=
  map_fold (fun k v acc =>
    if P k then
      match acc with
      | Some (k', _) => if better k k' then Some (k, v) else acc
      | None => Some (k, v)
      end
    else acc) None m.
Definition btree_last := btree_best (fun k k' => k' <? k).
Definition btree_first := btree_best (fun k k' => k <? k').

Definition key_le (p q : Z * Z) : Prop := p.1 <= q.1.
#[export] Instance key_le_dec : RelDecision key_le.
Proof. intros p q. unfold key_le. apply _. Defined.

(** The entries in key order. *)
Definition btree_items (m : btree) : list (Z * Z) := merge_sort key_le (map_to_list m).

(** ** The range set *)
Abbreviation t := (gmap Z Z) (only parsing).

(** [btree_range_set.rs:17-19] *)
Definition new : t := ∅.

(** [btree_range_set.rs:85-91] *)
Definition pred (s : t) (x : Z) : option (Z * Z) :=
  btree_last (fun k => (0 <=? k) && (k <=? x)) s.

(** [btree_range_set.rs:93-99] *)
Definition succ (s : t) (x : Z) : option (Z * Z) :=
  btree_first (fun k => (x <? k) && (k <=? U64_MAX)) s.

(** [btree_range_set.rs:21-23] *)
Definition contains (s : t) (x : Z) : bool :=
  match pred s x with
  | Some (_, e) => x <? e
  | None => false
  end.

(** [btree_range_set.rs:35-43], [btree_range_set.rs:48-54] the part both
    branches of [insert_one] share: merge with a range that starts at the end. *)
Definition merge_next (s : t) (x new_end : Z) : t * Z :=
  match succ s x with
  | Some (next_start, next_end) =>
      if next_start =? new_end then (delete next_start s, next_end) else (s, new_end)
  | None => (s, new_end)
  end.

(** [btree_range_set.rs:25-57] *)
Definition insert_one (x : Z) (s : t) : outcome (t * bool) :=
  let add_new :=
    let! new_end := u64_add x 1 in
    let '(s, new_end) := merge_next s x new_end in
    Ret (<[x := new_end]> s, true) in
  match pred s x with
  | Some (start, e) =>
      match e ?= x with
      | Gt => Ret (s, false)
      | Eq =>
          let s := delete start s in
          let! new_end := u64_add x 1 in
          let '(s, new_end) := merge_next s x new_end in
          Ret (<[start := new_end]> s, true)
      | Lt => add_new
      end
  | None => add_new
  end.

(** [btree_range_set.rs:73-82] the loop of [insert] and the final insertion *)
Fixpoint insert_loop (fuel : nat) (x : range) (s : t) : outcome t :=
  match fuel with
  | O => Panic
  | S fuel =>
      match succ s (rstart x) with
      | Some (next_start, next_end) =>
          if rend x <? next_start then Ret (<[rstart x := rend x]> s)
          else insert_loop fuel (Range (rstart x) (Z.max next_end (rend x))) (delete next_start s)
      | None => Ret (<[rstart x := rend x]> s)
      end
  end.

(** [btree_range_set.rs:59-83] *)
Definition insert (x : range) (s : t) : outcome (t * bool) :=
  if range_is_empty x then Ret (s, false)
  else
    let go x s :=
      let! s := insert_loop (S (size s)) x s in Ret (s, true) in
    match pred s (rstart x) with
    | Some (start, e) =>
        if rend x <=? e then Ret (s, false)
        else if rstart x <=? e then go (Range start (rend x)) (delete start s)
        else go x s
    | None => go x s
    end.

(** [btree_range_set.rs:123-135] the loop of [remove] *)
Fixpoint remove_loop (fuel : nat) (x : range) (s : t) (after : bool) : outcome (t * bool) :=
  match fuel with
  | O => Panic
  | S fuel =>
      match succ s (rstart x) with
      | Some (start, e) =>
          if rend x <=? start then Ret (s, after)
          else
            let s := delete start s in
            if rend x <? e then Ret (<[rend x := e]> s, true)
            else remove_loop fuel x s true
      | None => Ret (s, after)
      end
  end.

(** [btree_range_set.rs:101-136] *)
Definition remove (x : range) (s : t) : outcome (t * bool) :=
  if range_is_empty x then Ret (s, false)
  else
    let go before s :=
      let! '(s, after) := remove_loop (S (size s)) x s false in Ret (s, before || after) in
    match pred s (rstart x) with
    | Some (start, e) =>
        if rstart x <? e then
          let s := delete start s in
          let s := if start <? rstart x then <[start := rstart x]> s else s in
          let s := if rend x <? e then <[rend x := e]> s else s in
          if rend x <=? e then Ret (s, true) else go true s
        else go false s
    | None => go false s
    end.

(** [btree_range_set.rs:165-169] *)
Definition add (s other : t) : outcome t :=
  fold_left (fun s p => let! s := s in let! '(s, _) := insert (Range p.1 p.2) s in Ret s)
    (btree_items other) (Ret s).

(** [btree_range_set.rs:171-175] *)
Definition subtract (s other : t) : outcome t :=
  fold_left (fun s p => let! s := s in let! '(s, _) := remove (Range p.1 p.2) s in Ret s)
    (btree_items other) (Ret s).

(** [btree_range_set.rs:177-179] *)
Definition is_empty (s : t) : bool := bool_decide (s = ∅).

(** [btree_range_set.rs:181-183] *)
Definition min (s : t) : option Z := fst <$> btree_first (fun _ => true) s.

(** [btree_range_set.rs:185-187] *)
Definition max (s : t) : outcome (option Z) :=
  match btree_last (fun _ => true) s with
  | Some (_, e) => let! m := u64_sub e 1 in Ret (Some m)
  | None => Ret None
  end.

(** [btree_range_set.rs:189-191] *)
Definition len (s : t) : Z := Z.of_nat (size s).

(** [btree_range_set.rs:193-195] the ranges in order, as [Iter] yields them, see [iter_spec] *)
Definition iter (s : t) : list range := map (fun p => Range p.1 p.2) (btree_items s).

(** [btree_range_set.rs:217-226] [Iter], the entries that are left *)
Definition iter_next (it : list (Z * Z)) : list (Z * Z) * option range :=
  match it with
  | [] => ([], None)
  | (start, e) :: rest => (rest, Some (Range start e))
  end.

(** [btree_range_set.rs:228-233] *)
Definition iter_next_back (it : list (Z * Z)) : list (Z * Z) * option range :=
  match last it with
  | Some (start, e) => (removelast it, Some (Range start e))
  | None => (it, None)
  end.

(** [btree_range_set.rs:205-208] *)
Definition peek_min (s : t) : option range :=
  (fun p => Range p.1 p.2) <$> btree_first (fun _ => true) s.

(** [btree_range_set.rs:210-214] *)
Definition pop_min (s : t) : t * option range :=
  match peek_min s with
  | Some r => (delete (rstart r) s, Some r)
  | None => (s, None)
  end.

(** [btree_range_set.rs:244-248] [EltIter] *)
Record EltIter := { inner : list (Z * Z); ei_next : Z; ei_end : Z }.

(** [btree_range_set.rs:197-203] *)
Definition elts (s : t) : EltIter := {| inner := btree_items s; ei_next := 0; ei_end := 0 |}.

(** [btree_range_set.rs:250-263] *)
Definition elt_next (it : EltIter) : outcome (EltIter * option Z) :=
  let yield inner next e :=
    let! next' := u64_add next 1 in
    Ret ({| inner := inner; ei_next := next'; ei_end := e |}, Some next) in
  if ei_next it =? ei_end it then
    match inner it with
    | [] => Ret (it, None)
    | (start, e) :: rest => yield rest start e
    end
  else yield (inner it) (ei_next it) (ei_end it).

(** [btree_range_set.rs:265-275] *)
Definition elt_next_back (it : EltIter) : outcome (EltIter * option Z) :=
  let yield inner next e :=
    let! e := u64_sub e 1 in
    Ret ({| inner := inner; ei_next := next; ei_end := e |}, Some e) in
  if ei_next it =? ei_end it then
    match last (inner it) with
    | Some (start, e) => yield (removelast (inner it)) start e
    | None => Ret (it, None)
    end
  else yield (inner it) (ei_next it) (ei_end it).

(** [btree_range_set.rs:277-286] *)
Record Replace := { rep_set : t; rep_pred : option range; rep_range : range }.

(** [btree_range_set.rs:138-163] *)
Definition replace (rng : range) (s : t) : Replace :=
  match pred s (rstart rng) with
  | Some (prev_start, prev_end) =>
      if rstart rng <=? prev_end then
        let replaced_start := rstart rng in
        let replaced_end := Z.min (rend rng) prev_end in
        {| rep_set := delete prev_start s;
           rep_range := Range (Z.min (rstart rng) prev_start) (Z.max (rend rng) prev_end);
           rep_pred := if negb (replaced_start =? replaced_end)
                       then Some (Range replaced_start replaced_end) else None |}
      else {| rep_set := s; rep_range := rng; rep_pred := None |}
  | None => {| rep_set := s; rep_range := rng; rep_pred := None |}
  end.

(** [btree_range_set.rs:288-320] [Replace::next] *)
Definition replace_next (r : Replace) : Replace * option range :=
  match rep_pred r with
  | Some p => ({| rep_set := rep_set r; rep_pred := None; rep_range := rep_range r |}, Some p)
  | None =>
      match succ (rep_set r) (rstart (rep_range r)) with
      | None => (r, None)
      | Some (next_start, next_end) =>
          if rend (rep_range r) <? next_start then (r, None)
          else
            let replaced_end := Z.min (rend (rep_range r)) next_end in
            ({| rep_set := delete next_start (rep_set r); rep_pred := None;
                rep_range := Range (rstart (rep_range r)) (Z.max (rend (rep_range r)) next_end) |},
             if next_start =? replaced_end then None else Some (Range next_start replaced_end))
      end
  end.

(** [btree_range_set.rs:322-329] [Replace::drop]: drain the iterator, then
    insert the aggregate range. *)
Fixpoint replace_drop (fuel : nat) (r : Replace) : outcome t :=
  match fuel with
  | O => Panic
  | S fuel =>
      match replace_next r with
      | (r, Some _) => replace_drop fuel r
      | (r, None) => Ret (<[rstart (rep_range r) := rend (rep_range r)]> (rep_set r))
      end
  end.

(** ** Specifications of the ordered accessors *)

Lemma btree_best_spec better P (m : btree) :
  (forall k k', better k k' = false -> better k' k = true \/ k = k') ->
  (forall k1 k2 k3, better k1 k2 = true -> better k2 k3 = true -> better k1 k3 = true) ->
  (forall k, better k k = false) ->
  match btree_best better P m with
  | Some (k, v) => m !! k = Some v /\ P k = true /\
      forall k' v', m !! k' = Some v' -> P k' = true -> k' = k \/ better k k' = true
  | None => forall k v, m !! k = Some v -> P k = false
  end.
Proof.
  intros Htot Htrans Hirr. unfold btree_best.
  apply (map_fold_weak_ind (fun acc m => match acc with
    | Some (k, v) => m !! k = Some v /\ P k = true /\
        forall k' v', m !! k' = Some v' -> P k' = true -> k' = k \/ better k k' = true
    | None => forall k v, m !! k = Some v -> P k = false end)); [by intros|].
  intros k v m' acc Hk IH. destruct (P k) eqn:HP.
  - destruct acc as [[k0 v0]|].
    + destruct IH as (H0 & HP0 & Hbest). destruct (better k k0) eqn:Hb.
      * split3; [by simplify_map_eq|done|]. intros k' v' Hk' HP'.
        destruct (decide (k = k')) as [->|]; [by left|]. simplify_map_eq. right.
        destruct (Hbest _ _ Hk' HP') as [->|]; eauto.
      * assert (k0 <> k) by (intros ->; congruence).
        split3; [by simplify_map_eq|done|]. intros k' v' Hk' HP'.
        destruct (decide (k = k')) as [->|]; [|simplify_map_eq; eauto].
        destruct (Htot _ _ Hb); [auto|congruence].
    + split3; [by simplify_map_eq|done|]. intros k' v' Hk' HP'.
      destruct (decide (k = k')) as [->|]; [by left|]. simplify_map_eq.
      rewrite (IH _ _ Hk') in HP'. done.
  - destruct acc as [[k0 v0]|].
    + destruct IH as (H0 & HP0 & Hbest). assert (k0 <> k) by congruence.
      split3; [by simplify_map_eq|done|]. intros k' v' Hk' HP'.
      destruct (decide (k = k')) as [->|]; [congruence|]. simplify_map_eq. eauto.
    + intros k' v' Hk'. destruct (decide (k = k')) as [->|]; [done|]. simplify_map_eq. eauto.
Qed.

Lemma btree_last_spec P (m : btree) :
  match btree_last P m with
  | Some (k, v) => m !! k = Some v /\ P k = true /\
      forall k' v', m !! k' = Some v' -> P k' = true -> k' <= k
  | None => forall k v, m !! k = Some v -> P k = false
  end.
Proof.
  pose proof (btree_best_spec (fun k k' => k' <? k) P m) as H. unfold btree_last.
  destruct (btree_best _ P m) as [[k v]|].
  - destruct H as (? & ? & Hb); [lia..|]. split3; [done..|].
    intros k' v' Hk' HP. destruct (Hb _ _ Hk' HP); lia.
  - apply H; lia.
Qed.

Lemma btree_first_spec P (m : btree) :
  match btree_first P m with
  | Some (k, v) => m !! k = Some v /\ P k = true /\
      forall k' v', m !! k' = Some v' -> P k' = true -> k <= k'
  | None => forall k v, m !! k = Some v -> P k = false
  end.
Proof.
  pose proof (btree_best_spec (fun k k' => k <? k') P m) as H. unfold btree_first.
  destruct (btree_best _ P m) as [[k v]|].
  - destruct H as (? & ? & Hb); [lia..|]. split3; [done..|].
    intros k' v' Hk' HP. destruct (Hb _ _ Hk' HP); lia.
  - apply H; lia.
Qed.

Lemma btree_items_spec (m : btree) k v : (k, v) ∈ btree_items m <-> m !! k = Some v.
Proof. unfold btree_items. rewrite merge_sort_Permutation. apply elem_of_map_to_list. Qed.

(** ** The set a map stands for *)

Definition elem (y : Z) (s : t) : Prop := exists a b, s !! a = Some b /\ in_range y (Range a b).

(** Non-empty ranges of [u64]s, any two of them separated by a gap. *)
Record wf (s : t) : Prop := {
  wf_bounds : forall a b, s !! a = Some b -> 0 <= a < b /\ b <= U64_MAX;
  wf_gap : forall a b c d, s !! a = Some b -> s !! c = Some d -> a < c -> b < c;
}.

Lemma wf_empty : wf ∅.
Proof. split; intros; simplify_map_eq. Qed.

Lemma wf_delete k s : wf s -> wf (delete k s).
Proof.
  intros [Hb Hg]. split.
  - intros a b [_ ?]%lookup_delete_Some. eauto.
  - intros a b c d [_ ?]%lookup_delete_Some [_ ?]%lookup_delete_Some. eauto.
Qed.

(** A range that touches nothing can be added. *)
Lemma wf_insert a b s : wf s -> 0 <= a < b -> b <= U64_MAX ->
  (forall c d, s !! c = Some d -> c <> a -> d < a \/ b < c) ->
  wf (<[a := b]> s).
Proof.
  intros [Hb Hg] Ha Hmax Hsep. split.
  - intros c d [[-> ->]|[? ?]]%lookup_insert_Some; eauto.
  - intros c d c' d' [[<- <-]|[? H1]]%lookup_insert_Some [[<- <-]|[? H2]]%lookup_insert_Some Hlt;
      [lia| | |eauto].
    + destruct (Hsep _ _ H2) as [?|?]; [done| |lia]. pose proof (Hb _ _ H2). lia.
    + destruct (Hsep _ _ H1) as [?|?]; [done|lia|lia].
Qed.

Lemma elem_insert y a b s : s !! a = None ->
  elem y (<[a := b]> s) <-> in_range y (Range a b) \/ elem y s.
Proof.
  intros Ha. unfold elem. split.
  - intros (c & d & [[<- <-]|[? ?]]%lookup_insert_Some & ?); eauto.
  - intros [?|(c & d & Hc & ?)]; [exists a, b; by simplify_map_eq|].
    exists c, d. assert (c <> a) by congruence. by simplify_map_eq.
Qed.

Lemma elem_delete y a b s : wf s -> s !! a = Some b ->
  elem y (delete a s) <-> elem y s /\ ~ in_range y (Range a b).
Proof.
  intros [Hb Hg] Ha. unfold elem, in_range; cbn. split.
  - intros (c & d & [? Hc]%lookup_delete_Some & ?). split; [eauto|].
    intros ?. destruct (Z.lt_total a c) as [Hlt|[Heq|Hlt]]; [|lia|].
    + specialize (Hg _ _ _ _ Ha Hc Hlt). lia.
    + specialize (Hg _ _ _ _ Hc Ha Hlt). lia.
  - intros [(c & d & Hc & ?) Hn]. exists c, d. rewrite lookup_delete_Some.
    split; [|done]. split; [|done]. intros <-. assert (b = d) by congruence. lia.
Qed.

Lemma wf_unique s a b c d y : wf s -> s !! a = Some b -> s !! c = Some d ->
  in_range y (Range a b) -> in_range y (Range c d) -> a = c.
Proof.
  intros [_ Hg] Ha Hc. unfold in_range; cbn. intros ? ?.
  destruct (Z.lt_total a c) as [Hlt|[Heq|Hlt]]; [|done|].
  - specialize (Hg _ _ _ _ Ha Hc Hlt). lia.
  - specialize (Hg _ _ _ _ Hc Ha Hlt). lia.
Qed.

Lemma pred_spec s x : wf s ->
  match pred s x with
  | Some (a, b) => s !! a = Some b /\ a <= x /\ forall c d, s !! c = Some d -> c <= x -> c <= a
  | None => forall c d, s !! c = Some d -> x < c
  end.
Proof.
  intros [Hb _]. unfold pred.
  pose proof (btree_last_spec (fun k => (0 <=? k) && (k <=? x)) s) as H.
  destruct (btree_last _ s) as [[a b]|].
  - destruct H as (? & ? & H). split3; [done|lia|].
    intros c d Hc ?. apply (H _ _ Hc). specialize (Hb _ _ Hc). lia.
  - intros c d Hc. specialize (H _ _ Hc). specialize (Hb _ _ Hc). lia.
Qed.

Lemma succ_spec s x : wf s ->
  match succ s x with
  | Some (a, b) => s !! a = Some b /\ x < a /\ forall c d, s !! c = Some d -> x < c -> a <= c
  | None => forall c d, s !! c = Some d -> c <= x
  end.
Proof.
  intros [Hb _]. unfold succ.
  pose proof (btree_first_spec (fun k => (x <? k) && (k <=? U64_MAX)) s) as H.
  destruct (btree_first _ s) as [[a b]|].
  - destruct H as (? & ? & H). split3; [done|lia|].
    intros c d Hc ?. apply (H _ _ Hc). specialize (Hb _ _ Hc). lia.
  - intros c d Hc. specialize (H _ _ Hc). specialize (Hb _ _ Hc). lia.
Qed.

(** ** Membership *)

Lemma btree_contains_spec s x : wf s -> contains s x = true <-> elem x s.
Proof.
  intros Hwf. unfold contains. pose proof (pred_spec s x Hwf) as Hp.
  destruct (pred s x) as [[a b]|].
  - destruct Hp as (Ha & Hle & Hmax). split.
    + intros. exists a, b. unfold in_range; simpl. split; [done|lia].
    + intros (c & d & Hc & Hin). unfold in_range in Hin; simpl in Hin.
      specialize (Hmax _ _ Hc ltac:(lia)).
      destruct (Z.eq_dec c a) as [->|]; [assert (b = d) by congruence; lia|].
      pose proof (wf_gap _ Hwf _ _ _ _ Hc Ha). lia.
  - split; [done|]. intros (c & d & Hc & Hin). unfold in_range in Hin; simpl in Hin.
    specialize (Hp _ _ Hc). lia.
Qed.

(** ** Insertion is union *)

Lemma btree_insert_loop_spec fuel x s : wf s -> (size s < fuel)%nat ->
  0 <= rstart x < rend x -> rend x <= U64_MAX ->
  (forall c d, s !! c = Some d -> c <= rstart x -> d < rstart x) ->
  exists s', insert_loop fuel x s = Ret s' /\ wf s' /\
    forall y, elem y s' <-> elem y s \/ in_range y x.
Proof.
  revert x s. induction fuel as [|fuel IH]; intros x s Hwf Hfuel Hx Hmax Hleft; [lia|]. cbn [insert_loop].
  assert (Hnone : s !! rstart x = None).
  { destruct (s !! rstart x) eqn:He; [|done]. specialize (Hleft _ _ He). 
    pose proof (wf_bounds _ Hwf _ _ He). lia. }
  assert (Hdone : (forall c d, s !! c = Some d -> rstart x < c -> rend x < c) ->
    exists s', Ret (<[rstart x := rend x]> s) = Ret s' /\ wf s' /\
      forall y, elem y s' <-> elem y s \/ in_range y x).
  { intros Hright. eexists. split; [done|]. split.
    - apply wf_insert; [done..|]. intros c d Hc Hne.
      destruct (Z.lt_ge_cases (rstart x) c); [right|left]; eauto with lia.
    - intros y. rewrite elem_insert by done. destruct x; simpl. tauto. }
  pose proof (succ_spec s (rstart x) Hwf) as Hs. destruct (succ s (rstart x)) as [[a b]|].
  - destruct Hs as (Ha & Hlt & Hmin). pose proof (wf_bounds _ Hwf _ _ Ha) as Hab.
    destruct (Z.ltb_spec (rend x) a).
    + apply Hdone. intros c d Hc Hcl. specialize (Hmin _ _ Hc Hcl). lia.
    + destruct (IH (Range (rstart x) (Z.max b (rend x))) (delete a s)) as (s' & Hs' & Hwf' & Hel);
        cbn [rstart rend]; [by apply wf_delete| |lia|lia| |].
      * rewrite map_size_delete, Ha. pose proof (map_size_ne_0_lookup_2 s a) as Hne.
        rewrite Ha in Hne. specialize (Hne ltac:(eauto)). lia.
      * intros c d [_ Hc]%lookup_delete_Some. eauto.
      * exists s'. split3; [done..|]. intros y. rewrite Hel, (elem_delete _ a b) by done.
        unfold in_range; cbn [rstart rend]. split.
        { intros [[? _]|?]; [tauto|]. destruct (Z.lt_ge_cases y (rend x)); [right; lia|].
          left. exists a, b. unfold in_range; cbn. split; [done|lia]. }
        { intros [?|?]; [|right; lia]. destruct (Z.lt_ge_cases y a); [left; split; [done|lia]|].
          destruct (Z.lt_ge_cases y b); [right; lia|left; split; [done|lia]]. }
  - apply Hdone. intros c d Hc ?. specialize (Hs _ _ Hc). lia.
Qed.

Lemma btree_insert_spec x s : wf s -> 0 <= rstart x -> rend x <= U64_MAX ->
  exists s' r, insert x s = Ret (s', r) /\ wf s' /\
    (forall y, elem y s' <-> elem y s \/ in_range y x) /\
    (r = false <-> forall y, in_range y x -> elem y s).
Proof.
  intros Hwf H0 Hmax. unfold insert, range_is_empty.
  destruct (Z.ltb_spec (rstart x) (rend x)) as [Hlt|]; cbn [negb].
  2: { exists s, false. unfold in_range. split3; [done..|]. split; intros; split; intros; try done;
       [tauto|destruct H1; [done|lia]|lia]. }
  pose proof (pred_spec s (rstart x) Hwf) as Hp.
  assert (Hgo : (forall c d, s !! c = Some d -> c <= rstart x -> d < rstart x) ->
    exists s' r, (let! s := insert_loop (S (size s)) x s in Ret (s, true)) = Ret (s', r) /\ wf s' /\
    (forall y, elem y s' <-> elem y s \/ in_range y x) /\
    (r = false <-> forall y, in_range y x -> elem y s)).
  { intros Hleft. destruct (btree_insert_loop_spec (S (size s)) x s) as (s' & -> & Hwf' & Hel); [done|lia|lia|done..|].
    exists s', true. cbn. split3; [done..|]. split; [done|]. split; [done|]. intros Hall. exfalso.
    destruct (Hall (rstart x)) as (c & d & Hc & Hin); [unfold in_range; lia|].
    unfold in_range in Hin; simpl in Hin. specialize (Hleft _ _ Hc). lia. }
  destruct (pred s (rstart x)) as [[a b]|]; [|apply Hgo; intros c d Hc ?; specialize (Hp _ _ Hc); lia].
  destruct Hp as (Ha & Hle & Hpmax). pose proof (wf_bounds _ Hwf _ _ Ha) as Hab.
  destruct (Z.leb_spec (rend x) b).
  { exists s, false. split3; [done..|]. split; [|split; [|done]].
    - intros y. split; [tauto|]. intros [?|Hin]; [done|]. exists a, b. unfold in_range in *; simpl.
      split; [done|lia].
    - intros _ y Hin. exists a, b. unfold in_range in *; simpl. split; [done|lia]. }
  destruct (Z.leb_spec (rstart x) b).
  2: { apply Hgo. intros c d Hc ?. destruct (Z.eq_dec c a) as [->|]; [assert (b = d) by congruence; lia|].
       specialize (Hpmax _ _ Hc ltac:(done)). pose proof (wf_gap _ Hwf _ _ _ _ Hc Ha). lia. }
  destruct (btree_insert_loop_spec (S (size (delete a s))) (Range a (rend x)) (delete a s))
    as (s' & -> & Hwf' & Hel); cbn [rstart rend]; [by apply wf_delete|lia|lia|done| |].
  { intros c d [Hne Hc]%lookup_delete_Some Hca. apply (wf_gap _ Hwf _ _ _ _ Hc Ha). lia. }
  exists s', true. cbn. split3; [done..|]. split.
  - intros y. rewrite Hel, (elem_delete _ a b) by done. unfold in_range; cbn [rstart rend]. split.
    + intros [[? _]|?]; [tauto|]. destruct (Z.lt_ge_cases y b); [|right; lia].
      left. exists a, b. unfold in_range; simpl. split; [done|lia].
    + intros [?|?]; [|right; lia]. destruct (Z.lt_ge_cases y a); [left; split; [done|lia]|].
      destruct (Z.lt_ge_cases y b); [right; lia|left; split; [done|lia]].
  - split; [done|]. intros Hall. exfalso.
    destruct (Hall b) as (c & d & Hc & Hin); [unfold in_range; lia|].
    unfold in_range in Hin; simpl in Hin. destruct (Z.lt_total a c) as [Hac|[->|Hac]].
    + pose proof (wf_gap _ Hwf _ _ _ _ Ha Hc Hac). lia.
    + assert (b = d) by congruence. lia.
    + pose proof (wf_gap _ Hwf _ _ _ _ Hc Ha Hac). lia.
Qed.

(** Inserting one number is inserting the range of length one. *)
Lemma merge_next_spec s x e : wf s -> 
  (forall c d, s !! c = Some d -> c <= x -> d < x) -> e = x + 1 -> 0 <= x -> e <= U64_MAX ->
  let '(s', e') := merge_next s x e in
  wf s' /\ e <= e' <= U64_MAX /\ (forall c d, s' !! c = Some d -> s !! c = Some d) /\
  (forall c d, s' !! c = Some d -> x < c -> e' < c) /\
  forall y, elem y s' \/ in_range y (Range x e') <-> elem y s \/ y = x.
Proof.
  intros Hwf Hleft -> Hx Hmax. unfold merge_next. pose proof (succ_spec s x Hwf) as Hs.
  assert (Hkeep : (forall c d, s !! c = Some d -> x < c -> x + 1 < c) ->
    wf s /\ x + 1 <= x + 1 <= U64_MAX /\ (forall c d, s !! c = Some d -> s !! c = Some d) /\
    (forall c d, s !! c = Some d -> x < c -> x + 1 < c) /\
    forall y, elem y s \/ in_range y (Range x (x + 1)) <-> elem y s \/ y = x).
  { intros Hr. split_and!; [apply Hwf..|lia|done|done|done|]. intros y. unfold in_range; simpl. intuition lia. }
  destruct (succ s x) as [[a b]|]; [|apply Hkeep; intros c d Hc ?; specialize (Hs _ _ Hc); lia].
  destruct Hs as (Ha & Hlt & Hmin). pose proof (wf_bounds _ Hwf _ _ Ha) as Hab.
  destruct (Z.eqb_spec a (x + 1)) as [->|Hne].
  - split; [by apply wf_delete|]. split; [lia|]. split; [by intros c d [_ ?]%lookup_delete_Some|]. split.
    + intros c d [Hne Hc]%lookup_delete_Some Hxc. specialize (Hmin _ _ Hc Hxc).
      apply (wf_gap _ Hwf _ _ _ _ Ha Hc). lia.
    + intros y. rewrite (elem_delete _ (x + 1) b) by done. unfold in_range; cbn. split.
      * intros [[? _]|?]; [tauto|]. destruct (Z.eq_dec y x); [tauto|]. left.
        exists (x + 1), b. unfold in_range; cbn. split; [done|lia].
      * intros [?|?]; [|lia]. destruct (Z.lt_ge_cases y (x + 1)); [left; split; [done|lia]|].
        destruct (Z.lt_ge_cases y b); [right; lia|left; split; [done|lia]].
  - apply Hkeep. intros c d Hc Hxc. specialize (Hmin _ _ Hc Hxc). lia.
Qed.

(** ** Removal is difference *)

(** The last range that [x] meets, [a .. b], goes on behind [x]. *)
Lemma remove_tail x s a b : wf s -> s !! a = Some b -> rstart x < a < rend x -> rend x < b ->
  (forall c d, s !! c = Some d -> c <= rstart x -> d <= rstart x) -> (forall c d, s !! c = Some d -> rstart x < c -> a <= c) ->
  wf (<[rend x := b]> (delete a s)) /\ forall y, elem y (<[rend x := b]> (delete a s)) <-> elem y s /\ ~ in_range y x.
Proof.
  intros Hwf Ha Hax Hxb Hleft Hmin. pose proof (wf_bounds _ Hwf _ _ Ha) as Hab.
  assert (Hnone : delete a s !! rend x = None).
  { destruct (delete a s !! rend x) as [d|] eqn:Hd; [|done]. apply lookup_delete_Some in Hd as [? Hd].
    pose proof (wf_gap _ Hwf _ _ _ _ Ha Hd). lia. }
  split.
  - apply wf_insert; [by apply wf_delete|lia|lia|]. intros c d [? Hc]%lookup_delete_Some ?.
    destruct (Z.lt_ge_cases a c); [right; by apply (wf_gap _ Hwf _ _ _ _ Ha Hc)|left].
    pose proof (wf_gap _ Hwf _ _ _ _ Hc Ha). lia.
  - intros y. rewrite elem_insert, (elem_delete _ a b) by done. unfold in_range; cbn. split.
    + intros [?|[He ?]]; [split; [|lia]; exists a, b; unfold in_range; cbn; split; [done|lia]|].
      split; [done|]. intros Hyx. destruct He as (c & d & Hc & Hin). unfold in_range in Hin; cbn in Hin.
      destruct (Z.lt_ge_cases (rstart x) c); [|specialize (Hleft _ _ Hc); lia].
      specialize (Hmin _ _ Hc ltac:(done)). destruct (Z.eq_dec a c); [subst; assert (b = d) by congruence; lia|].
      pose proof (wf_gap _ Hwf _ _ _ _ Ha Hc). lia.
    + intros [He ?]. destruct (Z.lt_ge_cases y (rend x)); [right; split; [done|lia]|].
      destruct (Z.lt_ge_cases y b); [left; lia|right; split; [done|lia]].
Qed.

Lemma btree_remove_loop_spec fuel x s after : wf s -> (size s < fuel)%nat -> 0 <= rstart x < rend x ->
  rend x <= U64_MAX -> (forall c d, s !! c = Some d -> c <= rstart x -> d <= rstart x) ->
  exists s' r, remove_loop fuel x s after = Ret (s', r) /\ wf s' /\
    (forall y, elem y s' <-> elem y s /\ ~ in_range y x) /\
    (r = true <-> after = true \/ exists y, in_range y x /\ elem y s).
Proof.
  revert s after. induction fuel as [|fuel IH]; intros s after Hwf Hfuel Hx Hmax Hleft; [lia|].
  cbn [remove_loop].
  assert (Hdone : (forall c d, s !! c = Some d -> rstart x < c -> rend x <= c) ->
    exists s' r, Ret (s, after) = Ret (s', r) /\ wf s' /\
      (forall y, elem y s' <-> elem y s /\ ~ in_range y x) /\
      (r = true <-> after = true \/ exists y, in_range y x /\ elem y s)).
  { intros Hright.
    assert (Hno : forall y, elem y s -> ~ in_range y x).
    { intros y (c & d & Hc & Hin) Hyx. unfold in_range in *; cbn in Hin.
      destruct (Z.lt_ge_cases (rstart x) c).
      - specialize (Hright _ _ Hc). lia.
      - specialize (Hleft _ _ Hc). lia. }
    exists s, after. split3; [done..|]. split; [intros y; split; [eauto|tauto]|].
    split; [tauto|]. intros [?|(y & Hy & He)]; [done|]. by destruct (Hno y). }
  pose proof (succ_spec s (rstart x) Hwf) as Hs. destruct (succ s (rstart x)) as [[a b]|].
  2: { apply Hdone. intros c d Hc ?. specialize (Hs _ _ Hc). lia. }
  destruct Hs as (Ha & Hlt & Hmin). pose proof (wf_bounds _ Hwf _ _ Ha) as Hab.
  destruct (Z.leb_spec (rend x) a).
  { apply Hdone. intros c d Hc Hcl. specialize (Hmin _ _ Hc Hcl). lia. }
  assert (Hover : exists y, in_range y x /\ elem y s).
  { exists a. unfold in_range. split; [lia|]. exists a, b. unfold in_range; cbn. split; [done|lia]. }
  destruct (Z.ltb_spec (rend x) b).
  - eexists _, true. split; [done|]. destruct (remove_tail x s a b) as [Hwf' Hel]; try done; try lia.
    split3; [done|exact Hel|tauto].
  - destruct (IH (delete a s) true) as (s' & r & Hs' & Hwf' & Hel & Hr);
      [by apply wf_delete| |done|done| |].
    + rewrite map_size_delete, Ha. pose proof (map_size_ne_0_lookup_2 s a) as Hne.
      rewrite Ha in Hne. specialize (Hne ltac:(eauto)). lia.
    + intros c d [_ Hc]%lookup_delete_Some. eauto.
    + exists s', r. split3; [done..|]. split.
      * intros y. rewrite Hel, (elem_delete _ a b) by done. unfold in_range; cbn. intuition lia.
      * rewrite Hr. tauto.
Qed.

(** *** The range that contains the start *)

(** [a .. b] is the range of [s] in which [x] starts. *)
Section RemoveOverlap.
Context (x : range) (s : t) (a b : Z).
Context (s_wf : wf s) (x_start : 0 <= rstart x < rend x) (x_end : rend x <= U64_MAX).
Context (ab_in : s !! a = Some b) (ab_start : a <= rstart x < b).
Context (ab_last : forall c d, s !! c = Some d -> c <= rstart x -> c <= a).

Lemma remove_others c d : s !! c = Some d -> c <> a -> d < a \/ (b < c /\ rstart x < c).
Proof.
  intros Hc Hne. destruct (Z.lt_ge_cases a c).
  - right. split; [by apply (wf_gap _ s_wf _ _ _ _ ab_in Hc)|].
    destruct (Z.lt_ge_cases (rstart x) c); [done|]. specialize (ab_last _ _ Hc ltac:(done)). lia.
  - left. apply (wf_gap _ s_wf _ _ _ _ Hc ab_in). lia.
Qed.

(** The part before [x] is put back. *)
Definition cut_head : t := if a <? rstart x then <[a := rstart x]> (delete a s) else delete a s.

Lemma cut_head_wf : wf cut_head.
Proof.
  unfold cut_head. destruct (Z.ltb_spec a (rstart x)); [|by apply wf_delete].
  pose proof (wf_bounds _ s_wf _ _ ab_in). apply wf_insert; [by apply wf_delete|lia|lia|].
  intros c d [? Hc]%lookup_delete_Some ?. destruct (remove_others _ _ Hc); [done|lia|lia].
Qed.

Lemma cut_head_lookup c d : cut_head !! c = Some d -> (c = a /\ d = rstart x /\ a < rstart x) \/ (c <> a /\ s !! c = Some d).
Proof.
  unfold cut_head. destruct (Z.ltb_spec a (rstart x)).
  - intros [[<- <-]|[? [? Hc]%lookup_delete_Some]]%lookup_insert_Some; [tauto|eauto].
  - intros [? ?]%lookup_delete_Some. eauto.
Qed.

Lemma cut_head_elem y : elem y cut_head <-> elem y s /\ ~ in_range y (Range (rstart x) b).
Proof.
  assert (Hel : elem y cut_head <-> elem y (delete a s) \/ in_range y (Range a (rstart x))).
  { unfold cut_head. destruct (Z.ltb_spec a (rstart x)).
    - rewrite elem_insert by (by rewrite lookup_delete_eq). tauto.
    - unfold in_range; cbn. split; [tauto|]. intros [?|?]; [done|lia]. }
  rewrite Hel, (elem_delete _ a b) by done. unfold in_range; cbn. split.
  - intros [[He ?]|?]; [split; [done|lia]|]. split; [|lia]. exists a, b. unfold in_range; cbn. split; [done|lia].
  - intros [He ?]. destruct (Z.lt_ge_cases y a); [left; split; [done|lia]|].
    destruct (Z.lt_ge_cases y b); [right; lia|left; split; [done|lia]].
Qed.

(** What is left when [x] ends inside the range: a part before and one behind. *)
Lemma remove_inside : rend x < b -> wf (<[rend x := b]> cut_head) /\
  forall y, elem y (<[rend x := b]> cut_head) <-> elem y s /\ ~ in_range y x.
Proof.
  intros Hxb. assert (Hn : cut_head !! rend x = None).
  { destruct (cut_head !! rend x) eqn:Hd; [|done]. destruct (cut_head_lookup _ _ Hd) as [?|[? Hc]]; [lia|].
    destruct (remove_others _ _ Hc); [done| |lia]. pose proof (wf_bounds _ s_wf _ _ Hc). lia. }
  pose proof (wf_bounds _ s_wf _ _ ab_in). split.
  - apply wf_insert; [apply cut_head_wf|lia|lia|]. intros c d Hc ?.
    destruct (cut_head_lookup _ _ Hc) as [?|[? Hc']]; [left; lia|]. destruct (remove_others _ _ Hc'); [done|left|right]; lia.
  - intros y. rewrite elem_insert, cut_head_elem by done. unfold in_range; cbn. split.
    + intros [?|[He ?]]; [|split; [done|lia]]. split; [|lia]. exists a, b. unfold in_range; cbn. split; [done|lia].
    + intros [He ?]. destruct (Z.lt_ge_cases y (rstart x)); [right; split; [done|lia]|].
      destruct (Z.lt_ge_cases y b); [left; lia|right; split; [done|lia]].
Qed.

Lemma cut_head_left c d : cut_head !! c = Some d -> c <= rstart x -> d <= rstart x.
Proof.
  intros Hc ?. destruct (cut_head_lookup _ _ Hc) as [?|[? Hc']]; [lia|]. destruct (remove_others _ _ Hc'); [done|lia|lia].
Qed.
End RemoveOverlap.

Lemma btree_remove_spec x s : wf s -> 0 <= rstart x -> rend x <= U64_MAX ->
  exists s' r, remove x s = Ret (s', r) /\ wf s' /\
    (forall y, elem y s' <-> elem y s /\ ~ in_range y x) /\
    (r = true <-> exists y, in_range y x /\ elem y s).
Proof.
  intros Hwf H0 Hmax. unfold remove, range_is_empty.
  destruct (Z.ltb_spec (rstart x) (rend x)) as [Hlt|]; cbn [negb].
  2: { exists s, false. unfold in_range. split3; [done..|]. split.
       - intros y. split; [|tauto]. intros; split; [done|lia].
       - split; [done|]. intros (y & ? & _). lia. }
  assert (Hx : 0 <= rstart x < rend x) by lia. pose proof (pred_spec s (rstart x) Hwf) as Hp.
  assert (Hgo : forall s1 before, wf s1 -> (forall c d, s1 !! c = Some d -> c <= rstart x -> d <= rstart x) ->
    exists s' after, (let! '(s, after) := remove_loop (S (size s1)) x s1 false in Ret (s, before || after)) = Ret (s', before || after) /\
      wf s' /\ (forall y, elem y s' <-> elem y s1 /\ ~ in_range y x) /\ (after = true <-> exists y, in_range y x /\ elem y s1)).
  { intros s1 before Hwf1 Hleft. destruct (btree_remove_loop_spec (S (size s1)) x s1 false) as (s' & r & -> & Hwf' & Hel & Hr);
      [done|lia|lia|done..|]. exists s', r. cbn. split3; [done..|]. split; [done|]. rewrite Hr. naive_solver. }
  destruct (pred s (rstart x)) as [[a b]|].
  2: { apply (Hgo s false Hwf). intros c d Hc ?. specialize (Hp _ _ Hc). lia. }
  destruct Hp as (Ha & Hle & Hlast). pose proof (wf_bounds _ Hwf _ _ Ha) as Hab. destruct (Z.ltb_spec (rstart x) b).
  2: { apply (Hgo s false Hwf). intros c d Hc ?. destruct (Z.eq_dec c a) as [->|Hne]; [assert (b = d) by congruence; lia|].
       pose proof (Hlast _ _ Hc). destruct (Z.lt_ge_cases a c); [lia|]. pose proof (wf_gap _ Hwf _ _ _ _ Hc Ha). lia. }
  assert (Hst : a <= rstart x < b) by lia. fold (cut_head x s a). set (s1 := cut_head x s a).
  assert (Hover : exists y, in_range y x /\ elem y s).
  { exists (rstart x). unfold in_range. split; [lia|]. exists a, b. unfold in_range; cbn. split; [done|lia]. }
  destruct (Z.ltb_spec (rend x) b) as [Hxb|Hxb].
  - destruct (Z.leb_spec (rend x) b); [|lia]. eexists _, true. split; [done|].
    destruct (remove_inside x s a b Hwf Hx Hmax Ha Hst Hlast Hxb). by split3.
  - pose proof (cut_head_elem x s a b Hwf Hx Ha Hst) as Hel1.
    destruct (Z.leb_spec (rend x) b); [assert (rend x = b) by lia; subst b|].
    + exists s1, true. split; [done|]. split3; [by eapply cut_head_wf| |tauto]. intros y. apply Hel1.
    + destruct (Hgo s1 true) as (s' & r & -> & Hwf' & Hel & _); [by eapply cut_head_wf|by eapply cut_head_left|].
      exists s', true. split; [done|]. split3; [done| |tauto]. intros y. rewrite Hel. unfold s1. rewrite Hel1. unfold in_range; cbn. intuition lia.
Qed.

(** ** Extremal elements *)

Lemma btree_pop_min_spec s : wf s ->
  match pop_min s with
  | (s', Some r) => s !! rstart r = Some (rend r) /\ s' = delete (rstart r) s /\ wf s' /\
      (forall y, elem y s <-> elem y s' \/ in_range y r) /\ (forall y, elem y s' -> rend r < y)
  | (s', None) => s = ∅ /\ s' = s
  end.
Proof.
  intros Hwf. unfold pop_min, peek_min. pose proof (btree_first_spec (fun _ => true) s) as Hf.
  destruct (btree_first _ s) as [[a b]|]; cbn.
  - destruct Hf as (Ha & _ & Hmin). pose proof (wf_bounds _ Hwf _ _ Ha).
    split; [done|]. split; [done|]. split3; [by apply wf_delete| |].
    + intros y. rewrite (elem_delete _ a b) by done. split; [|intros [[? _]|?]; [done|by exists a, b]].
      intros ?. destruct (decide (a <= y < b)) as [?|?]; [by right|left; split; [done|]].
      unfold in_range; cbn. lia.
    + intros y (c & d & [? Hc]%lookup_delete_Some & Hin). unfold in_range in Hin; cbn in Hin.
      specialize (Hmin _ _ Hc eq_refl). pose proof (wf_gap _ Hwf _ _ _ _ Ha Hc). lia.
  - split; [|done]. apply map_empty. intros i. destruct (s !! i) eqn:Hi; [|done].
    by specialize (Hf _ _ Hi).
Qed.

Lemma is_empty_spec s : is_empty s = true <-> s = ∅.
Proof. unfold is_empty. apply bool_decide_eq_true. Qed.

(** ** Iterators *)

(** From either end, [Iter] yields the entries. *)
Lemma iter_spec it : iter_next it = (tail it, (fun p => Range p.1 p.2) <$> head it) /\
  iter_next_back it = (removelast it, (fun p => Range p.1 p.2) <$> last it).
Proof.
  split; [by destruct it as [|[a b] it]|]. unfold iter_next_back. destruct (last it) as [[a b]|] eqn:Hl; [done|].
  by apply last_None in Hl as ->.
Qed.

(** The numbers of some ranges, and what an iterator still has to yield: from
    the front the range it is in comes first, from the back it comes last. *)
Definition numbers (l : list (Z * Z)) : list Z := l ≫= (fun p => seqZ p.1 (p.2 - p.1)).
Definition to_front (it : EltIter) : list Z := seqZ (ei_next it) (ei_end it - ei_next it) ++ numbers (inner it).
Definition to_back (it : EltIter) : list Z := numbers (inner it) ++ seqZ (ei_next it) (ei_end it - ei_next it).

Definition some_range (p : Z * Z) : Prop := 0 <= p.1 < p.2 /\ p.2 <= U64_MAX.

Record elt_ok (it : EltIter) : Prop := {
  eo_bounds : 0 <= ei_next it <= ei_end it /\ ei_end it <= U64_MAX;
  eo_inner : Forall some_range (inner it);
}.

Lemma elts_ok s : wf s -> elt_ok (elts s).
Proof.
  intros Hwf. split; [done|]. apply Forall_forall. intros [a b] Hin%btree_items_spec. by apply (wf_bounds _ Hwf).
Qed.

Lemma seqZ_last a b : a < b -> seqZ a (b - a) = seqZ a (b - 1 - a) ++ [b - 1].
Proof.
  intros. replace (b - a) with ((b - 1 - a) + 1) at 1 by lia. rewrite seqZ_app by lia. f_equal.
  replace (a + (b - 1 - a)) with (b - 1) by lia. done.
Qed.

(** [next] takes the first number. *)
Lemma elt_next_spec it : elt_ok it -> exists it', elt_next it = Ret (it', head (to_front it)) /\
  to_front it' = tail (to_front it) /\ elt_ok it'.
Proof.
  destruct it as [l a b]. unfold to_front, elt_next. cbn [inner ei_next ei_end]. intros [[Ha Hb] Hl]. cbn in *.
  destruct (Z.eqb_spec a b) as [->|Hne].
  - rewrite Z.sub_diag. cbn [seqZ app]. destruct l as [|[c d] l]; [eexists; split; [done|]; split; [cbn; by rewrite Z.sub_diag|by split]|]. apply Forall_cons in Hl as [[Hc Hd] Hl]. cbn in *.
    rewrite u64_add_ok by u64_lia. cbn [obind]. rewrite (seqZ_cons c) by lia. eexists. split; [done|]. split; [|split; [cbn; lia|done]].
    cbn. by replace (Z.pred (d - c)) with (d - (c + 1)) by lia.
  - rewrite u64_add_ok by u64_lia. cbn [obind]. rewrite (seqZ_cons a) by lia. eexists. split; [done|]. split; [|split; [cbn; lia|done]].
    cbn. by replace (Z.pred (b - a)) with (b - (a + 1)) by lia.
Qed.

(** [next_back] takes the last number, if the iterator is in no range of the front. *)
Lemma elt_next_back_spec it : elt_ok it -> exists it', elt_next_back it = Ret (it', last (to_back it)) /\
  to_back it' = removelast (to_back it) /\ elt_ok it'.
Proof.
  destruct it as [l a b]. unfold to_back, elt_next_back. cbn [inner ei_next ei_end]. intros [[Ha Hb] Hl]. cbn in *.
  destruct (Z.eqb_spec a b) as [->|Hne].
  - rewrite Z.sub_diag. cbn [seqZ]. rewrite app_nil_r. destruct (last l) as [[c d]|] eqn:Hlast.
    + apply last_Some in Hlast as [l' ->]. rewrite removelast_last. apply Forall_app in Hl as [Hl Hcd].
      apply Forall_singleton in Hcd as [Hc Hd]. cbn in *. rewrite u64_sub_ok by lia. cbn [obind].
      assert (Hn : numbers (l' ++ [(c, d)]) = (numbers l' ++ seqZ c (d - 1 - c)) ++ [d - 1]).
      { unfold numbers. rewrite bind_app. cbn. rewrite app_nil_r, seqZ_last, app_assoc by lia. done. }
      rewrite Hn, last_snoc, removelast_last. eexists. split; [done|]. split; [done|]. split; cbn; [lia|done].
    + apply last_None in Hlast as ->. eexists. split; [done|]. split; [cbn; by rewrite Z.sub_diag|by split].
  - rewrite u64_sub_ok by lia. cbn [obind]. rewrite (seqZ_last a b), app_assoc by lia. rewrite last_snoc, removelast_last.
    eexists. split; [done|]. split; [done|]. split; cbn; [lia|done].
Qed.

(** The two ends disagree about the range in between: once a number was taken
    from the front of a range of several, [next_back] yields the largest number
    of that range, although the set has ranges above it. *)
Theorem elts_back_after_front s a b c d rest : wf s -> btree_items s = (a, b) :: (c, d) :: rest -> a + 1 < b ->
  exists it it', elt_next (elts s) = Ret (it, Some a) /\ elt_next_back it = Ret (it', Some (b - 1)) /\
    elem (c) s /\ b - 1 < c.
Proof.
  intros Hwf Hi Hab. assert (Hin : forall k v, (k, v) ∈ btree_items s -> s !! k = Some v) by (intros k v; apply btree_items_spec).
  rewrite Hi in Hin. pose proof (Hin a b ltac:(set_solver)) as Ha. pose proof (Hin c d ltac:(set_solver)) as Hc.
  pose proof (wf_bounds _ Hwf _ _ Ha). pose proof (wf_bounds _ Hwf _ _ Hc).
  unfold elts, elt_next. cbn [inner ei_next ei_end]. rewrite Hi. cbn [Z.eqb]. rewrite u64_add_ok by u64_lia. cbn [obind].
  eexists _, _. split; [done|]. unfold elt_next_back. cbn [inner ei_next ei_end]. destruct (Z.eqb_spec (a + 1) b); [lia|].
  rewrite u64_sub_ok by lia. cbn [obind]. split; [done|]. split; [exists c, d; unfold in_range; cbn; split; [done|lia]|].
  assert (Hsorted : a < c).
  { assert (Hs : Sorted key_le (btree_items s)) by (unfold btree_items; apply Sorted_merge_sort; intros p q; unfold key_le; lia).
    rewrite Hi in Hs. apply Sorted_inv in Hs as [_ Hs]. apply HdRel_inv in Hs. unfold key_le in Hs. cbn in Hs.
    destruct (Z.eq_dec a c) as [<-|]; [|lia]. exfalso.
    assert (Hnd : NoDup (btree_items s).*1).
    { unfold btree_items. rewrite merge_sort_Permutation. apply NoDup_fst_map_to_list. }
    rewrite Hi in Hnd. cbn in Hnd. apply NoDup_cons in Hnd as [Hnd _]. set_solver. }
  pose proof (wf_gap _ Hwf _ _ _ _ Ha Hc Hsorted). lia.
Qed.
