(* ===== verification/NumSet.v ===== *)
(** * NumSet: the interface of the two range sets

    [ArrayRangeSet] (packet numbers) and [RangeSet] (stream offsets) are two
    implementations of one abstract data type, a set of [u64]s updated by
    ranges.  This file states what the type promises as a typeclass, shows that
    both modules implement it, and proves for every implementation that a
    sequence of updates computes the set that the sequence denotes. *)
From S2P Require Import Prelude ArrayRangeSet RangeSet.

Class NumSet (S : Type) := {
  ns_wf : S -> Prop;
  ns_elem : Z -> S -> Prop;
  ns_new : S;
  ns_contains : S -> Z -> bool;
  ns_insert : range -> S -> outcome (S * bool);
  ns_remove : range -> S -> outcome (S * bool);
}.

(** A range of [u64]s. *)
Definition range_ok (x : range) : Prop := 0 <= rstart x /\ rend x <= U64_MAX.

Class NumSetLaws (S : Type) `{NumSet S} : Prop := {
  ns_new_wf : ns_wf ns_new;
  ns_new_elem y : ~ ns_elem y ns_new;
  ns_contains_spec s x : ns_wf s -> ns_contains s x = true <-> ns_elem x s;
  ns_insert_spec x s : ns_wf s -> range_ok x ->
    exists s' r, ns_insert x s = Ret (s', r) /\ ns_wf s' /\
      (forall y, ns_elem y s' <-> ns_elem y s \/ in_range y x) /\
      (r = false <-> forall y, in_range y x -> ns_elem y s);
  ns_remove_spec x s : ns_wf s -> range_ok x ->
    exists s' r, ns_remove x s = Ret (s', r) /\ ns_wf s' /\
      (forall y, ns_elem y s' <-> ns_elem y s /\ ~ in_range y x) /\
      (r = true <-> exists y, in_range y x /\ ns_elem y s);
}.

(** ** The implementations *)

#[export] Instance array_NumSet : NumSet ArrayRangeSet.t := {|
  ns_wf := ArrayRangeSet.wf;
  ns_elem := ArrayRangeSet.elem;
  ns_new := ArrayRangeSet.new;
  ns_contains := ArrayRangeSet.contains;
  ns_insert := fun x s => Ret (ArrayRangeSet.insert x s);
  ns_remove := fun x s => Ret (ArrayRangeSet.remove x s);
|}.

#[export] Instance array_NumSetLaws : NumSetLaws ArrayRangeSet.t.
Proof.
  split; cbn.
  - done.
  - intros y Hy. by apply ArrayRangeSet.elem_nil in Hy.
  - intros s x. apply ArrayRangeSet.array_contains_spec.
  - intros x s Hwf [Hx _]. destruct (ArrayRangeSet.array_insert_spec x s Hwf Hx) as (? & ? & ?).
    destruct (ArrayRangeSet.insert x s). eauto 10.
  - intros x s Hwf _. destruct (ArrayRangeSet.array_remove_spec x s Hwf) as (? & ? & ?).
    destruct (ArrayRangeSet.remove x s). eauto 10.
Qed.

#[export] Instance btree_NumSet : NumSet RangeSet.t := {|
  ns_wf := RangeSet.wf;
  ns_elem := RangeSet.elem;
  ns_new := RangeSet.new;
  ns_contains := RangeSet.contains;
  ns_insert := RangeSet.insert;
  ns_remove := RangeSet.remove;
|}.

#[export] Instance btree_NumSetLaws : NumSetLaws RangeSet.t.
Proof.
  split; cbn.
  - apply RangeSet.wf_empty.
  - intros y (a & b & Hab & _). unfold RangeSet.new in Hab. by simplify_map_eq.
  - intros s x. apply RangeSet.btree_contains_spec.
  - intros x s Hwf [? ?]. by apply RangeSet.btree_insert_spec.
  - intros x s Hwf [? ?]. by apply RangeSet.btree_remove_spec.
Qed.

(** ** Sequences of updates *)

Inductive update := Insert (x : range) | Remove (x : range).
Definition update_range (u : update) : range := match u with Insert x | Remove x => x end.

Definition apply_update {S} `{NumSet S} (u : update) (s : S) : outcome (S * bool) :=
  match u with Insert x => ns_insert x s | Remove x => ns_remove x s end.

Fixpoint run {S} `{NumSet S} (us : list update) (s : S) : outcome (S * list bool) :=
  match us with
  | [] => Ret (s, [])
  | u :: us =>
      let! '(s, r) := apply_update u s in
      let! '(s, rs) := run us s in
      Ret (s, r :: rs)
  end.

(** The set that a sequence denotes. *)
Definition member_after (us : list update) (y : Z) : bool :=
  fold_left (fun acc u => match u with
    | Insert x => acc || range_contains x y
    | Remove x => acc && negb (range_contains x y) end) us false.

Lemma range_contains_false x y : range_contains x y = false <-> ~ in_range y x.
Proof. rewrite <- not_true_iff_false. by rewrite range_contains_spec. Qed.

Lemma apply_update_spec {S} `{NumSetLaws S} u (s : S) (P : Z -> bool) : ns_wf s -> range_ok (update_range u) ->
  (forall y, ns_elem y s <-> P y = true) ->
  exists s' r, apply_update u s = Ret (s', r) /\ ns_wf s' /\
    (forall y, ns_elem y s' <-> match u with
       | Insert x => P y || range_contains x y
       | Remove x => P y && negb (range_contains x y) end = true) /\
    (r = true <-> exists y, in_range y (update_range u) /\
       P y = match u with Insert _ => false | Remove _ => true end).
Proof.
  intros Hwf Hr HP. destruct u as [x|x]; cbn in *.
  - destruct (ns_insert_spec x s Hwf Hr) as (s' & r & He & Hwf' & Hel & Hres).
    exists s', r. split_and!; [done..| |].
    + intros y. by rewrite Hel, HP, orb_true_iff, range_contains_spec.
    + split.
      * intros ->. destruct (range_is_empty x) eqn:Hemp.
        { exfalso. assert (true = false); [|done]. apply Hres. intros y Hy.
          unfold range_is_empty, in_range in *. lia. }
        (* an element of the range is missing: search it *)
        destruct (decide (Forall (fun y => P y = true) (seqZ (rstart x) (rend x - rstart x)))) as [Hall|Hex].
        { exfalso. assert (true = false); [|done]. apply Hres. intros y Hy. rewrite HP.
          rewrite Forall_forall in Hall. apply Hall, elem_of_seqZ. unfold in_range in Hy. lia. }
        apply not_Forall_Exists in Hex; [|apply _]. apply Exists_exists in Hex as (y & Hy & Hn).
        exists y. apply elem_of_seqZ in Hy. unfold in_range. split; [lia|]. by apply not_true_is_false.
      * intros (y & Hy & HPy). destruct r; [done|]. exfalso.
        pose proof (proj1 Hres eq_refl y Hy) as Hys. rewrite HP in Hys. congruence.
  - destruct (ns_remove_spec x s Hwf Hr) as (s' & r & He & Hwf' & Hel & Hres).
    exists s', r. split_and!; [done..| |].
    + intros y. by rewrite Hel, HP, andb_true_iff, negb_true_iff, range_contains_false.
    + rewrite Hres. by setoid_rewrite HP.
Qed.

Lemma run_spec {S} `{NumSetLaws S} us (s : S) (P : Z -> bool) : ns_wf s ->
  Forall (fun u => range_ok (update_range u)) us -> (forall y, ns_elem y s <-> P y = true) ->
  exists s' rs, run us s = Ret (s', rs) /\ ns_wf s' /\
    (forall y, ns_elem y s' <-> fold_left (fun acc u => match u with
       | Insert x => acc || range_contains x y
       | Remove x => acc && negb (range_contains x y) end) us (P y) = true).
Proof.
  revert s P. induction us as [|u us IH]; intros s P Hwf Hus HP; [exists s, []; done|].
  apply Forall_cons in Hus as [Hu Hus].
  destruct (apply_update_spec u s P Hwf Hu HP) as (s' & r & Hs' & Hwf' & HP' & _).
  destruct (IH s' _ Hwf' Hus HP') as (s'' & rs & Hs'' & Hwf'' & HP'').
  exists s'', (r :: rs). cbn [run]. rewrite Hs'. cbn. rewrite Hs''. cbn. split_and!; [done..|].
  intros y. rewrite (HP'' y). cbn. by destruct u.
Qed.

(** The set after an update of the set [P]. *)
Definition member_update (P : Z -> bool) (u : update) : Z -> bool := fun y =>
  match u with Insert x => P y || range_contains x y | Remove x => P y && negb (range_contains x y) end.

(** Whether each of the updates changes the set. *)
Fixpoint changing (us : list update) (P : Z -> bool) (rs : list bool) : Prop :=
  match us, rs with
  | [], [] => True
  | u :: us, r :: rs => (r = true <-> exists y, member_update P u y <> P y) /\ changing us (member_update P u) rs
  | _, _ => False
  end.

Lemma update_changes u P : (exists y, in_range y (update_range u) /\ P y = match u with Insert _ => false | Remove _ => true end) <->
  exists y, member_update P u y <> P y.
Proof.
  split; intros (y & Hy).
  - exists y. destruct Hy as [Hr%range_contains_spec HP]. destruct u; cbn in *; by rewrite HP, Hr.
  - exists y. destruct u as [x|x]; cbn in *; rewrite <- range_contains_spec; by destruct (P y), (range_contains x y).
Qed.

Lemma run_answers {S} `{NumSetLaws S} us (s s' : S) rs (P : Z -> bool) : ns_wf s ->
  Forall (fun u => range_ok (update_range u)) us -> (forall y, ns_elem y s <-> P y = true) -> run us s = Ret (s', rs) -> changing us P rs.
Proof.
  revert s rs P. induction us as [|u us IH]; intros s rs P Hwf Hus HP; cbn [run]; [by intros [= _ <-]|].
  apply Forall_cons in Hus as [Hu Hus]. destruct (apply_update_spec u s P Hwf Hu HP) as (s1 & r & Hs1 & Hwf1 & HP1 & Hr). rewrite Hs1. cbn [obind].
  intros Ha. apply obind_ret in Ha as ([s2 rs2] & Hs2 & Ha). injection Ha as <- <-. split; [by rewrite Hr, update_changes|]. by apply (IH s1).
Qed.

(** Two lists of answers for the same updates agree. *)
Lemma changing_agree us P rs rs' : changing us P rs -> changing us P rs' -> rs = rs'.
Proof.
  revert P rs rs'. induction us as [|u us IH]; intros P [|r rs] [|r' rs']; cbn; try done. intros [Hr Hc] [Hr' Hc'].
  f_equal; [|by eapply IH]. destruct r, r'; try done; [symmetry; by apply Hr', Hr|by apply Hr, Hr'].
Qed.

Lemma run_computes {S} `{NumSetLaws S} (us : list update) : Forall (fun u => range_ok (update_range u)) us ->
  exists s rs, run us (ns_new (S:=S)) = Ret (s, rs) /\ ns_wf s /\ changing us (fun _ => false) rs /\
    forall y, ns_contains s y = member_after us y.
Proof.
  intros Hus. assert (He : forall y, ns_elem y (ns_new (S:=S)) <-> false = true) by (intros y; split; [intros Hy; by destruct (ns_new_elem y)|done]).
  destruct (run_spec us (ns_new (S:=S)) (fun _ => false)) as (s & rs & Hs & Hwf & HP); [apply ns_new_wf|done..|].
  exists s, rs. split_and!; [done..|exact (run_answers us _ s rs _ ns_new_wf Hus He Hs)|]. intros y. apply eq_true_iff_eq. by rewrite ns_contains_spec, HP.
Qed.

(** ** Property *)

(** C33: Both range sets compute sets.  Starting from the empty set, every
    sequence of insertions and removals of ranges of [u64]s runs to completion
    in the array and in the tree, and leaves either well formed.  Afterwards
    [contains] answers, in both, membership in the set that the sequence
    denotes; and each update has answered, in both, whether it changed that
    set. *)
Theorem updates_compute_set (us : list update) : Forall (fun u => range_ok (update_range u)) us ->
  exists (a : ArrayRangeSet.t) (b : RangeSet.t) (rs : list bool),
    run us ArrayRangeSet.new = Ret (a, rs) /\ run us RangeSet.new = Ret (b, rs) /\
    ArrayRangeSet.wf a /\ RangeSet.wf b /\ changing us (fun _ => false) rs /\
    forall y, ArrayRangeSet.contains a y = member_after us y /\ RangeSet.contains b y = member_after us y.
Proof.
  intros Hus. destruct (run_computes (S:=ArrayRangeSet.t) us Hus) as (a & ra & Ha & Hwa & Hca & Hma).
  destruct (run_computes (S:=RangeSet.t) us Hus) as (b & rb & Hb & Hwb & Hcb & Hmb).
  rewrite (changing_agree _ _ _ _ Hcb Hca) in Hb. by exists a, b, ra.
Qed.

Definition sample_updates : list update :=
  [Insert (Range 3 7); Insert (Range 9 12); Remove (Range 5 10); Insert (Range 7 9); Insert (Range 8 9)].

Lemma sample_updates_ok : Forall (fun u => range_ok (update_range u)) sample_updates.
Proof. repeat constructor; unfold range_ok; cbn; unfold U64_MAX, U64; lia. Qed.

Lemma updates_compute_set_witness : Forall (fun u => range_ok (update_range u)) sample_updates /\
  exists a b, run sample_updates ArrayRangeSet.new = Ret (a, [true; true; true; true; false]) /\
    run sample_updates RangeSet.new = Ret (b, [true; true; true; true; false]) /\
    forall y, ArrayRangeSet.contains a y = member_after sample_updates y /\ RangeSet.contains b y = member_after sample_updates y.
Proof.
  split; [exact sample_updates_ok|]. destruct (updates_compute_set sample_updates sample_updates_ok) as (a & b & rs & Ha & Hb & _ & _ & _ & Hm).
  assert (Hrs : rs = [true; true; true; true; false]) by (vm_compute in Ha; by injection Ha as _ <-). subst rs. exists a, b. split; [exact Ha|]. split; [exact Hb|exact Hm].
Defined.
