(* ===== verification/Packet.v ===== *)
(** * Packet: packet numbers and packet headers ([proto/src/packet.rs])

    The truncated packet numbers with their expansion, and the header codec,
    generic over the buffer.  The theorems are the recovery of a packet number
    by the peer, the round trip of headers, and the exact inputs on which
    header decoding panics. *)
From S2P Require Import Prelude Buffers Varint Common.

(** [packet.rs:9-31] *)
Inductive PacketDecodeError :=
| UnsupportedVersion (src_cid dst_cid : ConnectionId) (version : Z)
| UnexpectedEndOfHeader (e : TryGetError)
| ReservedBitsSet
| FixedBitUnset.

(** [packet.rs:33-34], [packet.rs:209-212] *)
Definition LONG_HEADER_FORM : Z := 128.
Definition FIXED_BIT : Z := 64.
Definition SPIN_BIT : Z := 32.
Definition SHORT_RESERVED_BITS : Z := 24.
Definition LONG_RESERVED_BITS : Z := 12.
Definition KEY_PHASE_BIT : Z := 4.

(** [packet.rs:36-43] *)
Inductive LongType := Handshake | ZeroRtt.

(** [packet.rs:45-51] *)
Inductive LongHeaderType := Initial | Retry | Standard (ty : LongType).

(** [packet.rs:53-66] [LongHeaderType::from(u8)] *)
Definition LongHeaderType_from_u8 (b : Z) : outcome LongHeaderType :=
  let! _ := assert (negb (Z.land b LONG_HEADER_FORM =? 0)) in
  let n := Z.shiftr (Z.land b 48) 4 in
  if n =? 0 then Ret Initial
  else if n =? 1 then Ret (Standard ZeroRtt)
  else if n =? 2 then Ret (Standard Handshake)
  else if n =? 3 then Ret Retry
  else Panic.

(** [packet.rs:68-79] [u8::from(LongHeaderType)] *)
Definition LongHeaderType_to_u8 (ty : LongHeaderType) : Z :=
  match ty with
  | Initial => Z.lor LONG_HEADER_FORM FIXED_BIT
  | Standard ZeroRtt => Z.lor (Z.lor LONG_HEADER_FORM FIXED_BIT) (Z.shiftl 1 4)
  | Standard Handshake => Z.lor (Z.lor LONG_HEADER_FORM FIXED_BIT) (Z.shiftl 2 4)
  | Retry => Z.lor (Z.lor LONG_HEADER_FORM FIXED_BIT) (Z.shiftl 3 4)
  end.

(** [packet.rs:81-103]: the spaces index an array of three. *)
Inductive SpaceId := SpInitial | SpHandshake | SpData.
#[export] Instance SpaceId_eq_dec : EqDecision SpaceId.
Proof. solve_decision. Defined.
Definition SpaceId_VARIANTS : list SpaceId := [SpInitial; SpHandshake; SpData].
Definition SpaceId_as_usize (s : SpaceId) : Z :=
  match s with SpInitial => 0 | SpHandshake => 1 | SpData => 2 end.

(** [packet.rs:105-112] *)
Inductive PacketNumber := PnU8 (x : Z) | PnU16 (x : Z) | PnU24 (x : Z) | PnU32 (x : Z).

Module PacketNumber.
(** [packet.rs:115-128] *)
Definition new (n largest_acked : Z) : outcome PacketNumber :=
  let! d := u64_sub n largest_acked in
  let! range := u64_mul d 2 in
  if range <? Z.shiftl 1 8 then Ret (PnU8 (as_u8 n))
  else if range <? Z.shiftl 1 16 then Ret (PnU16 (as_u16 n))
  else if range <? Z.shiftl 1 24 then Ret (PnU24 (as_u32 n))
  else if range <? Z.shiftl 1 32 then Ret (PnU32 (as_u32 n))
  else Panic.

(** [packet.rs:130-139] *)
Definition len (pn : PacketNumber) : Z :=
  match pn with PnU8 _ => 1 | PnU16 _ => 2 | PnU24 _ => 3 | PnU32 _ => 4 end.

(** [packet.rs:163-165] *)
Definition decode_len (tag : Z) : Z := 1 + Z.land tag 3.

(** [packet.rs:167-175] *)
Definition tag (pn : PacketNumber) : Z :=
  match pn with PnU8 _ => 0 | PnU16 _ => 1 | PnU24 _ => 2 | PnU32 _ => 3 end.

Definition value (pn : PacketNumber) : Z :=
  match pn with PnU8 x | PnU16 x | PnU24 x | PnU32 x => x end.

(** [packet.rs:177-206] *)
Definition expand (pn : PacketNumber) (expected : Z) : outcome Z :=
  let truncated := value pn in
  let nbits := len pn * 8 in
  let win := Z.shiftl 1 nbits in
  let hwin := win / 2 in
  let mask := win - 1 in
  let candidate := Z.lor (Z.land expected (Z.lnot mask)) truncated in
  if match checked_sub expected hwin with
     | Some x => candidate <=? x
     | None => false
     end
  then u64_add candidate win
  else
    let! upper := u64_add expected hwin in
    if (upper <? candidate) && (win <? candidate) then u64_sub candidate win
    else Ret candidate.

Section Codec.
Context {B W : Type} `{Buf B} `{BufMut W}.

(** [packet.rs:141-149] *)
Definition encode (pn : PacketNumber) (w : W) : outcome W :=
  match pn with
  | PnU8 x => put_u8 x w
  | PnU16 x => put_u16 x w
  | PnU24 x => put_uint 3 x w
  | PnU32 x => put_u32 x w
  end.

(** [packet.rs:151-161] *)
Definition decode (len : Z) (b : B) : outcome (result (PacketNumber * B) PacketDecodeError) :=
  if len =? 1 then
    let? '(x, b) := try_get_u8 b as UnexpectedEndOfHeader in Ret (Ok (PnU8 x, b))
  else if len =? 2 then
    let? '(x, b) := try_get_u16 b as UnexpectedEndOfHeader in Ret (Ok (PnU16 x, b))
  else if len =? 3 then
    let? '(x, b) := try_get_uint 3 b as UnexpectedEndOfHeader in Ret (Ok (PnU24 (as_u32 x), b))
  else if len =? 4 then
    let? '(x, b) := try_get_u32 b as UnexpectedEndOfHeader in Ret (Ok (PnU32 x, b))
  else Panic.
End Codec.
End PacketNumber.

(** [packet.rs:214-221] *)
Record InitialHeader := {
  ih_dst_cid : ConnectionId;
  ih_src_cid : ConnectionId;
  ih_token : list Z;
  ih_number : PacketNumber;
  ih_version : Z;
}.

(** [packet.rs:229-255] *)
Inductive Header :=
| HInitial (h : InitialHeader)
| HLong (ty : LongType) (dst_cid src_cid : ConnectionId) (number : PacketNumber) (version : Z)
| HRetry (dst_cid src_cid : ConnectionId) (version : Z)
| HShort (spin key_phase : bool) (dst_cid : ConnectionId) (number : PacketNumber)
| HVersionNegotiate (random : Z) (src_cid dst_cid : ConnectionId).

(** [packet.rs:223-227], [packet.rs:488-492]: the payload is the buffer that is
    left when the header has been read. *)
Record InitialPacket (B : Type) := { ip_header : InitialHeader; ip_payload : B }.
Arguments ip_header {B}. Arguments ip_payload {B}.
Record Packet (B : Type) := { header : Header; payload : B }.
Arguments header {B}. Arguments payload {B}.

(** [packet.rs:494-501] *)
Definition Packet_from_initial {B} (p : InitialPacket B) : Packet B :=
  {| header := HInitial (ip_header p); payload := ip_payload p |}.

Module Header.
(** [packet.rs:258-261] *)
Definition is_protected (h : Header) : bool :=
  match h with HRetry _ _ _ | HVersionNegotiate _ _ _ => false | _ => true end.

(** [packet.rs:263-273] *)
Definition number (h : Header) : option PacketNumber :=
  match h with
  | HInitial ih => Some (ih_number ih)
  | HLong _ _ _ n _ => Some n
  | HShort _ _ _ n => Some n
  | _ => None
  end.

(** [packet.rs:275-289] *)
Definition space (h : Header) : SpaceId :=
  match h with
  | HShort _ _ _ _ => SpData
  | HLong ZeroRtt _ _ _ _ => SpData
  | HLong Handshake _ _ _ _ => SpHandshake
  | _ => SpInitial
  end.

(** [packet.rs:291-296] *)
Definition key_phase (h : Header) : bool :=
  match h with HShort _ k _ _ => k | _ => false end.
(** [packet.rs:229-255] derived by [EnumIs] *)
Definition is_short (h : Header) : bool :=
  match h with HShort _ _ _ _ => true | _ => false end.
(** [packet.rs:298-300], [packet.rs:302-310] *)
Definition is_1rtt (h : Header) : bool := is_short h.
Definition is_0rtt (h : Header) : bool :=
  match h with HLong ZeroRtt _ _ _ _ => true | _ => false end.

(** [packet.rs:312-321] *)
Definition dst_cid (h : Header) : ConnectionId :=
  match h with
  | HInitial ih => ih_dst_cid ih
  | HLong _ d _ _ _ => d
  | HRetry d _ _ => d
  | HShort _ _ d _ => d
  | HVersionNegotiate _ _ d => d
  end.

(** [packet.rs:323-330] *)
Definition has_frames (h : Header) : bool :=
  match h with
  | HInitial _ | HLong _ _ _ _ _ | HShort _ _ _ _ => true
  | HRetry _ _ _ | HVersionNegotiate _ _ _ => false
  end.

Section Codec.
Context {B W : Type} `{Buf B} `{BufMut W}.

(** [packet.rs:332-400] *)
Definition encode (h : Header) (out : W) : outcome W :=
  match h with
  | HInitial ih =>
      let! out := put_u8 (Z.lor (LongHeaderType_to_u8 Initial) (PacketNumber.tag (ih_number ih))) out in
      let! out := put_u32 (ih_version ih) out in
      let! out := ConnectionId.encode (ih_dst_cid ih) out in
      let! out := ConnectionId.encode (ih_src_cid ih) out in
      let! out := put_bytes_with_varint_length (ih_token ih) out in
      let! out := put_varint (PacketNumber.len (ih_number ih)) out in
      PacketNumber.encode (ih_number ih) out
  | HLong ty dst_cid src_cid number version =>
      let! out := put_u8 (Z.lor (LongHeaderType_to_u8 (Standard ty)) (PacketNumber.tag number)) out in
      let! out := put_u32 version out in
      let! out := ConnectionId.encode dst_cid out in
      let! out := ConnectionId.encode src_cid out in
      let! out := put_varint (PacketNumber.len number) out in
      PacketNumber.encode number out
  | HRetry dst_cid src_cid version =>
      let! out := put_u8 (LongHeaderType_to_u8 Retry) out in
      let! out := put_u32 version out in
      let! out := ConnectionId.encode dst_cid out in
      ConnectionId.encode src_cid out
  | HShort spin key_phase dst_cid number =>
      let! out := put_u8
        (Z.lor (Z.lor (Z.lor FIXED_BIT (if key_phase then KEY_PHASE_BIT else 0))
          (if spin then SPIN_BIT else 0)) (PacketNumber.tag number)) out in
      let! out := (fun out => let! s := ConnectionId.deref dst_cid in put_slice s out) out in
      PacketNumber.encode number out
  | HVersionNegotiate random src_cid dst_cid =>
      let! out := put_u8 (Z.lor 128 random) out in
      let! out := put_u32 0 out in
      let! out := ConnectionId.encode dst_cid out in
      ConnectionId.encode src_cid out
  end.

(** [packet.rs:402-485] *)
Definition decode (b : B) (cid_len : Z) (supported_versions : list Z)
    : outcome (result (Header * B) PacketDecodeError) :=
  let? '(first, b) := try_get_u8 b as UnexpectedEndOfHeader in
  if Z.land first FIXED_BIT =? 0 then Ret (Err FixedBitUnset)
  else if Z.land first LONG_HEADER_FORM =? 0 then
    if negb (Z.land first SHORT_RESERVED_BITS =? 0) then Ret (Err ReservedBitsSet)
    else
      let spin := negb (Z.land first SPIN_BIT =? 0) in
      let key_phase := negb (Z.land first KEY_PHASE_BIT =? 0) in
      let? '(dst_cid, b) := ConnectionId.from_buf b cid_len as UnexpectedEndOfHeader in
      let? '(number, b) := PacketNumber.decode (PacketNumber.decode_len first) b in
      Ret (Ok (HShort spin key_phase dst_cid number, b))
  else if negb (Z.land first LONG_RESERVED_BITS =? 0) then Ret (Err ReservedBitsSet)
  else
    let! ty := LongHeaderType_from_u8 first in
    let? '(version, b) := try_get_u32 b as UnexpectedEndOfHeader in
    let? '(dst_cid, b) := ConnectionId.decode b as UnexpectedEndOfHeader in
    let? '(src_cid, b) := ConnectionId.decode b as UnexpectedEndOfHeader in
    if version =? 0 then
      let random := Z.land first 127 in
      Ret (Ok (HVersionNegotiate random src_cid dst_cid, b))
    else if negb (bool_decide (version ∈ supported_versions)) then
      Ret (Err (UnsupportedVersion src_cid dst_cid version))
    else
      match ty with
      | Initial =>
          let? '(token, b) := try_get_bytes_with_varint_length b as UnexpectedEndOfHeader in
          let? '(_, b) := try_get_varint b as UnexpectedEndOfHeader in
          let? '(number, b) := PacketNumber.decode (PacketNumber.decode_len first) b in
          Ret (Ok (HInitial {| ih_dst_cid := dst_cid; ih_src_cid := src_cid;
                               ih_token := token; ih_number := number;
                               ih_version := version |}, b))
      | Retry => Ret (Ok (HRetry dst_cid src_cid version, b))
      | Standard ty =>
          let? '(_, b) := try_get_varint b as UnexpectedEndOfHeader in
          let? '(number, b) := PacketNumber.decode (PacketNumber.decode_len first) b in
          Ret (Ok (HLong ty dst_cid src_cid number version, b))
      end.
End Codec.
End Header.

(** ** Packet numbers *)

(** The number as the wire carries it: a 3-byte number keeps 24 bits. *)
Definition pn_wire (pn : PacketNumber) : PacketNumber :=
  match pn with PnU24 x => PnU24 (x mod 2 ^ 24) | _ => pn end.

Definition pn_wf (pn : PacketNumber) : Prop :=
  match pn with
  | PnU8 x => 0 <= x < 2 ^ 8
  | PnU16 x => 0 <= x < 2 ^ 16
  | PnU24 x => 0 <= x < 2 ^ 32
  | PnU32 x => 0 <= x < 2 ^ 32
  end.

Lemma pn_len_bound pn : 1 <= PacketNumber.len pn <= 4.
Proof. destruct pn; simpl; lia. Qed.

(** Which encoding [new] chooses: one whose half window exceeds the distance. *)
Lemma pn_new_spec n la : 0 <= la <= n -> n < 2 ^ 62 -> n - la < 2 ^ 31 ->
  exists pn, PacketNumber.new n la = Ret pn /\ pn_wf pn /\
    PacketNumber.value (pn_wire pn) = n mod 2 ^ (8 * PacketNumber.len pn) /\
    n - la < 2 ^ (8 * PacketNumber.len pn - 1).
Proof.
  intros Hla Hn Hd. unfold PacketNumber.new.
  rewrite u64_sub_ok by lia. cbn [obind]. rewrite u64_mul_ok by u64_lia. cbn [obind].
  assert (forall a b, 0 < b -> 0 <= a mod b < b) as Hm by (intros; by apply Z.mod_pos_bound).
  unfold as_u8, as_u16, as_u32, U8, U16, U32. rewrite !Z.shiftl_mul_pow2, !Z.mul_1_l by lia.
  repeat case_match; try lia;
    (eexists; split; [done|]; cbn [PacketNumber.value PacketNumber.len pn_wire pn_wf Z.mul Pos.mul Z.sub];
     split; [apply Hm; lia|]; split; [|lia]); try done.
  apply Z.mod_mod_divide. exists (2 ^ 8). lia.
Qed.

Lemma land_lnot_ones a k : 0 <= k -> Z.land a (Z.lnot (Z.shiftl 1 k - 1)) = a - a mod 2 ^ k.
Proof.
  intros Hk. rewrite Z.shiftl_1_l, <- Z.land_ones, Z.sub_1_r, <- Z.ones_equiv by done.
  rewrite <- Z.ldiff_land, Z.sub_nocarry_ldiff; [|apply Z.bits_inj'; intros i Hi;
    rewrite Z.ldiff_spec, Z.land_spec, Z.bits_0; by destruct (Z.testbit a i), (Z.testbit (Z.ones k) i)].
  apply Z.bits_inj'. intros i Hi. rewrite !Z.ldiff_spec, Z.land_spec.
  by destruct (Z.testbit a i), (Z.testbit (Z.ones k) i).
Qed.

(** The candidate keeps the high bits of [expected]. *)
Lemma pn_candidate expected v k : 0 <= k -> 0 <= v < 2 ^ k ->
  Z.lor (Z.land expected (Z.lnot (Z.shiftl 1 k - 1))) v = expected - expected mod 2 ^ k + v.
Proof.
  intros Hk Hv. rewrite land_lnot_ones by done.
  assert (expected - expected mod 2 ^ k = (expected / 2 ^ k) * 2 ^ k) as ->.
  { pose proof (Z.div_mod expected (2 ^ k)). lia. }
  by apply lor_disjoint_add.
Qed.

(** A number within half a window of [expected] shares its high part or is one
    window above or below. *)
Lemma window_cases w h qe re qn rn :
  w = 2 * h -> 0 < h -> 0 <= re < w -> 0 <= rn < w ->
  w * qe + re - h < w * qn + rn <= w * qe + re + h ->
  (qn = qe - 1 /\ w * qn = w * qe - w) \/ (qn = qe /\ w * qn = w * qe) \/
  (qn = qe + 1 /\ w * qn = w * qe + w).
Proof.
  intros Hw Hh Hre Hrn Hwin.
  destruct (Z.lt_trichotomy qn qe) as [Hlt|[->|Hlt]]; [left|right; left|right; right].
  - destruct (Z.eq_dec qn (qe - 1)) as [->|]; [split; lia|].
    assert (w * qn <= w * (qe - 2)) by (apply Z.mul_le_mono_nonneg_l; lia). lia.
  - lia.
  - destruct (Z.eq_dec qn (qe + 1)) as [->|]; [split; lia|].
    assert (w * (qe + 2) <= w * qn) by (apply Z.mul_le_mono_nonneg_l; lia). lia.
Qed.

Lemma expand_spec pn expected n :
  let w := 2 ^ (8 * PacketNumber.len pn) in
  PacketNumber.value pn = n mod w -> 0 <= n < 2 ^ 62 -> 0 <= expected < 2 ^ 62 ->
  expected - w / 2 < n <= expected + w / 2 ->
  PacketNumber.expand pn expected = Ret n.
Proof.
  intros w Hv Hn He Hwin. unfold PacketNumber.expand.
  pose proof (pn_len_bound pn) as Hlen.
  rewrite (Z.mul_comm (PacketNumber.len pn) 8).
  assert (Hw : Z.shiftl 1 (8 * PacketNumber.len pn) = w) by (by rewrite Z.shiftl_1_l).
  assert (Hw2 : w = 2 * (w / 2)).
  { subst w. replace (8 * PacketNumber.len pn) with (Z.succ (8 * PacketNumber.len pn - 1)) by lia.
    rewrite Z.pow_succ_r by lia. rewrite (Z.mul_comm 2) at 2. rewrite Z.div_mul by lia. lia. }
  assert (Hwb : 2 ^ 8 <= w <= 2 ^ 32) by (subst w; split; apply Z.pow_le_mono_r; lia).
  rewrite Hv. pose proof (Z.mod_pos_bound n w ltac:(lia)) as Hm.
  rewrite pn_candidate by (subst w; lia). rewrite Hw. fold w.
  pose proof (Z.div_mod expected w ltac:(lia)) as Hde.
  pose proof (Z.mod_pos_bound expected w ltac:(lia)) as Hme.
  pose proof (Z.div_mod n w ltac:(lia)) as Hdn.
  pose proof (Z.div_pos n w ltac:(lia) ltac:(lia)) as Hqn.
  assert (0 <= w * (expected / w)) by (apply Z.mul_nonneg_nonneg; [|apply Z.div_pos]; lia).
  destruct (window_cases w (w / 2) (expected / w) (expected mod w) (n / w) (n mod w)) as
    [[Hq Hc]|[[_ Hc]|[_ Hc]]]; [done|lia..| | |].
  all: unfold checked_sub, u64_add, u64_sub; u64_consts.
  - assert (w * 1 <= w * (expected / w)) by (apply Z.mul_le_mono_nonneg_l; lia).
    clear Hq Hv Hw Hqn. clearbody w. repeat (case_match; simplify_eq; cbn [obind]); try lia; f_equal; lia.
  - clear Hv Hw Hqn. clearbody w. repeat (case_match; simplify_eq; cbn [obind]); try lia; f_equal; lia.
  - clear Hv Hw Hqn. clearbody w. repeat (case_match; simplify_eq; cbn [obind]); try lia; f_equal; lia.
Qed.

Section PnCodec.
Context {B W : Type} `{BufBytes B} `{BufMutLaws W}.

Definition pn_bytes (pn : PacketNumber) : list Z :=
  be_bytes (Z.to_nat (PacketNumber.len pn)) (PacketNumber.value pn).

Lemma emits_pn_encode pn : emits (PacketNumber.encode (W:=W) pn) (pn_bytes pn).
Proof. destruct pn; apply emits_put_uint. Qed.

Lemma zlen_pn_bytes pn : zlen (pn_bytes pn) = PacketNumber.len pn.
Proof. unfold pn_bytes. rewrite zlen_be_bytes. destruct pn; done. Qed.

Lemma be_bytes_mod n v : be_bytes n (v mod 256 ^ Z.of_nat n) = be_bytes n v.
Proof.
  rewrite <- (be_value_be_bytes_mod n v), <- (length_be_bytes n v) at 1.
  rewrite be_bytes_be_value; [done|apply be_bytes_ok].
Qed.

Lemma reads_pn_decode pn : pn_wf pn ->
  reads (B:=B) (PacketNumber.decode (PacketNumber.decode_len (PacketNumber.tag pn)))
    (pn_bytes pn) (pn_wire pn).
Proof.
  intros Hpn b rest Hb. destruct pn as [x|x|x|x]; cbn in Hpn; unfold PacketNumber.decode; cbn.
  - destruct (reads_uint 1 x ltac:(lia) b rest Hb) as (b' & Hb' & ?). unfold try_get_u8.
    change (Z.of_nat 1) with 1 in Hb'. rewrite Hb'. cbn. eauto.
  - destruct (reads_uint 2 x ltac:(lia) b rest Hb) as (b' & Hb' & ?). unfold try_get_u16.
    change (Z.of_nat 2) with 2 in Hb'. rewrite Hb'. cbn. eauto.
  - unfold pn_bytes in Hb. cbn [PacketNumber.value PacketNumber.len] in Hb.
    change (Z.to_nat 3) with 3%nat in Hb.
    rewrite <- be_bytes_mod in Hb. change (256 ^ Z.of_nat 3) with (2 ^ 24) in Hb.
    assert (0 <= x mod 2 ^ 24 < 2 ^ 24) as Hx by (apply Z.mod_pos_bound; lia).
    destruct (reads_uint 3 (x mod 2 ^ 24) Hx b rest Hb) as (b' & Hb' & ?).
    change (Z.of_nat 3) with 3 in Hb'. rewrite Hb'. cbn. exists b'. split; [|done].
    do 4 f_equal. apply Z.mod_small. unfold U32. lia.
  - destruct (reads_uint 4 x ltac:(lia) b rest Hb) as (b' & Hb' & ?). unfold try_get_u32.
    change (Z.of_nat 4) with 4 in Hb'. rewrite Hb'. cbn. eauto.
Qed.

Lemma pn_decode_total len (b : B) : 1 <= len <= 4 ->
  exists r, PacketNumber.decode len b = Ret r.
Proof.
  intros Hl. unfold PacketNumber.decode.
  assert (len = 1 \/ len = 2 \/ len = 3 \/ len = 4) as Hc by lia.
  destruct Hc as [->|[->|[->| ->]]]; cbn [Z.eqb Pos.eqb];
    unfold try_get_u8, try_get_u16, try_get_u32;
    match goal with |- context [try_get_uint ?n b] =>
      destruct (try_get_uint_cases n b) as [(? & -> & _)|[_ ->]]; [lia|..] end; cbn; eauto.
Qed.
End PnCodec.
#[export] Hint Resolve emits_pn_encode : codec.

(** ** Headers *)

(** The headers an endpoint sends: connection identifiers within the limit and
    fields that fit their encoding.  A short header carries no length for its
    connection identifier, the receiver knows it. *)
Definition header_wf (cid_len' : Z) (versions : list Z) (h : Header) : Prop :=
  let long dst src version :=
    cid_wf dst /\ cid_wf src /\ 0 < version < 2 ^ 32 /\ version ∈ versions in
  match h with
  | HInitial ih =>
      long (ih_dst_cid ih) (ih_src_cid ih) (ih_version ih) /\ is_varint (zlen (ih_token ih)) /\
      pn_wf (ih_number ih)
  | HLong _ dst src number version => long dst src version /\ pn_wf number
  | HRetry dst src version => long dst src version
  | HShort _ _ dst number => cid_wf dst /\ cid_len dst = cid_len' /\ pn_wf number
  | HVersionNegotiate random src dst =>
      cid_wf dst /\ cid_wf src /\ 0 <= random < 128 /\
      Z.land random FIXED_BIT <> 0 /\ Z.land random LONG_RESERVED_BITS = 0
  end.

(** The header with its packet number as the wire carries it. *)
Definition header_on_wire (h : Header) : Header :=
  match h with
  | HInitial ih => HInitial {| ih_dst_cid := ih_dst_cid ih; ih_src_cid := ih_src_cid ih;
      ih_token := ih_token ih; ih_number := pn_wire (ih_number ih); ih_version := ih_version ih |}
  | HLong ty dst src number version => HLong ty dst src (pn_wire number) version
  | HShort spin key dst number => HShort spin key dst (pn_wire number)
  | _ => h
  end.

(** The first byte of each header. *)
Definition header_first (h : Header) : Z :=
  match h with
  | HInitial ih => Z.lor (LongHeaderType_to_u8 Initial) (PacketNumber.tag (ih_number ih))
  | HLong ty _ _ number _ => Z.lor (LongHeaderType_to_u8 (Standard ty)) (PacketNumber.tag number)
  | HRetry _ _ _ => LongHeaderType_to_u8 Retry
  | HShort spin key_phase _ number =>
      Z.lor (Z.lor (Z.lor FIXED_BIT (if key_phase then KEY_PHASE_BIT else 0))
        (if spin then SPIN_BIT else 0)) (PacketNumber.tag number)
  | HVersionNegotiate random _ _ => Z.lor 128 random
  end.

Definition header_bytes (h : Header) : list Z :=
  be_bytes 1 (header_first h) ++
  match h with
  | HInitial ih => be_bytes 4 (ih_version ih) ++ cid_wire (ih_dst_cid ih) ++
      cid_wire (ih_src_cid ih) ++ (varint_bytes (zlen (ih_token ih)) ++ ih_token ih) ++
      varint_bytes (PacketNumber.len (ih_number ih)) ++ pn_bytes (ih_number ih)
  | HLong _ dst src number version => be_bytes 4 version ++ cid_wire dst ++ cid_wire src ++
      varint_bytes (PacketNumber.len number) ++ pn_bytes number
  | HRetry dst src version => be_bytes 4 version ++ cid_wire dst ++ cid_wire src
  | HShort _ _ dst number => take (Z.to_nat (cid_len dst)) (cid_bytes dst) ++ pn_bytes number
  | HVersionNegotiate _ src dst => be_bytes 4 0 ++ cid_wire dst ++ cid_wire src
  end.

(** The bits of the first byte of a version negotiation packet. *)
Lemma vn_first random : 0 <= random < 128 -> Z.land random FIXED_BIT <> 0 ->
  Z.land random LONG_RESERVED_BITS = 0 ->
  0 <= Z.lor 128 random < 256 /\ (Z.land (Z.lor 128 random) FIXED_BIT =? 0) = false /\
  (Z.land (Z.lor 128 random) LONG_HEADER_FORM =? 0) = false /\
  (Z.land (Z.lor 128 random) LONG_RESERVED_BITS =? 0) = true /\
  (exists ty, LongHeaderType_from_u8 (Z.lor 128 random) = Ret ty) /\
  Z.land (Z.lor 128 random) 127 = random.
Proof.
  intros Hr. revert random Hr.
  assert (Hall : Forall (fun random => Z.land random FIXED_BIT <> 0 ->
    Z.land random LONG_RESERVED_BITS = 0 ->
    0 <= Z.lor 128 random < 256 /\ (Z.land (Z.lor 128 random) FIXED_BIT =? 0) = false /\
    (Z.land (Z.lor 128 random) LONG_HEADER_FORM =? 0) = false /\
    (Z.land (Z.lor 128 random) LONG_RESERVED_BITS =? 0) = true /\
    (exists ty, LongHeaderType_from_u8 (Z.lor 128 random) = Ret ty) /\
    Z.land (Z.lor 128 random) 127 = random) (seqZ 0 128)).
  { vm_compute seqZ. repeat constructor; try (vm_compute; done); try lia.
    all: try (vm_compute in *; congruence). all: eexists; reflexivity. }
  intros random Hr. rewrite Forall_forall in Hall. apply Hall. apply elem_of_seqZ. lia.
Qed.

Section HeaderCodec.
Context {B W : Type} `{BufBytes B} `{BufMutLaws W}.

Lemma pn_len_varint pn : is_varint (PacketNumber.len pn).
Proof. pose proof (pn_len_bound pn). varint_lia. Qed.
Hint Resolve pn_len_varint : codec.

Lemma emits_header cid_len' versions h : header_wf cid_len' versions h ->
  emits (Header.encode (W:=W) h) (header_bytes h).
Proof.
  destruct h as [ih|ty dst src number version|dst src version|spin key dst number|random src dst];
    cbn [header_wf Header.encode]; unfold header_bytes; intros Hwf;
    repeat match goal with H : _ /\ _ |- _ => destruct H end;
    unfold Header.encode; emits_tac. intros w.
  destruct (cid_wf_take dst) as (l & -> & -> & _); [done|]. apply emits_put_slice.
Qed.

(** What the decoder extracts from the first byte of each kind of header. *)
Definition first_facts (h : Header) : Prop :=
  let first := header_first h in
  0 <= first < 2 ^ 8 /\ (Z.land first FIXED_BIT =? 0) = false /\
  match h with
  | HShort spin key _ number =>
      (Z.land first LONG_HEADER_FORM =? 0) = true /\
      (Z.land first SHORT_RESERVED_BITS =? 0) = true /\
      negb (Z.land first SPIN_BIT =? 0) = spin /\ negb (Z.land first KEY_PHASE_BIT =? 0) = key /\
      PacketNumber.decode_len first = PacketNumber.decode_len (PacketNumber.tag number)
  | _ =>
      (Z.land first LONG_HEADER_FORM =? 0) = false /\
      (Z.land first LONG_RESERVED_BITS =? 0) = true /\
      match h with
      | HInitial ih => LongHeaderType_from_u8 first = Ret Initial /\
          PacketNumber.decode_len first = PacketNumber.decode_len (PacketNumber.tag (ih_number ih))
      | HLong ty _ _ number _ => LongHeaderType_from_u8 first = Ret (Standard ty) /\
          PacketNumber.decode_len first = PacketNumber.decode_len (PacketNumber.tag number)
      | HRetry _ _ _ => LongHeaderType_from_u8 first = Ret Retry
      | HVersionNegotiate random _ _ =>
          (exists ty, LongHeaderType_from_u8 first = Ret ty) /\ Z.land first 127 = random
      | HShort _ _ _ _ => True
      end
  end.

Lemma header_first_facts h cid_len' versions : header_wf cid_len' versions h -> first_facts h.
Proof.
  unfold first_facts.
  destruct h as [ih|ty dst src number version|dst src version|spin key dst number|random src dst];
    cbn [header_wf header_first].
  - intros _. destruct (ih_number ih); vm_compute; done.
  - intros _. destruct number, ty; vm_compute; done.
  - intros _. vm_compute. done.
  - intros _. destruct number, spin, key; vm_compute; done.
  - intros (_ & _ & Hr & Hf & Hres).
    destruct (vn_first random Hr Hf Hres) as (? & ? & ? & ? & ? & ?). done.
Qed.

Lemma reads_header cid_len' versions h : header_wf cid_len' versions h ->
  reads (B:=B) (fun b => Header.decode b cid_len' versions) (header_bytes h) (header_on_wire h).
Proof.
  intros Hwf b rest Hb. unfold header_bytes in Hb. rewrite <- app_assoc in Hb.
  unfold Header.decode.
  destruct (header_first_facts _ _ _ Hwf) as (Hf & Hfix & Hbits).
  read_step (reads_u8 _ Hf). clear Hf. rewrite Hfix.
  destruct h as [ih|ty dst src number version|dst src version|spin key dst number|random src dst];
    cbn [header_wf] in Hwf; cbn [header_on_wire]; rewrite <- ?app_assoc in Hv.
  - destruct Hbits as (-> & -> & -> & ->), Hwf as ((Hdst & Hsrc & Hver & Hin) & Htok & Hpn).
    cbn [obind negb].
    read_step (reads_u32 (ih_version ih) ltac:(lia)). read_step (reads_cid_decode _ Hdst).
    read_step (reads_cid_decode _ Hsrc). destruct (Z.eqb_spec (ih_version ih) 0); [lia|].
    rewrite bool_decide_eq_true_2 by done. cbn [negb].
    rewrite (app_assoc (varint_bytes _) (ih_token ih)) in * |-.
    read_step (reads_bytes_with_varint_length _ Htok).
    read_step (reads_varint _ (pn_len_varint (ih_number ih))).
    read_step (reads_pn_decode _ Hpn). eauto.
  - destruct Hbits as (-> & -> & -> & ->), Hwf as ((Hdst & Hsrc & Hver & Hin) & Hpn).
    cbn [obind negb].
    read_step (reads_u32 version ltac:(lia)). read_step (reads_cid_decode _ Hdst).
    read_step (reads_cid_decode _ Hsrc). destruct (Z.eqb_spec version 0); [lia|].
    rewrite bool_decide_eq_true_2 by done. cbn [negb].
    read_step (reads_varint _ (pn_len_varint number)). read_step (reads_pn_decode _ Hpn). eauto.
  - destruct Hbits as (-> & -> & ->), Hwf as (Hdst & Hsrc & Hver & Hin). cbn [obind negb].
    read_step (reads_u32 version ltac:(lia)). read_step (reads_cid_decode _ Hdst).
    read_step (reads_cid_decode _ Hsrc). destruct (Z.eqb_spec version 0); [lia|].
    rewrite bool_decide_eq_true_2 by done. cbn [negb]. eauto.
  - destruct Hbits as (-> & -> & -> & -> & ->), Hwf as (Hdst & Hlen & Hpn). cbn [negb].
    destruct (cid_wf_take dst Hdst) as (l & Hd & Ht & Hl & _). rewrite Ht in *.
    subst cid_len'. rewrite <- Hl.
    read_step (reads_cid_from_buf dst l Hdst Hd). read_step (reads_pn_decode _ Hpn). eauto.
  - destruct Hbits as (-> & -> & [ty ->] & ->), Hwf as (Hdst & Hsrc & Hr & _). cbn [obind negb].
    read_step (reads_u32 0 ltac:(lia)). read_step (reads_cid_decode _ Hdst).
    read_step (reads_cid_decode _ Hsrc). cbn. eauto.
Qed.
End HeaderCodec.

(** ** Decoding arbitrary bytes *)

(** A long header whose destination or source connection identifier announces
    more than [MAX_CID_SIZE] bytes. *)
Definition oversized_cid (l : list Z) : bool :=
  match l with
  | [] => false
  | first :: l =>
      negb (Z.land first FIXED_BIT =? 0) && negb (Z.land first LONG_HEADER_FORM =? 0) &&
      (Z.land first LONG_RESERVED_BITS =? 0) && (4 <=? zlen l) &&
      match drop 4 l with
      | [] => false
      | n :: l' => (MAX_CID_SIZE <? n) ||
          ((n <=? zlen l') &&
           match drop (Z.to_nat n) l' with m :: _ => MAX_CID_SIZE <? m | [] => false end)
      end
  end.

Section Totality.
Context {B : Type} `{BufBytes B}.

(** What follows the connection identifiers of a long header never panics. *)
Lemma decode_long_tail_total (ty : LongHeaderType) first (dst src : ConnectionId) version (b : B) :
  exists r,
    match ty with
    | Initial =>
        let? '(token, b) := try_get_bytes_with_varint_length b as UnexpectedEndOfHeader in
        let? '(_, b) := try_get_varint b as UnexpectedEndOfHeader in
        let? '(number, b) := PacketNumber.decode (PacketNumber.decode_len first) b in
        Ret (Ok (HInitial {| ih_dst_cid := dst; ih_src_cid := src; ih_token := token;
                             ih_number := number; ih_version := version |}, b))
    | Retry => Ret (Ok (HRetry dst src version, b))
    | Standard ty =>
        let? '(_, b) := try_get_varint b as UnexpectedEndOfHeader in
        let? '(number, b) := PacketNumber.decode (PacketNumber.decode_len first) b in
        Ret (Ok (HLong ty dst src number version, b))
    end = Ret r.
Proof.
  assert (Hl : 1 <= PacketNumber.decode_len first <= 4).
  { unfold PacketNumber.decode_len. change 3 with (Z.ones 2). rewrite Z.land_ones by lia.
    pose proof (Z.mod_pos_bound first (2 ^ 2) ltac:(lia)). lia. }
  assert (Hpn : forall b : B, exists r, PacketNumber.decode (PacketNumber.decode_len first) b = Ret r).
  { intros. by apply pn_decode_total. }
  destruct ty; cbn.
  - destruct (try_get_bytes_cases b) as [(l & b1 & u & -> & _)|[e ->]]; cbn; [|by eauto].
    destruct (try_get_varint_cases b1) as [(v & b2 & u2 & -> & _)|(e & -> & _)]; cbn; [|by eauto].
    destruct (Hpn b2) as [[[pn b3]|e] ->]; cbn; eauto.
  - eauto.
  - destruct (try_get_varint_cases b) as [(v & b2 & u2 & -> & _)|(e & -> & _)]; cbn; [|by eauto].
    destruct (Hpn b2) as [[[pn b3]|e] ->]; cbn; eauto.
Qed.

Lemma from_u8_total first : (Z.land first LONG_HEADER_FORM =? 0) = false ->
  exists ty, LongHeaderType_from_u8 first = Ret ty.
Proof.
  intros Hf. unfold LongHeaderType_from_u8. rewrite Hf. cbn [negb assert obind].
  assert (0 <= Z.shiftr (Z.land first 48) 4 < 4) as Hr.
  { replace (Z.shiftr (Z.land first 48) 4) with (Z.land (Z.shiftr first 4) (Z.ones 2)).
    - rewrite Z.land_ones by lia. apply Z.mod_pos_bound. lia.
    - by rewrite Z.shiftr_land. }
  repeat case_match; try lia; eauto.
Qed.

Lemma header_decode_cases (b : B) cid_len' versions : 0 <= cid_len' <= MAX_CID_SIZE ->
  if oversized_cid (view b) then Header.decode b cid_len' versions = Panic
  else exists r, Header.decode b cid_len' versions = Ret r.
Proof.
  intros Hc. unfold Header.decode, oversized_cid. pose proof (try_get_u8_cases b) as Hg.
  destruct (view b) as [|first l]; destruct Hg as [b1 Hg]; [rewrite Hg; cbn; eauto|].
  destruct Hg as (Hg & Hv1 & _). rewrite Hg. cbn [rbind].
  destruct (Z.land first FIXED_BIT =? 0); cbn [negb andb]; [by eauto|].
  destruct (Z.land first LONG_HEADER_FORM =? 0) eqn:Hform; cbn [negb andb].
  - destruct (Z.land first SHORT_RESERVED_BITS =? 0); cbn [negb]; [|by eauto].
    assert (1 <= PacketNumber.decode_len first <= 4).
    { unfold PacketNumber.decode_len. change 3 with (Z.ones 2). rewrite Z.land_ones by lia.
      pose proof (Z.mod_pos_bound first (2 ^ 2) ltac:(lia)). lia. }
    destruct (from_buf_cases b1 cid_len' ltac:(lia)) as
      [(_ & cid & b2 & -> & _)|[(_ & _ & e & ->)|[? _]]]; [|by cbn; eauto|lia]. cbn.
    destruct (pn_decode_total (PacketNumber.decode_len first) b2) as [[[pn b3]|e] ->]; [done|..];
      cbn; eauto.
  - destruct (Z.land first LONG_RESERVED_BITS =? 0); cbn [negb andb]; [|by eauto].
    destruct (from_u8_total first Hform) as [ty ->]. cbn [obind].
    destruct (try_get_uint_cases 4 b1 ltac:(lia)) as [(b2 & Hg2 & Hl2 & Hv2)|[Hl2 Hg2]];
      change (try_get_uint 4 b1) with (try_get_u32 b1) in Hg2; rewrite Hg2, Hv1 in *;
      [|destruct (Z.leb_spec 4 (zlen l)); [lia|cbn; by eauto]].
    destruct (Z.leb_spec 4 (zlen l)); [|lia]. cbn [andb rbind].
    pose proof (cid_decode_cases b2) as Hc2. change (Z.to_nat 4) with 4%nat in Hv2. rewrite Hv2 in Hc2.
    destruct (drop 4 l) as [|n l']; [destruct Hc2 as [e ->]; cbn; by eauto|].
    destruct (MAX_CID_SIZE <? n); [by rewrite Hc2|]. cbn [orb].
    destruct (n <=? zlen l'); cbn [andb]; [|destruct Hc2 as [e ->]; cbn; by eauto].
    destruct Hc2 as (dst & b3 & -> & Hv3 & _). cbn [rbind].
    pose proof (cid_decode_cases b3) as Hc3. rewrite Hv3 in Hc3.
    destruct (drop (Z.to_nat n) l') as [|m l3]; [destruct Hc3 as [e ->]; cbn; by eauto|].
    destruct (MAX_CID_SIZE <? m); [by rewrite Hc3|].
    assert (Hok : (exists e, ConnectionId.decode b3 = Ret (Err e)) \/
      exists src b4, ConnectionId.decode b3 = Ret (Ok (src, b4))).
    { destruct (m <=? zlen l3); [destruct Hc3 as (? & ? & ? & _); eauto|by left]. }
    destruct Hok as [[e ->]|(src & b4 & ->)]; cbn [rbind]; [by eauto|].
    match goal with |- context [?v =? 0] => destruct (v =? 0) end; [by eauto|].
    match goal with |- context [negb (bool_decide ?P)] => destruct (bool_decide P) end; cbn [negb];
      [|by eauto]. apply decode_long_tail_total.
Qed.
End Totality.

(** The packet number that a header carries fits its encoding. *)
Section HeaderNumber.
Context {B : Type} `{BufBytes B}.

Lemma try_get_uint_bound n (b b' : B) x : 0 <= n -> try_get_uint n b = Ret (Ok (x, b')) -> 0 <= x < 256 ^ n.
Proof.
  intros Hn Hx. destruct (try_get_uint_cases n b Hn) as [(b1 & Hg & Hlen & _)|[_ Hg]]; rewrite Hg in Hx; simplify_eq.
  pose proof (view_ok b) as Hok. assert (bytes_ok (take (Z.to_nat n) (view b))) as Ht by (by apply Forall_take).
  apply be_value_bound in Ht. rewrite zlen_take in Ht by lia. done.
Qed.

Lemma pn_decode_bound len (b b' : B) pn : PacketNumber.decode len b = Ret (Ok (pn, b')) ->
  0 <= PacketNumber.value pn < 2 ^ (8 * PacketNumber.len pn).
Proof.
  unfold PacketNumber.decode. intros Hd.
  destruct (len =? 1); [|destruct (len =? 2); [|destruct (len =? 3); [|destruct (len =? 4); [|done]]]];
    apply rbind_ok in Hd as ([x b1] & Hx & Hd); injection Hd as <- <-; apply try_get_uint_bound in Hx; cbn in *; try lia.
  unfold as_u32. rewrite Z.mod_small by (unfold U32; lia). lia.
Qed.

Lemma header_number_bound (b b' : B) n vs h pn : Header.decode b n vs = Ret (Ok (h, b')) -> Header.number h = Some pn ->
  0 <= PacketNumber.value pn < 2 ^ (8 * PacketNumber.len pn).
Proof.
  unfold Header.decode. intros Hd Hn. apply rbind_ok in Hd as ([first b1] & _ & Hd).
  destruct (_ =? 0); [done|]. destruct (_ =? 0).
  - destruct (negb _); [done|]. apply rbind_ok in Hd as ([cid b2] & _ & Hd). apply rbind_ok in Hd as ([x b3] & Hx & Hd).
    simplify_eq. cbn in Hn. injection Hn as ->. by eapply pn_decode_bound.
  - destruct (negb _); [done|]. apply obind_ret in Hd as (ty & _ & Hd). apply rbind_ok in Hd as ([v b2] & _ & Hd).
    apply rbind_ok in Hd as ([dst b3] & _ & Hd). apply rbind_ok in Hd as ([src b4] & _ & Hd).
    destruct (v =? 0); [by simplify_eq|]. destruct (negb _); [done|]. destruct ty.
    + apply rbind_ok in Hd as ([tk b5] & _ & Hd). apply rbind_ok in Hd as ([l b6] & _ & Hd).
      apply rbind_ok in Hd as ([x b7] & Hx & Hd). simplify_eq. cbn in Hn. injection Hn as ->. by eapply pn_decode_bound.
    + by simplify_eq.
    + apply rbind_ok in Hd as ([l b6] & _ & Hd). apply rbind_ok in Hd as ([x b7] & Hx & Hd). simplify_eq.
      cbn in Hn. injection Hn as ->. by eapply pn_decode_bound.
Qed.
End HeaderNumber.

(** ** Properties *)

(** C31: a header the endpoint can send is written to any buffer as one byte
    string (the writer panics exactly when that string does not fit), and
    decoding that string, whatever payload follows it, gives back the same
    header, with the packet number as truncated on the wire, and leaves the
    payload. *)
Theorem header_roundtrip {B W : Type} `{BufLaws B} `{BufMutLaws W} cid_len' versions (h : Header) :
  header_wf cid_len' versions h ->
  exists bs, emits (W:=W) (Header.encode h) bs /\
    reads (B:=B) (fun b => Header.decode b cid_len' versions) bs (header_on_wire h).
Proof. intros Hwf. exists (header_bytes h). split; [by eapply emits_header|by apply reads_header]. Qed.

Definition sample_cid : ConnectionId :=
  {| cid_len := 8; cid_bytes := [1; 2; 3; 4; 5; 6; 7; 8] ++ replicate 12 0 |}.
Definition sample_header : Header :=
  HInitial {| ih_dst_cid := sample_cid; ih_src_cid := sample_cid; ih_token := [9; 9];
              ih_number := PnU16 513; ih_version := 1 |}.

Lemma sample_cid_wf : cid_wf sample_cid.
Proof.
  unfold cid_wf, sample_cid; cbn. split; [unfold MAX_CID_SIZE; lia|]. split.
  - repeat constructor; unfold is_byte, U8; lia.
  - exists [1; 2; 3; 4; 5; 6; 7; 8]. done.
Qed.

Lemma header_roundtrip_witness :
  header_wf 8 [1] sample_header /\
  exists bs, emits (W:=slice_buf) (Header.encode sample_header) bs /\
    reads (B:=in_memory) (fun b => Header.decode b 8 [1]) bs (header_on_wire sample_header).
Proof.
  assert (Hwf : header_wf 8 [1] sample_header).
  { pose proof sample_cid_wf. cbn. split_and!; try done; try lia; try set_solver. }
  exact (conj Hwf (header_roundtrip (B:=in_memory) (W:=slice_buf) 8 [1] sample_header Hwf)).
Defined.

(** Decoding a header from arbitrary bytes panics exactly on a long header
    that announces a connection identifier of more than 20 bytes; every other
    byte string gives a header or an error. *)
Theorem header_decode_panics {B : Type} `{BufBytes B} (b : B) cid_len' versions :
  0 <= cid_len' <= MAX_CID_SIZE ->
  (Header.decode b cid_len' versions = Panic <-> oversized_cid (view b) = true).
Proof.
  intros Hc. pose proof (header_decode_cases b cid_len' versions Hc) as Hd.
  destruct (oversized_cid (view b)); [tauto|]. destruct Hd as [r Hr]. rewrite Hr. done.
Qed.

Definition oversized_packet : in_memory := InMemory ([192; 0; 0; 0; 1; 21] ++ replicate 30 7) eq_refl.

Lemma header_decode_panics_witness :
  0 <= 8 <= MAX_CID_SIZE /\ Header.decode oversized_packet 8 [1] = Panic.
Proof.
  assert (Hc : 0 <= 8 <= MAX_CID_SIZE) by (unfold MAX_CID_SIZE; lia).
  split; [exact Hc|]. apply (proj2 (header_decode_panics oversized_packet 8 [1] Hc)). reflexivity.
Defined.

(** Packet number truncation is inverted.  A number less than 2^31 above
    the largest acknowledged one is always encoded; the bytes decode, with the
    length announced in the first byte, to a truncated number that expands to
    the original one at every receiver that has received the largest
    acknowledged packet and is less than half a window ahead. *)
Theorem packet_number_roundtrip {B W : Type} `{BufLaws B} `{BufMutLaws W} n la :
  0 <= la <= n -> n < 2 ^ 62 -> n - la < 2 ^ 31 ->
  exists pn bs pn', PacketNumber.new n la = Ret pn /\
    emits (W:=W) (PacketNumber.encode pn) bs /\ zlen bs = PacketNumber.len pn /\
    reads (B:=B) (PacketNumber.decode (PacketNumber.decode_len (PacketNumber.tag pn))) bs pn' /\
    forall expected, la <= expected < 2 ^ 62 ->
      expected - n < 2 ^ (8 * PacketNumber.len pn - 1) ->
      PacketNumber.expand pn' expected = Ret n.
Proof.
  intros Hla Hn Hd. destruct (pn_new_spec n la Hla Hn Hd) as (pn & Hnew & Hwf & Hval & Hwin).
  assert (Hl : PacketNumber.len (pn_wire pn) = PacketNumber.len pn) by (by destruct pn).
  exists pn, (pn_bytes pn), (pn_wire pn).
  split; [done|]. split; [apply emits_pn_encode|]. split; [apply zlen_pn_bytes|].
  split; [by apply reads_pn_decode|]. intros expected He Hahead.
  pose proof (pn_len_bound pn).
  assert (Hh : 2 ^ (8 * PacketNumber.len pn) / 2 = 2 ^ (8 * PacketNumber.len pn - 1)).
  { replace (8 * PacketNumber.len pn) with (Z.succ (8 * PacketNumber.len pn - 1)) at 1 by lia.
    rewrite Z.pow_succ_r, Z.mul_comm, Z.div_mul by lia. done. }
  apply expand_spec; rewrite ?Hl; [done|lia|lia|]. rewrite Hh. lia.
Qed.

Lemma packet_number_roundtrip_witness :
  (0 <= 44158320 <= 44159000 /\ 44159000 < 2 ^ 62 /\ 44159000 - 44158320 < 2 ^ 31) /\
  exists pn bs pn', PacketNumber.new 44159000 44158320 = Ret pn /\
    emits (W:=slice_buf) (PacketNumber.encode pn) bs /\ zlen bs = PacketNumber.len pn /\
    reads (B:=in_memory) (PacketNumber.decode (PacketNumber.decode_len (PacketNumber.tag pn))) bs pn' /\
    forall expected, 44158320 <= expected < 2 ^ 62 ->
      expected - 44159000 < 2 ^ (8 * PacketNumber.len pn - 1) ->
      PacketNumber.expand pn' expected = Ret 44159000.
Proof.
  split; [lia|].
  apply (packet_number_roundtrip (B:=in_memory) (W:=slice_buf) 44159000 44158320); lia.
Defined.
