(* ===== verification/Frame.v ===== *)
(** * Frame: QUIC frames ([proto/src/frame.rs])

    The frames, their encoders, the frame parser of received packets and the
    iterator over the ranges of an ACK frame. *)
From S2P Require Import Prelude Buffers Varint Common ArrayRangeSet.

(** ** Frame types *)

(** [frame.rs:129-130] *)
Definition STREAM_TYS : Z * Z := (8, 15).
Definition DATAGRAM_TYS : Z * Z := (48, 49).
Definition ty_in (tys : Z * Z) (ty : FrameType) : bool := (tys.1 <=? ty) && (ty <=? tys.2).

(** [frame.rs:98-127] *)
Module FrameType.
Definition PADDING : FrameType := 0.
Definition PING : FrameType := 1.
Definition ACK : FrameType := 2.
Definition ACK_ECN : FrameType := 3.
Definition RESET_STREAM : FrameType := 4.
Definition STOP_SENDING : FrameType := 5.
Definition CRYPTO : FrameType := 6.
Definition NEW_TOKEN : FrameType := 7.
Definition MAX_DATA : FrameType := 16.
Definition MAX_STREAM_DATA : FrameType := 17.
Definition MAX_STREAMS_BIDI : FrameType := 18.
Definition MAX_STREAMS_UNI : FrameType := 19.
Definition DATA_BLOCKED : FrameType := 20.
Definition STREAM_DATA_BLOCKED : FrameType := 21.
Definition STREAMS_BLOCKED_BIDI : FrameType := 22.
Definition STREAMS_BLOCKED_UNI : FrameType := 23.
Definition NEW_CONNECTION_ID : FrameType := 24.
Definition RETIRE_CONNECTION_ID : FrameType := 25.
Definition PATH_CHALLENGE : FrameType := 26.
Definition PATH_RESPONSE : FrameType := 27.
Definition TRANSPORT_CLOSE : FrameType := 28.
Definition APPLICATION_CLOSE : FrameType := 29.
Definition HANDSHAKE_DONE : FrameType := 30.
Definition IMMEDIATE_ACK : FrameType := 31.
Definition ACK_FREQUENCY : FrameType := 175.

(** [frame.rs:18-34] [FrameType::stream] and [FrameType::datagram]: the type as a [u8] *)
Definition stream (ty : FrameType) : option Z :=
  if ty_in STREAM_TYS ty then Some (as_u8 ty) else None.

Definition datagram (ty : FrameType) : option Z :=
  if ty_in DATAGRAM_TYS ty then Some (as_u8 ty) else None.
End FrameType.

(** [frame.rs:72-87] *)
Definition StreamInfo_fin (x : Z) : bool := negb (Z.land x 1 =? 0).
Definition StreamInfo_len (x : Z) : bool := negb (Z.land x 2 =? 0).
Definition StreamInfo_off (x : Z) : bool := negb (Z.land x 4 =? 0).

(** [frame.rs:89-96] *)
Definition DatagramInfo_len (x : Z) : bool := negb (Z.land x 1 =? 0).

(** ** Frames *)

(** [frame.rs:301-306] *)
Record EcnCounts := { ect0 : Z; ect1 : Z; ce : Z }.

(** [frame.rs:204-210] *)
Record Ack := { ack_largest : Z; ack_delay : Z; ack_additional : list Z; ack_ecn : option EcnCounts }.

(** [frame.rs:338-343] *)
Record ResetStream := { rs_id : StreamId; rs_error_code : Z; rs_final_offset : Z }.

(** [frame.rs:356-360] *)
Record StopSending := { ss_id : StreamId; ss_error_code : Z }.

(** [frame.rs:372-376] *)
Record Crypto := { crypto_offset : Z; crypto_data : list Z }.

(** [frame.rs:389-392] *)
Record NewToken := { token : list Z }.

(** [frame.rs:406-412] *)
Record Stream := { st_id : StreamId; st_offset : Z; st_fin : bool; st_data : list Z }.

(** [frame.rs:418-424] *)
Record StreamMeta := { sm_id : StreamId; sm_offsets : range; sm_fin : bool }.

(** [frame.rs:449-455] *)
Record NewConnectionId := {
  nc_sequence : Z; nc_retire_prior_to : Z; nc_id : ConnectionId; nc_reset_token : ResetToken }.

(** [frame.rs:500-509] *)
Record TransportClose := {
  tc_error_code : TransportErrorCode; tc_frame_type : option FrameType; tc_reason : list Z }.

(** [frame.rs:546-553] *)
Record ApplicationClose := { ac_error_code : Z; ac_reason : list Z }.

(** [frame.rs:467-471] *)
Inductive ConnectionClose :=
| Transport (c : TransportClose)
| Application (c : ApplicationClose).

(** [frame.rs:581-586] *)
Record Datagram := { dg_data : list Z }.

(** [frame.rs:608-614] *)
Record AckFrequency := {
  af_sequence : Z; af_ack_eliciting_threshold : Z; af_request_max_ack_delay : Z;
  af_reordering_threshold : Z }.

(** [frame.rs:132-156] *)
Inductive Frame :=
| Padding
| Ping
| FAck (a : Ack)
| FResetStream (r : ResetStream)
| FStopSending (s : StopSending)
| FCrypto (c : Crypto)
| FNewToken (t : NewToken)
| FStream (s : Stream)
| MaxData (limit : Z)
| MaxStreamData (id : StreamId) (limit : Z)
| MaxStreams (dir : Dir) (count : Z)
| DataBlocked (limit : Z)
| StreamDataBlocked (id : StreamId) (limit : Z)
| StreamsBlocked (dir : Dir) (limit : Z)
| FNewConnectionId (c : NewConnectionId)
| RetireConnectionId (sequence : Z)
| PathChallenge (x : Z)
| PathResponse (x : Z)
| Close (c : ConnectionClose)
| FDatagram (d : Datagram)
| ImmediateAck
| HandshakeDone.

(** [frame.rs:159-197] *)
Definition Frame_ty (f : Frame) : FrameType :=
  match f with
  | Padding => FrameType.PADDING
  | FResetStream _ => FrameType.RESET_STREAM
  | Close (Transport _) => FrameType.TRANSPORT_CLOSE
  | Close (Application _) => FrameType.APPLICATION_CLOSE
  | MaxData _ => FrameType.MAX_DATA
  | MaxStreamData _ _ => FrameType.MAX_STREAM_DATA
  | MaxStreams Bi _ => FrameType.MAX_STREAMS_BIDI
  | MaxStreams Uni _ => FrameType.MAX_STREAMS_UNI
  | Ping => FrameType.PING
  | DataBlocked _ => FrameType.DATA_BLOCKED
  | StreamDataBlocked _ _ => FrameType.STREAM_DATA_BLOCKED
  | StreamsBlocked Bi _ => FrameType.STREAMS_BLOCKED_BIDI
  | StreamsBlocked Uni _ => FrameType.STREAMS_BLOCKED_UNI
  | FStopSending _ => FrameType.STOP_SENDING
  | RetireConnectionId _ => FrameType.RETIRE_CONNECTION_ID
  | FAck _ => FrameType.ACK
  | FStream x =>
      let ty := STREAM_TYS.1 in
      let ty := if st_fin x then Z.lor ty 1 else ty in
      if negb (st_offset x =? 0) then Z.lor ty 4 else ty
  | PathChallenge _ => FrameType.PATH_CHALLENGE
  | PathResponse _ => FrameType.PATH_RESPONSE
  | FNewConnectionId _ => FrameType.NEW_CONNECTION_ID
  | FCrypto _ => FrameType.CRYPTO
  | FNewToken _ => FrameType.NEW_TOKEN
  | FDatagram _ => DATAGRAM_TYS.1
  | ImmediateAck => FrameType.IMMEDIATE_ACK
  | HandshakeDone => FrameType.HANDSHAKE_DONE
  end.

(** [frame.rs:199-201] *)
Definition is_ack_eliciting (f : Frame) : bool :=
  match f with FAck _ | Padding | Close _ => false | _ => true end.

(** [frame.rs:308-322] [+=] an ECN codepoint *)
Definition EcnCounts_add (c : EcnCounts) (x : EcnCodepoint) : outcome EcnCounts :=
  match x with
  | Ect0 => let! n := u64_add (ect0 c) 1 in Ret {| ect0 := n; ect1 := ect1 c; ce := ce c |}
  | Ect1 => let! n := u64_add (ect1 c) 1 in Ret {| ect0 := ect0 c; ect1 := n; ce := ce c |}
  | Ce => let! n := u64_add (ce c) 1 in Ret {| ect0 := ect0 c; ect1 := ect1 c; ce := n |}
  end.

(** [frame.rs:325-329] *)
Definition EcnCounts_ZERO : EcnCounts := {| ect0 := 0; ect1 := 0; ce := 0 |}.

(** The bytes of a string: [Bytes::from(String)]. *)
Definition string_bytes (s : string) : list Z :=
  map (fun c => Z.of_N (Ascii.N_of_ascii c)) (String.list_ascii_of_string s).

(** [frame.rs:522-530] [TransportClose::from(TransportError)] *)
Definition TransportClose_from_error (e : TransportError) : TransportClose :=
  {| tc_error_code := te_code e; tc_frame_type := te_frame e; tc_reason := string_bytes (te_reason e) |}.

(** [frame.rs:482-486] *)
Definition ConnectionClose_from_error (e : TransportError) : ConnectionClose :=
  Transport (TransportClose_from_error e).

(** ** Encoders *)
Section Encode.
Context {W : Type} `{BufMut W}.

(** [frame.rs:331-335] *)
Definition encode_ecn (x : EcnCounts) (out : W) : outcome W :=
  let! out := put_varint (ect0 x) out in
  let! out := put_varint (ect1 x) out in
  put_varint (ce x) out.

(** [frame.rs:288-294] the loop over the remaining ranges, largest first *)
Fixpoint encode_ack_blocks (rest : list range) (prev : Z) (out : W) : outcome W :=
  match rest with
  | [] => Ret out
  | block :: rest =>
      let! size := u64_sub (rend block) (rstart block) in
      let! gap := u64_sub prev (rend block) in
      let! gap := u64_sub gap 1 in
      let! out := put_varint gap out in
      let! last := u64_sub size 1 in
      let! out := put_varint last out in
      encode_ack_blocks rest (rstart block) out
  end.

(** [frame.rs:268-299] [Ack::encode] *)
Definition encode_ack (delay : Z) (ranges : ArrayRangeSet.t) (ecn : option EcnCounts) (out : W)
    : outcome W :=
  match rev (ArrayRangeSet.iter ranges) with
  | [] => Panic
  | first :: rest =>
      let! largest := u64_sub (rend first) 1 in
      let! first_size := u64_sub (rend first) (rstart first) in
      let! out := put_varint (match ecn with Some _ => FrameType.ACK_ECN | None => FrameType.ACK end) out in
      let! out := put_varint largest out in
      let! out := put_varint delay out in
      let! extra := u64_sub (ArrayRangeSet.len ranges) 1 in
      let! out := put_varint extra out in
      let! block := u64_sub first_size 1 in
      let! out := put_varint block out in
      let! out := encode_ack_blocks rest (rstart first) out in
      match ecn with
      | Some x => encode_ecn x out
      | None => Ret out
      end
  end.

(** [frame.rs:345-354] *)
Definition encode_reset_stream (x : ResetStream) (out : W) : outcome W :=
  let! out := put_varint FrameType.RESET_STREAM out in
  let! out := put_varint (rs_id x) out in
  let! out := put_varint (rs_error_code x) out in
  put_varint (rs_final_offset x) out.

(** [frame.rs:362-370] *)
Definition encode_stop_sending (x : StopSending) (out : W) : outcome W :=
  let! out := put_varint FrameType.STOP_SENDING out in
  let! out := put_varint (ss_id x) out in
  put_varint (ss_error_code x) out.

(** [frame.rs:378-387] *)
Definition encode_crypto (x : Crypto) (out : W) : outcome W :=
  let! out := put_varint FrameType.CRYPTO out in
  let! out := put_varint (crypto_offset x) out in
  let! out := put_varint (zlen (crypto_data x)) out in
  put_slice (crypto_data x) out.

(** [frame.rs:395-399] *)
Definition encode_new_token (x : NewToken) (out : W) : outcome W :=
  let! out := put_varint FrameType.NEW_TOKEN out in
  let! out := put_varint (zlen (token x)) out in
  put_slice (token x) out.

(** [frame.rs:426-447] [StreamMeta::encode] *)
Definition encode_stream_meta (x : StreamMeta) (length : bool) (out : W) : outcome W :=
  let offset := negb (rstart (sm_offsets x) =? 0) in
  let ty := STREAM_TYS.1 in
  let ty := if offset then Z.lor ty 4 else ty in
  let ty := if length then Z.lor ty 2 else ty in
  let ty := if sm_fin x then Z.lor ty 1 else ty in
  let! out := put_varint ty out in
  let! out := put_varint (sm_id x) out in
  let! out := if offset then put_varint (rstart (sm_offsets x)) out else Ret out in
  if length then
    let! n := u64_sub (rend (sm_offsets x)) (rstart (sm_offsets x)) in put_varint n out
  else Ret out.

(** [frame.rs:457-465] *)
Definition encode_new_connection_id (x : NewConnectionId) (out : W) : outcome W :=
  let! out := put_varint FrameType.NEW_CONNECTION_ID out in
  let! out := put_varint (nc_sequence x) out in
  let! out := put_varint (nc_retire_prior_to x) out in
  let! out := ConnectionId.encode (nc_id x) out in
  put_slice (nc_reset_token x) out.

(** [frame.rs:535-543] *)
Definition encode_transport_close (x : TransportClose) (max_len : Z) (out : W) : outcome W :=
  let! out := put_varint FrameType.TRANSPORT_CLOSE out in
  let! out := put_varint (tc_error_code x) out in
  let ty := default FrameType.PADDING (tc_frame_type x) in
  let! out := put_varint ty out in
  let! max_len := u64_sub max_len 3 in
  let! n := varint_len ty in
  let! max_len := u64_sub max_len n in
  let! n := varint_len (zlen (tc_reason x)) in
  let! max_len := u64_sub max_len n in
  let actual_len := Z.min (zlen (tc_reason x)) max_len in
  put_bytes_with_varint_length (take (Z.to_nat actual_len) (tc_reason x)) out.

(** [frame.rs:572-578] *)
Definition encode_application_close (x : ApplicationClose) (max_len : Z) (out : W) : outcome W :=
  let! out := put_varint FrameType.APPLICATION_CLOSE out in
  let! out := put_varint (ac_error_code x) out in
  let! max_len := u64_sub max_len 3 in
  let! n := varint_len (zlen (ac_reason x)) in
  let! max_len := u64_sub max_len n in
  let actual_len := Z.min (zlen (ac_reason x)) max_len in
  put_bytes_with_varint_length (take (Z.to_nat actual_len) (ac_reason x)) out.

(** [frame.rs:473-480] *)
Definition encode_close (x : ConnectionClose) (max_len : Z) (out : W) : outcome W :=
  match x with
  | Transport x => encode_transport_close x max_len out
  | Application x => encode_application_close x max_len out
  end.

(** [frame.rs:591-597] *)
Definition encode_datagram (x : Datagram) (length : bool) (out : W) : outcome W :=
  let! out := put_varint (Z.lor DATAGRAM_TYS.1 (if length then 1 else 0)) out in
  let! out := if length then put_varint (zlen (dg_data x)) out else Ret out in
  put_slice (dg_data x) out.

(** [frame.rs:616-624] *)
Definition encode_ack_frequency (x : AckFrequency) (out : W) : outcome W :=
  let! out := put_varint FrameType.ACK_FREQUENCY out in
  let! out := put_varint (af_sequence x) out in
  let! out := put_varint (af_ack_eliciting_threshold x) out in
  let! out := put_varint (af_request_max_ack_delay x) out in
  put_varint (af_reordering_threshold x) out.
End Encode.

(** [frame.rs:401-403] *)
Definition NewToken_size (x : NewToken) : outcome Z :=
  let! n := varint_len (zlen (token x)) in
  let! n := u64_add 1 n in u64_add n (zlen (token x)).

(** [frame.rs:599-605] *)
Definition Datagram_size (x : Datagram) (length : bool) : outcome Z :=
  let! n := if length then varint_len (zlen (dg_data x)) else Ret 0 in
  let! n := u64_add 1 n in u64_add n (zlen (dg_data x)).

(** ** The ranges of an ACK frame *)

(** [frame.rs:212-216]; [data] is a slice. *)
Record AckIter := { it_largest : Z; it_data : list Z }.

(** [frame.rs:234-244] *)
Definition Ack_into_iter (a : Ack) : AckIter :=
  {| it_largest := ack_largest a; it_data := ack_additional a |}.

(** [frame.rs:218-232]; an inclusive range is the pair of its bounds. *)
Definition AckIter_next (it : AckIter) : outcome (AckIter * option (Z * Z)) :=
  if remaining (it_data it) =? 0 then Ret (it, None)
  else
    let! r := try_get_varint (it_data it) in
    match r with
    | Err _ => Panic
    | Ok (block, data) =>
        let largest := it_largest it in
        let! r := try_get_varint data in
        let! it :=
          match r with
          | Ok (gap, data) =>
              let! d := u64_add block gap in
              let! d := u64_add d 2 in
              let! l := u64_sub (it_largest it) d in
              Ret {| it_largest := l; it_data := data |}
          | Err _ => Ret {| it_largest := it_largest it; it_data := data |}
          end in
        let! lo := u64_sub largest block in
        Ret (it, Some (lo, largest))
    end.

(** The ranges an iterator yields until it is exhausted. *)
Fixpoint AckIter_collect (fuel : nat) (it : AckIter) : outcome (list (Z * Z)) :=
  match fuel with
  | O => Panic
  | S fuel =>
      let! '(it, x) := AckIter_next it in
      match x with
      | None => Ret []
      | Some x => let! rest := AckIter_collect fuel it in Ret (x :: rest)
      end
  end.

(** [for range in &ack]: every iteration reads a byte. *)
Definition ack_ranges (a : Ack) : outcome (list (Z * Z)) :=
  AckIter_collect (S (length (ack_additional a))) (Ack_into_iter a).

(** ** The parser *)

(** [frame.rs:631-639] *)
Inductive FrameParseError :=
| UnexpectedEnd (e : TryGetError)
| InvalidFrameId
| Malformed.

Definition FrameParseError_to_string (e : FrameParseError) : string :=
  match e with
  | UnexpectedEnd _ => "unexpected end"
  | InvalidFrameId => "invalid frame ID"
  | Malformed => "malformed frame"
  end.

(** [frame.rs:626-629] *)
Record FrameParser (B : Type) := { fp_bytes : B; fp_last_ty : option FrameType }.
Arguments fp_bytes {B}. Arguments fp_last_ty {B}.

Section Parse.
Context {B : Type} `{Buf B}.

(** [frame.rs:806-818] the loop of [scan_ack_blocks].  The fuel bounds the
    number of iterations by the number of unread bytes. *)
Fixpoint scan_loop (fuel : nat) (n smallest : Z) (buf : B)
    : outcome (result B FrameParseError) :=
  if n <=? 0 then Ret (Ok buf)
  else
    match fuel with
    | O => Panic
    | S fuel =>
        let? '(gap, buf) := try_get_varint buf as UnexpectedEnd in
        let! gap2 := u64_add gap 2 in
        match checked_sub smallest gap2 with
        | None => Ret (Err Malformed)
        | Some smallest =>
            let? '(block, buf) := try_get_varint buf as UnexpectedEnd in
            match checked_sub smallest block with
            | None => Ret (Err Malformed)
            | Some smallest => scan_loop fuel (n - 1) smallest buf
            end
        end
    end.

(** [frame.rs:801-820] *)
Definition scan_ack_blocks (buf : B) (largest n : Z) : outcome (result Z FrameParseError) :=
  let total_len := remaining buf in
  let? '(first_block, buf) := try_get_varint buf as UnexpectedEnd in
  match checked_sub largest first_block with
  | None => Ret (Err Malformed)
  | Some smallest =>
      let! r := scan_loop (S (Z.to_nat (remaining buf))) n smallest buf in
      match r with
      | Err e => Ret (Err e)
      | Ok buf => let! len := u64_sub total_len (remaining buf) in Ret (Ok len)
      end
  end.

(** [frame.rs:642-656] *)
Definition FrameParser_new (payload : B) : result (FrameParser B) TransportError :=
  if remaining payload =? 0 then
    Err (transport_error TransportErrorCode.PROTOCOL_VIOLATION "packet payload is empty")
  else Ok {| fp_bytes := payload; fp_last_ty := None |}.

Local Abbreviation varint b := (try_get_varint b) (only parsing).
Local Abbreviation fbytes b := (try_get_bytes_with_varint_length b) (only parsing).

(** [frame.rs:658-798] the frame that follows its type *)
Definition parse_body (ty : FrameType) (buf : B) : outcome (result (Frame * B) FrameParseError) :=
  if ty =? FrameType.PADDING then Ret (Ok (Padding, buf))
  else if ty =? FrameType.RESET_STREAM then
    let? '(id, buf) := varint buf as UnexpectedEnd in
    let? '(error_code, buf) := varint buf as UnexpectedEnd in
    let? '(final_offset, buf) := varint buf as UnexpectedEnd in
    Ret (Ok (FResetStream {| rs_id := id; rs_error_code := error_code;
                             rs_final_offset := final_offset |}, buf))
  else if ty =? FrameType.TRANSPORT_CLOSE then
    let? '(error_code, buf) := varint buf as UnexpectedEnd in
    let? '(x, buf) := varint buf as UnexpectedEnd in
    let? '(reason, buf) := fbytes buf as UnexpectedEnd in
    Ret (Ok (Close (Transport {| tc_error_code := error_code;
                                 tc_frame_type := if x =? 0 then None else Some x;
                                 tc_reason := reason |}), buf))
  else if ty =? FrameType.APPLICATION_CLOSE then
    let? '(error_code, buf) := varint buf as UnexpectedEnd in
    let? '(reason, buf) := fbytes buf as UnexpectedEnd in
    Ret (Ok (Close (Application {| ac_error_code := error_code; ac_reason := reason |}), buf))
  else if ty =? FrameType.MAX_DATA then
    let? '(x, buf) := varint buf as UnexpectedEnd in Ret (Ok (MaxData x, buf))
  else if ty =? FrameType.MAX_STREAM_DATA then
    let? '(id, buf) := varint buf as UnexpectedEnd in
    let? '(limit, buf) := varint buf as UnexpectedEnd in
    Ret (Ok (MaxStreamData id limit, buf))
  else if ty =? FrameType.MAX_STREAMS_BIDI then
    let? '(x, buf) := varint buf as UnexpectedEnd in Ret (Ok (MaxStreams Bi x, buf))
  else if ty =? FrameType.MAX_STREAMS_UNI then
    let? '(x, buf) := varint buf as UnexpectedEnd in Ret (Ok (MaxStreams Uni x, buf))
  else if ty =? FrameType.PING then Ret (Ok (Ping, buf))
  else if ty =? FrameType.DATA_BLOCKED then
    let? '(x, buf) := varint buf as UnexpectedEnd in Ret (Ok (DataBlocked x, buf))
  else if ty =? FrameType.STREAM_DATA_BLOCKED then
    let? '(id, buf) := varint buf as UnexpectedEnd in
    let? '(limit, buf) := varint buf as UnexpectedEnd in
    Ret (Ok (StreamDataBlocked id limit, buf))
  else if ty =? FrameType.STREAMS_BLOCKED_BIDI then
    let? '(x, buf) := varint buf as UnexpectedEnd in Ret (Ok (StreamsBlocked Bi x, buf))
  else if ty =? FrameType.STREAMS_BLOCKED_UNI then
    let? '(x, buf) := varint buf as UnexpectedEnd in Ret (Ok (StreamsBlocked Uni x, buf))
  else if ty =? FrameType.STOP_SENDING then
    let? '(id, buf) := varint buf as UnexpectedEnd in
    let? '(error_code, buf) := varint buf as UnexpectedEnd in
    Ret (Ok (FStopSending {| ss_id := id; ss_error_code := error_code |}, buf))
  else if ty =? FrameType.RETIRE_CONNECTION_ID then
    let? '(x, buf) := varint buf as UnexpectedEnd in Ret (Ok (RetireConnectionId x, buf))
  else if (ty =? FrameType.ACK) || (ty =? FrameType.ACK_ECN) then
    let? '(largest, buf) := varint buf as UnexpectedEnd in
    let? '(delay, buf) := varint buf as UnexpectedEnd in
    let? '(extra_blocks, buf) := varint buf as UnexpectedEnd in
    let? n := scan_ack_blocks buf largest extra_blocks in
    let! '(additional, buf) := split_to n buf in
    let? '(ecn, buf) :=
      if negb (ty =? FrameType.ACK_ECN) then Ret (Ok (None, buf))
      else
        let? '(ect0, buf) := varint buf as UnexpectedEnd in
        let? '(ect1, buf) := varint buf as UnexpectedEnd in
        let? '(ce, buf) := varint buf as UnexpectedEnd in
        Ret (Ok (Some {| ect0 := ect0; ect1 := ect1; ce := ce |}, buf)) in
    Ret (Ok (FAck {| ack_largest := largest; ack_delay := delay;
                     ack_additional := additional; ack_ecn := ecn |}, buf))
  else if ty =? FrameType.PATH_CHALLENGE then
    let? '(x, buf) := try_get_u64 buf as UnexpectedEnd in Ret (Ok (PathChallenge x, buf))
  else if ty =? FrameType.PATH_RESPONSE then
    let? '(x, buf) := try_get_u64 buf as UnexpectedEnd in Ret (Ok (PathResponse x, buf))
  else if ty =? FrameType.NEW_CONNECTION_ID then
    let? '(sequence, buf) := varint buf as UnexpectedEnd in
    let? '(retire_prior_to, buf) := varint buf as UnexpectedEnd in
    if sequence <? retire_prior_to then Ret (Err Malformed)
    else
      let? '(id, buf) := ConnectionId.decode buf as UnexpectedEnd in
      let! empty := ConnectionId.is_empty id in
      if empty then Ret (Err Malformed)
      else
        let? '(reset_token, buf) := try_copy_to_slice RESET_TOKEN_SIZE buf as UnexpectedEnd in
        Ret (Ok (FNewConnectionId {| nc_sequence := sequence; nc_retire_prior_to := retire_prior_to;
                                     nc_id := id; nc_reset_token := reset_token |}, buf))
  else if ty =? FrameType.CRYPTO then
    let? '(offset, buf) := varint buf as UnexpectedEnd in
    let? '(data, buf) := fbytes buf as UnexpectedEnd in
    Ret (Ok (FCrypto {| crypto_offset := offset; crypto_data := data |}, buf))
  else if ty =? FrameType.NEW_TOKEN then
    let? '(tok, buf) := fbytes buf as UnexpectedEnd in Ret (Ok (FNewToken {| token := tok |}, buf))
  else if ty =? FrameType.HANDSHAKE_DONE then Ret (Ok (HandshakeDone, buf))
  else if ty =? FrameType.IMMEDIATE_ACK then Ret (Ok (ImmediateAck, buf))
  else
    match FrameType.stream ty with
    | Some s =>
        let? '(id, buf) := varint buf as UnexpectedEnd in
        let? '(offset, buf) :=
          if StreamInfo_off s then varint buf else Ret (Ok (0, buf)) as UnexpectedEnd in
        let? '(data, buf) :=
          if StreamInfo_len s then fbytes buf
          else let! p := split_to (remaining buf) buf in Ret (Ok p) as UnexpectedEnd in
        Ret (Ok (FStream {| st_id := id; st_offset := offset; st_fin := StreamInfo_fin s;
                            st_data := data |}, buf))
    | None =>
        match FrameType.datagram ty with
        | Some d =>
            let? '(data, buf) :=
              if DatagramInfo_len d then fbytes buf
              else let! p := split_to (remaining buf) buf in Ret (Ok p) as UnexpectedEnd in
            Ret (Ok (FDatagram {| dg_data := data |}, buf))
        | None => Ret (Err InvalidFrameId)
        end
    end.

(** [frame.rs:658-798] [try_next]; with the frame, or the error, comes the
    new value of [last_ty]. *)
Definition try_next (p : FrameParser B)
    : outcome (option FrameType * result (Frame * B) FrameParseError) :=
  let! r := try_get_varint (fp_bytes p) in
  match r with
  | Err e => Ret (fp_last_ty p, Err (UnexpectedEnd e))
  | Ok (ty, buf) => let! r := parse_body ty buf in Ret (Some ty, r)
  end.

(** [frame.rs:822-840] [Iterator::next] *)
Definition FrameParser_next (p : FrameParser B)
    : outcome (FrameParser B * option (result Frame TransportError)) :=
  if remaining (fp_bytes p) =? 0 then Ret (p, None)
  else
    let! '(last_ty, r) := try_next p in
    match r with
    | Ok (x, buf) => Ret ({| fp_bytes := buf; fp_last_ty := last_ty |}, Some (Ok x))
    | Err e =>
        let err := transport_error TransportErrorCode.FRAME_ENCODING_ERROR
                     (FrameParseError_to_string e) in
        Ret ({| fp_bytes := clear (fp_bytes p); fp_last_ty := last_ty |},
             Some (Err {| te_code := te_code err; te_frame := last_ty; te_reason := te_reason err |}))
    end.

(** The frames of a packet, until the parser is exhausted. *)
Fixpoint parse_all (fuel : nat) (p : FrameParser B) : outcome (list (result Frame TransportError)) :=
  match fuel with
  | O => Panic
  | S fuel =>
      let! '(p, x) := FrameParser_next p in
      match x with
      | None => Ret []
      | Some x => let! rest := parse_all fuel p in Ret (x :: rest)
      end
  end.

Definition parse_payload (payload : B) : outcome (result (list (result Frame TransportError)) TransportError) :=
  match FrameParser_new payload with
  | Err e => Ret (Err e)
  | Ok p => let! l := parse_all (S (length (view payload))) p in Ret (Ok l)
  end.
End Parse.

(** ** Encoding and parsing a frame *)

#[export] Hint Extern 1 (is_varint _) =>
  solve [assumption | split; vm_compute; discriminate | varint_lia] : codec.

(** Decide the comparisons of frame types that evaluate. *)
Ltac decide_types :=
  repeat match goal with
  | |- context [?a =? ?c] =>
      let v := eval vm_compute in (a =? c) in
      match v with
      | true => change (a =? c) with true
      | false => change (a =? c) with false
      end
  end; cbn [orb andb negb].

(** Evaluate the flags of a concrete stream frame type. *)
Ltac decide_flags :=
  repeat match goal with
  | |- context [FrameType.stream ?t] =>
      let v := eval vm_compute in (FrameType.stream t) in change (FrameType.stream t) with v; cbv beta iota
  | |- context [StreamInfo_off ?t] =>
      let v := eval vm_compute in (StreamInfo_off t) in change (StreamInfo_off t) with v
  | |- context [StreamInfo_len ?t] =>
      let v := eval vm_compute in (StreamInfo_len t) in change (StreamInfo_len t) with v
  | |- context [StreamInfo_fin ?t] =>
      let v := eval vm_compute in (StreamInfo_fin t) in change (StreamInfo_fin t) with v
  end; cbv beta iota.

Section Roundtrip.
Context {B W : Type} `{BufLaws B} `{BufMutLaws W}.

(** Every parser whose unread bytes start with [bs] yields [f] and goes on
    after them. *)
Definition parses (bs : list Z) (f : Frame) : Prop :=
  forall (p : FrameParser B) rest, view (fp_bytes p) = bs ++ rest ->
  exists ty b', try_next p = Ret (Some ty, Ok (f, b')) /\ view b' = rest.

Lemma parses_body ty bs f : is_varint ty -> reads (B:=B) (parse_body ty) bs f ->
  parses (varint_bytes ty ++ bs) f.
Proof.
  intros Hty Hbody p rest Hb. rewrite <- app_assoc in Hb. unfold try_next.
  destruct (reads_varint ty Hty _ _ Hb) as (b1 & -> & Hb1). cbn [obind].
  destruct (Hbody _ _ Hb1) as (b2 & -> & Hb2). cbn. eauto.
Qed.

Lemma take_min (l : list Z) n : take (Z.to_nat (Z.min (zlen l) n)) l = take (Z.to_nat n) l.
Proof.
  destruct (Z.min_spec (zlen l) n) as [[Hlt ->]|[_ ->]]; [|done].
  rewrite !take_ge by (unfold zlen in *; lia). done.
Qed.

(** [encodes enc f]: the encoder writes bytes that parse as the frame. *)
Definition encodes (enc : W -> outcome W) (f : Frame) : Prop :=
  exists bs, emits enc bs /\ parses bs f.

Lemma encodes_intro ty enc f bs : is_varint ty -> emits enc (varint_bytes ty ++ bs) ->
  reads (B:=B) (parse_body ty) bs f -> encodes enc f.
Proof. intros. eexists. split; [done|by apply parses_body]. Qed.

Ltac parse_step :=
  match goal with
  | Hv : view ?b = varint_bytes ?v ++ _ |- context [rbind _ (try_get_varint ?b) _] =>
      read_step (reads_varint v ltac:(auto with codec))
  | Hv : view ?b = varint_bytes (zlen ?l) ++ ?l ++ _
    |- context [rbind _ (try_get_bytes_with_varint_length ?b) _] =>
      rewrite app_assoc in Hv; read_step (reads_bytes_with_varint_length l ltac:(auto with codec))
  end.

Ltac parse_start :=
  let b := fresh "b" in let rest := fresh "rest" in let Hb := fresh "Hb" in
  intros b rest Hb; rewrite <- ?app_assoc in Hb; unfold parse_body; decide_types.
Ltac parse_tac := parse_start; repeat parse_step.

Lemma encodes_reset_stream x : is_varint (rs_id x) -> is_varint (rs_error_code x) ->
  is_varint (rs_final_offset x) -> encodes (encode_reset_stream x) (FResetStream x).
Proof.
  intros. eapply (encodes_intro FrameType.RESET_STREAM); [auto with codec| |].
  - unfold encode_reset_stream. emits_tac.
  - parse_tac. destruct x. eauto.
Qed.

Lemma encodes_stop_sending x : is_varint (ss_id x) -> is_varint (ss_error_code x) ->
  encodes (encode_stop_sending x) (FStopSending x).
Proof.
  intros. eapply (encodes_intro FrameType.STOP_SENDING); [auto with codec| |].
  - unfold encode_stop_sending. emits_tac.
  - parse_tac. destruct x. eauto.
Qed.

Lemma encodes_crypto x : is_varint (crypto_offset x) -> is_varint (zlen (crypto_data x)) ->
  encodes (encode_crypto x) (FCrypto x).
Proof.
  intros. eapply (encodes_intro FrameType.CRYPTO); [auto with codec| |].
  - unfold encode_crypto. emits_tac.
  - parse_tac. destruct x. eauto.
Qed.

Lemma encodes_new_token x : is_varint (zlen (token x)) -> encodes (encode_new_token x) (FNewToken x).
Proof.
  intros. eapply (encodes_intro FrameType.NEW_TOKEN); [auto with codec| |].
  - unfold encode_new_token. emits_tac.
  - parse_tac. destruct x. eauto.
Qed.

Lemma encodes_datagram x : is_varint (zlen (dg_data x)) ->
  encodes (encode_datagram x true) (FDatagram x).
Proof.
  intros. eapply (encodes_intro 49); [auto with codec| |].
  - unfold encode_datagram. cbv iota. emits_tac.
  - parse_start. change (FrameType.stream 49) with (@None Z).
    change (FrameType.datagram 49) with (Some 49). cbv beta iota.
    change (DatagramInfo_len 49) with true. cbv iota.
    parse_step. destruct x. eauto.
Qed.

Lemma encodes_new_connection_id x : is_varint (nc_sequence x) ->
  0 <= nc_retire_prior_to x <= nc_sequence x -> cid_wf (nc_id x) -> 0 < cid_len (nc_id x) ->
  zlen (nc_reset_token x) = RESET_TOKEN_SIZE ->
  encodes (encode_new_connection_id x) (FNewConnectionId x).
Proof.
  intros Hs Hr Hcid Hlen Htok.
  assert (is_varint (nc_retire_prior_to x)) by varint_lia.
  eapply (encodes_intro FrameType.NEW_CONNECTION_ID); [auto with codec| |].
  - unfold encode_new_connection_id. emits_tac.
  - parse_tac. destruct (Z.ltb_spec (nc_sequence x) (nc_retire_prior_to x)); [lia|].
    read_step (reads_cid_decode _ Hcid).
    destruct (cid_wf_take _ Hcid) as (l & Hd & _ & Hl & _).
    unfold ConnectionId.is_empty. rewrite Hd. cbn [obind].
    destruct (Z.eqb_spec (zlen l) 0); [lia|]. rewrite <- Htok.
    read_step (reads_try_copy (nc_reset_token x)). destruct x. eauto.
Qed.

(** A close frame carries as much of the reason as [max_len] leaves room for:
    a reason that is shorter than that is carried whole. *)
Lemma encodes_application_close x max_len :
  is_varint (ac_error_code x) -> is_varint (zlen (ac_reason x)) -> 11 <= max_len ->
  encodes (encode_application_close x max_len)
    (Close (Application {| ac_error_code := ac_error_code x;
       ac_reason := take (Z.to_nat (max_len - 3 - zlen (varint_bytes (zlen (ac_reason x))))) (ac_reason x) |})).
Proof.
  intros Hc Hr Hmax. pose proof (varint_bytes_length _ Hr) as Hl. rewrite <- (take_min (ac_reason x)).
  set (n := Z.min (zlen (ac_reason x)) (max_len - 3 - zlen (varint_bytes (zlen (ac_reason x))))).
  pose proof (zlen_nonneg (ac_reason x)).
  assert (is_varint (zlen (take (Z.to_nat n) (ac_reason x)))) by (rewrite zlen_take; varint_lia).
  eapply (encodes_intro FrameType.APPLICATION_CLOSE); [auto with codec| |].
  - unfold encode_application_close. rewrite varint_len_bytes by done.
    rewrite (u64_sub_ok max_len 3) by lia. cbn [obind]. rewrite u64_sub_ok by lia. cbn [obind].
    fold n. emits_tac.
  - parse_tac. eauto.
Qed.

Lemma encodes_transport_close x max_len :
  let ty := default FrameType.PADDING (tc_frame_type x) in
  is_varint (tc_error_code x) -> is_varint ty -> is_varint (zlen (tc_reason x)) -> 19 <= max_len ->
  encodes (encode_transport_close x max_len)
    (Close (Transport {| tc_error_code := tc_error_code x;
       tc_frame_type := if ty =? 0 then None else Some ty;
       tc_reason := take (Z.to_nat (max_len - 3 - zlen (varint_bytes ty) - zlen (varint_bytes (zlen (tc_reason x)))))
         (tc_reason x) |})).
Proof.
  intros ty Hc Hty Hr Hmax. pose proof (varint_bytes_length _ Hr). pose proof (varint_bytes_length _ Hty).
  rewrite <- (take_min (tc_reason x)). set (n := Z.min (zlen (tc_reason x))
    (max_len - 3 - zlen (varint_bytes ty) - zlen (varint_bytes (zlen (tc_reason x))))).
  pose proof (zlen_nonneg (tc_reason x)).
  assert (is_varint (zlen (take (Z.to_nat n) (tc_reason x)))) by (rewrite zlen_take; varint_lia).
  eapply (encodes_intro FrameType.TRANSPORT_CLOSE); [auto with codec| |].
  - unfold encode_transport_close. fold ty. rewrite !varint_len_bytes by done.
    rewrite (u64_sub_ok max_len 3) by lia. cbn [obind]. rewrite u64_sub_ok by lia. cbn [obind].
    rewrite u64_sub_ok by lia. cbn [obind]. fold n. emits_tac.
  - parse_tac. eauto.
Qed.

(** A stream frame with an explicit length: the metadata, then the data. *)
Definition encode_stream (m : StreamMeta) (data : list Z) (out : W) : outcome W :=
  let! out := encode_stream_meta m true out in put_slice data out.

Lemma encodes_stream m data : is_varint (sm_id m) -> is_varint (rstart (sm_offsets m)) ->
  rend (sm_offsets m) = rstart (sm_offsets m) + zlen data -> is_varint (zlen data) ->
  encodes (encode_stream m data)
    (FStream {| st_id := sm_id m; st_offset := rstart (sm_offsets m); st_fin := sm_fin m;
                st_data := data |}).
Proof.
  destruct m as [id [a e] fin]; cbn. intros Hid Ha -> Hlen. pose proof (zlen_nonneg data).
  set (off := if a =? 0 then [] else varint_bytes a).
  set (ty := Z.lor (Z.lor (if a =? 0 then 8 else 12) 2) (if fin then 1 else 0)).
  assert (Hty : is_varint ty) by (subst ty; destruct (a =? 0), fin; auto with codec).
  apply (encodes_intro ty _ _ (varint_bytes id ++ off ++ varint_bytes (zlen data) ++ data)); [done| |].
  - replace (varint_bytes ty ++ varint_bytes id ++ off ++ varint_bytes (zlen data) ++ data)
      with ((varint_bytes ty ++ varint_bytes id ++ off ++ varint_bytes (zlen data)) ++ data)
      by (by rewrite <- !app_assoc).
    unfold encode_stream, encode_stream_meta. cbn [rstart rend sm_offsets sm_id sm_fin].
    rewrite u64_sub_ok by lia. replace (a + zlen data - a) with (zlen data) by lia.
    apply emits_bind; [|apply emits_put_slice]. subst ty off.
    destruct (Z.eqb_spec a 0), fin; cbn [negb obind app]; emits_tac.
  - subst ty off. destruct (Z.eqb_spec a 0) as [->|Hne], fin; rewrite ?app_nil_l;
      parse_start; decide_flags;
      repeat first [parse_step | progress cbn [rbind]]; eauto.
Qed.

(** *** Frames that take the rest of the payload *)

(** A stream frame without a length: its data ends where the payload ends. *)
Definition encode_last_stream (m : StreamMeta) (data : list Z) (out : W) : outcome W :=
  let! out := encode_stream_meta m false out in put_slice data out.

(** [encodes_last enc f]: the bytes parse as the frame when nothing follows them. *)
Definition encodes_last (enc : W -> outcome W) (f : Frame) : Prop :=
  exists bs, emits enc bs /\ forall p : FrameParser B, view (fp_bytes p) = bs ->
  exists ty b', try_next p = Ret (Some ty, Ok (f, b')) /\ view b' = [].

Lemma encodes_last_intro ty enc f bs : is_varint ty -> emits enc (varint_bytes ty ++ bs) ->
  (forall b, view b = bs -> exists b', parse_body ty b = Ret (Ok (f, b')) /\ view b' = []) ->
  encodes_last enc f.
Proof.
  intros Hty He Hbody. eexists. split; [exact He|]. intros p Hp. unfold try_next.
  destruct (reads_varint ty Hty _ _ Hp) as (b1 & -> & Hb1). cbn [obind].
  destruct (Hbody _ Hb1) as (b2 & -> & Hb2). cbn. eauto.
Qed.

(** Reading the rest of the buffer. *)
Lemma reads_rest (b : B) : exists b',
  (let! p := split_to (remaining b) b in Ret (Ok p)) = Ret (@Ok _ TryGetError (view b, b')) /\ view b' = [].
Proof.
  destruct (copy_to_bytes_app (view b) b []) as (b' & Hs & Hv); [by rewrite app_nil_r|].
  exists b'. split; [|done]. rewrite remaining_view. unfold split_to. by rewrite Hs.
Qed.

Lemma encodes_last_datagram x : encodes_last (encode_datagram x false) (FDatagram x).
Proof.
  eapply (encodes_last_intro 48 _ _ (dg_data x)); [auto with codec| |].
  - unfold encode_datagram. cbv iota. change (Z.lor DATAGRAM_TYS.1 0) with 48.
    apply emits_bind; [apply emits_put_varint; auto with codec|]. cbn [obind]. apply emits_put_slice.
  - intros b Hb. unfold parse_body. decide_types. change (FrameType.stream 48) with (@None Z).
    change (FrameType.datagram 48) with (Some 48). cbv beta iota.
    change (DatagramInfo_len 48) with false. cbv iota.
    destruct (reads_rest b) as (b' & -> & Hv). cbn [rbind]. rewrite Hb. destruct x. eauto.
Qed.

Lemma encodes_last_stream m data : is_varint (sm_id m) -> is_varint (rstart (sm_offsets m)) ->
  encodes_last (encode_last_stream m data)
    (FStream {| st_id := sm_id m; st_offset := rstart (sm_offsets m); st_fin := sm_fin m;
                st_data := data |}).
Proof.
  destruct m as [id [a e] fin]; cbn. intros Hid Ha.
  set (off := if a =? 0 then [] else varint_bytes a).
  set (ty := Z.lor (if a =? 0 then 8 else 12) (if fin then 1 else 0)).
  assert (Hty : is_varint ty) by (subst ty; destruct (a =? 0), fin; auto with codec).
  apply (encodes_last_intro ty _ _ (varint_bytes id ++ off ++ data)); [done| |].
  - replace (varint_bytes ty ++ varint_bytes id ++ off ++ data)
      with ((varint_bytes ty ++ varint_bytes id ++ off ++ []) ++ data) by (by rewrite <- !app_assoc).
    unfold encode_last_stream, encode_stream_meta. cbn [rstart rend sm_offsets sm_id sm_fin].
    apply emits_bind; [|apply emits_put_slice]. subst ty off.
    destruct (Z.eqb_spec a 0), fin; cbn [negb obind app]; emits_tac; apply emits_ret.
  - intros b Hb. subst ty off. destruct (Z.eqb_spec a 0) as [->|Hne], fin; rewrite ?app_nil_l in Hb;
      unfold parse_body; decide_types; decide_flags; repeat first [parse_step | progress cbn [rbind]];
      match goal with Hv : view ?b1 = data |- context [split_to (remaining ?b1)] =>
        destruct (reads_rest b1) as (b2 & -> & ?); cbn [rbind]; rewrite Hv; eauto end.
Qed.

(** An ACK_FREQUENCY frame is written, but the parser does not know its type. *)
Lemma ack_frequency_refused x : is_varint (af_sequence x) -> is_varint (af_ack_eliciting_threshold x) ->
  is_varint (af_request_max_ack_delay x) -> is_varint (af_reordering_threshold x) ->
  exists bs, emits (W:=W) (encode_ack_frequency x) bs /\
    forall (p : FrameParser B) rest, view (fp_bytes p) = bs ++ rest ->
      try_next p = Ret (Some FrameType.ACK_FREQUENCY, Err InvalidFrameId).
Proof.
  intros. eexists. split; [unfold encode_ack_frequency; emits_tac|]. intros p rest Hp.
  rewrite <- !app_assoc in Hp. unfold try_next. assert (Hty : is_varint FrameType.ACK_FREQUENCY) by auto with codec.
  destruct (reads_varint _ Hty _ _ Hp) as (b1 & -> & _). reflexivity.
Qed.
End Roundtrip.

(** ** ACK ranges on the wire *)

(** [ack_tail s bs rs]: after a block that starts at [s], the bytes [bs] encode
    the inclusive ranges [rs], in decreasing order. *)
Inductive ack_tail : Z -> list Z -> list (Z * Z) -> Prop :=
| at_nil s : ack_tail s [] []
| at_cons s u1 u2 gap block bs rs : varint_enc u1 gap -> varint_enc u2 block ->
    is_varint gap -> is_varint block -> gap + 2 + block <= s ->
    ack_tail (s - (gap + 2) - block) bs rs ->
    ack_tail s (u1 ++ u2 ++ bs) ((s - (gap + 2) - block, s - (gap + 2)) :: rs).

Inductive ack_wire (largest : Z) : list Z -> list (Z * Z) -> Prop :=
| AckWire u block bs rs : varint_enc u block -> is_varint block -> block <= largest ->
    ack_tail (largest - block) bs rs -> ack_wire largest (u ++ bs) ((largest - block, largest) :: rs).

Lemma varint_enc_length u v : varint_enc u v -> (1 <= length u <= 8)%nat.
Proof.
  intros [n k t Hn _ Ht Hnt _ ->]. rewrite length_be_bytes.
  assert (t = 0 \/ t = 1 \/ t = 2 \/ t = 3) as [->|[->|[->| ->]]] by lia;
    cbn in Hnt; lia.
Qed.

Lemma ack_tail_length s bs rs : ack_tail s bs rs -> (2 * length rs <= length bs)%nat.
Proof.
  induction 1 as [|s u1 u2 gap block bs rs H1 H2 _ _ _ _ IH]; [done|].
  apply varint_enc_length in H1, H2. rewrite !length_app. cbn. lia.
Qed.

(** Read the encoding [H] off the front of a slice. *)
Ltac slice_step H :=
  match goal with
  | |- context [try_get_varint (?u ++ ?r)] =>
      let d := fresh "d" in let Hd := fresh "Hd" in let Hv := fresh "Hv" in
      assert (Hv : view (B:=list Z) (u ++ r) = u ++ r) by reflexivity;
      destruct (reads_varint_enc (B:=list Z) u _ H (u ++ r) r Hv) as (d & -> & Hd); clear Hv;
      change (d = r) in Hd; subst d; cbn [obind]
  end.

(** The iterator yields the ranges of the wire and stops, without a panic. *)
Lemma collect_spec s bs rs : ack_tail s bs rs -> forall l u block fuel,
  s = l - block -> is_varint block -> block <= l -> varint_enc u block -> (length rs + 1 < fuel)%nat ->
  AckIter_collect fuel {| it_largest := l; it_data := u ++ bs |} = Ret ((l - block, l) :: rs).
Proof.
  assert (Hne : forall l u bs v, varint_enc u v ->
    (remaining (it_data {| it_largest := l; it_data := u ++ bs |}) =? 0) = false).
  { intros l u bs' v Hu%varint_enc_length. change ((zlen (u ++ bs') =? 0) = false).
    apply Z.eqb_neq. unfold zlen. rewrite length_app. lia. }
  induction 1 as [s|s u1 u2 gap block' bs rs Hu1 Hu2 Hg Hb' Hle Htail IH];
    intros l u block fuel -> Hb Hl Hu Hfuel; (destruct fuel as [|fuel]; [lia|]);
    cbn [AckIter_collect]; unfold AckIter_next; rewrite (Hne _ _ _ _ Hu); cbn [it_data it_largest];
    slice_step Hu.
  - rewrite u64_sub_ok by varint_lia. change (try_get_varint []) with
      (@Ret (result (Z * list Z) TryGetError) (Err {| requested := 1; available := 0 |})).
    cbn [obind]. destruct fuel as [|fuel]; [cbn in Hfuel; lia|]. cbn [AckIter_collect].
    unfold AckIter_next. cbn. done.
  - slice_step Hu1.
    rewrite u64_add_ok by varint_lia. cbn [obind]. rewrite u64_add_ok by varint_lia. cbn [obind].
    rewrite u64_sub_ok by varint_lia. cbn [obind]. rewrite u64_sub_ok by varint_lia. cbn [obind].
    rewrite (IH (l - (block + gap + 2)) u2 block' fuel); [|lia|done|lia|done|cbn in Hfuel; lia].
    cbn. do 2 f_equal. f_equal; f_equal; lia.
Qed.

Lemma ack_ranges_spec a rs : ack_wire (ack_largest a) (ack_additional a) rs ->
  ack_ranges a = Ret rs.
Proof.
  unfold ack_ranges, Ack_into_iter. destruct a as [l d add e].
  cbn [ack_largest ack_additional]. intros [u block bs rs' Hu Hb Hl Htail].
  apply collect_spec with (s := l - block); try done.
  pose proof (ack_tail_length _ _ _ Htail). apply varint_enc_length in Hu.
  rewrite length_app. lia.
Qed.

Section Scan.
Context {B : Type} `{BufBytes B}.

(** Scanning accepts exactly the wire format. *)
Lemma scan_loop_ok s bs rs : ack_tail s bs rs -> forall fuel (b : B) rest,
  view b = bs ++ rest -> (length rs < fuel)%nat ->
  exists b', scan_loop fuel (Z.of_nat (length rs)) s b = Ret (Ok b') /\ view b' = rest.
Proof.
  induction 1 as [s|s u1 u2 gap block bs rs Hu1 Hu2 Hg Hb' Hle Htail IH];
    intros fuel b rest Hv Hfuel; (destruct fuel as [|fuel]; [lia|]).
  - exists b. done.
  - cbn [scan_loop]. destruct (Z.leb_spec (Z.of_nat (length ((s - (gap + 2) - block, s - (gap + 2)) :: rs))) 0).
    { cbn in *. lia. }
    rewrite <- !app_assoc in Hv. read_step (reads_varint_enc _ _ Hu1).
    rewrite u64_add_ok by varint_lia. cbn [obind]. unfold checked_sub at 1.
    destruct (Z.leb_spec (gap + 2) s); [|varint_lia]. read_step (reads_varint_enc _ _ Hu2).
    unfold checked_sub. destruct (Z.leb_spec block (s - (gap + 2))); [|varint_lia].
    match goal with Hv : view ?b1 = bs ++ rest |- _ =>
      destruct (IH fuel b1 rest Hv) as (b' & Hs & ?); [cbn in Hfuel; lia|] end.
    exists b'. rewrite <- Hs. split; [|done]. f_equal. cbn. lia.
Qed.

(** Outcomes that are values, with what is read taken off the front. *)
Definition safe {A E} (Q : A -> Prop) (b : B) (m : outcome (result (A * B) E)) : Prop :=
  match m with
  | Ret (Ok (a, b')) => Q a /\ exists pre, view b = pre ++ view b'
  | Ret (Err _) => True
  | Panic => False
  end.

Lemma safe_bind {A C E F} (Q : A -> Prop) (R : C -> Prop) (conv : E -> F) b m k :
  safe Q b m -> (forall a b', Q a -> safe R b' (k (a, b'))) -> safe R b (rbind conv m k).
Proof.
  unfold safe. destruct m as [[[a b']|e]|]; cbn; [|done|done]. intros [Ha [pre ->]] Hk.
  specialize (Hk a b' Ha). destruct (k (a, b')) as [[[c b'']|e]|]; [|done|done].
  destruct Hk as [? [pre' ->]]. split; [done|]. exists (pre ++ pre'). by rewrite app_assoc.
Qed.

Lemma safe_ret {A E} (Q : A -> Prop) b a : Q a -> safe (E:=E) Q b (Ret (Ok (a, b))).
Proof. intros. split; [done|]. by exists []. Qed.

Lemma safe_varint b : safe is_varint b (try_get_varint b).
Proof.
  destruct (try_get_varint_cases b) as [(v & b' & u & -> & Hv & Hb & _)|(e & -> & _)]; cbn; eauto.
Qed.

Lemma safe_bytes b : safe (fun _ => True) b (try_get_bytes_with_varint_length b).
Proof.
  destruct (try_get_bytes_cases b) as [(l & b' & u & -> & Hv & _)|(e & ->)]; cbn; [|done].
  split; [done|]. exists (u ++ l). by rewrite <- app_assoc.
Qed.

Lemma safe_u64 b : safe (fun _ => True) b (try_get_u64 b).
Proof.
  destruct (try_get_uint_cases 8 b ltac:(lia)) as [(b' & Hg & _ & Hv)|[_ Hg]];
    change (try_get_uint 8 b) with (try_get_u64 b) in Hg; rewrite Hg; cbn; [|done].
  split; [done|]. eexists. by rewrite Hv, take_drop.
Qed.

Lemma split_to_view n b : 0 <= n <= zlen (view b) ->
  exists b', split_to n b = Ret (take (Z.to_nat n) (view b), b') /\ view b' = drop (Z.to_nat n) (view b).
Proof.
  intros Hn. unfold split_to, copy_to_bytes. destruct (try_copy_ok n b Hn) as (b' & -> & ?). eauto.
Qed.

Lemma safe_rest b :
  safe (E:=TryGetError) (fun _ => True) b (let! p := split_to (remaining b) b in Ret (Ok p)).
Proof.
  rewrite remaining_view. pose proof (zlen_nonneg (view b)).
  destruct (split_to_view (zlen (view b)) b) as (b' & -> & Hv); [lia|]. cbn. split; [done|].
  eexists. by rewrite Hv, take_drop.
Qed.

Lemma scan_loop_cases fuel n s (b : B) : (length (view b) < fuel)%nat ->
  (exists b' bs rs, scan_loop fuel n s b = Ret (Ok b') /\ ack_tail s bs rs /\
     view b = bs ++ view b' /\ Z.of_nat (length rs) = Z.max 0 n) \/
  (exists e, scan_loop fuel n s b = Ret (Err e)).
Proof.
  revert n s b. induction fuel as [|fuel IH]; intros n s b Hf; [lia|]. cbn [scan_loop].
  destruct (Z.leb_spec n 0).
  { left. exists b, [], []. split_and!; [done|constructor|done|cbn; lia]. }
  destruct (try_get_varint_cases b) as [(gap & b1 & u1 & -> & Hg & Hv1 & Hl1 & He1)|(e & -> & _)];
    cbn [rbind]; [|by eauto].
  rewrite u64_add_ok by varint_lia. cbn [obind]. unfold checked_sub.
  destruct (Z.leb_spec (gap + 2) s); [|by eauto].
  destruct (try_get_varint_cases b1) as [(block & b2 & u2 & -> & Hb & Hv2 & Hl2 & He2)|(e & -> & _)];
    cbn [rbind]; [|by eauto].
  destruct (Z.leb_spec block (s - (gap + 2))); [|by eauto].
  destruct (IH (n - 1) (s - (gap + 2) - block) b2) as [(b' & bs & rs & -> & Ht & Hv & Hn)|[e ->]];
    [|left|by eauto].
  { rewrite Hv1, Hv2, !length_app in Hf. unfold zlen in *. lia. }
  exists b', (u1 ++ u2 ++ bs), ((s - (gap + 2) - block, s - (gap + 2)) :: rs).
  split; [done|]. split; [by constructor; try done; lia|]. rewrite Hv1, Hv2, Hv, <- !app_assoc.
  split; [done|]. cbn. lia.
Qed.

Lemma scan_ack_blocks_cases (b : B) largest n :
  (exists len rs b', scan_ack_blocks b largest n = Ret (Ok len) /\ 0 <= len <= zlen (view b) /\
     split_to len b = Ret (take (Z.to_nat len) (view b), b') /\ view b' = drop (Z.to_nat len) (view b) /\
     ack_wire largest (take (Z.to_nat len) (view b)) rs /\ Z.of_nat (length rs) = 1 + Z.max 0 n) \/
  (exists e, scan_ack_blocks b largest n = Ret (Err e)).
Proof.
  unfold scan_ack_blocks.
  destruct (try_get_varint_cases b) as [(block & b1 & u & -> & Hb & Hv & Hl & He)|(e & -> & _)];
    cbn [rbind]; [|by eauto].
  unfold checked_sub. destruct (Z.leb_spec block largest); [|by eauto].
  rewrite !remaining_view. 
  destruct (scan_loop_cases (S (Z.to_nat (zlen (view b1)))) n (largest - block) b1)
    as [(b2 & bs & rs & -> & Ht & Hv2 & Hn)|[e ->]]; [unfold zlen; lia| |cbn; by eauto].
  left. cbn [obind]. rewrite remaining_view.
  assert (Hlen : zlen (view b) = zlen u + zlen bs + zlen (view b2)).
  { rewrite Hv, Hv2. rewrite !zlen_app. lia. }
  pose proof (zlen_nonneg (view b2)). pose proof (zlen_nonneg bs).
  rewrite u64_sub_ok by lia. cbn [obind].
  destruct (split_to_view (zlen (view b) - zlen (view b2)) b) as (b' & Hs & Hvs); [lia|].
  exists (zlen (view b) - zlen (view b2)), ((largest - block, largest) :: rs), b'.
  split; [done|]. split; [lia|]. split; [done|]. split; [done|]. split; [|cbn; lia].
  replace (take (Z.to_nat (zlen (view b) - zlen (view b2))) (view b)) with (u ++ bs); [by constructor|].
  rewrite Hv, Hv2, app_assoc, take_app_length'; [done|]. unfold zlen. rewrite !length_app. lia.
Qed.

(** What the parser guarantees of a frame: its numbers are varints, the ranges
    of an ACK frame are well encoded, and a connection identifier is well
    formed and not empty. *)
Definition frame_wf (f : Frame) : Prop :=
  match f with
  | FAck a => is_varint (ack_largest a) /\ is_varint (ack_delay a) /\
      exists rs, ack_wire (ack_largest a) (ack_additional a) rs
  | FResetStream r => is_varint (rs_id r) /\ is_varint (rs_error_code r) /\ is_varint (rs_final_offset r)
  | FStopSending s => is_varint (ss_id s) /\ is_varint (ss_error_code s)
  | FCrypto c => is_varint (crypto_offset c)
  | FStream s => is_varint (st_id s) /\ is_varint (st_offset s)
  | MaxData x | MaxStreams _ x | DataBlocked x | StreamsBlocked _ x | RetireConnectionId x => is_varint x
  | MaxStreamData id x | StreamDataBlocked id x => is_varint id /\ is_varint x
  | FNewConnectionId c => is_varint (nc_sequence c) /\ nc_retire_prior_to c <= nc_sequence c /\
      cid_wf (nc_id c) /\ 0 < cid_len (nc_id c) /\ zlen (nc_reset_token c) = RESET_TOKEN_SIZE
  | _ => True
  end.

Ltac safe_step :=
  match goal with
  | |- safe _ _ (rbind _ (try_get_varint _) _) =>
      eapply (safe_bind is_varint); [apply safe_varint|intros ? ? ?]
  | |- safe _ _ (rbind _ (try_get_bytes_with_varint_length _) _) =>
      eapply (safe_bind (fun _ => True)); [apply safe_bytes|intros ? ? _]
  | |- safe _ _ (rbind _ (try_get_u64 _) _) =>
      eapply (safe_bind (fun _ => True)); [apply safe_u64|intros ? ? _]
  | |- safe _ _ (Ret (Err _)) => exact I
  | |- safe _ _ (Ret (Ok _)) => apply safe_ret; cbn; auto
  end.

Lemma safe_ack ty b : safe frame_wf b
  (let? '(largest, buf) := try_get_varint b as UnexpectedEnd in
   let? '(delay, buf) := try_get_varint buf as UnexpectedEnd in
   let? '(extra_blocks, buf) := try_get_varint buf as UnexpectedEnd in
   let? n := scan_ack_blocks buf largest extra_blocks in
   let! '(additional, buf) := split_to n buf in
   let? '(ecn, buf) :=
     if negb (ty =? FrameType.ACK_ECN) then Ret (Ok (None, buf))
     else
       let? '(ect0, buf) := try_get_varint buf as UnexpectedEnd in
       let? '(ect1, buf) := try_get_varint buf as UnexpectedEnd in
       let? '(ce, buf) := try_get_varint buf as UnexpectedEnd in
       Ret (Ok (Some {| ect0 := ect0; ect1 := ect1; ce := ce |}, buf)) in
   Ret (Ok (FAck {| ack_largest := largest; ack_delay := delay;
                    ack_additional := additional; ack_ecn := ecn |}, buf))).
Proof.
  eapply (safe_bind is_varint); [apply safe_varint|intros largest b1 Hl].
  eapply (safe_bind is_varint); [apply safe_varint|intros delay b2 Hd].
  eapply (safe_bind is_varint); [apply safe_varint|intros extra b3 Hx].
  destruct (scan_ack_blocks_cases b3 largest extra)
    as [(len & rs & b4 & -> & Hlen & Hsp & Hv & Hw & _)|[e ->]]; cbn [rbind]; [|exact I].
  rewrite Hsp. cbn [obind].
  match goal with |- safe ?Q b3 ?m => assert (Hs : safe Q b4 m) end.
  - eapply (safe_bind (fun _ => True)).
    + destruct (negb (ty =? FrameType.ACK_ECN)); [by apply safe_ret|]. repeat safe_step.
    + intros ecn b5 _. apply safe_ret. cbn. eauto.
  - unfold safe in *.
    match goal with |- match ?m with _ => _ end => destruct m as [[[f b5]|e]|] end; [|done|done].
    destruct Hs as [? [pre Hpre]]. split; [done|]. exists (take (Z.to_nat len) (view b3) ++ pre).
    by rewrite <- app_assoc, <- Hpre, Hv, take_drop.
Qed.

Lemma parse_body_safe ty b : ty <> FrameType.NEW_CONNECTION_ID -> safe frame_wf b (parse_body ty b).
Proof.
  intros Hty. unfold parse_body.
  destruct (ty =? FrameType.PADDING); [repeat safe_step|].
  do 14 (match goal with |- safe _ _ (if ty =? ?x then _ else _) =>
    destruct (ty =? x); [repeat safe_step|] end).
  destruct ((ty =? FrameType.ACK) || (ty =? FrameType.ACK_ECN)); [apply safe_ack|].
  do 2 (match goal with |- safe _ _ (if ty =? ?x then _ else _) =>
    destruct (ty =? x); [repeat safe_step|] end).
  destruct (Z.eqb_spec ty FrameType.NEW_CONNECTION_ID); [done|].
  do 4 (match goal with |- safe _ _ (if ty =? ?x then _ else _) =>
    destruct (ty =? x); [repeat safe_step|] end).
  destruct (FrameType.stream ty) as [s|].
  - safe_step. eapply (safe_bind is_varint).
    + destruct (StreamInfo_off s); [apply safe_varint|apply safe_ret; varint_lia].
    + intros offset b2 Ho. eapply (safe_bind (fun _ => True)); [|intros; repeat safe_step].
      destruct (StreamInfo_len s); [apply safe_bytes|apply safe_rest].
  - destruct (FrameType.datagram ty) as [d|]; [|exact I].
    eapply (safe_bind (fun _ => True)); [|intros; repeat safe_step].
    destruct (DatagramInfo_len d); [apply safe_bytes|apply safe_rest].
Qed.

(** A NEW_CONNECTION_ID frame whose identifier is too long. *)
Definition oversized_new_cid (l : list Z) : Prop :=
  exists u1 u2 u3 seq retire n rest, l = u1 ++ u2 ++ u3 ++ n :: rest /\
    varint_enc u1 FrameType.NEW_CONNECTION_ID /\ varint_enc u2 seq /\ varint_enc u3 retire /\
    retire <= seq /\ MAX_CID_SIZE < n.

Lemma parse_new_cid_cases b :
  (exists u2 u3 seq retire n rest, view b = u2 ++ u3 ++ n :: rest /\ varint_enc u2 seq /\
     varint_enc u3 retire /\ retire <= seq /\ MAX_CID_SIZE < n /\
     parse_body FrameType.NEW_CONNECTION_ID b = Panic) \/
  safe frame_wf b (parse_body FrameType.NEW_CONNECTION_ID b).
Proof.
  unfold parse_body. decide_types.
  destruct (try_get_varint_cases b) as [(seq & b1 & u2 & -> & Hs & Hv1 & _ & He1)|(e & -> & _)];
    cbn [rbind]; [|by right].
  destruct (try_get_varint_cases b1) as [(retire & b2 & u3 & -> & Hr & Hv2 & _ & He2)|(e & -> & _)];
    cbn [rbind]; [|by right].
  destruct (Z.ltb_spec seq retire); [by right|].
  pose proof (cid_decode_cases b2) as Hc. destruct (view b2) as [|n l] eqn:Hb2.
  { destruct Hc as [e ->]. by right. }
  destruct (Z.ltb_spec MAX_CID_SIZE n).
  { left. exists u2, u3, seq, retire, n, l. rewrite Hc. split_and!; try done.
    by rewrite Hv1, Hv2. }
  right. destruct (n <=? zlen l); [|by destruct Hc as [e ->]].
  destruct Hc as (cid & b3 & -> & Hv3 & Hwf & Hn). cbn [rbind].
  destruct (cid_wf_take cid Hwf) as (lc & Hd & _ & Hl & _).
  unfold ConnectionId.is_empty. rewrite Hd. cbn [obind].
  destruct (Z.eqb_spec (zlen lc) 0); [done|]. unfold try_copy_to_slice, RESET_TOKEN_SIZE.
  destruct (try_copy_cases 16 b3 ltac:(lia)) as [(b4 & -> & Hle & Hv4)|[_ ->]]; cbn [rbind safe]; [|done].
  pose proof (zlen_nonneg lc). split.
  - cbn. split_and!; try done; try lia. by rewrite zlen_take by lia.
  - exists (u2 ++ u3 ++ n :: take (Z.to_nat n) l ++ take (Z.to_nat 16) (view b3)).
    rewrite Hv1, Hv2, ?Hb2, <- !app_assoc. cbn. by rewrite <- app_assoc, Hv4, take_drop, Hv3, take_drop.
Qed.

Lemma parse_new_cid_panic b u2 u3 seq retire n rest : view b = u2 ++ u3 ++ n :: rest ->
  varint_enc u2 seq -> varint_enc u3 retire -> retire <= seq -> MAX_CID_SIZE < n ->
  parse_body FrameType.NEW_CONNECTION_ID b = Panic.
Proof.
  intros Hv H2 H3 Hle Hn. unfold parse_body. decide_types.
  read_step (reads_varint_enc _ _ H2). read_step (reads_varint_enc _ _ H3).
  destruct (Z.ltb_spec seq retire); [lia|].
  match goal with Hv : view ?b2 = n :: rest |- _ =>
    pose proof (cid_decode_cases b2) as Hc; rewrite Hv in Hc end.
  destruct (Z.ltb_spec MAX_CID_SIZE n); [|lia]. by rewrite Hc.
Qed.

(** One step of the parser on arbitrary bytes: a panic on an oversized
    connection identifier, or an error, or a well-formed frame and progress. *)
Lemma try_next_cases (p : FrameParser B) :
  (oversized_new_cid (view (fp_bytes p)) /\ try_next p = Panic) \/
  (~ oversized_new_cid (view (fp_bytes p)) /\ exists ty r, try_next p = Ret (ty, r) /\
     match r with
     | Ok (f, b') => frame_wf f /\
         exists pre, (0 < length pre)%nat /\ view (fp_bytes p) = pre ++ view b'
     | Err _ => True
     end).
Proof.
  unfold try_next. set (b := fp_bytes p).
  destruct (try_get_varint_cases b) as [(ty & b1 & u1 & Hg & Hty & Hv1 & Hl & He1)|(e & Hg & _)]; rewrite Hg.
  2: { right. split; [|by exists (fp_last_ty p), (Err (UnexpectedEnd e))]. intros (u1 & u2 & u3 & seq & retire & n & rest & Hv & He & _).
       destruct (reads_varint_enc u1 _ He _ _ Hv) as (? & ? & _). congruence. }
  cbn [obind].
  assert (Hover : oversized_new_cid (view b) -> ty = FrameType.NEW_CONNECTION_ID /\
    parse_body ty b1 = Panic).
  { intros (v1 & u2 & u3 & seq & retire & n & rest & Hv & Hu1 & Hu2 & Hu3 & Hle & Hn).
    destruct (reads_varint_enc v1 _ Hu1 _ _ Hv) as (b1' & Hg' & Hv'). rewrite Hg in Hg'. simplify_eq.
    split; [done|]. by eapply parse_new_cid_panic. }
  assert (Hsafe : safe frame_wf b1 (parse_body ty b1) ->
    ~ oversized_new_cid (view b) /\ exists ty' r, (let! r := parse_body ty b1 in Ret (Some ty, r)) = Ret (ty', r) /\
     match r with
     | Ok (f, b') => frame_wf f /\ exists pre, (0 < length pre)%nat /\ view b = pre ++ view b'
     | Err _ => True
     end).
  { intros Hs. split; [intros [_ Hp]%Hover; by rewrite Hp in Hs|].
    unfold safe in Hs. destruct (parse_body ty b1) as [[[f b2]|e]|]; [|by exists (Some ty), (Err e)|done].
    destruct Hs as [Hwf [pre Hpre]]. cbn. eexists _, _. split; [done|]. split; [done|].
    exists (u1 ++ pre). rewrite Hv1, Hpre, <- app_assoc, length_app. unfold zlen in Hl. split; [lia|done]. }
  destruct (Z.eq_dec ty FrameType.NEW_CONNECTION_ID) as [->|Hne].
  - destruct (parse_new_cid_cases b1) as [(u2 & u3 & seq & retire & n & rest & Hv & H2 & H3 & Hle & Hn & Hp)|Hs];
      [left|by right; apply Hsafe].
    split; [|by rewrite Hp]. exists u1, u2, u3, seq, retire, n, rest. by rewrite Hv1, Hv.
  - right. apply Hsafe. by apply parse_body_safe.
Qed.

(** Parsing to the end terminates: frames, then at most one error. *)
Lemma parse_all_cases fuel (p : FrameParser B) :
  (length (view (fp_bytes p)) < fuel)%nat ->
  (forall pre l, view (fp_bytes p) = pre ++ l -> ~ oversized_new_cid l) ->
  exists fs err, parse_all fuel p = Ret (map Ok fs ++ err) /\ Forall frame_wf fs /\
    (err = [] \/ exists e, err = [Err e]) /\ (length fs <= length (view (fp_bytes p)))%nat.
Proof.
  revert p. induction fuel as [|fuel IH]; intros p Hf Hno; [lia|].
  cbn [parse_all]. unfold FrameParser_next. rewrite remaining_view.
  destruct (Z.eqb_spec (zlen (view (fp_bytes p))) 0) as [|Hne].
  { exists [], []. cbn. split_and!; [done|constructor|by left|lia]. }
  destruct (try_next_cases p) as [[Hov _]|[_ (ty & r & -> & Hr)]].
  { exfalso. by apply (Hno [] (view (fp_bytes p))). }
  cbn [obind]. destruct r as [[f b']|e].
  - destruct Hr as (Hwf & pre & Hpre & Hv).
    destruct (IH {| fp_bytes := b'; fp_last_ty := ty |}) as (fs & err & Hp & Hfs & Herr & Hlen);
      cbn [fp_bytes] in *.
    + rewrite Hv, length_app in Hf. lia.
    + intros pre' l Hv'. apply (Hno (pre ++ pre')). by rewrite Hv, Hv', app_assoc.
    + exists (f :: fs), err. cbn [obind]. rewrite Hp. cbn [obind map app]. rewrite Hv, length_app. cbn [length].
      split_and!; [done|by constructor|done|lia].
  - destruct fuel as [|fuel]; [unfold zlen in Hne; lia|]. cbn [obind parse_all].
    unfold FrameParser_next. cbn [fp_bytes]. rewrite remaining_view, view_clear. cbn.
    eexists [], [_]. cbn. split_and!; [done|constructor|eauto|lia].
Qed.
(** *** The data of a STREAM frame is a part of what is parsed *)
Lemma varint_shortens (b b' : B) v : try_get_varint b = Ret (Ok (v, b')) -> zlen (view b') <= zlen (view b).
Proof.
  destruct (try_get_varint_cases b) as [(x & b1 & u & -> & _ & Hv & _)|(e & -> & _)]; [|done].
  intros [= _ <-]. rewrite Hv, zlen_app. pose proof (zlen_nonneg u). lia.
Qed.

Lemma data_shortens (c : bool) (b b' : B) data :
  (if c then try_get_bytes_with_varint_length b else let! p := split_to (remaining b) b in Ret (Ok p)) = Ret (Ok (data, b')) ->
  zlen data + zlen (view b') <= zlen (view b).
Proof.
  pose proof (zlen_nonneg (view b)). destruct c.
  - destruct (try_get_bytes_cases b) as [(l & b1 & u & -> & Hv & _)|(e & ->)]; [|done].
    intros [= <- <-]. rewrite Hv, !zlen_app. pose proof (zlen_nonneg u). lia.
  - rewrite remaining_view. destruct (split_to_view (zlen (view b)) b) as (b1 & -> & Hv); [lia|]. cbn [obind].
    intros [= <- <-]. rewrite Hv, zlen_take, zlen_drop by lia. lia.
Qed.

Lemma parse_body_stream ty b f b' : parse_body ty b = Ret (Ok (FStream f, b')) ->
  zlen (st_data f) + zlen (view b') <= zlen (view b).
Proof.
  unfold parse_body. intros Hp.
  repeat match type of Hp with
  | (if ?c then _ else _) = _ => destruct c; [exfalso; repeat first
      [ apply rbind_ok in Hp as ([? ?] & _ & Hp) | apply rbind_ok in Hp as (? & _ & Hp) | apply obind_ret in Hp as ([? ?] & _ & Hp)
      | apply obind_ret in Hp as (? & _ & Hp) | match type of Hp with (if ?c then _ else _) = _ => destruct c end | discriminate ]|]
  end.
  destruct (FrameType.stream ty) as [s|].
  2: { destruct (FrameType.datagram ty); [apply rbind_ok in Hp as ([? ?] & _ & Hp)|]; discriminate. }
  apply rbind_ok in Hp as ([id b1] & Hi%varint_shortens & Hp). apply rbind_ok in Hp as ([offset b2] & Ho & Hp).
  apply rbind_ok in Hp as ([data b3] & Hd%data_shortens & Hp). injection Hp as <- <-. cbn [st_data].
  destruct (StreamInfo_off s); [apply varint_shortens in Ho|injection Ho as _ <-]; lia.
Qed.

Lemma parse_all_stream fuel (p : FrameParser B) l f : parse_all fuel p = Ret l -> Ok (FStream f) ∈ l ->
  zlen (st_data f) <= zlen (view (fp_bytes p)).
Proof.
  revert p l. induction fuel as [|fuel IH]; intros p l; [done|]. cbn [parse_all]. intros Ha Hf.
  apply obind_ret in Ha as ([p1 [x|]] & Hn & Ha); [|injection Ha as <-; by apply not_elem_of_nil in Hf].
  apply obind_ret in Ha as (rest & Hrest & Ha). injection Ha as <-. unfold FrameParser_next in Hn.
  destruct (remaining (fp_bytes p) =? 0); [done|]. apply obind_ret in Hn as ([ty [[g b]|e]] & Ht & Hn); injection Hn as <- <-.
  - pose proof (try_next_cases p) as [[_ Hpa]|[_ (ty' & r & Heq & Hr)]]; [congruence|]. rewrite Ht in Heq. injection Heq as <- <-.
    destruct Hr as [_ (pre & _ & Hv)]. apply elem_of_cons in Hf as [Hf|Hf].
    + injection Hf as <-. unfold try_next in Ht. apply obind_ret in Ht as ([[ty1 b1]|e] & Hg & Ht); [|done].
      apply varint_shortens in Hg. apply obind_ret in Ht as (r & Hb & Ht). injection Ht as _ ->.
      apply parse_body_stream in Hb. pose proof (zlen_nonneg (view b)). lia.
    + apply (IH _ _ Hrest) in Hf. cbn [fp_bytes] in Hf. rewrite Hv, zlen_app. pose proof (zlen_nonneg pre). lia.
  - apply elem_of_cons in Hf as [|Hf]; [done|]. apply (IH _ _ Hrest) in Hf. cbn [fp_bytes] in Hf.
    rewrite view_clear, zlen_nil in Hf. pose proof (zlen_nonneg (view (fp_bytes p))). lia.
Qed.

Lemma parse_payload_stream (payload : B) l f : parse_payload payload = Ret (Ok l) -> Ok (FStream f) ∈ l ->
  zlen (st_data f) <= remaining payload.
Proof.
  unfold parse_payload, FrameParser_new. rewrite remaining_view. destruct (zlen (view payload) =? 0); [done|].
  intros Hp Hf. apply obind_ret in Hp as (l' & Hl & Hp). injection Hp as ->. exact (parse_all_stream _ _ _ _ Hl Hf).
Qed.
End Scan.

(** ** Encoding the ranges of a set *)

(** Ranges in decreasing order, below [p] and separated from it. *)
Fixpoint descending (p : Z) (l : list range) : Prop :=
  match l with
  | [] => True
  | r :: l => 0 <= rstart r < rend r /\ rend r < p /\ descending (rstart r) l
  end.

Lemma descending_app p l r : descending p l -> 0 <= rstart r < rend r ->
  (forall x, x ∈ l -> rend r < rstart x) -> rend r < p -> descending p (l ++ [r]).
Proof.
  revert p. induction l as [|x l IH]; intros p Hd Hr Hall Hp; [by cbn|].
  destruct Hd as (? & ? & Hd). cbn. split_and!; [lia..|]. apply IH; try done.
  - intros y Hy. apply Hall. by constructor.
  - apply Hall. by constructor.
Qed.

Lemma descending_rev lo s p : -1 <= lo -> wf_from lo s -> (forall r, r ∈ s -> rend r < p) ->
  descending p (rev s).
Proof.
  revert lo. induction s as [|r s IH]; intros lo Hlo Hwf Hp; [done|].
  destruct Hwf as (? & ? & Hwf). cbn [rev]. apply descending_app.
  - apply (IH (rend r)); [lia|done|]. intros x Hx. apply Hp. by constructor.
  - lia.
  - intros x Hx. rewrite list_elem_of_In, <- in_rev, <- list_elem_of_In in Hx.
    pose proof (wf_from_above (rend r) s (rstart x) Hwf) as Ha. apply Ha.
    apply list_elem_of_split in Hx as (s1 & s2 & ->).
    assert (Hx : rstart x < rend x).
    { apply wf_from_app in Hwf. cbn in Hwf. tauto. }
    exists x. split; [set_solver|]. unfold in_range. lia.
  - apply Hp. by constructor.
Qed.

(** The inclusive range of a half-open one. *)
Definition inclusive (r : range) : Z * Z := (rstart r, rend r - 1).

Section AckEncode.
Context {W : Type} `{BufMutLaws W}.

Fixpoint ack_blocks_bytes (rest : list range) (prev : Z) : list Z :=
  match rest with
  | [] => []
  | r :: rest => varint_bytes (prev - rend r - 1) ++ varint_bytes (rend r - rstart r - 1) ++
      ack_blocks_bytes rest (rstart r)
  end.

Lemma emits_ack_blocks rest prev : descending prev rest -> prev <= VARINT_MAX ->
  emits (W:=W) (encode_ack_blocks rest prev) (ack_blocks_bytes rest prev).
Proof.
  revert prev. induction rest as [|r rest IH]; intros prev Hd Hp; [apply emits_ret|].
  destruct Hd as (? & ? & Hd). cbn [encode_ack_blocks ack_blocks_bytes].
  eapply emits_ext.
  { intros w. rewrite !u64_sub_ok by lia. cbn [obind]. rewrite !u64_sub_ok by lia. cbn [obind].
    reflexivity. }
  apply emits_bind; [apply emits_put_varint; varint_lia|].
  apply emits_bind; [apply emits_put_varint; varint_lia|]. apply IH; [done|lia].
Qed.

Lemma varint_enc_bytes v : is_varint v -> varint_enc (varint_bytes v) v.
Proof.
  Transparent varint_bytes. unfold varint_bytes. Opaque varint_bytes. intros Hv.
  repeat case_match;
    [apply (VarintEnc _ _ 1 6 0)|apply (VarintEnc _ _ 2 14 1)|apply (VarintEnc _ _ 4 30 2)
    |apply (VarintEnc _ _ 8 62 3)]; (done || varint_lia).
Qed.

Lemma ack_blocks_tail rest prev : descending prev rest -> prev <= VARINT_MAX ->
  ack_tail prev (ack_blocks_bytes rest prev) (map inclusive rest).
Proof.
  revert prev. induction rest as [|r rest IH]; intros prev Hd Hp; [constructor|].
  destruct Hd as (? & ? & Hd). cbn [ack_blocks_bytes map].
  replace (inclusive r) with (prev - (prev - rend r - 1 + 2) - (rend r - rstart r - 1),
    prev - (prev - rend r - 1 + 2)) by (unfold inclusive; f_equal; lia).
  constructor; try (apply varint_enc_bytes; varint_lia); try varint_lia.
  replace (prev - (prev - rend r - 1 + 2) - (rend r - rstart r - 1)) with (rstart r) by lia.
  apply IH; [done|lia].
Qed.
End AckEncode.

Definition ecn_bytes (x : option EcnCounts) : list Z :=
  match x with
  | Some x => varint_bytes (ect0 x) ++ varint_bytes (ect1 x) ++ varint_bytes (ce x)
  | None => []
  end.

Definition ecn_wf (x : option EcnCounts) : Prop :=
  match x with
  | Some x => is_varint (ect0 x) /\ is_varint (ect1 x) /\ is_varint (ce x)
  | None => True
  end.

Definition ack_ty (ecn : option EcnCounts) : FrameType :=
  match ecn with Some _ => FrameType.ACK_ECN | None => FrameType.ACK end.

(** The block count, the blocks, and the rest of the frame after its delay. *)
Definition ack_bytes (delay : Z) (s : ArrayRangeSet.t) (ecn : option EcnCounts) : list Z :=
  match rev s with
  | [] => []
  | first :: rest =>
      varint_bytes (rend first - 1) ++ varint_bytes delay ++ varint_bytes (zlen s - 1) ++
      (varint_bytes (rend first - rstart first - 1) ++ ack_blocks_bytes rest (rstart first)) ++
      ecn_bytes ecn
  end.

(** A non-empty set of numbers that fit a varint. *)
Record ack_ok (delay : Z) (s : ArrayRangeSet.t) (ecn : option EcnCounts) : Prop := {
  ack_ok_wf : ArrayRangeSet.wf s;
  ack_ok_ne : s <> [];
  ack_ok_max : forall r, r ∈ s -> rend r <= VARINT_MAX + 1;
  ack_ok_len : zlen s <= VARINT_MAX;
  ack_ok_delay : is_varint delay;
  ack_ok_ecn : ecn_wf ecn;
}.

Lemma ack_ok_descending delay s ecn : ack_ok delay s ecn ->
  exists first rest, rev s = first :: rest /\ 0 <= rstart first < rend first /\
    rend first <= VARINT_MAX + 1 /\ descending (rstart first) rest /\ zlen s = 1 + zlen rest.
Proof.
  intros [Hwf Hne Hmax _ _ _].
  pose proof (descending_rev (-1) s (VARINT_MAX + 2) ltac:(lia) Hwf) as Hd.
  assert (Hl : length (rev s) = length s) by apply length_rev.
  destruct (rev s) as [|first rest]; [by destruct s|].
  destruct Hd as (? & ? & ?); [intros r Hr; specialize (Hmax r Hr); lia|].
  exists first, rest. split_and!; try done; try lia. unfold zlen. cbn in Hl. lia.
Qed.

Section AckFrame.
Context {B W : Type} `{BufBytes B} `{BufMutLaws W}.

Lemma emits_ack delay s ecn : ack_ok delay s ecn ->
  emits (W:=W) (encode_ack delay s ecn) (varint_bytes (ack_ty ecn) ++ ack_bytes delay s ecn).
Proof.
  intros Hok. destruct (ack_ok_descending _ _ _ Hok) as (first & rest & Hr & Hf & Hmax & Hd & Hlen).
  destruct Hok as [_ _ _ Hzl Hdelay Hecn]. pose proof (zlen_nonneg rest).
  unfold encode_ack, ack_bytes, iter, len. rewrite Hr, <- !app_assoc.
  eapply emits_ext.
  { intros w. rewrite !u64_sub_ok by lia. cbn [obind]. rewrite !u64_sub_ok by lia. cbn [obind].
    reflexivity. }
  apply emits_bind; [apply emits_put_varint; destruct ecn; cbn; varint_consts; vm_compute; by split|].
  apply emits_bind; [apply emits_put_varint; varint_lia|].
  apply emits_bind; [by apply emits_put_varint|].
  apply emits_bind; [apply emits_put_varint; varint_lia|].
  apply emits_bind; [apply emits_put_varint; varint_lia|].
  apply emits_bind; [apply emits_ack_blocks; [done|lia]|].
  destruct ecn as [x|]; [|apply emits_ret]. destruct Hecn as (? & ? & ?). cbn. unfold encode_ecn.
  emits_tac.
Qed.

Lemma ack_wire_bytes delay s ecn first rest : ack_ok delay s ecn -> rev s = first :: rest ->
  ack_wire (rend first - 1)
    (varint_bytes (rend first - rstart first - 1) ++ ack_blocks_bytes rest (rstart first))
    (map inclusive (rev s)).
Proof.
  intros Hok Hr. destruct (ack_ok_descending _ _ _ Hok) as (f' & r' & Hr' & Hf & Hmax & Hd & _).
  rewrite Hr in Hr' |- *. simplify_eq. cbn [map].
  replace (inclusive f') with (rend f' - 1 - (rend f' - rstart f' - 1), rend f' - 1)
    by (unfold inclusive; f_equal; lia).
  constructor; [apply varint_enc_bytes; varint_lia|varint_lia|lia|].
  replace (rend f' - 1 - (rend f' - rstart f' - 1)) with (rstart f') by lia.
  apply ack_blocks_tail; [done|lia].
Qed.

Lemma reads_scan largest bs rs (b : B) rest n : ack_wire largest bs rs -> view b = bs ++ rest ->
  n + 1 = Z.of_nat (length rs) ->
  scan_ack_blocks b largest n = Ret (Ok (zlen bs)).
Proof.
  intros [u block bs' rs' Hu Hb Hle Ht] Hv Hn. unfold scan_ack_blocks. rewrite <- app_assoc in Hv.
  pose proof (remaining_view b) as Hr. rewrite Hv in Hr.
  read_step (reads_varint_enc _ _ Hu). unfold checked_sub. destruct (Z.leb_spec block largest); [|lia].
  match goal with Hv : view ?b2 = bs' ++ rest |- _ =>
    destruct (scan_loop_ok _ _ _ Ht (S (Z.to_nat (remaining b2))) b2 rest Hv) as (b' & Hs & Hb');
      [rewrite remaining_view, Hv; pose proof (ack_tail_length _ _ _ Ht); unfold zlen;
       rewrite length_app; lia|] end.
  replace n with (Z.of_nat (length rs')) by (cbn in Hn; lia). rewrite Hs. cbn [obind].
  rewrite Hr, remaining_view, Hb', !zlen_app. pose proof (zlen_nonneg rest).
  pose proof (zlen_nonneg bs'). pose proof (zlen_nonneg u).
  rewrite u64_sub_ok by lia. cbn [obind]. do 2 f_equal. lia.
Qed.

Lemma encodes_ack delay s ecn : ack_ok delay s ecn ->
  exists a, encodes (B:=B) (W:=W) (encode_ack delay s ecn) (FAck a) /\
    ack_delay a = delay /\ ack_ecn a = ecn /\ ack_ranges a = Ret (map inclusive (rev s)).
Proof.
  intros Hok. destruct (ack_ok_descending _ _ _ Hok) as (first & rest & Hr & Hf & Hmax & Hd & Hlen).
  pose proof (ack_wire_bytes _ _ _ _ _ Hok Hr) as Hw. pose proof (emits_ack _ _ _ Hok) as He.
  set (blocks := varint_bytes (rend first - rstart first - 1) ++ ack_blocks_bytes rest (rstart first)) in *.
  exists {| ack_largest := rend first - 1; ack_delay := delay; ack_additional := blocks; ack_ecn := ecn |}.
  split; [|split_and!; [done..|by apply ack_ranges_spec]].
  assert (Hbytes : ack_bytes delay s ecn = varint_bytes (rend first - 1) ++ varint_bytes delay ++
    varint_bytes (zlen s - 1) ++ blocks ++ ecn_bytes ecn) by (unfold ack_bytes; by rewrite Hr).
  destruct Hok as [_ _ _ Hzl Hdelay Hecn]. pose proof (zlen_nonneg rest).
  assert (Hlens : zlen s - 1 + 1 = Z.of_nat (length (map inclusive (rev s)))).
  { rewrite length_map, length_rev. unfold zlen. lia. }
  clearbody blocks. rewrite Hbytes in He. eapply encodes_intro; [|exact He|].
  { destruct ecn; cbn; auto with codec. }
  intros b rest' Hb. rewrite <- !app_assoc in Hb. unfold parse_body. 
  assert (Hl1 : is_varint (rend first - 1)) by varint_lia.
  assert (Hl2 : is_varint (zlen s - 1)) by varint_lia.
  destruct ecn as [x|]; cbn [ack_ty ecn_bytes ecn_wf] in *; decide_types;
    read_step (reads_varint _ Hl1); read_step (reads_varint _ Hdelay); read_step (reads_varint _ Hl2);
    match goal with Hv : view ?b3 = blocks ++ ?r |- _ =>
      rewrite (reads_scan _ _ _ b3 r _ Hw Hv Hlens); cbn [rbind];
      destruct (copy_to_bytes_app blocks b3 r Hv) as (b4 & Hsp & Hv4);
      change (copy_to_bytes (zlen blocks) b3) with (split_to (zlen blocks) b3) in Hsp;
      rewrite Hsp; cbn [obind] end.
  - destruct Hecn as (Hc0 & Hc1 & Hc2).
    rewrite <- !app_assoc in *.
    read_step (reads_varint _ Hc0). read_step (reads_varint _ Hc1). read_step (reads_varint _ Hc2).
    destruct x. eauto.
  - cbn. eauto.
Qed.
End AckFrame.

(** ** Shape of the ranges of a parsed ACK frame *)

(** Inclusive ranges, in decreasing order and pairwise separated, below [p]. *)
Fixpoint inclusive_descending (p : Z) (rs : list (Z * Z)) : Prop :=
  match rs with
  | [] => True
  | (lo, hi) :: rs => 0 <= lo <= hi /\ hi + 1 < p /\ inclusive_descending lo rs
  end.

Lemma ack_tail_shape s bs rs : ack_tail s bs rs -> inclusive_descending s rs.
Proof.
  induction 1 as [|s u1 u2 gap block bs rs _ _ ? ? ? _ IH]; [done|].
  cbn. split_and!; [varint_lia..|done].
Qed.

Lemma ack_wire_shape l bs rs : ack_wire l bs rs ->
  inclusive_descending (l + 2) rs /\ exists lo rs', rs = (lo, l) :: rs'.
Proof.
  intros [u block bs' rs' _ ? ? Ht]. apply ack_tail_shape in Ht. cbn.
  split; [|by eauto]. split_and!; [varint_lia..|done].
Qed.

(** ** The length of a close frame *)

Section CloseLength.
Context {W : Type} `{BufMutLaws W}.

Definition close_code (c : ConnectionClose) : Z :=
  match c with Transport c => tc_error_code c | Application c => ac_error_code c end.
Definition close_reason (c : ConnectionClose) : list Z :=
  match c with Transport c => tc_reason c | Application c => ac_reason c end.
Definition close_frame_ty (c : ConnectionClose) : Z :=
  match c with Transport c => default FrameType.PADDING (tc_frame_type c) | Application _ => 0 end.

(** What is written never has more bytes than the code expects, if the error
    code takes two bytes. *)
Lemma reason_length_mono a b : 0 <= a <= b -> is_varint b ->
  zlen (varint_bytes a) <= zlen (varint_bytes b).
Proof.
  Transparent varint_bytes. unfold varint_bytes. Opaque varint_bytes. intros.
  repeat case_match; autorewrite with zlen; lia.
Qed.

Lemma emits_close c max_len : is_varint (close_code c) -> is_varint (close_frame_ty c) ->
  is_varint (zlen (close_reason c)) -> 19 <= max_len ->
  exists bs, emits (W:=W) (encode_close c max_len) bs /\
    zlen bs <= max_len - 2 + zlen (varint_bytes (close_code c)).
Proof.
  intros Hc Hty Hr Hmax. pose proof (varint_bytes_length _ Hr). pose proof (varint_bytes_length _ Hty).
  pose proof (zlen_nonneg (close_reason c)).
  assert (Hone : forall v, 0 <= v <= VARINT_MAX_1 -> zlen (varint_bytes v) = 1).
  { intros v Hv. apply varint_bytes_small; varint_lia. }
  assert (Htrunc : forall n, 0 <= n <= zlen (close_reason c) ->
    let l := take (Z.to_nat n) (close_reason c) in
    is_varint (zlen l) /\ zlen l = n /\
    zlen (varint_bytes n) <= zlen (varint_bytes (zlen (close_reason c)))).
  { intros n Hn l. assert (zlen l = n) as Hl by (by apply zlen_take). rewrite Hl.
    split_and!; [varint_lia|done|]. by apply reason_length_mono. }
  destruct c as [c|c]; cbn [close_code close_frame_ty close_reason encode_close] in *.
  - unfold encode_close, encode_transport_close. eexists. split.
    + rewrite !varint_len_bytes by done. rewrite (u64_sub_ok max_len 3) by lia. cbn [obind].
      rewrite u64_sub_ok by lia. cbn [obind]. rewrite u64_sub_ok by lia. cbn [obind].
      set (n := Z.min _ _). destruct (Htrunc n ltac:(lia)) as (? & _). emits_tac.
    + set (n := Z.min _ _). destruct (Htrunc n ltac:(lia)) as (? & Hl & ?).
      rewrite !zlen_app, Hl, (Hone FrameType.TRANSPORT_CLOSE) by (cbv; split; discriminate). lia.
  - unfold encode_close, encode_application_close. eexists. split.
    + rewrite !varint_len_bytes by done. rewrite (u64_sub_ok max_len 3) by lia. cbn [obind].
      rewrite u64_sub_ok by lia. cbn [obind].
      set (n := Z.min _ _). destruct (Htrunc n ltac:(lia)) as (? & _). emits_tac.
    + set (n := Z.min _ _). destruct (Htrunc n ltac:(lia)) as (? & Hl & ?).
      rewrite !zlen_app, Hl, (Hone FrameType.APPLICATION_CLOSE) by (cbv; split; discriminate). lia.
Qed.
End CloseLength.

(** ** Properties *)

(** An encoder of the library applied to a frame it can send, and the frame its
    bytes stand for.  With the flag, the frame has no length of its own and ends
    where the payload ends.  A close frame keeps of its reason the bytes that
    [max_len] leaves room for, and a frame type 0 is no frame type. *)
Inductive frame_encoder {W : Type} `{BufMut W} : bool -> (W -> outcome W) -> Frame -> Prop :=
| enc_reset_stream x : is_varint (rs_id x) -> is_varint (rs_error_code x) ->
    is_varint (rs_final_offset x) -> frame_encoder false (encode_reset_stream x) (FResetStream x)
| enc_stop_sending x : is_varint (ss_id x) -> is_varint (ss_error_code x) ->
    frame_encoder false (encode_stop_sending x) (FStopSending x)
| enc_crypto x : is_varint (crypto_offset x) -> is_varint (zlen (crypto_data x)) ->
    frame_encoder false (encode_crypto x) (FCrypto x)
| enc_new_token x : is_varint (zlen (token x)) -> frame_encoder false (encode_new_token x) (FNewToken x)
| enc_datagram x : is_varint (zlen (dg_data x)) -> frame_encoder false (encode_datagram x true) (FDatagram x)
| enc_last_datagram x : frame_encoder true (encode_datagram x false) (FDatagram x)
| enc_new_connection_id x : is_varint (nc_sequence x) -> 0 <= nc_retire_prior_to x <= nc_sequence x ->
    cid_wf (nc_id x) -> 0 < cid_len (nc_id x) -> zlen (nc_reset_token x) = RESET_TOKEN_SIZE ->
    frame_encoder false (encode_new_connection_id x) (FNewConnectionId x)
| enc_application_close x max_len : is_varint (ac_error_code x) -> is_varint (zlen (ac_reason x)) ->
    11 <= max_len ->
    frame_encoder false (encode_close (Application x) max_len)
      (Close (Application {| ac_error_code := ac_error_code x;
         ac_reason := take (Z.to_nat (max_len - 3 - zlen (varint_bytes (zlen (ac_reason x))))) (ac_reason x) |}))
| enc_transport_close x ty max_len : ty = default FrameType.PADDING (tc_frame_type x) ->
    is_varint (tc_error_code x) -> is_varint ty -> is_varint (zlen (tc_reason x)) -> 19 <= max_len ->
    frame_encoder false (encode_close (Transport x) max_len)
      (Close (Transport {| tc_error_code := tc_error_code x;
         tc_frame_type := if ty =? 0 then None else Some ty;
         tc_reason := take (Z.to_nat (max_len - 3 - zlen (varint_bytes ty) -
           zlen (varint_bytes (zlen (tc_reason x))))) (tc_reason x) |}))
| enc_stream m data : is_varint (sm_id m) -> is_varint (rstart (sm_offsets m)) ->
    rend (sm_offsets m) = rstart (sm_offsets m) + zlen data -> is_varint (zlen data) ->
    frame_encoder false (encode_stream m data)
      (FStream {| st_id := sm_id m; st_offset := rstart (sm_offsets m); st_fin := sm_fin m;
                  st_data := data |})
| enc_last_stream m data : is_varint (sm_id m) -> is_varint (rstart (sm_offsets m)) ->
    frame_encoder true (encode_last_stream m data)
      (FStream {| st_id := sm_id m; st_offset := rstart (sm_offsets m); st_fin := sm_fin m;
                  st_data := data |}).

(** C29: every frame encoder of frame.rs, the ones of ACK (another property)
    and ACK_FREQUENCY apart, is inverted by the parser.  It writes one byte
    string to any buffer, and panics exactly when that string does not fit; a parser positioned on that string
    yields the frame and goes on after it, whatever frames follow, or with
    nothing following it when the frame carries no length of its own (STREAM and
    DATAGRAM without one).  Every field is intact, except that a close frame has
    as many bytes of its reason as the room it was given leaves, and a frame
    type 0 counts as none.  An ACK_FREQUENCY frame is written as well, but the
    parser refuses what is written as an invalid frame. *)
Theorem frame_roundtrip {B W : Type} `{BufBytes B} `{BufMutLaws W} :
  (forall last enc (f : Frame), frame_encoder (W:=W) last enc f ->
     exists bs, emits enc bs /\ forall (p : FrameParser B) rest, view (fp_bytes p) = bs ++ rest ->
       (last = true -> rest = []) ->
       exists ty b', try_next p = Ret (Some ty, Ok (f, b')) /\ view b' = rest) /\
  (forall x, is_varint (af_sequence x) -> is_varint (af_ack_eliciting_threshold x) ->
     is_varint (af_request_max_ack_delay x) -> is_varint (af_reordering_threshold x) ->
     exists bs, emits (W:=W) (encode_ack_frequency x) bs /\
       forall (p : FrameParser B) rest, view (fp_bytes p) = bs ++ rest ->
         try_next p = Ret (Some FrameType.ACK_FREQUENCY, Err InvalidFrameId)).
Proof.
  split; [|exact ack_frequency_refused]. intros last enc f Henc.
  assert (Hmid : encodes (B:=B) enc f -> exists bs, emits enc bs /\ forall (p : FrameParser B) rest,
    view (fp_bytes p) = bs ++ rest -> (last = true -> rest = []) ->
    exists ty b', try_next p = Ret (Some ty, Ok (f, b')) /\ view b' = rest).
  { intros (bs & He & Hp). exists bs. split; [done|]. intros p rest Hv _. by apply Hp. }
  assert (Hlast : encodes_last (B:=B) enc f -> last = true -> exists bs, emits enc bs /\ forall (p : FrameParser B) rest,
    view (fp_bytes p) = bs ++ rest -> (last = true -> rest = []) ->
    exists ty b', try_next p = Ret (Some ty, Ok (f, b')) /\ view b' = rest).
  { intros (bs & He & Hp) Hl. exists bs. split; [done|]. intros p rest Hv Hr. rewrite (Hr Hl), app_nil_r in Hv.
    rewrite (Hr Hl). by apply Hp. }
  destruct Henc.
  - by apply Hmid, encodes_reset_stream.
  - by apply Hmid, encodes_stop_sending.
  - by apply Hmid, encodes_crypto.
  - by apply Hmid, encodes_new_token.
  - by apply Hmid, encodes_datagram.
  - apply Hlast; [apply encodes_last_datagram|done].
  - by apply Hmid, encodes_new_connection_id.
  - by apply Hmid, encodes_application_close.
  - subst ty. by apply Hmid, encodes_transport_close.
  - by apply Hmid, encodes_stream.
  - apply Hlast; [by apply encodes_last_stream|done].
Qed.

Definition sample_meta : StreamMeta := {| sm_id := 4; sm_offsets := Range 300 303; sm_fin := true |}.

Lemma sample_encoder : frame_encoder (W:=slice_buf) false (encode_stream sample_meta [1; 2; 3])
  (FStream {| st_id := 4; st_offset := 300; st_fin := true; st_data := [1; 2; 3] |}).
Proof. apply (enc_stream sample_meta [1; 2; 3]); cbn; try varint_lia; done. Qed.

(** A close frame with room for half of its reason. *)
Definition sample_refusal : ApplicationClose := {| ac_error_code := 7; ac_reason := replicate 4 111 ++ replicate 12 33 |}.

Lemma sample_refusal_encoder : frame_encoder (W:=slice_buf) false (encode_close (Application sample_refusal) 12)
  (Close (Application {| ac_error_code := 7; ac_reason := replicate 4 111 ++ replicate 4 33 |})).
Proof.
  assert (Hr : take (Z.to_nat (12 - 3 - zlen (varint_bytes (zlen (ac_reason sample_refusal))))) (ac_reason sample_refusal) =
    replicate 4 111 ++ replicate 4 33) by (vm_compute; reflexivity).
  rewrite <- Hr. apply (enc_application_close sample_refusal 12); vm_compute; try split; discriminate.
Qed.

Lemma frame_roundtrip_witness :
  (exists bs, emits (encode_stream (W:=slice_buf) sample_meta [1; 2; 3]) bs /\
    forall (p : FrameParser in_memory) rest, view (fp_bytes p) = bs ++ rest -> (false = true -> rest = []) ->
    exists ty b', try_next p = Ret (Some ty,
      Ok (FStream {| st_id := 4; st_offset := 300; st_fin := true; st_data := [1; 2; 3] |}, b')) /\
      view b' = rest) /\
  (exists bs, emits (encode_close (W:=slice_buf) (Application sample_refusal) 12) bs /\
    forall (p : FrameParser in_memory) rest, view (fp_bytes p) = bs ++ rest -> (false = true -> rest = []) ->
    exists ty b', try_next p = Ret (Some ty,
      Ok (Close (Application {| ac_error_code := 7; ac_reason := replicate 4 111 ++ replicate 4 33 |}), b')) /\
      view b' = rest).
Proof.
  split.
  - exact (proj1 (frame_roundtrip (B:=in_memory)) _ _ _ sample_encoder).
  - exact (proj1 (frame_roundtrip (B:=in_memory)) _ _ _ sample_refusal_encoder).
Defined.

(** C30: acknowledging a non-empty set of packet numbers round-trips: the ACK
    frame written for it parses, with the same delay and ECN counts, and
    iterating the parsed frame yields, without a panic, the ranges of the set
    from the largest to the smallest. *)
Theorem ack_roundtrip {B W : Type} `{BufBytes B} `{BufMutLaws W} delay (s : ArrayRangeSet.t) ecn :
  ack_ok delay s ecn ->
  exists bs a, emits (W:=W) (encode_ack delay s ecn) bs /\
    (forall (p : FrameParser B) rest, view (fp_bytes p) = bs ++ rest ->
       exists ty b', try_next p = Ret (Some ty, Ok (FAck a, b')) /\ view b' = rest) /\
    ack_delay a = delay /\ ack_ecn a = ecn /\
    ack_ranges a = Ret (map (fun r => (rstart r, rend r - 1)) (rev s)).
Proof.
  intros Hok. destruct (encodes_ack (B:=B) (W:=W) delay s ecn Hok) as (a & (bs & He & Hp) & Ha).
  by exists bs, a.
Qed.

Definition sample_acked : ArrayRangeSet.t := [Range 0 3; Range 7 8; Range 100 20000].

Lemma sample_ack_ok : ack_ok 25 sample_acked (Some {| ect0 := 5; ect1 := 0; ce := 70000 |}).
Proof.
  split.
  - unfold sample_acked, ArrayRangeSet.wf; cbn. lia.
  - done.
  - intros r Hr. repeat (apply elem_of_cons in Hr as [->|Hr]; [cbn; varint_lia|]). by apply elem_of_nil in Hr.
  - unfold zlen; cbn. varint_lia.
  - varint_lia.
  - cbn; split_and!; varint_lia.
Qed.

Lemma ack_roundtrip_witness :
  ack_ok 25 sample_acked (Some {| ect0 := 5; ect1 := 0; ce := 70000 |}) /\
  exists bs a, emits (W:=slice_buf)
      (encode_ack 25 sample_acked (Some {| ect0 := 5; ect1 := 0; ce := 70000 |})) bs /\
    (forall (p : FrameParser in_memory) rest, view (fp_bytes p) = bs ++ rest ->
       exists ty b', try_next p = Ret (Some ty, Ok (FAck a, b')) /\ view b' = rest) /\
    ack_delay a = 25 /\ ack_ecn a = Some {| ect0 := 5; ect1 := 0; ce := 70000 |} /\
    ack_ranges a = Ret (map (fun r => (rstart r, rend r - 1)) (rev sample_acked)).
Proof. exact (conj sample_ack_ok (ack_roundtrip (B:=in_memory) _ _ _ sample_ack_ok)). Defined.

(** The parser, one frame at a time, on arbitrary bytes: it panics exactly
    on a NEW_CONNECTION_ID frame that announces a connection identifier of more
    than 20 bytes.  On everything else it yields an error and is then exhausted,
    or a well-formed frame after which strictly fewer bytes are left. *)
Theorem frame_parser_step {B : Type} `{BufBytes B} (p : FrameParser B) :
  view (fp_bytes p) <> [] ->
  (FrameParser_next p = Panic <-> oversized_new_cid (view (fp_bytes p))) /\
  (forall p' r, FrameParser_next p = Ret (p', r) ->
     match r with
     | Some (Ok f) => frame_wf f /\ (length (view (fp_bytes p')) < length (view (fp_bytes p)))%nat
     | Some (Err e) => te_code e = TransportErrorCode.FRAME_ENCODING_ERROR /\
         FrameParser_next p' = Ret (p', None)
     | None => False
     end).
Proof.
  intros Hne. unfold FrameParser_next at 1 2. rewrite remaining_view.
  destruct (Z.eqb_spec (zlen (view (fp_bytes p))) 0) as [Hz|_].
  { destruct (view (fp_bytes p)); [done|]. rewrite zlen_cons in Hz. pose proof (zlen_nonneg l). lia. }
  destruct (try_next_cases p) as [[Hov ->]|[Hno (ty & r & -> & Hr)]]; [by split|].
  cbn [obind]. split; [split; [by destruct r as [[? ?]|?]|done]|].
  intros p' r'. destruct r as [[f b']|e]; intros [= <- <-].
  - destruct Hr as (Hwf & pre & Hpre & ->). split; [done|]. cbn. rewrite length_app. lia.
  - split; [done|]. unfold FrameParser_next. cbn [fp_bytes]. by rewrite remaining_view, view_clear.
Qed.

Definition sample_payload : in_memory := InMemory [6; 0; 2; 170; 187; 1; 0] eq_refl.
Definition sample_parser : FrameParser in_memory := {| fp_bytes := sample_payload; fp_last_ty := None |}.

Lemma frame_parser_step_witness :
  view (fp_bytes sample_parser) <> [] /\ exists p,
  FrameParser_next sample_parser = Ret (p, Some (Ok (FCrypto {| crypto_offset := 0; crypto_data := [170; 187] |}))) /\
  (length (view (fp_bytes p)) < length (view (fp_bytes sample_parser)))%nat.
Proof.
  assert (Hne : view (fp_bytes sample_parser) <> []) by done. split; [exact Hne|].
  eexists. split; [vm_compute; reflexivity|].
  refine (proj2 (proj2 (frame_parser_step sample_parser Hne) _ (Some (Ok _)) _)).
  vm_compute. reflexivity.
Defined.

(** [parsed_frames p fs p']: the parser at [p] yields the frames [fs], one [next]
    each, and is then at [p']. *)
Fixpoint parsed_frames {B : Type} `{BufBytes B} (p : FrameParser B) (fs : list Frame) (p' : FrameParser B) : Prop :=
  match fs with
  | [] => p' = p
  | f :: fs => exists p1, FrameParser_next p = Ret (p1, Some (Ok f)) /\ parsed_frames p1 fs p'
  end.

(** How the parsing of a payload ends, behind the frames it yields: every byte
    is read, or one error is reported and the parser is exhausted, or it panics. *)
Definition parsed_to_end {B : Type} `{BufBytes B} (p : FrameParser B)
    (r : outcome (list (result Frame TransportError))) : Prop :=
  exists fs p', parsed_frames p fs p' /\ Forall frame_wf fs /\
    (length fs <= length (view (fp_bytes p)))%nat /\
    match r with
    | Ret l =>
        (l = map Ok fs /\ view (fp_bytes p') = []) \/
        (exists e p2, l = map Ok fs ++ [Err e] /\ te_code e = TransportErrorCode.FRAME_ENCODING_ERROR /\
           FrameParser_next p' = Ret (p2, Some (Err e)) /\ FrameParser_next p2 = Ret (p2, None))
    | Panic => oversized_new_cid (view (fp_bytes p'))
    end.

Lemma FrameParser_next_end {B : Type} `{BufBytes B} (p : FrameParser B) :
  view (fp_bytes p) = [] -> FrameParser_next p = Ret (p, None).
Proof. intros Hv. unfold FrameParser_next. by rewrite remaining_view, Hv. Qed.

Lemma parse_all_to_end {B : Type} `{BufBytes B} fuel (p : FrameParser B) :
  (length (view (fp_bytes p)) < fuel)%nat -> parsed_to_end p (parse_all fuel p).
Proof.
  revert p. induction fuel as [|fuel IH]; intros p Hf; [lia|]. cbn [parse_all].
  destruct (decide (view (fp_bytes p) = [])) as [Hnil|Hne].
  { rewrite (FrameParser_next_end p Hnil). exists [], p. cbn. split_and!; [done|constructor|lia|by left]. }
  destruct (frame_parser_step p Hne) as [Hpanic Hstep].
  destruct (FrameParser_next p) as [[p1 x]|] eqn:Hn; cbn [obind].
  2: { exists [], p. cbn. split_and!; [done|constructor|lia|by apply Hpanic]. }
  specialize (Hstep _ _ eq_refl). destruct x as [[f|e]|]; [|destruct Hstep as [He Hend]|done].
  - destruct Hstep as [Hwf Hlt]. destruct (IH p1 ltac:(lia)) as (fs & p' & Hfs & Hall & Hlen & Hr).
    exists (f :: fs), p'. split; [by exists p1|]. split; [by constructor|]. split; [cbn; lia|].
    destruct (parse_all fuel p1) as [l|]; cbn [obind]; [|done].
    destruct Hr as [[-> Hv]|(e & p2 & -> & He & Hn' & Hend)]; [by left|right]. by exists e, p2.
  - destruct fuel as [|fuel]; [destruct (view (fp_bytes p)); [done|cbn in Hf; lia]|].
    cbn [parse_all]. rewrite Hend. exists [], p. cbn. split_and!; [done|constructor|lia|right].
    by exists e, p1.
Qed.

(** C36: parsing a whole payload always terminates, whatever its bytes are: the
    fuel, one more than the number of bytes, is never what ends it.  An empty
    payload is refused with PROTOCOL_VIOLATION.  Any other one yields
    well-formed frames, one [next] each, until every byte is read, or until one
    error FRAME_ENCODING_ERROR, after which the parser yields nothing more; or
    the parser panics, and then the unread bytes are a NEW_CONNECTION_ID frame
    that announces an identifier of more than 20 bytes. *)
Theorem payload_parses {B : Type} `{BufBytes B} (payload : B) :
  match parse_payload payload with
  | Ret (Err e) => view payload = [] /\ te_code e = TransportErrorCode.PROTOCOL_VIOLATION
  | Ret (Ok l) => view payload <> [] /\ parsed_to_end {| fp_bytes := payload; fp_last_ty := None |} (Ret l)
  | Panic => view payload <> [] /\ parsed_to_end {| fp_bytes := payload; fp_last_ty := None |} Panic
  end.
Proof.
  unfold parse_payload, FrameParser_new. rewrite remaining_view.
  destruct (Z.eqb_spec (zlen (view payload)) 0) as [Hz|Hz]; [split; [by apply zlen_0|done]|].
  pose proof (parse_all_to_end (S (length (view payload))) {| fp_bytes := payload; fp_last_ty := None |} ltac:(cbn; lia)) as Hp.
  assert (Hne : view payload <> []) by (intros Hv; by rewrite Hv in Hz).
  destruct (parse_all _ _); cbn [obind]; by split.
Qed.

(** Two frames, then bytes that are no frame: ACK_FREQUENCY has no parser. *)
Definition ping_payload : in_memory := InMemory [1; 0; 64; 175; 1] eq_refl.

Example ping_payload_parsed : parse_payload ping_payload = Ret (Ok (map Ok [Ping; Padding] ++
  [Err {| te_code := TransportErrorCode.FRAME_ENCODING_ERROR; te_frame := Some FrameType.ACK_FREQUENCY;
          te_reason := "invalid frame ID" |}])).
Proof. vm_compute. reflexivity. Qed.

(** One frame, then a NEW_CONNECTION_ID frame with an identifier of 21 bytes. *)
Definition panic_payload : in_memory := InMemory ([1; 24; 0; 0; 21] ++ replicate 40 0) eq_refl.

Lemma payload_parses_witness : parse_payload panic_payload = Panic /\
  (view panic_payload <> [] /\ parsed_to_end {| fp_bytes := panic_payload; fp_last_ty := None |} Panic).
Proof.
  assert (Hp : parse_payload panic_payload = Panic) by (vm_compute; reflexivity).
  split; [exact Hp|]. pose proof (payload_parses panic_payload) as Ht. rewrite Hp in Ht. exact Ht.
Defined.

(** The ranges of an ACK frame that the parser accepted are iterated without
    a panic, whatever bytes the peer sent: the first range ends at the largest
    acknowledged number, and the ranges are non-empty, decreasing and pairwise
    separated. *)
Theorem parsed_ack_ranges (a : Ack) : frame_wf (FAck a) ->
  exists lo rs, ack_ranges a = Ret ((lo, ack_largest a) :: rs) /\
    inclusive_descending (ack_largest a + 2) ((lo, ack_largest a) :: rs).
Proof.
  intros (_ & _ & rs & Hw). destruct (ack_wire_shape _ _ _ Hw) as (Hd & lo & rs' & ->).
  exists lo, rs'. split; [by apply ack_ranges_spec|done].
Qed.

Definition sample_ack : Ack :=
  {| ack_largest := 10; ack_delay := 0; ack_additional := [2; 3; 1]; ack_ecn := None |}.

Lemma sample_ack_wf : frame_wf (FAck sample_ack).
Proof.
  split; [cbn; varint_lia|]. split; [cbn; varint_lia|]. exists [(8, 10); (2, 3)].
  apply (AckWire 10 [2] 2 ([3] ++ [1] ++ []) [(2, 3)]);
    [apply (varint_enc_bytes 2); varint_lia|varint_lia|lia|].
  apply (at_cons 8 [3] [1] 3 1 [] []);
    [apply (varint_enc_bytes 3)|apply (varint_enc_bytes 1)| | |lia|constructor]; varint_lia.
Qed.

Lemma parsed_ack_ranges_witness : frame_wf (FAck sample_ack) /\
  exists lo rs, ack_ranges sample_ack = Ret ((lo, ack_largest sample_ack) :: rs) /\
    inclusive_descending (ack_largest sample_ack + 2) ((lo, ack_largest sample_ack) :: rs).
Proof. exact (conj sample_ack_wf (parsed_ack_ranges sample_ack sample_ack_wf)). Defined.

(** A close frame is truncated to the room announced: with an error code of
    at most two bytes it takes no more than [max_len] bytes, and with a larger
    one it exceeds [max_len] by at most the six bytes the code does not count. *)
Theorem close_frame_length {W : Type} `{BufMutLaws W} (c : ConnectionClose) max_len :
  is_varint (close_code c) -> is_varint (close_frame_ty c) ->
  is_varint (zlen (close_reason c)) -> 19 <= max_len ->
  exists bs, emits (W:=W) (encode_close c max_len) bs /\ zlen bs <= max_len + 6 /\
    (close_code c <= VARINT_MAX_2 -> zlen bs <= max_len).
Proof.
  intros Hc Hty Hr Hm. destruct (emits_close c max_len Hc Hty Hr Hm) as (bs & He & Hl).
  pose proof (varint_bytes_length _ Hc). exists bs. split; [done|]. split; [lia|].
  intros Hs. pose proof (proj1 (proj2 (varint_bytes_small _ Hc)) Hs). lia.
Qed.

Definition sample_close : ConnectionClose :=
  Transport {| tc_error_code := 10; tc_frame_type := Some 6; tc_reason := replicate 100 65 |}.

Lemma close_frame_length_witness :
  (is_varint (close_code sample_close) /\ is_varint (close_frame_ty sample_close) /\
   is_varint (zlen (close_reason sample_close)) /\ 19 <= 30) /\
  exists bs, emits (W:=slice_buf) (encode_close sample_close 30) bs /\ zlen bs <= 30 + 6 /\
    (close_code sample_close <= VARINT_MAX_2 -> zlen bs <= 30).
Proof.
  assert (H1 : is_varint (close_code sample_close)) by (cbn; varint_lia).
  assert (H2 : is_varint (close_frame_ty sample_close)) by (cbn; varint_lia).
  assert (H3 : is_varint (zlen (close_reason sample_close))) by (vm_compute; split; discriminate).
  assert (H4 : 19 <= 30) by lia.
  exact (conj (conj H1 (conj H2 (conj H3 H4)))
    (close_frame_length (W:=slice_buf) sample_close 30 H1 H2 H3 H4)).
Defined.
