(* ===== verification/Time.v ===== *)
(** * Time: [Duration] and [Instant]

    The two types of the standard library that the recovery code computes with,
    in nanoseconds.  A [Duration] holds a [u64] number of seconds and an
    [Instant] a signed 64-bit one; an operation whose result does not fit
    panics, as documented.  The difference of two instants saturates at zero. *)
From S2P Require Import Prelude.

Abbreviation Duration := Z (only parsing).
Abbreviation Instant := Z (only parsing).

Definition NANOS_PER_SEC : Z := 10 ^ 9.
Definition DURATION_END : Z := 2 ^ 64 * NANOS_PER_SEC.
Definition INSTANT_END : Z := 2 ^ 63 * NANOS_PER_SEC.

Definition is_duration (d : Z) : Prop := 0 <= d < DURATION_END.

Definition from_nanos (n : Z) : Duration := n.
Definition from_micros (n : Z) : Duration := n * 1000.
Definition from_millis (n : Z) : Duration := n * 1000000.
Definition from_secs (n : Z) : Duration := n * NANOS_PER_SEC.
Definition as_micros (d : Duration) : Z := d / 1000.

Definition dur_add (a b : Duration) : outcome Duration :=
  if a + b <? DURATION_END then Ret (a + b) else Panic.
Definition dur_sub (a b : Duration) : outcome Duration :=
  if b <=? a then Ret (a - b) else Panic.
Definition dur_mul (a : Duration) (n : Z) : outcome Duration :=
  if a * n <? DURATION_END then Ret (a * n) else Panic.
Definition dur_div (a : Duration) (n : Z) : outcome Duration :=
  if n =? 0 then Panic else Ret (a / n).

Definition inst_add (i : Instant) (d : Duration) : outcome Instant :=
  if i + d <? INSTANT_END then Ret (i + d) else Panic.
Definition inst_sub (i j : Instant) : Duration := Z.max 0 (i - j).
Definition inst_checked_sub (i : Instant) (d : Duration) : option Instant :=
  if - INSTANT_END <=? i - d then Some (i - d) else None.

Lemma dur_add_ok a b : a + b < DURATION_END -> dur_add a b = Ret (a + b).
Proof. intros. unfold dur_add. destruct (Z.ltb_spec (a + b) DURATION_END); [done|lia]. Qed.
Lemma dur_sub_ok a b : b <= a -> dur_sub a b = Ret (a - b).
Proof. intros. unfold dur_sub. destruct (Z.leb_spec b a); [done|lia]. Qed.
Lemma dur_mul_ok a n : a * n < DURATION_END -> dur_mul a n = Ret (a * n).
Proof. intros. unfold dur_mul. destruct (Z.ltb_spec (a * n) DURATION_END); [done|lia]. Qed.
Lemma dur_div_ok a n : n <> 0 -> dur_div a n = Ret (a / n).
Proof. intros. unfold dur_div. destruct (Z.eqb_spec n 0); [done|done]. Qed.
Lemma inst_add_ok i d : i + d < INSTANT_END -> inst_add i d = Ret (i + d).
Proof. intros. unfold inst_add. destruct (Z.ltb_spec (i + d) INSTANT_END); [done|lia]. Qed.
