(* ===== verification/Timer.v ===== *)
(** * Timer: the table of timers ([core/src/connection/timer.rs])

    The deadlines of a connection.  Registering and waking the task that polls
    the table belongs to the asynchronous runtime and is not modelled. *)
From S2P Require Import Prelude Time.

(** [timer.rs:11-35] *)
Inductive Timer :=
| LossDetection | Idle | CloseTimer | KeyDiscard | PathValidation | KeepAlive | Pacing | PushNewCid
| MaxAckDelay.
#[export] Instance Timer_eq_dec : EqDecision Timer.
Proof. solve_decision. Defined.

Definition Timer_VARIANTS : list Timer :=
  [LossDetection; Idle; CloseTimer; KeyDiscard; PathValidation; KeepAlive; Pacing; PushNewCid;
   MaxAckDelay].

Definition Timer_as_usize (t : Timer) : nat :=
  match t with
  | LossDetection => 0 | Idle => 1 | CloseTimer => 2 | KeyDiscard => 3 | PathValidation => 4
  | KeepAlive => 5 | Pacing => 6 | PushNewCid => 7 | MaxAckDelay => 8
  end%nat.

(** [timer.rs:37-42] *)
Record TimerTable := mkTimerTable { data : list (option Instant) }.

Definition TimerTable_default : TimerTable := mkTimerTable (replicate 9 None).

Module TimerTable.
(** [timer.rs:52-55] *)
Definition set (timer : Timer) (time : Instant) (t : TimerTable) : TimerTable :=
  mkTimerTable (<[Timer_as_usize timer := Some time]> (data t)).

(** [timer.rs:57-60] *)
Definition stop (timer : Timer) (t : TimerTable) : TimerTable :=
  mkTimerTable (<[Timer_as_usize timer := None]> (data t)).

(** The deadline of a timer. *)
Definition get (timer : Timer) (t : TimerTable) : option Instant :=
  mjoin (data t !! Timer_as_usize timer).

(** [timer.rs:70-76] the first of the earliest deadlines, with its index *)
Fixpoint earliest (id : nat) (l : list (option Instant)) : option (nat * Instant) :=
  match l with
  | [] => None
  | time :: l =>
      let rest := earliest (S id) l in
      match time with
      | None => rest
      | Some time =>
          match rest with
          | Some (id', time') => if time' <? time then Some (id', time') else Some (id, time)
          | None => Some (id, time)
          end
      end
  end.

(** [timer.rs:66-97] [poll] at time [now]: [None] is [Poll::Pending]. *)
Definition poll (now : Instant) (t : TimerTable) : outcome (TimerTable * option Timer) :=
  match earliest 0 (data t) with
  | None => Ret (t, None)
  | Some (timer_id, time) =>
      if time <=? now then
        let! timer := unwrap (Timer_VARIANTS !! timer_id) in
        Ret (mkTimerTable (<[timer_id := None]> (data t)), Some timer)
      else Ret (t, None)
  end.
End TimerTable.

(** ** Proofs *)

(** The array has an entry for each timer. *)
Definition timers_wf (t : TimerTable) : Prop := length (data t) = length Timer_VARIANTS.

Lemma timers_wf_default : timers_wf TimerTable_default.
Proof. done. Qed.

Lemma timers_wf_insert t i x : timers_wf t -> timers_wf (mkTimerTable (<[i := x]> (data t))).
Proof. unfold timers_wf; cbn. by rewrite length_insert. Qed.

Lemma timer_index timer : Timer_VARIANTS !! Timer_as_usize timer = Some timer.
Proof. by destruct timer. Qed.

Lemma timer_index_inj i timer : Timer_VARIANTS !! i = Some timer -> i = Timer_as_usize timer.
Proof. do 9 (destruct i as [|i]; [by intros [= <-]|]). done. Qed.

Lemma get_insert t timer timer' x : timers_wf t ->
  TimerTable.get timer' (mkTimerTable (<[Timer_as_usize timer := x]> (data t))) =
  if decide (timer = timer') then x else TimerTable.get timer' t.
Proof.
  intros Hwf. unfold TimerTable.get; cbn [data].
  assert (Hlt : forall t', (Timer_as_usize t' < length (data t))%nat).
  { intros t'. rewrite Hwf. eapply lookup_lt_Some, timer_index. }
  destruct (decide (timer = timer')) as [->|Hne].
  - by rewrite list_lookup_insert_eq.
  - rewrite list_lookup_insert_ne; [done|]. intros Heq. apply Hne.
    pose proof (timer_index timer) as H1. pose proof (timer_index timer') as H2. congruence.
Qed.

Lemma earliest_spec id l :
  match TimerTable.earliest id l with
  | Some (i, time) => (id <= i)%nat /\ l !! (i - id)%nat = Some (Some time) /\
      forall j time', l !! j = Some (Some time') -> time <= time'
  | None => forall j time', l !! j <> Some (Some time')
  end.
Proof.
  revert id. induction l as [|x l IH]; intros id; cbn; [intros j time'; by rewrite lookup_nil|].
  specialize (IH (S id)). destruct x as [time|]; destruct (TimerTable.earliest (S id) l) as [[i time']|].
  - destruct IH as (Hle & Hl & Hmin). destruct (Z.ltb_spec time' time).
    + split; [lia|]. split; [by replace (i - id)%nat with (S (i - S id)) by lia|].
      intros [|j] t; cbn; [intros [= <-]; lia|apply Hmin].
    + split; [lia|]. rewrite Nat.sub_diag. split; [done|].
      intros [|j] t; cbn; [intros [= <-]; lia|]. intros Ht. specialize (Hmin _ _ Ht). lia.
  - split; [lia|]. rewrite Nat.sub_diag. split; [done|].
    intros [|j] t; cbn; [intros [= <-]; lia|]. intros Ht. by destruct (IH _ _ Ht).
  - destruct IH as (Hle & Hl & Hmin). split; [lia|].
    split; [by replace (i - id)%nat with (S (i - S id)) by lia|].
    intros [|j] t; cbn; [done|apply Hmin].
  - intros [|j] t; cbn; [done|apply IH].
Qed.

(** What a poll does to the table. *)
Lemma poll_spec now t : timers_wf t ->
  exists t' r, TimerTable.poll now t = Ret (t', r) /\ timers_wf t' /\
    match r with
    | Some timer => exists time, TimerTable.get timer t = Some time /\ time <= now /\
        (forall other time', TimerTable.get other t = Some time' -> time <= time') /\
        forall other, TimerTable.get other t' =
          if decide (timer = other) then None else TimerTable.get other t
    | None => t' = t /\ forall timer time, TimerTable.get timer t = Some time -> now < time
    end.
Proof.
  intros Hwf. unfold TimerTable.poll. pose proof (earliest_spec 0 (data t)) as He.
  assert (Hget : forall timer time, TimerTable.get timer t = Some time ->
    data t !! Timer_as_usize timer = Some (Some time)).
  { intros timer time. unfold TimerTable.get. by destruct (data t !! _) as [[?|]|]; cbn; [intros [= ->]|..]. }
  destruct (TimerTable.earliest 0 (data t)) as [[i time]|].
  2: { exists t, None. split_and!; try done. intros timer time Ht%Hget. by destruct (He _ _ Ht). }
  destruct He as (_ & Hi & Hmin). rewrite Nat.sub_0_r in Hi.
  destruct (Z.leb_spec time now).
  2: { exists t, None. split_and!; try done. intros timer time' Ht%Hget.
       specialize (Hmin _ _ Ht). lia. }
  assert (exists timer, Timer_VARIANTS !! i = Some timer) as [timer Htimer].
  { apply lookup_lt_is_Some. rewrite <- Hwf. by eapply lookup_lt_Some. }
  rewrite Htimer. apply timer_index_inj in Htimer as ->. cbn [unwrap obind].
  eexists _, (Some timer). split; [done|]. split; [by apply timers_wf_insert|].
  exists time. split; [unfold TimerTable.get; by rewrite Hi|]. split; [done|]. split.
  - intros other time' Ht%Hget. by apply (Hmin _ _ Ht).
  - intros other. by apply get_insert.
Qed.

(** ** Properties *)

(** Polling the table at any time never panics; it fires a timer exactly when
    some deadline has passed.  The timer that fires has the earliest deadline of
    all; it is disarmed and every other one is untouched. *)
Theorem timer_poll_correct now t : timers_wf t ->
  exists t' r, TimerTable.poll now t = Ret (t', r) /\ timers_wf t' /\
    match r with
    | Some timer => exists time, TimerTable.get timer t = Some time /\ time <= now /\
        (forall other time', TimerTable.get other t = Some time' -> time <= time') /\
        forall other, TimerTable.get other t' =
          if decide (timer = other) then None else TimerTable.get other t
    | None => t' = t /\ forall timer time, TimerTable.get timer t = Some time -> now < time
    end.
Proof. apply poll_spec. Qed.

Definition sample_timers : TimerTable :=
  TimerTable.set CloseTimer 30 (TimerTable.set MaxAckDelay 25 TimerTable_default).

Lemma sample_timers_wf : timers_wf sample_timers.
Proof. done. Qed.

Lemma timer_poll_correct_witness : timers_wf sample_timers /\
  exists t', TimerTable.poll 27 sample_timers = Ret (t', Some MaxAckDelay) /\ timers_wf t'.
Proof.
  split; [exact sample_timers_wf|].
  destruct (timer_poll_correct 27 sample_timers sample_timers_wf) as (t' & r & Hp & Hwf & _).
  exists t'. split; [|exact Hwf]. rewrite Hp. vm_compute in Hp. by injection Hp as <- <-.
Defined.
