(* ===== verification/Space.v ===== *)
(** * Space: a packet number space ([core/src/connection/space.rs])

    Duplicate detection, pending acknowledgements, retransmission queues and
    the accounting of sent packets. *)
From S2P Require Import Prelude Time Buffers Varint Common ArrayRangeSet Packet Frame.

(** ** Data *)

(** [space.rs:146-155] *)
Record Retransmits := mkRetransmits {
  hello : bool;
  reset_stream : list (StreamId * Z);
  stop_sending : list StopSending;
  ack_frequency : bool;
  handshake_done : bool;
}.

Definition Retransmits_default : Retransmits := mkRetransmits false [] [] false false.

(** [space.rs:157-165] *)
Definition Retransmits_is_empty (r : Retransmits) : bool :=
  negb (hello r) && (match reset_stream r with [] => true | _ => false end)
  && (match stop_sending r with [] => true | _ => false end)
  && negb (ack_frequency r) && negb (handshake_done r).

(** [space.rs:167-175] [|=] *)
Definition Retransmits_or (l r : Retransmits) : Retransmits :=
  {| hello := hello l || hello r;
     reset_stream := reset_stream l ++ reset_stream r;
     stop_sending := stop_sending l ++ stop_sending r;
     ack_frequency := ack_frequency l || ack_frequency r;
     handshake_done := handshake_done l || handshake_done r |}.

(** [space.rs:177-188] *)
Definition Retransmits_from_iter (l : list Retransmits) : Retransmits :=
  fold_left Retransmits_or l Retransmits_default.

(** [space.rs:190-194] [ThinRetransmits] *)
Abbreviation ThinRetransmits := (option Retransmits) (only parsing).

(** [space.rs:196-219], the box is created on the first write *)
Definition Thin_is_empty (t : ThinRetransmits) : bool :=
  match t with Some r => Retransmits_is_empty r | None => true end.
Definition Thin_get_or_create (t : ThinRetransmits) : Retransmits := default Retransmits_default t.

(** [space.rs:221-227] [|=] with a [ThinRetransmits] *)
Definition Retransmits_or_thin (l : Retransmits) (t : ThinRetransmits) : Retransmits :=
  match t with Some r => Retransmits_or l r | None => l end.

(** [space.rs:119-144] *)
Record SentPacket := mkSentPacket {
  time_sent : Instant;
  size : Z;
  ack_eliciting : bool;
  largest_acked : option Z;
  retransmits : ThinRetransmits;
  stream_frames : list StreamMeta;
  number : Z;
  space_id : SpaceId;
}.

(** [space.rs:240-245] *)
Record Dedup := mkDedup { window : Z; next : Z }.

(** [space.rs:346-351] *)
Record SendableFrames := { sf_acks : bool; sf_other : bool }.

(** [space.rs:353-358] *)
Definition SendableFrames_is_empty (s : SendableFrames) : bool := negb (sf_acks s) && negb (sf_other s).

(** [space.rs:360-401] *)
Record PendingAcks := mkPendingAcks {
  immediate_ack_required : bool;
  ack_eliciting_since_last_ack_sent : Z;
  non_ack_eliciting_since_last_ack_sent : Z;
  ack_eliciting_threshold : Z;
  reordering_threshold : Z;
  earliest_ack_eliciting_since_last_ack_sent : option Instant;
  ranges : ArrayRangeSet.t;
  largest_packet : option (Z * Instant);
  largest_ack_eliciting_packet : option Z;
  pa_largest_acked : option Z;
}.

(** [space.rs:6-40] *)
Record PacketSpace := mkPacketSpace {
  hi : bool;
  dedup : Dedup;
  rx_packet : Z;
  pending : Retransmits;
  pending_acks : PendingAcks;
  next_packet_number : Z;
  largest_acked_packet : option Z;
  largest_acked_packet_sent : Instant;
  largest_ack_eliciting_sent : Z;
  unacked_non_ack_eliciting_tail : Z;
  sent_packets : gmap Z SentPacket;
  loss_time : option Instant;
  ping_pending : bool;
  immediate_ack_pending : bool;
  in_flight : Z;
}.

(** ** Duplicate detection *)

Definition U128 : Z := 2 ^ 128.

(** [space.rs:254-255] one bit for each of the 128 numbers below the highest, and the highest *)
Definition WINDOW_SIZE : Z := 1 + 16 * 8.

(** [u128::checked_shl] *)
Definition checked_shl (x n : Z) : option Z :=
  if n <? 128 then Some (Z.shiftl x n mod U128) else None.

(** [space.rs:258-261] *)
Definition Dedup_new : Dedup := {| window := 0; next := 0 |}.

(** [space.rs:263-266] *)
Definition highest (d : Dedup) : outcome Z := u64_sub (next d) 1.

(** [space.rs:268-296] *)
Definition Dedup_insert (d : Dedup) (packet : Z) : outcome (Dedup * bool) :=
  match checked_sub packet (next d) with
  | Some diff =>
      let window := default 0 (checked_shl (Z.lor (Z.shiftl (window d) 1 mod U128) 1)
                                 (Z.min diff (U32 - 1))) in
      let! next := u64_add packet 1 in
      Ret ({| window := window; next := next |}, false)
  | None =>
      let! h := highest d in
      let! back := u64_sub h packet in
      if back <? WINDOW_SIZE then
        match checked_sub back 1 with
        | Some bit =>
            let mask := Z.shiftl 1 bit in
            let duplicate := negb (Z.land (window d) mask =? 0) in
            Ret ({| window := Z.lor (window d) mask; next := next d |}, duplicate)
        | None => Ret (d, true)
        end
      else Ret (d, true)
  end.

(** [space.rs:309-323] the test of one packet number *)
Definition is_received (d : Dedup) (pn : Z) : outcome bool :=
  if next d <=? pn then Ret false
  else
    let! h := highest d in
    if h =? pn then Ret true
    else
      let! bit := u64_sub h pn in
      let! bit := u64_sub bit 1 in
      if WINDOW_SIZE - 1 <=? bit then Ret true
      else Ret (negb (Z.land (window d) (Z.shiftl 1 bit) =? 0)).

(** [space.rs:308-329] the loop over [lower_bound..upper_bound] *)
Fixpoint smallest_missing_loop (n : nat) (d : Dedup) (pn : Z) : outcome (option Z) :=
  match n with
  | O => Ret None
  | S n =>
      let! received := is_received d pn in
      if received then smallest_missing_loop n d (pn + 1) else Ret (Some pn)
  end.

(** [space.rs:298-330] *)
Definition smallest_missing_in_interval (d : Dedup) (lower_bound upper_bound : Z)
    : outcome (option Z) :=
  smallest_missing_loop (Z.to_nat (upper_bound - lower_bound)) d lower_bound.

(** [space.rs:332-343] *)
Definition missing_in_interval (d : Dedup) (lower_bound upper_bound : Z) : outcome bool :=
  let! m := smallest_missing_in_interval d lower_bound upper_bound in
  Ret (match m with Some _ => true | None => false end).

(** ** Pending acknowledgements *)

(** [space.rs:42-42] *)
Definition MAX_ACK_BLOCKS : Z := 64.

Module PendingAcks.
(** [space.rs:404-417] *)
Definition new : PendingAcks := {|
  immediate_ack_required := false;
  ack_eliciting_since_last_ack_sent := 0;
  non_ack_eliciting_since_last_ack_sent := 0;
  ack_eliciting_threshold := 1;
  reordering_threshold := 1;
  earliest_ack_eliciting_since_last_ack_sent := None;
  ranges := ArrayRangeSet.new;
  largest_packet := None;
  largest_ack_eliciting_packet := None;
  pa_largest_acked := None;
|}.

Definition with_immediate (b : bool) (p : PendingAcks) : PendingAcks :=
  mkPendingAcks b (ack_eliciting_since_last_ack_sent p) (non_ack_eliciting_since_last_ack_sent p)
    (ack_eliciting_threshold p) (reordering_threshold p)
    (earliest_ack_eliciting_since_last_ack_sent p) (ranges p) (largest_packet p)
    (largest_ack_eliciting_packet p) (pa_largest_acked p).

Definition with_ranges (r : ArrayRangeSet.t) (p : PendingAcks) : PendingAcks :=
  mkPendingAcks (immediate_ack_required p) (ack_eliciting_since_last_ack_sent p)
    (non_ack_eliciting_since_last_ack_sent p) (ack_eliciting_threshold p) (reordering_threshold p)
    (earliest_ack_eliciting_since_last_ack_sent p) r (largest_packet p)
    (largest_ack_eliciting_packet p) (pa_largest_acked p).

(** [space.rs:419-421] *)
Definition set_immediate_ack_required (p : PendingAcks) : PendingAcks := with_immediate true p.

(** [space.rs:423-425] *)
Definition on_ack_delay_timeout (p : PendingAcks) : PendingAcks :=
  with_immediate (0 <? ack_eliciting_since_last_ack_sent p) p.

(** [space.rs:427-430] *)
Definition can_send (p : PendingAcks) : bool :=
  immediate_ack_required p && negb (ArrayRangeSet.is_empty (ranges p)).

(** [space.rs:432-437] *)
Definition ack_delay (p : PendingAcks) (now : Instant) : Duration :=
  match largest_packet p with Some (_, received) => inst_sub now received | None => 0 end.

(** [space.rs:553-567] *)
Definition insert_one (packet : Z) (now : Instant) (p : PendingAcks) : outcome PendingAcks :=
  let! '(r, _) := ArrayRangeSet.insert_one packet (ranges p) in
  let largest :=
    match largest_packet p with
    | Some (pn, _) => if pn <? packet then Some (packet, now) else largest_packet p
    | None => Some (packet, now)
    end in
  let r := if MAX_ACK_BLOCKS <? ArrayRangeSet.len r then fst (ArrayRangeSet.pop_min r) else r in
  Ret (mkPendingAcks (immediate_ack_required p) (ack_eliciting_since_last_ack_sent p)
    (non_ack_eliciting_since_last_ack_sent p) (ack_eliciting_threshold p) (reordering_threshold p)
    (earliest_ack_eliciting_since_last_ack_sent p) r largest (largest_ack_eliciting_packet p)
    (pa_largest_acked p)).

(** [space.rs:495-536] *)
Definition is_out_of_order (p : PendingAcks) (packet_number prev_largest_ack_eliciting : Z)
    (d : Dedup) : outcome bool :=
  if packet_number <? prev_largest_ack_eliciting then Ret true
  else if reordering_threshold p =? 0 then Ret false
  else
    let! lower := match pa_largest_acked p with Some a => u64_add a 1 | None => Ret 0 end in
    if reordering_threshold p =? 1 then missing_in_interval d lower packet_number
    else
      let! m := smallest_missing_in_interval d lower packet_number in
      match m with
      | Some missing => Ret (reordering_threshold p <=? saturating_sub packet_number missing)
      | None => Ret false
      end.

(** [space.rs:439-493] *)
Definition packet_received (p : PendingAcks) (now : Instant) (packet_number : Z) (eliciting : bool)
    (d : Dedup) : outcome (PendingAcks * bool) :=
  let prev_largest_ack_eliciting := default 0 (largest_ack_eliciting_packet p) in
  let! p := insert_one packet_number now p in
  let! p :=
    if eliciting then
      let! n := u64_add (ack_eliciting_since_last_ack_sent p) 1 in
      let largest :=
        match largest_ack_eliciting_packet p with
        | Some l => if l <? packet_number then Some packet_number else Some l
        | None => Some packet_number
        end in
      let earliest :=
        match earliest_ack_eliciting_since_last_ack_sent p with
        | None => Some now
        | Some t => Some t
        end in
      Ret (mkPendingAcks (immediate_ack_required p) n (non_ack_eliciting_since_last_ack_sent p)
        (ack_eliciting_threshold p) (reordering_threshold p) earliest (ranges p) (largest_packet p)
        largest (pa_largest_acked p))
    else
      let! n := u64_add (non_ack_eliciting_since_last_ack_sent p) 1 in
      Ret (mkPendingAcks (immediate_ack_required p) (ack_eliciting_since_last_ack_sent p) n
        (ack_eliciting_threshold p) (reordering_threshold p)
        (earliest_ack_eliciting_since_last_ack_sent p) (ranges p) (largest_packet p)
        (largest_ack_eliciting_packet p) (pa_largest_acked p)) in
  let! immediate :=
    if ack_eliciting_threshold p <? ack_eliciting_since_last_ack_sent p then Ret true
    else if eliciting then is_out_of_order p packet_number prev_largest_ack_eliciting d
    else Ret false in
  if immediate then Ret (with_immediate true p, false)
  else Ret (p, eliciting && negb (immediate_ack_required p)).

(** [space.rs:538-551] *)
Definition acks_sent (p : PendingAcks) : PendingAcks :=
  mkPendingAcks false 0 0 (ack_eliciting_threshold p) (reordering_threshold p) None
    (ranges p) (largest_packet p) (largest_ack_eliciting_packet p) (largest_ack_eliciting_packet p).

(** [space.rs:569-576] *)
Definition subtract_below (max : Z) (p : PendingAcks) : outcome PendingAcks :=
  let! e := u64_add max 1 in
  Ret (with_ranges (fst (ArrayRangeSet.remove (Range 0 e) (ranges p))) p).

(** [space.rs:587-597] *)
Definition LAZY_ACK_THRESHOLD : Z := 10.
Definition maybe_ack_non_eliciting (p : PendingAcks) : PendingAcks :=
  if LAZY_ACK_THRESHOLD <? non_ack_eliciting_since_last_ack_sent p then with_immediate true p else p.
End PendingAcks.

(** ** Packet spaces *)

Module PacketSpace.
(** [space.rs:45-66] *)
Definition new (now : Instant) : PacketSpace := {|
  hi := false;
  dedup := Dedup_new;
  rx_packet := 0;
  pending := Retransmits_default;
  pending_acks := PendingAcks.new;
  next_packet_number := 0;
  largest_acked_packet := None;
  largest_acked_packet_sent := now;
  largest_ack_eliciting_sent := 0;
  unacked_non_ack_eliciting_tail := 0;
  sent_packets := ∅;
  loss_time := None;
  ping_pending := false;
  immediate_ack_pending := false;
  in_flight := 0;
|}.

(** [space.rs:68-75] *)
Definition get_tx_number (s : PacketSpace) : outcome (PacketSpace * Z) :=
  let! _ := assert (next_packet_number s <? 2 ^ 62) in
  let x := next_packet_number s in
  let! n := u64_add x 1 in
  Ret (mkPacketSpace (hi s) (dedup s) (rx_packet s) (pending s) (pending_acks s) n
    (largest_acked_packet s) (largest_acked_packet_sent s) (largest_ack_eliciting_sent s)
    (unacked_non_ack_eliciting_tail s) (sent_packets s) (loss_time s) (ping_pending s)
    (immediate_ack_pending s) (in_flight s), x).

(** [space.rs:77-82] *)
Definition can_send (s : PacketSpace) : SendableFrames :=
  {| sf_acks := PendingAcks.can_send (pending_acks s);
     sf_other := negb (Retransmits_is_empty (pending s)) || ping_pending s || immediate_ack_pending s |}.

Definition with_sent (m : gmap Z SentPacket) (n : Z) (largest tail : Z) (s : PacketSpace) : PacketSpace :=
  mkPacketSpace (hi s) (dedup s) (rx_packet s) (pending s) (pending_acks s) (next_packet_number s)
    (largest_acked_packet s) (largest_acked_packet_sent s) largest tail m (loss_time s)
    (ping_pending s) (immediate_ack_pending s) n.

(** [space.rs:84-93] *)
Definition take (number : Z) (s : PacketSpace) : outcome (PacketSpace * option SentPacket) :=
  match sent_packets s !! number with
  | None => Ret (s, None)
  | Some packet =>
      let! n := u64_sub (in_flight s) (size packet) in
      Ret (with_sent (delete number (sent_packets s)) n (largest_ack_eliciting_sent s)
             (unacked_non_ack_eliciting_tail s) s, Some packet)
  end.

(** [space.rs:95-116] *)
Definition sent (packet : SentPacket) (s : PacketSpace) : outcome (PacketSpace * Z) :=
  let! '(largest, tail) :=
    if ack_eliciting packet then Ret (number packet, 0)
    else if largest_ack_eliciting_sent s <? number packet then
      let! t := u64_add (unacked_non_ack_eliciting_tail s) 1 in
      Ret (largest_ack_eliciting_sent s, t)
    else Ret (largest_ack_eliciting_sent s, unacked_non_ack_eliciting_tail s) in
  let! n := u64_add (in_flight s) (size packet) in
  Ret (with_sent (<[number packet := packet]> (sent_packets s)) n largest tail s, 0).
End PacketSpace.

(** ** Duplicate detection refines a set *)

(** [S] is the set of the packet numbers accepted so far. *)
Record dedup_inv (d : Dedup) (S : gset Z) : Prop := {
  di_next : 0 <= next d;
  di_window : 0 <= window d < U128;
  di_new : next d = 0 -> S = ∅;
  di_highest : 0 < next d -> next d - 1 ∈ S;
  di_below : forall p, p ∈ S -> 0 <= p < next d;
  di_bits : forall p, 0 <= p < next d - 1 -> next d - 2 - p < 128 ->
    Z.testbit (window d) (next d - 2 - p) = true <-> p ∈ S;
}.

Lemma dedup_inv_new : dedup_inv Dedup_new ∅.
Proof. split; cbn; unfold U128; try lia; set_solver. Qed.

Lemma testbit_mask b k : 0 <= b -> 0 <= k -> Z.testbit (Z.shiftl 1 b) k = (k =? b).
Proof.
  intros Hb Hk. rewrite Z.shiftl_1_l. apply eq_true_iff_eq.
  rewrite Z.pow2_bits_eqb, Z.eqb_eq, Z.eqb_eq by done. lia.
Qed.

Lemma land_mask w b : 0 <= b -> negb (Z.land w (Z.shiftl 1 b) =? 0) = Z.testbit w b.
Proof.
  intros Hb. apply eq_true_iff_eq. rewrite negb_true_iff, Z.eqb_neq. split.
  - intros Hne. destruct (Z.testbit w b) eqn:Hw; [done|]. exfalso. apply Hne.
    apply Z.bits_inj'. intros k Hk. rewrite Z.land_spec, Z.bits_0, testbit_mask by done.
    destruct (Z.eqb_spec k b) as [->|]; [by rewrite Hw|apply andb_false_r].
  - intros Hw Hz. assert (Z.testbit (Z.land w (Z.shiftl 1 b)) b = true) as Ht.
    { rewrite Z.land_spec, Hw, testbit_mask, Z.eqb_refl by done. done. }
    by rewrite Hz, Z.bits_0 in Ht.
Qed.

(** The bits of the window after it moved to the right. *)
Lemma shifted_bits w diff k : 0 <= diff -> 0 <= k < 128 ->
  Z.testbit (default 0 (checked_shl (Z.lor (Z.shiftl w 1 mod U128) 1) (Z.min diff (U32 - 1)))) k =
  (k =? diff) || ((diff <? k) && Z.testbit w (k - diff - 1)).
Proof.
  intros Hd Hk. unfold checked_shl.
  destruct (Z.ltb_spec (Z.min diff (U32 - 1)) 128) as [Hlt|Hge]; cbn [from_option id]; unfold id.
  - assert (Z.min diff (U32 - 1) = diff) as -> by (unfold U32 in *; lia).
    unfold U128. rewrite Z.mod_pow2_bits_low, Z.shiftl_spec, Z.lor_spec by lia.
    destruct (Z.lt_trichotomy k diff) as [?|[->|?]].
    + destruct (Z.eqb_spec k diff), (Z.ltb_spec diff k); try lia.
      by rewrite !Z.testbit_neg_r by lia.
    + rewrite Z.sub_diag, Z.eqb_refl. apply orb_true_r.
    + rewrite Z.mod_pow2_bits_low, Z.shiftl_spec by lia.
      replace (Z.testbit 1 (k - diff)) with false; [|symmetry; apply (Z.pow2_bits_false 0); lia].
      rewrite orb_false_r. destruct (Z.eqb_spec k diff), (Z.ltb_spec diff k); try lia. done.
  - unfold U32 in Hge. rewrite Z.bits_0.
    destruct (Z.eqb_spec k diff), (Z.ltb_spec diff k); lia.
Qed.

Lemma shifted_bound w diff :
  0 <= default 0 (checked_shl (Z.lor (Z.shiftl w 1 mod U128) 1) diff) < U128.
Proof.
  unfold checked_shl. destruct (diff <? 128); cbn; [apply Z.mod_pos_bound|]; unfold U128; lia.
Qed.

Lemma lor_mask_bound w b : 0 <= w < U128 -> 0 <= b < 128 -> 0 <= Z.lor w (Z.shiftl 1 b) < U128.
Proof.
  intros Hw Hb. unfold U128 in *. apply lor_bound; [lia..|].
  rewrite Z.shiftl_1_l. split; [lia|]. apply Z.pow_lt_mono_r; lia.
Qed.

(** A number past the highest one moves the window. *)
Lemma dedup_slide d S packet : dedup_inv d S -> next d <= packet ->
  dedup_inv {| window := default 0 (checked_shl (Z.lor (Z.shiftl (window d) 1 mod U128) 1)
                                      (Z.min (packet - next d) (U32 - 1)));
               next := packet + 1 |} ({[packet]} ∪ S).
Proof.
  intros [Hn Hw Hnew Hhi Hbelow Hbits] Hp. split; cbn [window next].
  - lia.
  - apply shifted_bound.
  - lia.
  - intros _. set_solver by lia.
  - intros p [->%elem_of_singleton|Hin%Hbelow]%elem_of_union; lia.
  - intros p Hp1 Hp2. rewrite shifted_bits by lia.
    rewrite elem_of_union, elem_of_singleton, orb_true_iff, andb_true_iff, Z.eqb_eq, Z.ltb_lt.
    destruct (Z.lt_trichotomy p (next d - 1)) as [Hlt|[->|Hgt]].
    + replace (packet + 1 - 2 - p - (packet - next d) - 1) with (next d - 2 - p) by lia.
      rewrite Hbits by lia. split; [intros [?|[_ ?]]; [lia|by right]|].
      intros [?|?]; [lia|right; split; [lia|done]].
    + split; [|intros _; left; lia]. intros _. right. apply Hhi. lia.
    + split; [intros [?|[? _]]; lia|]. intros [?|Hin%Hbelow]; lia.
Qed.

(** A number inside the window sets its bit. *)
Lemma dedup_mark d S packet : dedup_inv d S -> 0 <= packet < next d - 1 -> next d - 2 - packet < 128 ->
  dedup_inv {| window := Z.lor (window d) (Z.shiftl 1 (next d - 2 - packet)); next := next d |}
    ({[packet]} ∪ S).
Proof.
  intros [Hn Hw Hnew Hhi Hbelow Hbits] Hp Hb. split; cbn [window next].
  - done.
  - apply lor_mask_bound; [done|lia].
  - lia.
  - intros ?. set_solver.
  - intros p [->%elem_of_singleton|?%Hbelow]%elem_of_union; lia.
  - intros p Hp1 Hp2. rewrite Z.lor_spec, testbit_mask by lia.
    rewrite orb_true_iff, Z.eqb_eq, Hbits by lia.
    rewrite elem_of_union, elem_of_singleton. split; intros [?|?]; first [by auto|left; lia|right; lia].
Qed.

Lemma dedup_insert_spec d S packet : dedup_inv d S -> 0 <= packet < 2 ^ 62 ->
  exists d' dup, Dedup_insert d packet = Ret (d', dup) /\
    dedup_inv d' (if dup then S else {[packet]} ∪ S) /\
    (dup = false -> packet ∉ S) /\
    (dup = true -> packet ∈ S \/ packet + WINDOW_SIZE <= next d - 1).
Proof.
  intros Hd Hp. pose proof Hd as [Hn Hw Hnew Hhi Hbelow Hbits]. unfold Dedup_insert, checked_sub.
  destruct (Z.leb_spec (next d) packet) as [Hright|Hleft].
  - rewrite u64_add_ok by u64_lia. cbn [obind]. eexists _, false. split; [done|].
    split; [by apply dedup_slide|split; [intros _ Hin%Hbelow; lia|done]].
  - unfold highest. rewrite u64_sub_ok by lia. cbn [obind]. rewrite u64_sub_ok by lia. cbn [obind].
    unfold WINDOW_SIZE. destruct (Z.ltb_spec (next d - 1 - packet) (1 + 16 * 8)) as [Hin|Hout].
    2: { exists d, true. split_and!; try done. right. lia. }
    destruct (Z.leb_spec 1 (next d - 1 - packet)) as [Hb|Hb].
    2: { assert (packet = next d - 1) as -> by lia. exists d, true. split_and!; try done.
         left. apply Hhi. lia. }
    replace (next d - 1 - packet - 1) with (next d - 2 - packet) by lia. rewrite land_mask by lia.
    pose proof (Hbits packet ltac:(lia) ltac:(lia)) as Hpk.
    assert (Hinv := dedup_mark d S packet Hd ltac:(lia) ltac:(lia)).
    eexists _, _. split; [done|].
    destruct (Z.testbit (window d) (next d - 2 - packet)) eqn:Hbit; cycle 1.
    { split; [done|]. split; [|done]. intros _ Hin'. apply Hpk in Hin'. done. }
    assert (packet ∈ S) by (by apply Hpk). split; [|split; [done|by left]].
    by replace ({[packet]} ∪ S) with S in Hinv by set_solver.
Qed.

Lemma is_received_spec d S pn : dedup_inv d S -> 0 <= pn ->
  is_received d pn = Ret (bool_decide (pn ∈ S) || (pn + WINDOW_SIZE <=? next d - 1)).
Proof.
  intros [Hn Hw Hnew Hhi Hbelow Hbits] Hp. unfold is_received, highest, WINDOW_SIZE.
  destruct (Z.leb_spec (next d) pn).
  { rewrite bool_decide_eq_false_2 by (intros Hin%Hbelow; lia). f_equal.
    destruct (Z.leb_spec (pn + (1 + 16 * 8)) (next d - 1)); [lia|done]. }
  rewrite u64_sub_ok by lia. cbn [obind]. destruct (Z.eqb_spec (next d - 1) pn) as [<-|].
  { rewrite bool_decide_eq_true_2 by (apply Hhi; lia). done. }
  rewrite u64_sub_ok by lia. cbn [obind]. rewrite u64_sub_ok by lia. cbn [obind].
  destruct (Z.leb_spec (1 + 16 * 8 - 1) (next d - 1 - pn - 1)).
  { destruct (Z.leb_spec (pn + (1 + 16 * 8)) (next d - 1)); [|lia]. by rewrite orb_true_r. }
  rewrite land_mask by lia. destruct (Z.leb_spec (pn + (1 + 16 * 8)) (next d - 1)); [lia|].
  rewrite orb_false_r. f_equal. apply eq_true_iff_eq. rewrite bool_decide_eq_true.
  replace (next d - 1 - pn - 1) with (next d - 2 - pn) by lia. apply Hbits; lia.
Qed.

(** A number the window still tracks and that was not accepted. *)
Definition missing (d : Dedup) (S : gset Z) (p : Z) : Prop :=
  (p ∉ S) /\ next d - 1 < p + WINDOW_SIZE.

Lemma smallest_missing_spec d S lower upper : dedup_inv d S -> 0 <= lower ->
  exists r, smallest_missing_in_interval d lower upper = Ret r /\
    match r with
    | Some p => lower <= p < upper /\ missing d S p /\ forall q, lower <= q < p -> ~ missing d S q
    | None => forall q, lower <= q < upper -> ~ missing d S q
    end.
Proof.
  intros Hinv Hlo. unfold smallest_missing_in_interval.
  remember (Z.to_nat (upper - lower)) as n eqn:Hn.
  revert lower Hlo Hn. induction n as [|n IH]; intros lower Hlo Hn; cbn.
  { exists None. split; [done|]. intros q Hq. lia. }
  rewrite (is_received_spec d S lower Hinv Hlo). cbn [obind]. unfold missing.
  destruct (bool_decide (lower ∈ S) || (lower + WINDOW_SIZE <=? next d - 1)) eqn:Hr.
  - destruct (IH (lower + 1) ltac:(lia) ltac:(lia)) as (r & Hs & Hr').
    exists r. split; [done|].
    assert (Hl : ~ ((lower ∉ S) /\ next d - 1 < lower + WINDOW_SIZE)).
    { apply orb_true_iff in Hr. rewrite bool_decide_eq_true, Z.leb_le in Hr.
      intros [? ?]. destruct Hr; [done|lia]. }
    destruct r as [p|].
    + destruct Hr' as (? & ? & Hmin). split; [lia|]. split; [done|].
      intros q Hq. destruct (Z.eq_dec q lower) as [->|]; [done|]. apply Hmin. lia.
    + intros q Hq. destruct (Z.eq_dec q lower) as [->|]; [done|]. apply Hr'. lia.
  - exists (Some lower). split; [done|]. apply orb_false_iff in Hr as [Hr1 Hr2].
    rewrite bool_decide_eq_false in Hr1. split; [lia|]. split; [split; [done|lia]|]. intros; lia.
Qed.

(** A sequence of received packet numbers: the results, in order. *)
Fixpoint dedup_run (d : Dedup) (ps : list Z) : outcome (Dedup * list bool) :=
  match ps with
  | [] => Ret (d, [])
  | p :: ps =>
      let! '(d, dup) := Dedup_insert d p in
      let! '(d, dups) := dedup_run d ps in
      Ret (d, dup :: dups)
  end.

(** The numbers that were not reported as duplicates. *)
Definition accepted (ps : list Z) (dups : list bool) : list Z :=
  map fst (filter (fun x => snd x = false) (zip ps dups)).

Lemma dedup_run_spec ps d S : dedup_inv d S -> Forall (fun p => 0 <= p < 2 ^ 62) ps ->
  exists d' dups, dedup_run d ps = Ret (d', dups) /\ length dups = length ps /\
    NoDup (accepted ps dups) /\ (forall p, p ∈ accepted ps dups -> p ∉ S) /\
    dedup_inv d' (list_to_set (accepted ps dups) ∪ S).
Proof.
  revert d S. induction ps as [|p ps IH]; intros d S Hinv Hps.
  { exists d, []. cbn. split_and!; try done; [constructor|set_solver|].
    by replace (∅ ∪ S) with S by set_solver. }
  apply Forall_cons in Hps as [Hp Hps].
  destruct (dedup_insert_spec d S p Hinv Hp) as (d1 & dup & H1 & Hinv1 & Hnew & Hdup).
  destruct (IH d1 _ Hinv1 Hps) as (d2 & dups & H2 & Hlen & Hnd & Hfresh & Hinv2).
  exists d2, (dup :: dups). cbn [dedup_run]. rewrite H1. cbn [obind]. rewrite H2. cbn [obind].
  split; [done|]. split; [cbn; lia|]. unfold accepted in *. cbn [zip zip_with].
  rewrite filter_cons. destruct dup; cbn [snd].
  - rewrite decide_False by done. done.
  - rewrite decide_True by done. cbn [map fst]. split; [|split].
    + constructor; [|done]. intros Hin. apply (Hfresh p Hin). set_solver.
    + intros q [->|Hq]%elem_of_cons; [by apply Hnew|]. specialize (Hfresh q Hq). set_solver.
    + cbn. by replace (({[p]} ∪ list_to_set _) ∪ S)
        with (list_to_set (map fst (filter (fun x => snd x = false) (zip ps dups))) ∪ ({[p]} ∪ S) : gset Z)
        by set_solver.
Qed.

(** ** Pending acknowledgements can always be sent *)

(** The numbers to acknowledge fit a varint, form at most [MAX_ACK_BLOCKS]
    ranges, and none exceeds the largest packet received. *)
Record acks_inv (p : PendingAcks) : Prop := {
  ai_wf : ArrayRangeSet.wf (ranges p);
  ai_len : ArrayRangeSet.len (ranges p) <= MAX_ACK_BLOCKS;
  ai_max : forall y, elem y (ranges p) -> y <= VARINT_MAX;
  ai_largest : forall y, elem y (ranges p) ->
    exists m t, largest_packet p = Some (m, t) /\ y <= m;
  ai_counts : 0 <= ack_eliciting_since_last_ack_sent p /\ 0 <= non_ack_eliciting_since_last_ack_sent p;
  ai_acked : forall a, pa_largest_acked p = Some a -> 0 <= a <= VARINT_MAX;
  ai_eliciting : forall a, largest_ack_eliciting_packet p = Some a -> 0 <= a <= VARINT_MAX;
}.

Lemma acks_inv_new : acks_inv PendingAcks.new.
Proof.
  split; cbn; try done; try (intros y (r & Hr & _); by apply elem_of_nil in Hr).
Qed.

Lemma wf_pop_min s : ArrayRangeSet.wf s -> ArrayRangeSet.wf (fst (ArrayRangeSet.pop_min s)) /\
  (forall y, elem y (fst (ArrayRangeSet.pop_min s)) -> elem y s).
Proof.
  intros Hwf. pose proof (array_pop_min_spec s Hwf) as Hp. destruct s as [|r s]; [done|]. cbn in *.
  split; [apply Hp|]. intros y Hy. apply elem_cons. by right.
Qed.

(** An insertion adds at most one range. *)
Lemma merge_following_length curr rest :
  (length (merge_following curr rest) <= S (length rest))%nat.
Proof.
  revert curr. induction rest as [|r rest IH]; intros curr; cbn; [lia|].
  destruct (rstart r <=? rend curr); [|cbn; lia]. specialize (IH (Range (rstart curr) (Z.max (rend r) (rend curr)))). lia.
Qed.

Lemma insert_loop_length x res s : (length (fst (insert_loop x res s)) <= S (length s))%nat.
Proof.
  revert res. induction s as [|r s IH]; intros res; cbn; [lia|].
  destruct (rend x <? rstart r); [cbn; lia|].
  destruct (if rstart x <? rstart r then _ else _) as [res' r'].
  destruct (rend x <=? rend r'); [cbn; lia|].
  destruct (rstart x <=? rend r').
  { cbn. pose proof (merge_following_length (Range (rstart r') (rend x)) s). lia. }
  specialize (IH res'). destruct (insert_loop x res' s). cbn in *. lia.
Qed.

Lemma array_insert_length x s : ArrayRangeSet.len (fst (ArrayRangeSet.insert x s)) <= 1 + ArrayRangeSet.len s.
Proof.
  unfold ArrayRangeSet.insert, len, zlen. destruct (range_is_empty x); cbn; [lia|].
  pose proof (insert_loop_length x false s). lia.
Qed.

Lemma insert_one_spec pn now p : acks_inv p -> 0 <= pn <= VARINT_MAX ->
  exists p', PendingAcks.insert_one pn now p = Ret p' /\ acks_inv p' /\
    (forall y, elem y (ranges p') -> elem y (ranges p) \/ y = pn) /\
    ((forall y, elem y (ranges p) \/ y = pn -> elem y (ranges p')) \/
     exists r rest, ranges p' = rest /\ ArrayRangeSet.len rest = MAX_ACK_BLOCKS /\
       forall y, elem y (r :: rest) <-> elem y (ranges p) \/ y = pn) /\
    p' = mkPendingAcks (immediate_ack_required p) (ack_eliciting_since_last_ack_sent p)
      (non_ack_eliciting_since_last_ack_sent p) (ack_eliciting_threshold p) (reordering_threshold p)
      (earliest_ack_eliciting_since_last_ack_sent p) (ranges p') (largest_packet p')
      (largest_ack_eliciting_packet p) (pa_largest_acked p).
Proof.
  intros [Hwf Hlen Hmax Hlp Hc Ha He] Hpn. unfold PendingAcks.insert_one, ArrayRangeSet.insert_one.
  rewrite u64_add_ok by varint_lia. cbn [obind].
  destruct (array_insert_spec (Range pn (pn + 1)) (ranges p) Hwf ltac:(cbn; lia)) as (Hwf' & Hel & _).
  pose proof (array_insert_length (Range pn (pn + 1)) (ranges p)) as Hl.
  destruct (ArrayRangeSet.insert _ (ranges p)) as [s r]. cbn [fst snd] in *.
  assert (Hel' : forall y, elem y s <-> elem y (ranges p) \/ y = pn).
  { intros y. rewrite Hel. unfold in_range; cbn. intuition lia. }
  set (s' := if MAX_ACK_BLOCKS <? ArrayRangeSet.len s then fst (ArrayRangeSet.pop_min s) else s).
  set (lp := match largest_packet p with
    | Some (m, _) => if m <? pn then Some (pn, now) else largest_packet p
    | None => Some (pn, now) end).
  assert (Hs' : ArrayRangeSet.wf s' /\ (forall y, elem y s' -> elem y s) /\
    ArrayRangeSet.len s' <= MAX_ACK_BLOCKS /\
    (s' = s \/ exists r, s = r :: s' /\ ArrayRangeSet.len s' = MAX_ACK_BLOCKS)).
  { subst s'. destruct (Z.ltb_spec MAX_ACK_BLOCKS (ArrayRangeSet.len s)) as [Hgt|]; [|by eauto].
    destruct (wf_pop_min s Hwf') as [Hw Hsub].
    destruct s as [|r0 s]; [unfold len, zlen in Hgt; cbn in Hgt; unfold MAX_ACK_BLOCKS in Hgt; lia|].
    cbn in *. unfold len in *. rewrite zlen_cons in *.
    split_and!; try done; [lia|]. right. exists r0. split; [done|lia]. }
  destruct Hs' as (Hw & Hsub & Hlen' & Hcase).
  assert (Hlp' : forall y, elem y s' -> exists m t, lp = Some (m, t) /\ y <= m).
  { intros y Hy%Hsub%Hel'. subst lp. destruct Hy as [Hy| ->].
    - destruct (Hlp y Hy) as (m & t & -> & ?). destruct (Z.ltb_spec m pn); eauto with lia.
    - destruct (largest_packet p) as [[m t]|]; [destruct (Z.ltb_spec m pn)|]; eauto with lia. }
  eexists. split; [done|]. cbn. split; [|split; [|split; [|done]]].
  - split; cbn; try done. intros y Hy%Hsub%Hel'. destruct Hy as [Hy| ->]; [by apply Hmax|lia].
  - intros y Hy. by apply Hel', Hsub.
  - destruct Hcase as [Heq|(r0 & Heq & Hl')]; [left|right].
    + intros y Hy. fold s'. rewrite Heq. by apply Hel'.
    + exists r0, s'. rewrite Heq in Hel'. done.
Qed.

Lemma is_out_of_order_total p pn prev d S : acks_inv p -> dedup_inv d S ->
  exists b, PendingAcks.is_out_of_order p pn prev d = Ret b.
Proof.
  intros [_ _ _ _ _ Ha _] Hd. unfold PendingAcks.is_out_of_order.
  destruct (pn <? prev); [by eauto|]. destruct (reordering_threshold p =? 0); [by eauto|].
  assert (exists lo, match pa_largest_acked p with Some a => u64_add a 1 | None => Ret 0 end = Ret lo /\ 0 <= lo)
    as (lo & -> & Hlo).
  { destruct (pa_largest_acked p) as [a|]; [|by exists 0].
    specialize (Ha a eq_refl). rewrite u64_add_ok by varint_lia. eexists. split; [done|lia]. }
  cbn [obind]. unfold missing_in_interval.
  destruct (smallest_missing_spec d S lo pn Hd Hlo) as (r & -> & _). cbn [obind].
  destruct (reordering_threshold p =? 1); [by eauto|]. destruct r; by eauto.
Qed.

Lemma packet_received_spec p now pn eliciting d S : acks_inv p -> dedup_inv d S ->
  0 <= pn <= VARINT_MAX -> ack_eliciting_since_last_ack_sent p < U64_MAX ->
  non_ack_eliciting_since_last_ack_sent p < U64_MAX ->
  exists p' arm, PendingAcks.packet_received p now pn eliciting d = Ret (p', arm) /\ acks_inv p' /\
    (arm = true -> eliciting = true /\ immediate_ack_required p' = false) /\
    (eliciting = true -> arm = false -> immediate_ack_required p' = true) /\
    (elem pn (ranges p') \/ ArrayRangeSet.len (ranges p') = MAX_ACK_BLOCKS).
Proof.
  intros Hinv Hd Hpn Hc1 Hc2. unfold PendingAcks.packet_received.
  destruct (insert_one_spec pn now p Hinv Hpn) as (p1 & -> & Hinv1 & Hsub & Hcase & Hp1). cbn [obind].
  assert (Hin : elem pn (ranges p1) \/ ArrayRangeSet.len (ranges p1) = MAX_ACK_BLOCKS).
  { destruct Hcase as [Hall|(r & rest & -> & ? & _)]; [left; apply Hall; by right|by right]. }
  assert (Hc1' : ack_eliciting_since_last_ack_sent p1 < U64_MAX) by (by rewrite Hp1).
  assert (Hc2' : non_ack_eliciting_since_last_ack_sent p1 < U64_MAX) by (by rewrite Hp1).
  clear Hp1 Hcase Hsub Hc1 Hc2 Hinv.
  match goal with |- context [obind (if eliciting then ?a else ?b) ?k] =>
    set (m := if eliciting then a else b); set (kont := k) end.
  assert (Hm : exists p2, m = Ret p2 /\ acks_inv p2 /\ ranges p2 = ranges p1 /\
    ack_eliciting_threshold p2 = ack_eliciting_threshold p1).
  { destruct Hinv1 as [Hwf Hlen Hmax Hlp [? ?] Ha He]. subst m.
    destruct eliciting; rewrite u64_add_ok by (u64_consts; lia); cbn [obind];
      eexists; (split; [done|]); (split; [|done]); split; cbn; try done; try lia.
    intros a. destruct (largest_ack_eliciting_packet p1) as [l|] eqn:Hl.
    - destruct (Z.ltb_spec l pn); intros [= <-]; [lia|by apply He].
    - intros [= <-]. lia. }
  destruct Hm as (p2 & -> & Hinv2 & Hr & Hthr). subst kont. cbn [obind].
  match goal with |- context [obind ?m ?k] =>
    assert (Hi : exists b, m = Ret b) end.
  { destruct (_ <? _); [by eauto|]. destruct eliciting; [|by eauto].
    by apply (is_out_of_order_total p2 pn _ d S). }
  destruct Hi as [b ->]. cbn [obind].
  destruct b.
  - eexists _, false. split; [done|]. split; [|split; [done|split; [done|]]].
    + destruct Hinv2. by split.
    + cbn. by rewrite Hr.
  - eexists _, _. split; [done|]. split; [done|]. rewrite Hr. split; [|split; [|done]].
    + intros [? ?%negb_true_iff]%andb_true_iff. done.
    + intros -> Hf. cbn in Hf. by apply negb_false_iff in Hf.
Qed.

(** The ACK frame of the pending ranges: it can be written, in a bounded number
    of bytes. *)
Lemma acks_inv_ok p delay : acks_inv p -> ranges p <> [] -> is_varint delay ->
  ack_ok delay (ranges p) None.
Proof.
  intros [Hwf Hlen Hmax _ _ _ _] Hne Hd. split; try done.
  - intros r Hr. pose proof (wf_range _ _ Hwf Hr). assert (rend r - 1 <= VARINT_MAX); [|lia].
    apply Hmax. exists r. split; [done|]. unfold in_range. lia.
  - unfold len, MAX_ACK_BLOCKS in Hlen. varint_lia.
Qed.

Definition ACK_FRAME_MAX : Z := 1034.

Lemma ack_blocks_length rest prev : descending prev rest -> prev <= VARINT_MAX ->
  zlen (ack_blocks_bytes rest prev) <= 16 * zlen rest.
Proof.
  revert prev. induction rest as [|r rest IH]; intros prev Hd Hp; [done|].
  destruct Hd as (? & ? & Hd). cbn [ack_blocks_bytes]. rewrite zlen_cons, !zlen_app.
  specialize (IH (rstart r) Hd ltac:(lia)).
  pose proof (varint_bytes_length (prev - rend r - 1) ltac:(varint_lia)).
  pose proof (varint_bytes_length (rend r - rstart r - 1) ltac:(varint_lia)). lia.
Qed.

Lemma ack_frame_length p delay : acks_inv p -> ranges p <> [] -> is_varint delay ->
  zlen (varint_bytes (ack_ty None) ++ ack_bytes delay (ranges p) None) <= ACK_FRAME_MAX.
Proof.
  intros Hinv Hne Hd. pose proof (acks_inv_ok p delay Hinv Hne Hd) as Hok.
  destruct (ack_ok_descending _ _ _ Hok) as (first & rest & Hr & Hf & Hmax & Hdesc & Hlen).
  pose proof (ai_len _ Hinv) as Hl. unfold len, MAX_ACK_BLOCKS in Hl.
  pose proof (zlen_nonneg rest). unfold ack_bytes. rewrite Hr. cbn [ecn_bytes].
  pose proof (ack_blocks_length rest (rstart first) Hdesc ltac:(lia)).
  pose proof (varint_bytes_length (rend first - 1) ltac:(varint_lia)).
  pose proof (varint_bytes_length delay Hd).
  pose proof (varint_bytes_length (rend first - rstart first - 1) ltac:(varint_lia)).
  assert (zlen (varint_bytes (zlen (ranges p) - 1)) = 1).
  { apply varint_bytes_small; varint_lia. }
  assert (zlen (varint_bytes (ack_ty None)) = 1) 
    by (apply varint_bytes_small; [split|]; vm_compute; discriminate).
  unfold ACK_FRAME_MAX. rewrite app_nil_r, !zlen_app. lia.
Qed.

(** ** Accounting of sent packets *)

(** A sum over a set of packets, and the bytes of the set. *)
Definition total (f : SentPacket -> Z) (m : gmap Z SentPacket) : Z :=
  map_fold (fun _ p acc => f p + acc) 0 m.
Abbreviation total_size := (total size).

Lemma total_insert f m n p : m !! n = None -> total f (<[n := p]> m) = f p + total f m.
Proof. intros Hn. unfold total. rewrite map_fold_insert_L; [done| |done]. intros; lia. Qed.

Lemma total_delete f m n p : m !! n = Some p -> total f m = f p + total f (delete n m).
Proof. intros Hn. unfold total. rewrite (map_fold_delete_L _ _ n p m); [done| |done]. intros; lia. Qed.

Lemma total_nonneg f m : (forall n p, m !! n = Some p -> 0 <= f p) -> 0 <= total f m.
Proof.
  unfold total. revert m. apply (map_fold_weak_ind (fun acc m =>
    (forall n p, m !! n = Some p -> 0 <= f p) -> 0 <= acc)); [done|].
  intros n p m acc Hn IH Hall. pose proof (Hall n p ltac:(by simplify_map_eq)).
  assert (0 <= acc); [|lia]. apply IH. intros n' p' Hp'. apply (Hall n').
  destruct (decide (n = n')) as [->|]; [congruence|]. by simplify_map_eq.
Qed.

(** What is in flight is what was sent and not taken back. *)
Record space_inv (s : PacketSpace) : Prop := {
  sp_next : 0 <= next_packet_number s <= 2 ^ 62;
  sp_in_flight : in_flight s = total_size (sent_packets s);
  sp_packet : forall n p, sent_packets s !! n = Some p ->
    number p = n /\ 0 <= n < next_packet_number s /\ 0 <= size p < U16;
  sp_tail : 0 <= unacked_non_ack_eliciting_tail s;
}.

Lemma space_inv_new now : space_inv (PacketSpace.new now).
Proof. split; cbn; try done; try lia. Qed.

Lemma get_tx_number_spec s : space_inv s -> next_packet_number s < 2 ^ 62 ->
  exists s', PacketSpace.get_tx_number s = Ret (s', next_packet_number s) /\ space_inv s' /\
    next_packet_number s' = next_packet_number s + 1 /\ sent_packets s' = sent_packets s.
Proof.
  intros [Hn Hf Hp Ht] Hlt. unfold PacketSpace.get_tx_number, assert.
  destruct (Z.ltb_spec (next_packet_number s) (2 ^ 62)); [|lia]. cbn [obind].
  rewrite u64_add_ok by u64_lia. cbn [obind]. eexists. split; [done|]. split; [|done].
  split; cbn; try done; [lia|]. intros n p Hnp. destruct (Hp n p Hnp) as (? & ? & ?). split_and!; done || lia.
Qed.

Lemma take_spec s n : space_inv s ->
  exists s', PacketSpace.take n s = Ret (s', sent_packets s !! n) /\ space_inv s' /\
    sent_packets s' = delete n (sent_packets s) /\
    in_flight s' = in_flight s - match sent_packets s !! n with Some p => size p | None => 0 end.
Proof.
  intros [Hn Hf Hp Ht]. unfold PacketSpace.take. destruct (sent_packets s !! n) as [p|] eqn:Hnp.
  - pose proof (total_delete size _ _ _ Hnp) as Htot. destruct (Hp n p Hnp) as (? & ? & ?).
    assert (0 <= total_size (delete n (sent_packets s))).
    { apply total_nonneg. intros n' p' [_ Hp']%lookup_delete_Some. destruct (Hp n' p' Hp'); lia. }
    rewrite u64_sub_ok by lia. cbn [obind]. eexists. split; [done|]. split; [|done].
    split; cbn; try done; [lia|]. intros n' p' [_ Hp']%lookup_delete_Some. by apply Hp.
  - exists s. split; [done|]. split; [by split|]. split; [by rewrite delete_id|lia].
Qed.

Lemma sent_spec s p : space_inv s -> sent_packets s !! number p = None ->
  0 <= number p < next_packet_number s -> 0 <= size p < U16 -> in_flight s + size p < U64 ->
  unacked_non_ack_eliciting_tail s < U64_MAX ->
  exists s', PacketSpace.sent p s = Ret (s', 0) /\ space_inv s' /\
    sent_packets s' = <[number p := p]> (sent_packets s) /\ in_flight s' = in_flight s + size p.
Proof.
  intros [Hn Hf Hp Ht] Hnone Hnum Hsz Hmax Htail. unfold PacketSpace.sent.
  assert (Hlt : exists l t, (if ack_eliciting p then Ret (number p, 0)
    else if largest_ack_eliciting_sent s <? number p then
      let! t := u64_add (unacked_non_ack_eliciting_tail s) 1 in Ret (largest_ack_eliciting_sent s, t)
    else Ret (largest_ack_eliciting_sent s, unacked_non_ack_eliciting_tail s)) = Ret (l, t) /\ 0 <= t).
  { destruct (ack_eliciting p); [by exists (number p), 0|].
    destruct (_ <? _); [|by eexists _, _]. rewrite u64_add_ok by (u64_consts; lia).
    eexists _, _. split; [done|lia]. }
  destruct Hlt as (l & t & -> & Ht'). cbn [obind]. rewrite u64_add_ok by lia. cbn [obind].
  eexists. split; [done|]. split; [|done]. split; cbn; try done.
  - rewrite total_insert by done. lia.
  - intros n' p' [[<- <-]|[_ Hp']]%lookup_insert_Some; [done|by apply Hp].
Qed.

(** The life of a space: packets are numbered, sent under a number that was
    handed out and not used before, and taken back in any order. *)
Inductive space_step : PacketSpace -> PacketSpace -> Prop :=
| step_number s s' n : PacketSpace.get_tx_number s = Ret (s', n) -> space_step s s'
| step_sent s s' p n : sent_packets s !! number p = None -> 0 <= number p < next_packet_number s ->
    0 <= size p < U16 -> in_flight s + size p < U64 -> unacked_non_ack_eliciting_tail s < U64_MAX ->
    PacketSpace.sent p s = Ret (s', n) -> space_step s s'
| step_take s s' n r : PacketSpace.take n s = Ret (s', r) -> space_step s s'.

Inductive space_reachable (now : Instant) : PacketSpace -> Prop :=
| reach_new : space_reachable now (PacketSpace.new now)
| reach_step s s' : space_reachable now s -> space_step s s' -> space_reachable now s'.

Lemma space_step_inv s s' : space_inv s -> space_step s s' -> space_inv s'.
Proof.
  intros Hinv Hstep. revert Hinv.
  destruct Hstep as [s1 s1' n Hn|s1 s1' p n H1 H2 H3 H4 H5 Hs|s1 s1' n r Ht]; intros Hinv.
  - destruct (Z.ltb_spec (next_packet_number s1) (2 ^ 62)) as [Hlt|Hge].
    + destruct (get_tx_number_spec s1 Hinv Hlt) as (s2 & He & Hinv' & _). congruence.
    + unfold PacketSpace.get_tx_number, assert in Hn.
      destruct (Z.ltb_spec (next_packet_number s1) (2 ^ 62)); [lia|done].
  - destruct (sent_spec s1 p Hinv H1 H2 H3 H4 H5) as (s2 & He & Hinv' & _). congruence.
  - destruct (take_spec s1 n Hinv) as (s2 & He & Hinv' & _). congruence.
Qed.

Lemma space_reachable_inv now s : space_reachable now s -> space_inv s.
Proof. induction 1; [apply space_inv_new|by eapply space_step_inv]. Qed.

(** ** Properties *)

(** C32: duplicate detection is sound and precise.  Over any sequence of received
    packet numbers, no number is accepted twice; and the filter behaves like the
    set of accepted numbers, from which it departs only by refusing numbers at
    least [WINDOW_SIZE] below the highest one. *)
Theorem dedup_sound ps p : Forall (fun p => 0 <= p < 2 ^ 62) ps -> 0 <= p < 2 ^ 62 ->
  exists d dups d' dup, dedup_run Dedup_new ps = Ret (d, dups) /\ NoDup (accepted ps dups) /\
    Dedup_insert d p = Ret (d', dup) /\
    (dup = false -> p ∉ accepted ps dups) /\
    (dup = true -> p ∈ accepted ps dups \/
       exists q, q ∈ accepted ps dups /\ p + WINDOW_SIZE <= q).
Proof.
  intros Hps Hp. destruct (dedup_run_spec ps Dedup_new ∅ dedup_inv_new Hps)
    as (d & dups & Hrun & _ & Hnd & _ & Hinv).
  destruct (dedup_insert_spec d _ p Hinv Hp) as (d' & dup & Hins & _ & Hnew & Hdup).
  exists d, dups, d', dup. split_and!; try done.
  - intros Hd Hin. apply (Hnew Hd). set_solver.
  - intros Hd. destruct (Hdup Hd) as [Hin|Hle]; [left; set_solver|right].
    exists (next d - 1). split; [|done]. pose proof (di_highest _ _ Hinv) as Hh.
    unfold WINDOW_SIZE in Hle. specialize (Hh ltac:(lia)). set_solver.
Qed.

Lemma dedup_sound_witness :
  (Forall (fun p => 0 <= p < 2 ^ 62) [0; 2; 1; 2; 200; 3] /\ 0 <= 71 < 2 ^ 62) /\
  exists d dups d' dup, dedup_run Dedup_new [0; 2; 1; 2; 200; 3] = Ret (d, dups) /\
    NoDup (accepted [0; 2; 1; 2; 200; 3] dups) /\ Dedup_insert d 71 = Ret (d', dup) /\
    (dup = false -> 71 ∉ accepted [0; 2; 1; 2; 200; 3] dups) /\
    (dup = true -> 71 ∈ accepted [0; 2; 1; 2; 200; 3] dups \/
       exists q, q ∈ accepted [0; 2; 1; 2; 200; 3] dups /\ 71 + WINDOW_SIZE <= q).
Proof.
  assert (Hps : Forall (fun p => 0 <= p < 2 ^ 62) [0; 2; 1; 2; 200; 3]) by (repeat constructor; lia).
  assert (Hp : 0 <= 71 < 2 ^ 62) by lia.
  exact (conj (conj Hps Hp) (dedup_sound _ 71 Hps Hp)).
Defined.

(** [smallest_missing_in_interval] returns the least packet number of the
    interval that was never accepted and that the window still tracks, or
    nothing when there is none; it never panics. *)
Theorem smallest_missing_correct ps lower upper : Forall (fun p => 0 <= p < 2 ^ 62) ps -> 0 <= lower ->
  exists d dups r, dedup_run Dedup_new ps = Ret (d, dups) /\
    smallest_missing_in_interval d lower upper = Ret r /\
    let missing p := (p ∉ accepted ps dups) /\ next d - 1 < p + WINDOW_SIZE in
    match r with
    | Some p => lower <= p < upper /\ missing p /\ forall q, lower <= q < p -> ~ missing q
    | None => forall q, lower <= q < upper -> ~ missing q
    end.
Proof.
  intros Hps Hlo. destruct (dedup_run_spec ps Dedup_new ∅ dedup_inv_new Hps)
    as (d & dups & Hrun & _ & _ & _ & Hinv).
  destruct (smallest_missing_spec d _ lower upper Hinv Hlo) as (r & Hr & Hspec).
  exists d, dups, r. split; [done|]. split; [done|]. cbn zeta.
  assert (Heq : forall q, missing d (list_to_set (accepted ps dups) ∪ ∅) q <->
    (q ∉ accepted ps dups) /\ next d - 1 < q + WINDOW_SIZE).
  { intros q. unfold missing. set_solver. }
  destruct r as [p|].
  - destruct Hspec as (? & Hm & Hmin). split; [done|]. split; [by apply Heq|].
    intros q Hq Hmq%Heq. by apply (Hmin q).
  - intros q Hq Hmq%Heq. by apply (Hspec q).
Qed.

Lemma smallest_missing_correct_witness :
  (Forall (fun p => 0 <= p < 2 ^ 62) [0; 1; 3; 5] /\ 0 <= 0) /\
  exists d dups r, dedup_run Dedup_new [0; 1; 3; 5] = Ret (d, dups) /\
    smallest_missing_in_interval d 0 5 = Ret r /\
    let missing p := (p ∉ accepted [0; 1; 3; 5] dups) /\ next d - 1 < p + WINDOW_SIZE in
    match r with
    | Some p => 0 <= p < 5 /\ missing p /\ forall q, 0 <= q < p -> ~ missing q
    | None => forall q, 0 <= q < 5 -> ~ missing q
    end.
Proof.
  assert (Hps : Forall (fun p => 0 <= p < 2 ^ 62) [0; 1; 3; 5]) by (repeat constructor; lia).
  assert (H0 : 0 <= 0) by lia.
  exact (conj (conj Hps H0) (smallest_missing_correct [0; 1; 3; 5] 0 5 Hps H0)).
Defined.

(** Receiving a packet preserves the invariant of the pending
    acknowledgements (sorted disjoint ranges, at most 64 of them, no number above
    the largest packet received), never panics, and schedules the
    acknowledgement of every ack-eliciting packet: either it is required at once
    or the delayed-ACK timer is to be armed, never both.  The packet is in the
    ranges unless 64 other ranges are. *)
Theorem packet_received_invariant p now pn eliciting d S : acks_inv p -> dedup_inv d S ->
  0 <= pn <= VARINT_MAX -> ack_eliciting_since_last_ack_sent p < U64_MAX ->
  non_ack_eliciting_since_last_ack_sent p < U64_MAX ->
  exists p' arm, PendingAcks.packet_received p now pn eliciting d = Ret (p', arm) /\ acks_inv p' /\
    (arm = true -> eliciting = true /\ immediate_ack_required p' = false) /\
    (eliciting = true -> arm = false -> immediate_ack_required p' = true) /\
    (ArrayRangeSet.contains (ranges p') pn = true \/ ArrayRangeSet.len (ranges p') = MAX_ACK_BLOCKS).
Proof.
  intros Hinv Hd Hpn H1 H2.
  destruct (packet_received_spec p now pn eliciting d S Hinv Hd Hpn H1 H2)
    as (p' & arm & Hr & Hinv' & Ha & Hi & Hin).
  exists p', arm. split_and!; try done. destruct Hin as [Hin|]; [left|by right].
  by apply (array_contains_spec (-1) _ _ (ai_wf _ Hinv')).
Qed.

Lemma packet_received_invariant_witness :
  (acks_inv PendingAcks.new /\ dedup_inv Dedup_new ∅ /\ 0 <= 7 <= VARINT_MAX /\
   ack_eliciting_since_last_ack_sent PendingAcks.new < U64_MAX /\
   non_ack_eliciting_since_last_ack_sent PendingAcks.new < U64_MAX) /\
  exists p' arm, PendingAcks.packet_received PendingAcks.new 0 7 true Dedup_new = Ret (p', arm) /\
    acks_inv p' /\
    (arm = true -> true = true /\ immediate_ack_required p' = false) /\
    (true = true -> arm = false -> immediate_ack_required p' = true) /\
    (ArrayRangeSet.contains (ranges p') 7 = true \/ ArrayRangeSet.len (ranges p') = MAX_ACK_BLOCKS).
Proof.
  assert (H1 : 0 <= 7 <= VARINT_MAX) by varint_lia.
  assert (H2 : ack_eliciting_since_last_ack_sent PendingAcks.new < U64_MAX) by (cbn; u64_lia).
  assert (H3 : non_ack_eliciting_since_last_ack_sent PendingAcks.new < U64_MAX) by (cbn; u64_lia).
  split; [exact (conj acks_inv_new (conj dedup_inv_new (conj H1 (conj H2 H3))))|].
  exact (packet_received_invariant PendingAcks.new 0 7 true Dedup_new ∅ acks_inv_new dedup_inv_new H1 H2 H3).
Defined.

(** Whenever there is something to acknowledge, the ACK frame can be written:
    no delay, set of ranges or room of at least [ACK_FRAME_MAX] bytes makes the
    encoder panic, and it writes at most that many bytes. *)
Theorem pending_acks_encode {W : Type} `{BufMutLaws W} p delay (w : W) :
  acks_inv p -> ranges p <> [] -> is_varint delay -> ACK_FRAME_MAX <= remaining_mut w ->
  exists w' bs, encode_ack delay (ranges p) None w = Ret w' /\ written w' = written w ++ bs /\
    zlen bs <= ACK_FRAME_MAX /\ remaining_mut w' = remaining_mut w - zlen bs.
Proof.
  intros Hinv Hne Hd Hroom. pose proof (acks_inv_ok p delay Hinv Hne Hd) as Hok.
  pose proof (ack_frame_length p delay Hinv Hne Hd) as Hlen.
  destruct (emits_fits _ _ w (emits_ack delay (ranges p) None Hok)) as (w' & He & Hw & Hr); [lia|].
  eexists w', _. split_and!; done.
Qed.

Definition sample_pending : PendingAcks :=
  PendingAcks.with_ranges [Range 3 5] (mkPendingAcks true 1 0 1 1 None [] (Some (4, 0)) (Some 4) None).

Lemma sample_pending_inv : acks_inv sample_pending.
Proof.
  split; cbn; unfold ArrayRangeSet.wf, len, MAX_ACK_BLOCKS; cbn; try done; try lia.
  - intros y (r & Hr & Hy). apply list_elem_of_singleton in Hr as ->. unfold in_range in Hy; cbn in Hy.
    varint_lia.
  - intros y (r & Hr & Hy). apply list_elem_of_singleton in Hr as ->. unfold in_range in Hy; cbn in Hy.
    exists 4, 0. split; [done|lia].
  - intros a [= <-]. varint_lia.
Qed.

Lemma pending_acks_encode_witness :
  (acks_inv sample_pending /\ ranges sample_pending <> [] /\ is_varint 100 /\
   ACK_FRAME_MAX <= remaining_mut (SliceBuf [] 1200)) /\
  exists w' bs, encode_ack 100 (ranges sample_pending) None (SliceBuf [] 1200) = Ret w' /\
    written w' = written (SliceBuf [] 1200) ++ bs /\ zlen bs <= ACK_FRAME_MAX /\
    remaining_mut w' = remaining_mut (SliceBuf [] 1200) - zlen bs.
Proof.
  assert (H1 : ranges sample_pending <> []) by done.
  assert (H2 : is_varint 100) by varint_lia.
  assert (H3 : ACK_FRAME_MAX <= remaining_mut (SliceBuf [] 1200)) by (vm_compute; discriminate).
  exact (conj (conj sample_pending_inv (conj H1 (conj H2 H3)))
    (pending_acks_encode sample_pending 100 (SliceBuf [] 1200) sample_pending_inv H1 H2 H3)).
Defined.

(** In every reachable state of a packet number space the bytes in flight are
    the bytes of the packets it remembers.  Taking a packet back therefore never
    underflows: it returns what was recorded under the number, forgets it, and
    gives its bytes back exactly once. *)
Theorem space_accounting now s n : space_reachable now s ->
  in_flight s = total_size (sent_packets s) /\
  exists s', PacketSpace.take n s = Ret (s', sent_packets s !! n) /\
    sent_packets s' = delete n (sent_packets s) /\ in_flight s' = total_size (delete n (sent_packets s)).
Proof.
  intros Hr%space_reachable_inv. split; [apply Hr|].
  destruct (take_spec s n Hr) as (s' & Ht & Hinv' & Hm & _). exists s'.
  split_and!; try done. rewrite <- Hm. apply Hinv'.
Qed.

Definition sample_packet : SentPacket := mkSentPacket 0 1200 true None None [] 0 SpInitial.
Definition sample_space : PacketSpace :=
  mkPacketSpace false Dedup_new 0 Retransmits_default PendingAcks.new 1 None 0 0 0
    {[0 := sample_packet]} None false false 1200.

Lemma sample_space_reachable : space_reachable 0 sample_space.
Proof.
  eapply reach_step; [eapply reach_step; [apply reach_new|]|].
  - eapply step_number. vm_compute. reflexivity.
  - apply (step_sent _ _ sample_packet 0); cbn; unfold U16, U64, U64_MAX; try done; try lia.
Qed.

Lemma space_accounting_witness : space_reachable 0 sample_space /\
  in_flight sample_space = total_size (sent_packets sample_space) /\
  exists s', PacketSpace.take 0 sample_space = Ret (s', sent_packets sample_space !! 0) /\
    sent_packets s' = delete 0 (sent_packets sample_space) /\
    in_flight s' = total_size (delete 0 (sent_packets sample_space)).
Proof.
  exact (conj sample_space_reachable (space_accounting 0 sample_space 0 sample_space_reachable)).
Defined.
