(* ===== verification/Path.v ===== *)
(** * Path: recovery state of a network path ([core/src/connection/path.rs])

    The round-trip estimator, the NewReno congestion controller, the bytes in
    flight, and sending the packet at the head of the queue.  The socket is not
    part of the repository: the instant at which it accepted a packet, or its
    failure, is an argument of [send_one]. *)
From S2P Require Import Prelude Time Common Frame Packet Space.

(** [path.rs:15-15] *)
Definition MIN_RTT : Duration := from_millis 333.
(** [lib.rs:12-12] *)
Definition INITIAL_MTU : Z := 1472.

(** [path.rs:17-22] *)
Record ScheduledPacket := { sch_packet : list Z; meta_info : SentPacket }.

(** [path.rs:24-28] *)
Record PostSentInfo := { psi_ack_eliciting : bool; psi_send_time : Instant }.

(** [path.rs:113-125] *)
Record RttEstimator := mkRtt {
  latest : Duration;
  smoothed : option Duration;
  var : Duration;
  min : Duration;
}.

(** [path.rs:189-206] *)
Record InFlight := mkInFlight { if_bytes : Z; if_ack_eliciting : Z }.

(** [path.rs:222-236] *)
Record NewReno := mkNewReno {
  nr_window : Z;
  ssthresh : Z;
  recovery_start_time : Instant;
  bytes_acked : Z;
}.

(** [path.rs:30-46] *)
Record NetworkPath := mkNetworkPath {
  sending_queue : list ScheduledPacket;
  rtt : RttEstimator;
  congestion : NewReno;
  np_in_flight : InFlight;
  first_packet : option Z;
}.

(** The three packet number spaces, [[PacketSpace; 3]] indexed by [SpaceId]. *)
Record Spaces := mkSpaces { sp_initial : PacketSpace; sp_handshake : PacketSpace; sp_data : PacketSpace }.

Definition get_space (s : Spaces) (id : SpaceId) : PacketSpace :=
  match id with SpInitial => sp_initial s | SpHandshake => sp_handshake s | SpData => sp_data s end.

Definition set_space (id : SpaceId) (x : PacketSpace) (s : Spaces) : Spaces :=
  match id with
  | SpInitial => mkSpaces x (sp_handshake s) (sp_data s)
  | SpHandshake => mkSpaces (sp_initial s) x (sp_data s)
  | SpData => mkSpaces (sp_initial s) (sp_handshake s) x
  end.

(** ** Round-trip times *)
Module RttEstimator.
(** [path.rs:128-135] *)
Definition new (initial_rtt : Duration) : outcome RttEstimator :=
  let! v := dur_div initial_rtt 2 in
  Ret {| latest := initial_rtt; smoothed := None; var := v; min := initial_rtt |}.

(** [path.rs:137-140] *)
Definition get (r : RttEstimator) : Duration := default (latest r) (smoothed r).

(** [path.rs:142-148] *)
Definition conservative (r : RttEstimator) : Duration := Z.max (get r) (latest r).

(** [path.rs:150-186] *)
Definition update (ack_delay rtt : Duration) (r : RttEstimator) : outcome RttEstimator :=
  let min := Z.min (min r) rtt in
  let! floor := dur_add min ack_delay in
  let! adjusted_rtt := if floor <? rtt then dur_sub rtt ack_delay else Ret rtt in
  match smoothed r with
  | None =>
      let! v := dur_div adjusted_rtt 2 in
      Ret {| latest := rtt; smoothed := Some adjusted_rtt; var := v; min := min |}
  | Some smoothed =>
      let! diff := if adjusted_rtt <? smoothed then dur_sub smoothed adjusted_rtt
                   else dur_sub adjusted_rtt smoothed in
      let! v3 := dur_mul (var r) 3 in
      let! v := dur_add v3 diff in
      let! v := dur_div v 4 in
      let! s7 := dur_mul smoothed 7 in
      let! s := dur_add s7 adjusted_rtt in
      let! s := dur_div s 8 in
      Ret {| latest := rtt; smoothed := Some s; var := v; min := min |}
  end.
End RttEstimator.

(** ** Bytes in flight *)
Module InFlight.
Definition default : InFlight := mkInFlight 0 0.

(** [path.rs:209-212] *)
Definition insert (packet : SentPacket) (f : InFlight) : outcome InFlight :=
  let! b := u64_add (if_bytes f) (size packet) in
  let! n := u64_add (if_ack_eliciting f) (if ack_eliciting packet then 1 else 0) in
  Ret (mkInFlight b n).

(** [path.rs:214-219] *)
Definition remove (packet : SentPacket) (f : InFlight) : outcome InFlight :=
  let! b := u64_sub (if_bytes f) (size packet) in
  let! n := u64_sub (if_ack_eliciting f) (if ack_eliciting packet then 1 else 0) in
  Ret (mkInFlight b n).
End InFlight.

(** ** Congestion control *)
Module NewReno.
(** [path.rs:239-246] *)
Definition new (now : Instant) : NewReno :=
  {| nr_window := 10 * INITIAL_MTU; ssthresh := U64_MAX; recovery_start_time := now; bytes_acked := 0 |}.

(** [path.rs:248-276] *)
Definition on_ack (sent : Instant) (bytes : Z) (app_limited : bool) (c : NewReno) : outcome NewReno :=
  if app_limited then Ret c
  else if sent <=? recovery_start_time c then Ret c
  else if nr_window c <? ssthresh c then
    let! w := u64_add (nr_window c) bytes in
    Ret (mkNewReno w (ssthresh c) (recovery_start_time c) (bytes_acked c))
  else
    let! acked := u64_add (bytes_acked c) bytes in
    if nr_window c <=? acked then
      let! acked := u64_sub acked (nr_window c) in
      let! w := u64_add (nr_window c) INITIAL_MTU in
      Ret (mkNewReno w (ssthresh c) (recovery_start_time c) acked)
    else Ret (mkNewReno (nr_window c) (ssthresh c) (recovery_start_time c) acked).

(** [path.rs:278-297] *)
Definition on_congestion_event (now sent : Instant) (c : NewReno) : NewReno :=
  if sent <=? recovery_start_time c then c
  else
    let threshold := Z.max (nr_window c / 2) (2 * INITIAL_MTU) in
    mkNewReno threshold threshold now 0.

(** [path.rs:299-301] *)
Definition window (c : NewReno) : Z := nr_window c.
End NewReno.

(** ** The path *)
Module NetworkPath.
(** [path.rs:49-59] *)
Definition new (now : Instant) : outcome NetworkPath :=
  let! r := RttEstimator.new MIN_RTT in
  Ret {| sending_queue := []; rtt := r; congestion := NewReno.new now;
         np_in_flight := InFlight.default; first_packet := None |}.

(** [path.rs:61-99] [send_one]; [io] is what [send_datagram] returns. *)
Definition send_one (io : option Instant) (spaces : Spaces) (p : NetworkPath)
    : outcome (NetworkPath * Spaces * option PostSentInfo) :=
  match sending_queue p with
  | [] => Ret (p, spaces, None)
  | s :: queue =>
      let! send_time := unwrap io in
      let m := meta_info s in
      let m := mkSentPacket send_time (size m) (ack_eliciting m) (largest_acked m) (retransmits m)
                 (stream_frames m) (number m) (space_id m) in
      let info := {| psi_ack_eliciting := ack_eliciting m; psi_send_time := send_time |} in
      let! f := InFlight.insert m (np_in_flight p) in
      let first :=
        match first_packet p with None => Some (number m) | Some n => Some n end in
      let! '(space, gone) := PacketSpace.sent m (get_space spaces (space_id m)) in
      let f := mkInFlight (saturating_sub (if_bytes f) gone) (if_ack_eliciting f) in
      Ret (mkNetworkPath queue (rtt p) (congestion p) f first,
           set_space (space_id m) space spaces, Some info)
  end.

(** [path.rs:101-110] *)
Definition remove_in_flight (pn : Z) (packet : SentPacket) (p : NetworkPath)
    : outcome (NetworkPath * bool) :=
  if match first_packet p with None => true | Some first => pn <? first end then Ret (p, false)
  else
    let! f := InFlight.remove packet (np_in_flight p) in
    Ret (mkNetworkPath (sending_queue p) (rtt p) (congestion p) f (first_packet p), true).
End NetworkPath.

(** ** The estimator stays between the samples *)

(** The minimum is a lower bound of the estimates, and all of them are
    durations far from overflow. *)
Definition RTT_END : Z := DURATION_END / 16.

Record rtt_inv (r : RttEstimator) : Prop := {
  ri_latest : 0 <= min r <= latest r /\ latest r < RTT_END;
  ri_smoothed : forall s, smoothed r = Some s -> min r <= s < RTT_END;
  ri_var : 0 <= var r < RTT_END;
}.

Lemma RTT_END_16 : 16 * RTT_END = DURATION_END.
Proof. reflexivity. Qed.

Lemma rtt_new_spec initial : 0 <= initial < RTT_END ->
  exists r, RttEstimator.new initial = Ret r /\ rtt_inv r.
Proof.
  intros Hi. unfold RttEstimator.new. rewrite dur_div_ok by done. cbn [obind]. eexists. split; [done|].
  split; cbn; [lia|done|]. split; [apply Z.div_pos; lia|]. apply Z.div_lt_upper_bound; lia.
Qed.

(** The sample after the acknowledgement delay is taken off. *)
Definition adjusted (ack_delay rtt min : Duration) : Duration :=
  if min + ack_delay <? rtt then rtt - ack_delay else rtt.

Lemma adjusted_bounds ack_delay rtt min : 0 <= ack_delay -> min <= rtt ->
  min <= adjusted ack_delay rtt min <= rtt.
Proof. intros. unfold adjusted. destruct (Z.ltb_spec (min + ack_delay) rtt); lia. Qed.

Lemma update_spec ack_delay sample r : rtt_inv r -> 0 <= ack_delay < RTT_END -> 0 <= sample < RTT_END ->
  let a := adjusted ack_delay sample (Z.min (min r) sample) in
  exists r', RttEstimator.update ack_delay sample r = Ret r' /\ rtt_inv r' /\
    latest r' = sample /\ min r' = Z.min (min r) sample /\
    match smoothed r with
    | None => smoothed r' = Some a /\ var r' = a / 2
    | Some s => smoothed r' = Some ((7 * s + a) / 8) /\ var r' = (3 * var r + Z.abs (s - a)) / 4
    end.
Proof.
  intros [Hl Hs Hv] Hd Hsm a. pose proof RTT_END_16 as Hend.
  pose proof (adjusted_bounds ack_delay sample (Z.min (min r) sample) ltac:(lia) ltac:(lia)) as Ha.
  fold a in Ha. unfold RttEstimator.update. rewrite dur_add_ok by lia. cbn [obind].
  replace (if Z.min (min r) sample + ack_delay <? sample then dur_sub sample ack_delay else Ret sample)
    with (Ret a).
  2: { subst a. unfold adjusted. destruct (Z.ltb_spec (Z.min (min r) sample + ack_delay) sample);
       [rewrite dur_sub_ok by lia|]; done. }
  cbn [obind]. destruct (smoothed r) as [s|].
  - specialize (Hs s eq_refl).
    replace (if a <? s then dur_sub s a else dur_sub a s) with (Ret (Z.abs (s - a))).
    2: { destruct (Z.ltb_spec a s); rewrite dur_sub_ok by lia; f_equal; lia. }
    cbn [obind]. rewrite dur_mul_ok by lia. cbn [obind]. rewrite dur_add_ok by lia. cbn [obind].
    rewrite dur_div_ok by done. cbn [obind]. rewrite dur_mul_ok by lia. cbn [obind].
    rewrite dur_add_ok by lia. cbn [obind]. rewrite dur_div_ok by done. cbn [obind].
    eexists. split; [done|]. cbn. split; [|split; [done|split; [done|]]].
    + split; cbn; [lia| |].
      * intros s' [= <-]. split; [apply Z.div_le_lower_bound; lia|apply Z.div_lt_upper_bound; lia].
      * split; [apply Z.div_pos; lia|apply Z.div_lt_upper_bound; lia].
    + split; do 2 f_equal; lia.
  - rewrite dur_div_ok by done. cbn [obind]. eexists. split; [done|]. cbn.
    split; [|done]. split; cbn; [lia|intros s' [= <-]; lia|].
    split; [apply Z.div_pos; lia|apply Z.div_lt_upper_bound; lia].
Qed.

(** ** The congestion window *)

Record reno_inv (c : NewReno) : Prop := {
  re_window : 2 * INITIAL_MTU <= nr_window c;
  re_ssthresh : 2 * INITIAL_MTU <= ssthresh c;
  re_acked : 0 <= bytes_acked c;
}.

Lemma reno_inv_new now : reno_inv (NewReno.new now).
Proof. split; cbn; unfold INITIAL_MTU, U64_MAX; lia. Qed.

Lemma on_ack_spec sent bytes app_limited c : reno_inv c -> 0 <= bytes < U16 ->
  nr_window c + bytes_acked c + bytes + INITIAL_MTU < U64 ->
  exists c', NewReno.on_ack sent bytes app_limited c = Ret c' /\ reno_inv c' /\
    nr_window c <= nr_window c' <= nr_window c + Z.max bytes INITIAL_MTU /\
    (app_limited = true \/ sent <= recovery_start_time c -> c' = c) /\
    ssthresh c' = ssthresh c /\ recovery_start_time c' = recovery_start_time c.
Proof.
  intros [Hw Hs Hb] Hby Hmax. unfold INITIAL_MTU, U16 in *. unfold NewReno.on_ack.
  destruct app_limited; [exists c; split_and!; try done; lia|].
  destruct (Z.leb_spec sent (recovery_start_time c)); [exists c; split_and!; try done; lia|].
  destruct (Z.ltb_spec (nr_window c) (ssthresh c)).
  - rewrite u64_add_ok by lia. cbn [obind]. eexists. split; [done|].
    split; [split; cbn; unfold INITIAL_MTU; lia|]. cbn. split_and!; try done; lia.
  - rewrite u64_add_ok by lia. cbn [obind].
    destruct (Z.leb_spec (nr_window c) (bytes_acked c + bytes)).
    + rewrite u64_sub_ok by lia. cbn [obind]. rewrite u64_add_ok by (unfold INITIAL_MTU; lia). cbn [obind].
      eexists. split; [done|]. split; [split; cbn; unfold INITIAL_MTU; lia|].
      cbn. unfold INITIAL_MTU. split_and!; try done; lia.
    + eexists. split; [done|]. split; [split; cbn; unfold INITIAL_MTU; lia|].
      cbn. split_and!; try done; lia.
Qed.

Lemma on_congestion_event_spec now sent c : reno_inv c ->
  let c' := NewReno.on_congestion_event now sent c in
  reno_inv c' /\
  (sent <= recovery_start_time c -> c' = c) /\
  (recovery_start_time c < sent -> recovery_start_time c' = now /\ ssthresh c' = nr_window c' /\
     nr_window c' = Z.max (nr_window c / 2) (2 * INITIAL_MTU)).
Proof.
  intros [Hw Hs Hb]. unfold NewReno.on_congestion_event.
  destruct (Z.leb_spec sent (recovery_start_time c)); cbn zeta.
  - split; [by split|]. split; [done|lia].
  - split; [split; cbn; unfold INITIAL_MTU in *; lia|]. split; [lia|done].
Qed.

(** ** The path and the spaces account for the same packets *)

Definition eliciting_count (p : SentPacket) : Z := if ack_eliciting p then 1 else 0.

Definition all_spaces (f : SentPacket -> Z) (s : Spaces) : Z :=
  total f (sent_packets (sp_initial s)) + total f (sent_packets (sp_handshake s)) +
  total f (sent_packets (sp_data s)).

Record path_inv (p : NetworkPath) (s : Spaces) : Prop := {
  pi_spaces : forall id, space_inv (get_space s id);
  pi_bytes : if_bytes (np_in_flight p) = all_spaces size s;
  pi_eliciting : if_ack_eliciting (np_in_flight p) = all_spaces eliciting_count s;
  pi_first : match first_packet p with
    | None => forall id, sent_packets (get_space s id) = ∅
    | Some n => n = 0
    end;
}.

Lemma get_set_space id id' x s :
  get_space (set_space id x s) id' = if decide (id = id') then x else get_space s id'.
Proof. by destruct id, id'. Qed.

Lemma all_spaces_set f id x s :
  all_spaces f (set_space id x s) =
  all_spaces f s - total f (sent_packets (get_space s id)) + total f (sent_packets x).
Proof. unfold all_spaces. destruct id; cbn; lia. Qed.

Lemma all_spaces_ge f id s : (forall id n p, sent_packets (get_space s id) !! n = Some p -> 0 <= f p) ->
  total f (sent_packets (get_space s id)) <= all_spaces f s.
Proof.
  intros Hf.
  pose proof (total_nonneg f _ (Hf SpInitial)). pose proof (total_nonneg f _ (Hf SpHandshake)).
  pose proof (total_nonneg f _ (Hf SpData)). unfold all_spaces. destruct id; cbn in *; lia.
Qed.

Lemma path_inv_new now p : NetworkPath.new now = Ret p ->
  path_inv p (mkSpaces (PacketSpace.new now) (PacketSpace.new now) (PacketSpace.new now)).
Proof.
  unfold NetworkPath.new, RttEstimator.new. rewrite dur_div_ok by done. intros [= <-].
  split; cbn; try done; [|by intros []]. intros []; apply space_inv_new.
Qed.

(** The packet at the head of the queue may be sent: its number was handed out
    in its space, and has not been used. *)
Record sendable (m : SentPacket) (p : NetworkPath) (s : Spaces) : Prop := {
  se_fresh : sent_packets (get_space s (space_id m)) !! number m = None;
  se_number : 0 <= number m < next_packet_number (get_space s (space_id m));
  se_size : 0 <= size m < U16;
  se_first : first_packet p = None -> number m = 0;
  se_tail : unacked_non_ack_eliciting_tail (get_space s (space_id m)) < U64_MAX;
  se_room : if_bytes (np_in_flight p) + size m < U64 /\ if_ack_eliciting (np_in_flight p) + 1 < U64;
}.

Lemma send_one_spec t p s x queue : path_inv p s -> sending_queue p = x :: queue ->
  sendable (meta_info x) p s ->
  let id := space_id (meta_info x) in let n := number (meta_info x) in
  exists p' s' info, NetworkPath.send_one (Some t) s p = Ret (p', s', Some info) /\ path_inv p' s' /\
    sending_queue p' = queue /\ psi_send_time info = t /\
    (exists m, sent_packets (get_space s' id) !! n = Some m /\ time_sent m = t /\
       size m = size (meta_info x) /\ stream_frames m = stream_frames (meta_info x)) /\
    if_bytes (np_in_flight p') = if_bytes (np_in_flight p) + size (meta_info x).
Proof.
  intros [Hsp Hb He Hf] Hq [Hfresh Hnum Hsz Hfirst Htail [Hroom Hroom']] id n.
  unfold NetworkPath.send_one. rewrite Hq. cbn [unwrap obind].
  set (m := mkSentPacket t _ _ _ _ _ _ _). cbn [size number ack_eliciting space_id].
  fold id n. change (number m) with n. change (space_id m) with id.
  unfold InFlight.insert. rewrite u64_add_ok by (change (size m) with (size (meta_info x)); lia).
  cbn [obind]. rewrite u64_add_ok by (destruct (ack_eliciting m); lia). cbn [obind].
  assert (Hle : in_flight (get_space s id) <= if_bytes (np_in_flight p)).
  { rewrite Hb, (sp_in_flight _ (Hsp id)). apply all_spaces_ge. intros id' n' q Hn'.
    destruct (sp_packet _ (Hsp id') _ _ Hn') as (_ & _ & ?). lia. }
  destruct (sent_spec (get_space s id) m (Hsp id)) as (sp' & -> & Hinv' & Hm & Hfl);
    try done; [change (size m) with (size (meta_info x)); lia|].
  cbn [obind]. change (number m) with n in Hm.
  eexists _, (set_space id sp' s), _. split; [done|]. cbn [sending_queue np_in_flight if_bytes psi_send_time].
  assert (Htot : forall f, total f (sent_packets sp') = f m + total f (sent_packets (get_space s id))).
  { intros f. rewrite Hm. by apply total_insert. }
  assert (Hpos : 0 <= if_bytes (np_in_flight p)).
  { etransitivity; [|exact Hle]. rewrite (sp_in_flight _ (Hsp id)). apply total_nonneg.
    intros n' q Hn'. destruct (sp_packet _ (Hsp id) _ _ Hn') as (_ & _ & ?). lia. }
  assert (Hbytes : saturating_sub (if_bytes (np_in_flight p) + size m) 0 =
    if_bytes (np_in_flight p) + size m).
  { unfold saturating_sub. change (size m) with (size (meta_info x)). lia. }
  split; [split; cbn [np_in_flight if_bytes if_ack_eliciting first_packet]|].
  - intros id'. rewrite get_set_space. destruct (decide (id = id')); [done|apply Hsp].
  - rewrite Hbytes, all_spaces_set, Htot, Hb. lia.
  - rewrite all_spaces_set, Htot, He. unfold eliciting_count. lia.
  - destruct (first_packet p); [done|]. by apply Hfirst.
  - split_and!; try done.
    exists m. rewrite get_set_space, decide_True by done. rewrite Hm. by simplify_map_eq.
Qed.

(** Acknowledging or losing a packet takes it off both accounts. *)
Lemma remove_spec p s id n m : path_inv p s -> sent_packets (get_space s id) !! n = Some m ->
  exists p' sp', NetworkPath.remove_in_flight n m p = Ret (p', true) /\
    PacketSpace.take n (get_space s id) = Ret (sp', Some m) /\
    path_inv p' (set_space id sp' s) /\
    if_bytes (np_in_flight p') = if_bytes (np_in_flight p) - size m.
Proof.
  intros [Hsp Hb He Hf] Hn. destruct (sp_packet _ (Hsp id) _ _ Hn) as (_ & Hnum & Hsz).
  unfold NetworkPath.remove_in_flight.
  destruct (first_packet p) as [first|]; [|by rewrite (Hf id), lookup_empty in Hn].
  subst first. destruct (Z.ltb_spec n 0); [lia|].
  destruct (take_spec (get_space s id) n (Hsp id)) as (sp' & Ht & Hinv' & Hm & _).
  rewrite Hn in Ht.
  assert (Hge : forall f, (forall q, 0 <= f q \/ ~ 0 <= f q) -> (forall id n p, sent_packets (get_space s id) !! n = Some p -> 0 <= f p) ->
    f m <= all_spaces f s).
  { intros f _ Hpos. pose proof (all_spaces_ge f id s Hpos).
    pose proof (total_delete f _ _ _ Hn). pose proof (total_nonneg f (delete n (sent_packets (get_space s id)))) as Hd.
    assert (0 <= total f (delete n (sent_packets (get_space s id)))); [|lia].
    apply Hd. intros n' q [_ Hq]%lookup_delete_Some. by apply (Hpos id n'). }
  assert (size m <= all_spaces size s).
  { apply Hge; [intros; lia|]. intros id' n' q Hq. destruct (sp_packet _ (Hsp id') _ _ Hq); lia. }
  assert (eliciting_count m <= all_spaces eliciting_count s).
  { apply Hge; [intros; lia|]. intros ? ? q _. unfold eliciting_count. destruct (ack_eliciting q); lia. }
  unfold InFlight.remove. fold (eliciting_count m). rewrite u64_sub_ok by lia. cbn [obind].
  rewrite u64_sub_ok by lia. cbn [obind]. eexists _, sp'. split; [done|]. split; [done|].
  assert (Htot : forall f, total f (sent_packets sp') = total f (sent_packets (get_space s id)) - f m).
  { intros f. rewrite Hm, (total_delete f _ _ _ Hn). lia. }
  split; [split; cbn [np_in_flight if_bytes if_ack_eliciting first_packet]|done].
  - intros id'. rewrite get_set_space. destruct (decide (id = id')); [done|apply Hsp].
  - rewrite all_spaces_set, Htot, Hb. lia.
  - rewrite all_spaces_set, Htot, He. lia.
  - done.
Qed.

(** ** Properties *)

(** The packets in flight on the path and in the three packet number spaces
    stay in balance.  Sending the packet at the head of the queue records it in
    its space, with the instant the socket took it, and adds its bytes to the
    path; and whatever packet a space remembers can then be taken off both
    accounts, without an underflow, which subtracts exactly its bytes. *)
Theorem path_conservation t p s x queue : path_inv p s -> sending_queue p = x :: queue ->
  sendable (meta_info x) p s ->
  exists p' s' info, NetworkPath.send_one (Some t) s p = Ret (p', s', Some info) /\ path_inv p' s' /\
    sending_queue p' = queue /\ psi_send_time info = t /\
    if_bytes (np_in_flight p') = if_bytes (np_in_flight p) + size (meta_info x) /\
    is_Some (sent_packets (get_space s' (space_id (meta_info x))) !! number (meta_info x)) /\
    forall id n m, sent_packets (get_space s' id) !! n = Some m ->
      exists p'' sp'', NetworkPath.remove_in_flight n m p' = Ret (p'', true) /\
        PacketSpace.take n (get_space s' id) = Ret (sp'', Some m) /\
        path_inv p'' (set_space id sp'' s') /\
        if_bytes (np_in_flight p'') = if_bytes (np_in_flight p') - size m.
Proof.
  intros Hinv Hq Hse.
  destruct (send_one_spec t p s x queue Hinv Hq Hse) as (p' & s' & info & Hs & Hinv' & Hq' & Ht & (m & Hm & _) & Hb).
  exists p', s', info. split_and!; try done. intros id n m' Hm'. by apply remove_spec.
Qed.

Definition sample_scheduled : ScheduledPacket :=
  {| sch_packet := replicate 1200 0; meta_info := mkSentPacket 0 1200 true None None [] 0 SpInitial |}.
Definition sample_path : NetworkPath :=
  mkNetworkPath [sample_scheduled] (mkRtt MIN_RTT None (MIN_RTT / 2) MIN_RTT) (NewReno.new 0)
    InFlight.default None.
Definition numbered_space : PacketSpace :=
  mkPacketSpace false Dedup_new 0 Retransmits_default PendingAcks.new 1 None 0 0 0 ∅ None false false 0.
Definition sample_spaces : Spaces := mkSpaces numbered_space (PacketSpace.new 0) (PacketSpace.new 0).

Lemma sample_path_inv : path_inv sample_path sample_spaces.
Proof.
  split; [|done|done|by intros []]. intros []; try apply space_inv_new. split; cbn; try done; lia.
Qed.

Lemma sample_sendable : sendable (meta_info sample_scheduled) sample_path sample_spaces.
Proof. split; cbn; unfold U16, U64, U64_MAX; try done; lia. Qed.

Lemma path_conservation_witness :
  (path_inv sample_path sample_spaces /\ sending_queue sample_path = [sample_scheduled] /\
   sendable (meta_info sample_scheduled) sample_path sample_spaces) /\
  exists p' s' info, NetworkPath.send_one (Some 5) sample_spaces sample_path = Ret (p', s', Some info) /\
    path_inv p' s' /\ if_bytes (np_in_flight p') = 1200.
Proof.
  split; [exact (conj sample_path_inv (conj eq_refl sample_sendable))|].
  destruct (path_conservation 5 sample_path sample_spaces sample_scheduled [] sample_path_inv eq_refl
    sample_sendable) as (p' & s' & info & Hs & Hinv & _ & _ & Hb & _).
  exists p', s', info. split; [exact Hs|]. split; [exact Hinv|exact Hb].
Defined.

(** The round-trip estimator follows its definition and never overflows: the
    latest sample is recorded, the minimum never grows, and the smoothed value
    moves one eighth of the way to the sample, from which the acknowledgement
    delay is taken off only as far as the minimum allows; so the smoothed value
    stays between the minimum and the larger of the old value and the sample. *)
Theorem rtt_update_correct ack_delay sample r : rtt_inv r -> 0 <= ack_delay < RTT_END ->
  0 <= sample < RTT_END ->
  exists r', RttEstimator.update ack_delay sample r = Ret r' /\ rtt_inv r' /\
    latest r' = sample /\ min r' = Z.min (min r) sample /\
    let a := if min r' + ack_delay <? sample then sample - ack_delay else sample in
    exists s', smoothed r' = Some s' /\
      s' = match smoothed r with None => a | Some s => (7 * s + a) / 8 end /\
      min r' <= s' <= Z.max (default sample (smoothed r)) sample /\
      RttEstimator.conservative r' = Z.max s' sample.
Proof.
  intros Hinv Hd Hs. destruct (update_spec ack_delay sample r Hinv Hd Hs)
    as (r' & Hu & Hinv' & Hl & Hm & Hsm). exists r'. split_and!; try done.
  rewrite Hm. fold (adjusted ack_delay sample (Z.min (min r) sample)).
  pose proof (ri_latest _ Hinv) as Hlat.
  pose proof (adjusted_bounds ack_delay sample (Z.min (min r) sample) ltac:(lia) ltac:(lia)) as Ha.
  cbn zeta. set (a := adjusted _ _ _) in *. unfold RttEstimator.conservative, RttEstimator.get.
  destruct (smoothed r) as [s|] eqn:Hsr; destruct Hsm as [Hsm _]; rewrite Hsm; eexists;
    (split; [done|]); (split; [done|]); (split; [|by rewrite Hl]).
  - pose proof (ri_smoothed _ Hinv s Hsr) as Hsb. cbn. split.
    + apply Z.div_le_lower_bound; lia.
    + apply Z.div_le_upper_bound; lia.
  - cbn. lia.
Qed.

Definition sample_rtt : RttEstimator := mkRtt (from_millis 40) (Some (from_millis 48)) 1000 (from_millis 30).

Lemma sample_rtt_inv : rtt_inv sample_rtt.
Proof.
  split; cbn [latest min smoothed var sample_rtt]; [|intros s [= <-]|]; repeat split; vm_compute; done.
Qed.

Lemma rtt_update_correct_witness :
  (rtt_inv sample_rtt /\ 0 <= from_millis 5 < RTT_END /\ 0 <= from_millis 56 < RTT_END) /\
  exists r', RttEstimator.update (from_millis 5) (from_millis 56) sample_rtt = Ret r' /\
    rtt_inv r' /\ latest r' = from_millis 56.
Proof.
  assert (H1 : 0 <= from_millis 5 < RTT_END)
by (split; vm_compute; done).
  assert (H2 : 0 <= from_millis 56 < RTT_END)
by (split; vm_compute; done).
  split; [exact (conj sample_rtt_inv (conj H1 H2))|].
  destruct (rtt_update_correct (from_millis 5) (from_millis 56) sample_rtt sample_rtt_inv H1 H2)
    as (r' & Hu & Hinv & Hl & _).
  exists r'. exact (conj Hu (conj Hinv Hl)).
Defined.

(** The events a congestion controller sees. *)
Inductive reno_event :=
| Acked (sent : Instant) (bytes : Z) (app_limited : bool)
| Lost (now sent : Instant).

Definition reno_apply (e : reno_event) (c : NewReno) : outcome NewReno :=
  match e with
  | Acked sent bytes app_limited => NewReno.on_ack sent bytes app_limited c
  | Lost now sent => Ret (NewReno.on_congestion_event now sent c)
  end.

Fixpoint reno_run (es : list reno_event) (c : NewReno) : outcome NewReno :=
  match es with
  | [] => Ret c
  | e :: es => let! c := reno_apply e c in reno_run es c
  end.

Definition acked_bytes (e : reno_event) : Z :=
  match e with Acked _ bytes _ => Z.max bytes INITIAL_MTU | Lost _ _ => 0 end.

Lemma reno_run_spec es c : reno_inv c ->
  Forall (fun e => match e with Acked _ bytes _ => 0 <= bytes < U16 | Lost _ _ => True end) es ->
  nr_window c + bytes_acked c + 2 * fold_right (fun e n => acked_bytes e + n) 0 es + U16 < U64 ->
  exists c', reno_run es c = Ret c' /\ reno_inv c' /\
    nr_window c' <= nr_window c + fold_right (fun e n => acked_bytes e + n) 0 es.
Proof.
  revert c. induction es as [|e es IH]; intros c Hinv Hes Hmax.
  { exists c. cbn. split_and!; try done. lia. }
  apply Forall_cons in Hes as [He Hes]. cbn [reno_run fold_right] in *.
  assert (Hnn : 0 <= fold_right (fun e n => acked_bytes e + n) 0 es).
  { clear. induction es as [|[]]; cbn in *; unfold INITIAL_MTU in *; lia. }
  set (sum := fold_right _ 0 es) in *.
  assert (Hstep : exists c1, reno_apply e c = Ret c1 /\ reno_inv c1 /\
    nr_window c1 <= nr_window c + acked_bytes e /\
    nr_window c1 + bytes_acked c1 <= nr_window c + bytes_acked c + 2 * acked_bytes e).
  { pose proof (re_window _ Hinv). pose proof (re_acked _ Hinv).
    destruct e as [sent bytes limited|now sent]; cbn [reno_apply acked_bytes] in *.
    - destruct (on_ack_spec sent bytes limited c Hinv He) as (c1 & Hc & Hinv1 & Hw & _).
      { unfold INITIAL_MTU, U16 in *. lia. }
      exists c1. split_and!; try done; [lia|]. revert Hc. unfold NewReno.on_ack.
      destruct limited; [intros [= <-]; unfold INITIAL_MTU in *; lia|].
      destruct (sent <=? recovery_start_time c); [intros [= <-]; unfold INITIAL_MTU in *; lia|].
      unfold u64_add, u64_sub, INITIAL_MTU in *.
      repeat (case_match; cbn [obind]); try done; intros [= <-]; cbn; lia.
    - destruct (on_congestion_event_spec now sent c Hinv) as (Hinv1 & Hold & Hnew).
      eexists. split; [done|]. split; [done|].
      assert (nr_window c / 2 <= nr_window c) by (unfold INITIAL_MTU in *; apply Z.div_le_upper_bound; lia).
      unfold NewReno.on_congestion_event. destruct (_ <=? _); cbn; unfold INITIAL_MTU in *; lia. }
  destruct Hstep as (c1 & -> & Hinv1 & Hw & Hsum). cbn [obind].
  destruct (IH c1 Hinv1 Hes ltac:(lia)) as (c' & Hrun & Hinv' & Hw'). exists c'. split_and!; try done. lia.
Qed.

(** C35: over any sequence of acknowledgements and losses the congestion window
    never falls below two packets and never grows by more than the larger of the
    acknowledged bytes and one packet for each acknowledgement; no arithmetic
    overflows as long as the total stays within a [u64]. *)
Theorem reno_window_bounds now es :
  Forall (fun e => match e with Acked _ bytes _ => 0 <= bytes < U16 | Lost _ _ => True end) es ->
  10 * INITIAL_MTU + 2 * fold_right (fun e n => acked_bytes e + n) 0 es + U16 < U64 ->
  exists c, reno_run es (NewReno.new now) = Ret c /\
    2 * INITIAL_MTU <= NewReno.window c <= 10 * INITIAL_MTU + fold_right (fun e n => acked_bytes e + n) 0 es.
Proof.
  intros Hes Hmax. destruct (reno_run_spec es (NewReno.new now) (reno_inv_new now) Hes) as (c & Hr & Hinv & Hw);
    [cbn in *; lia|]. exists c. split; [done|]. split; [apply Hinv|done].
Qed.

Lemma reno_window_bounds_witness :
  (Forall (fun e => match e with Acked _ bytes _ => 0 <= bytes < U16 | Lost _ _ => True end)
     [Acked 5 1200 false; Lost 9 6; Acked 10 1200 false] /\
   10 * INITIAL_MTU + 2 * fold_right (fun e n => acked_bytes e + n) 0
     [Acked 5 1200 false; Lost 9 6; Acked 10 1200 false] + U16 < U64) /\
  exists c, reno_run [Acked 5 1200 false; Lost 9 6; Acked 10 1200 false] (NewReno.new 0) = Ret c /\
    2 * INITIAL_MTU <= NewReno.window c <= 10 * INITIAL_MTU +
      fold_right (fun e n => acked_bytes e + n) 0 [Acked 5 1200 false; Lost 9 6; Acked 10 1200 false].
Proof.
  match goal with |- (?A /\ ?B) /\ _ =>
    assert (H1 : A) by (repeat constructor; unfold U16; lia); assert (H2 : B) by reflexivity end.
  exact (conj (conj H1 H2) (reno_window_bounds 0 _ H1 H2)).
Defined.

(** A loss halves the congestion window, to no less than two packets, and
    starts a recovery period; a further loss of a packet sent before that period
    began changes nothing, and neither does the acknowledgement of such a packet. *)
Theorem one_reduction_per_recovery c now sent sent' now' bytes app_limited : reno_inv c ->
  recovery_start_time c < sent -> sent' <= now ->
  let c' := NewReno.on_congestion_event now sent c in
  NewReno.window c' = Z.max (NewReno.window c / 2) (2 * INITIAL_MTU) /\
  NewReno.on_congestion_event now' sent' c' = c' /\
  NewReno.on_ack sent' bytes app_limited c' = Ret c'.
Proof.
  intros Hinv Hs Hs' c'. destruct (on_congestion_event_spec now sent c Hinv) as (_ & _ & Hnew).
  destruct (Hnew Hs) as (Hrec & _ & Hw). fold c' in Hrec, Hw. split; [done|]. split.
  - unfold NewReno.on_congestion_event. destruct (Z.leb_spec sent' (recovery_start_time c')); [done|lia].
  - unfold NewReno.on_ack. destruct app_limited; [done|].
    destruct (Z.leb_spec sent' (recovery_start_time c')); [done|lia].
Qed.

Lemma one_reduction_per_recovery_witness :
  (reno_inv (NewReno.new 0) /\ recovery_start_time (NewReno.new 0) < 5 /\ 7 <= 9) /\
  NewReno.window (NewReno.on_congestion_event 9 5 (NewReno.new 0)) =
    Z.max (NewReno.window (NewReno.new 0) / 2) (2 * INITIAL_MTU).
Proof.
  assert (H1 : recovery_start_time (NewReno.new 0) < 5) by (cbn; lia).
  assert (H2 : 7 <= 9) by lia.
  split; [exact (conj (reno_inv_new 0) (conj H1 H2))|].
  exact (proj1 (one_reduction_per_recovery (NewReno.new 0) 9 5 7 20 1200 false (reno_inv_new 0) H1 H2)).
Defined.
