(* ===== verification/Send.v ===== *)
(** * Send: the sending part of a stream ([core/src/connection/stream/send.rs])

    The send buffer, which keeps the data until it is acknowledged and decides
    what to transmit next, and the state machine of a send stream. *)
From S2P Require Import Prelude Buffers Varint Common RangeSet Frame.

(** ** Data *)

(** [send.rs:120-140] *)
Record SendBuffer := mkSendBuffer {
  unacked_segments : list (list Z);
  unacked_len : Z;
  offset : Z;
  unsent : Z;
  acks : RangeSet.t;
  retransmits : RangeSet.t;
}.

Definition SendBuffer_default : SendBuffer := mkSendBuffer [] 0 0 0 ∅ ∅.

(** [send.rs:109-118] *)
Inductive SendState := Ready | DataSent (finish_acked : bool) | ResetSent.
#[export] Instance SendState_eq_dec : EqDecision SendState.
Proof. solve_decision. Defined.

(** [send.rs:11-21] *)
Record Send := mkSend {
  state : SendState;
  pending : SendBuffer;
  priority : Z;
  fin_pending : bool;
  stop_reason : option Z;
}.

Definition Send_default : Send := mkSend Ready SendBuffer_default 0 false None.

(** [send.rs:319-344] *)
Inductive WriteError := WriteBlocked | WriteStopped (code : Z) | WriteClosedStream.

(** [send.rs:346-360] *)
Inductive FinishError := FinishStopped (code : Z) | FinishClosedStream.

(** ** The buffer *)
Module SendBuffer.
(** [send.rs:143-148] *)
Definition write (data : list Z) (b : SendBuffer) : outcome SendBuffer :=
  let! len := u64_add (unacked_len b) (zlen data) in
  let! off := u64_add (offset b) (zlen data) in
  Ret (mkSendBuffer (unacked_segments b ++ [data]) len off (unsent b) (acks b) (retransmits b)).

(** [send.rs:164-180] the loop that drops acknowledged segments: the segments
    left, and the bytes freed *)
Fixpoint drop_acked (acks : RangeSet.t) (base freed : Z) (segs : list (list Z))
    : outcome (list (list Z) * Z) :=
  match segs with
  | [] => Ret ([], freed)
  | seg :: rest =>
      let! seg_start := u64_add base freed in
      let! seg_end := u64_add seg_start (zlen seg) in
      let! covered :=
        if RangeSet.contains acks seg_start then
          let! last := u64_sub seg_end 1 in Ret (RangeSet.contains acks last)
        else Ret false in
      if covered then
        let! freed := u64_add freed (zlen seg) in drop_acked acks base freed rest
      else Ret (segs, freed)
  end.

(** [send.rs:150-187] *)
Definition ack (rng : range) (b : SendBuffer) : outcome SendBuffer :=
  let! '(acks, _) := RangeSet.insert rng (acks b) in
  let! base := u64_sub (offset b) (unacked_len b) in
  let! '(segs, freed) := drop_acked acks base 0 (unacked_segments b) in
  let! len := u64_sub (unacked_len b) freed in
  let! acks :=
    if 0 <? freed then
      let! e := u64_add base freed in
      let! '(acks, _) := RangeSet.remove (Range base e) acks in Ret acks
    else Ret acks in
  Ret (mkSendBuffer segs len (offset b) (unsent b) acks (retransmits b)).

(** [send.rs:189-260] *)
Definition poll_transmit (max_len : Z) (b : SendBuffer) : outcome (SendBuffer * range * bool) :=
  let! _ := assert (8 + 8 <=? max_len) in
  match RangeSet.pop_min (retransmits b) with
  | (rest, Some r) =>
      let! max_len :=
        if negb (rstart r =? 0) then let! n := varint_len (rstart r) in u64_sub max_len n
        else Ret max_len in
      let! data_len := u64_sub (rend r) (rstart r) in
      let! '(max_len, encode_length) :=
        if data_len <? max_len then let! m := u64_sub max_len 8 in Ret (m, true)
        else Ret (max_len, false) in
      let! limit := u64_add (rstart r) max_len in
      let e := Z.min (rend r) limit in
      let! rest :=
        if e <? rend r then let! '(s, _) := RangeSet.insert (Range e (rend r)) rest in Ret s
        else Ret rest in
      Ret (mkSendBuffer (unacked_segments b) (unacked_len b) (offset b) (unsent b) (acks b) rest,
           Range (rstart r) e, encode_length)
  | (_, None) =>
      let! max_len :=
        if negb (unsent b =? 0) then let! n := varint_len (unsent b) in u64_sub max_len n
        else Ret max_len in
      let! left := u64_sub (offset b) (unsent b) in
      let! '(max_len, encode_length) :=
        if left <? max_len then let! m := u64_sub max_len 8 in Ret (m, true)
        else Ret (max_len, false) in
      let e := Z.min (offset b) (saturating_add max_len (unsent b)) in
      Ret (mkSendBuffer (unacked_segments b) (unacked_len b) (offset b) e (acks b) (retransmits b),
           Range (unsent b) e, encode_length)
  end.

(** [send.rs:277-290] the walk over the segments, from position [pos] *)
Fixpoint get_loop (start e pos : Z) (segs : list (list Z)) : outcome (list Z) :=
  match segs with
  | [] => Ret []
  | seg :: rest =>
      let! seg_end := u64_add pos (zlen seg) in
      if start <? seg_end then
        let! seg_start := u64_sub start pos in
        let! len := u64_sub e start in
        let! left := u64_sub (zlen seg) seg_start in
        let seg_len := Z.min len left in
        Ret (take (Z.to_nat seg_len) (drop (Z.to_nat seg_start) seg))
      else get_loop start e seg_end rest
  end.

(** [send.rs:262-291] *)
Definition get (offsets : range) (b : SendBuffer) : outcome (list Z) :=
  let! base := u64_sub (offset b) (unacked_len b) in
  let! start := u64_sub (rstart offsets) base in
  let! e := u64_sub (rend offsets) base in
  get_loop start e 0 (unacked_segments b).

(** [send.rs:293-298] *)
Definition retransmit (rng : range) (b : SendBuffer) : outcome SendBuffer :=
  let! _ := assert (rend rng <=? unsent b) in
  let! '(s, _) := RangeSet.insert rng (retransmits b) in
  Ret (mkSendBuffer (unacked_segments b) (unacked_len b) (offset b) (unsent b) (acks b) s).

(** [send.rs:306-309] *)
Definition is_fully_acked (b : SendBuffer) : bool := unacked_len b =? 0.

(** [send.rs:311-316] *)
Definition has_unsent_data (b : SendBuffer) : bool :=
  negb (unsent b =? offset b) || negb (RangeSet.is_empty (retransmits b)).
End SendBuffer.

(** ** The stream *)
Module Send.
Definition with_pending (b : SendBuffer) (s : Send) : Send :=
  mkSend (state s) b (priority s) (fin_pending s) (stop_reason s).

(** [send.rs:24-27] *)
Definition is_reset (s : Send) : bool := match state s with ResetSent => true | _ => false end.

(** [send.rs:104-106] *)
Definition is_writable (s : Send) : bool := match state s with Ready => true | _ => false end.

(** [send.rs:29-42] *)
Definition finish (s : Send) : Send * result unit FinishError :=
  match stop_reason s with
  | Some error_code => (s, Err (FinishStopped error_code))
  | None =>
      if decide (state s = Ready) then
        (mkSend (DataSent false) (pending s) (priority s) true (stop_reason s), Ok tt)
      else (s, Err FinishClosedStream)
  end.

(** [send.rs:44-56] *)
Definition write (data : list Z) (s : Send) : outcome (Send * result unit WriteError) :=
  if negb (is_writable s) then Ret (s, Err WriteClosedStream)
  else
    match stop_reason s with
    | Some error_code => Ret (s, Err (WriteStopped error_code))
    | None => let! b := SendBuffer.write data (pending s) in Ret (with_pending b s, Ok tt)
    end.

(** [send.rs:58-64] *)
Definition reset (s : Send) : Send :=
  match state s with
  | DataSent _ | Ready => mkSend ResetSent (pending s) (priority s) (fin_pending s) (stop_reason s)
  | ResetSent => s
  end.

(** [send.rs:66-77] *)
Definition try_stop (error_code : Z) (s : Send) : Send * bool :=
  match stop_reason s with
  | None => (mkSend (state s) (pending s) (priority s) (fin_pending s) (Some error_code), true)
  | Some _ => (s, false)
  end.

(** [send.rs:79-94] *)
Definition ack (frame : StreamMeta) (s : Send) : outcome (Send * bool) :=
  let! b := SendBuffer.ack (sm_offsets frame) (pending s) in
  match state s with
  | DataSent finish_acked =>
      let finish_acked := finish_acked || sm_fin frame in
      Ret (mkSend (DataSent finish_acked) b (priority s) (fin_pending s) (stop_reason s),
           finish_acked && SendBuffer.is_fully_acked b)
  | _ => Ret (with_pending b s, false)
  end.

(** [send.rs:96-98], [send.rs:100-102] *)
Definition stream_offset (s : Send) : Z := offset (pending s).
Definition is_pending (s : Send) : bool := SendBuffer.has_unsent_data (pending s) || fin_pending s.
End Send.

(** ** The invariant of the buffer *)

(** The bytes that are buffered, and the stream offset of the first one. *)
Definition buffered (b : SendBuffer) : list Z := concat (unacked_segments b).
Definition base (b : SendBuffer) : Z := offset b - unacked_len b.

(** Offsets that are to be transmitted: lost, or not sent yet. *)
Definition to_send (b : SendBuffer) (y : Z) : Prop :=
  RangeSet.elem y (retransmits b) \/ unsent b <= y < offset b.

Record send_inv (b : SendBuffer) : Prop := {
  sb_len : unacked_len b = zlen (buffered b);
  sb_offset : 0 <= base b /\ unsent b <= offset b <= VARINT_MAX;
  sb_unsent : 0 <= unsent b;
  sb_segments : forall seg, seg ∈ unacked_segments b -> seg <> [];
  sb_acks : RangeSet.wf (acks b);
  sb_retransmits : RangeSet.wf (retransmits b);
  sb_lost : forall y, RangeSet.elem y (retransmits b) -> y < unsent b;
}.

Lemma send_inv_default : send_inv SendBuffer_default.
Proof.
  split; cbn; try done; try apply RangeSet.wf_empty; try set_solver.
  intros y (a & e & Ha & _). by simplify_map_eq.
Qed.

Lemma zlen_concat_app (l : list (list Z)) x : zlen (concat (l ++ [x])) = zlen (concat l) + zlen x.
Proof. rewrite concat_app, zlen_app. cbn. by rewrite app_nil_r. Qed.

Lemma write_spec data b : send_inv b -> data <> [] -> offset b + zlen data <= VARINT_MAX ->
  exists b', SendBuffer.write data b = Ret b' /\ send_inv b' /\ base b' = base b /\
    buffered b' = buffered b ++ data /\ offset b' = offset b + zlen data /\
    unsent b' = unsent b /\ retransmits b' = retransmits b /\ acks b' = acks b.
Proof.
  intros [Hl [Hb Ho] Hu Hs Ha Hr Hlost] Hne Hmax. pose proof (zlen_nonneg data).
  pose proof (zlen_nonneg (buffered b)). unfold base in Hb.
  unfold SendBuffer.write. rewrite u64_add_ok by varint_lia. cbn [obind].
  rewrite u64_add_ok by varint_lia. cbn [obind]. eexists. split; [done|].
  assert (Hcat : concat (unacked_segments b ++ [data]) = buffered b ++ data).
  { unfold buffered. rewrite concat_app. cbn. by rewrite app_nil_r. }
  split; [|unfold buffered, base; cbn; split_and!; try done; lia].
  split; unfold base, buffered; cbn; try done.
  - rewrite zlen_concat_app. unfold buffered in Hl. lia.
  - lia.
  - intros seg Hin. apply elem_of_app in Hin as [Hin|Hin]; [by apply Hs|].
    by apply list_elem_of_singleton in Hin as ->.
Qed.

(** ** Choosing what to transmit *)

(** The bytes of the metadata that [poll_transmit] reserves. *)
Definition reserved (start : Z) (encode_length : bool) : Z :=
  (if start =? 0 then 0 else zlen (varint_bytes start)) + (if encode_length then 8 else 0).

Lemma reserved_nonneg start enc : 0 <= reserved start enc.
Proof.
  unfold reserved. pose proof (zlen_nonneg (varint_bytes start)). destruct (start =? 0), enc; lia.
Qed.

Lemma offset_cost start max_len : 0 <= start <= VARINT_MAX -> 8 <= max_len ->
  (if negb (start =? 0) then let! n := varint_len start in u64_sub max_len n else Ret max_len) =
  Ret (max_len - reserved start false) /\ 0 <= reserved start false <= 8.
Proof.
  intros Hs Hm. unfold reserved. pose proof (varint_bytes_length start Hs).
  destruct (Z.eqb_spec start 0); cbn [negb]; [split; [f_equal; lia|lia]|].
  rewrite varint_len_bytes by done. cbn [obind]. rewrite u64_sub_ok by lia. split; [f_equal; lia|lia].
Qed.

Lemma length_cost len max_len : 8 <= max_len ->
  exists enc : bool, (if len <? max_len then let! m := u64_sub max_len 8 in Ret (m, true) else Ret (max_len, false)) =
    Ret (max_len - (if enc then 8 else 0), enc) /\ (enc = true <-> len < max_len).
Proof.
  intros Hm. destruct (Z.ltb_spec len max_len).
  - exists true. rewrite u64_sub_ok by lia. done.
  - exists false. rewrite Z.sub_0_r. split; [done|]. split; [done|lia].
Qed.

(** What a call with room for [max_len] bytes may do: it takes a range out of
    the offsets to send, the range and its metadata fit, and with more than
    the 16 bytes of metadata it makes progress. *)
Record transmitted (max_len : Z) (b b' : SendBuffer) (r : range) (enc : bool) : Prop := {
  tr_data : buffered b' = buffered b /\ offset b' = offset b /\ base b' = base b /\ acks b' = acks b;
  tr_range : 0 <= rstart r <= rend r /\ rend r <= unsent b';
  tr_fits : rend r - rstart r + reserved (rstart r) enc <= max_len;
  tr_once : forall y, in_range y r -> to_send b y /\ ~ to_send b' y;
  tr_rest : forall y, to_send b y <-> to_send b' y \/ in_range y r;
  tr_progress : 16 < max_len -> SendBuffer.has_unsent_data b = true -> rstart r < rend r;
}.

(** The bytes left for data once the metadata is reserved. *)
Lemma room_spec start left max_len : 0 <= start <= VARINT_MAX -> 16 <= max_len ->
  exists enc : bool, let m := max_len - reserved start enc in
    0 <= m /\ (16 < max_len -> 0 < left -> 0 < m) /\
    reserved start enc = reserved start false + (if enc then 8 else 0) /\
    (if negb (start =? 0) then let! n := varint_len start in u64_sub max_len n else Ret max_len) =
      Ret (max_len - reserved start false) /\
    (if left <? max_len - reserved start false
     then let! m := u64_sub (max_len - reserved start false) 8 in Ret (m, true)
     else Ret (max_len - reserved start false, false)) = Ret (m, enc).
Proof.
  intros Hs Hm. destruct (offset_cost start max_len Hs ltac:(lia)) as [-> Hres].
  destruct (length_cost left (max_len - reserved start false) ltac:(lia)) as (enc & -> & Henc).
  exists enc. cbv zeta.
  assert (reserved start enc = reserved start false + (if enc then 8 else 0)) as ->
    by (unfold reserved; destruct (start =? 0); lia).
  split_and!; try done; try (destruct enc; lia). f_equal. f_equal. lia.
Qed.

(** Putting back what did not fit. *)
Lemma put_back_spec e stop s : RangeSet.wf s -> 0 <= e -> stop <= U64_MAX ->
  exists s', (if e <? stop then let! '(s, _) := RangeSet.insert (Range e stop) s in Ret s else Ret s) = Ret s' /\
    RangeSet.wf s' /\ forall y, RangeSet.elem y s' <-> RangeSet.elem y s \/ in_range y (Range e stop).
Proof.
  intros Hwf He Hmax. destruct (Z.ltb_spec e stop).
  - destruct (RangeSet.btree_insert_spec (Range e stop) s Hwf) as (s' & x & -> & Hw & Hel & _); eauto.
  - exists s. split; [done|]. split; [done|]. intros y. unfold in_range; cbn. intuition lia.
Qed.

(** A lost range was sent. *)
Lemma pop_min_bounds b rest r : send_inv b -> RangeSet.pop_min (retransmits b) = (rest, Some r) ->
  0 <= rstart r < rend r /\ rend r <= unsent b.
Proof.
  intros [_ _ _ _ _ Hr Hlost] Heq. pose proof (RangeSet.btree_pop_min_spec (retransmits b) Hr) as Hpop.
  rewrite Heq in Hpop. destruct Hpop as (Hget & _ & _ & Hel & _). pose proof (RangeSet.wf_bounds _ Hr _ _ Hget).
  assert (rend r - 1 < unsent b); [|lia]. apply Hlost, Hel. right. unfold in_range. lia.
Qed.

Lemma poll_transmit_lost max_len b rest r : send_inv b -> 16 <= max_len <= VARINT_MAX ->
  RangeSet.pop_min (retransmits b) = (rest, Some r) ->
  exists b' r' enc, SendBuffer.poll_transmit max_len b = Ret (b', r', enc) /\ send_inv b' /\
    transmitted max_len b b' r' enc.
Proof.
  intros Hi Hm Heq. destruct (pop_min_bounds _ _ _ Hi Heq) as [Hrb Hend].
  destruct Hi as [Hl [Hb Ho] Hu Hs Ha Hr Hlost].
  pose proof (RangeSet.btree_pop_min_spec (retransmits b) Hr) as Hpop. rewrite Heq in Hpop.
  destruct Hpop as (Hget & _ & Hwf' & Hel & Habove).
  destruct (room_spec (rstart r) (rend r - rstart r) max_len) as (enc & Hm0 & Hprog & Hre & Ho1 & Ho2); [lia..|].
  cbv zeta in Ho2. set (m := max_len - reserved (rstart r) enc) in *.
  pose proof (reserved_nonneg (rstart r) enc).
  set (e := Z.min (rend r) (rstart r + m)).
  destruct (put_back_spec e (rend r) rest Hwf') as (rest' & Hput & Hw' & He'); [lia|varint_lia|].
  exists (mkSendBuffer (unacked_segments b) (unacked_len b) (offset b) (unsent b) (acks b) rest'),
    (Range (rstart r) e), enc. split.
  { unfold SendBuffer.poll_transmit, assert. destruct (Z.leb_spec (8 + 8) max_len); [|lia]. cbn [obind].
    rewrite Heq, Ho1. cbn [obind]. rewrite u64_sub_ok by lia. cbn [obind]. rewrite Ho2. cbn [obind].
    rewrite u64_add_ok by varint_lia. cbn [obind]. fold e. by rewrite Hput. }
  assert (forall y, RangeSet.elem y rest' -> y < unsent b).
  { intros y [Hy|Hy]%He'; [apply Hlost, Hel; by left|unfold in_range in Hy; cbn in Hy; lia]. }
  split; [by split|]. split; cbn; try done; try lia; unfold to_send, in_range; cbn.
  - intros y Hy. split; [left; apply Hel; right; unfold in_range; lia|].
    intros [[Hy'|Hy']%He'|?]; [apply Habove in Hy'; lia| |lia]. unfold in_range in Hy'; cbn in Hy'. lia.
  - intros y. rewrite He', Hel. unfold in_range; cbn. intuition lia.
Qed.

Lemma poll_transmit_new max_len b rest : send_inv b -> 16 <= max_len <= VARINT_MAX ->
  RangeSet.pop_min (retransmits b) = (rest, None) ->
  exists b' r' enc, SendBuffer.poll_transmit max_len b = Ret (b', r', enc) /\ send_inv b' /\
    transmitted max_len b b' r' enc.
Proof.
  intros [Hl [Hb Ho] Hu Hs Ha Hr Hlost] Hm Heq.
  pose proof (RangeSet.btree_pop_min_spec (retransmits b) Hr) as Hpop. rewrite Heq in Hpop.
  destruct Hpop as [Hempty _].
  assert (Hnone : forall y, ~ RangeSet.elem y (retransmits b)).
  { intros y (a & c & Hac & _). rewrite Hempty in Hac. by simplify_map_eq. }
  destruct (room_spec (unsent b) (offset b - unsent b) max_len) as (enc & Hm0 & Hprog & Hre & Ho1 & Ho2); [lia..|].
  cbv zeta in Ho2. set (m := max_len - reserved (unsent b) enc) in *.
  pose proof (reserved_nonneg (unsent b) enc).
  set (e := Z.min (offset b) (m + unsent b)).
  exists (mkSendBuffer (unacked_segments b) (unacked_len b) (offset b) e (acks b) (retransmits b)),
    (Range (unsent b) e), enc. split.
  { unfold SendBuffer.poll_transmit, assert. destruct (Z.leb_spec (8 + 8) max_len); [|lia]. cbn [obind].
    rewrite Heq, Ho1. cbn [obind]. rewrite u64_sub_ok by lia. cbn [obind]. rewrite Ho2. cbn [obind].
    replace (saturating_add m (unsent b)) with (m + unsent b) by (unfold saturating_add; varint_lia). done. }
  split; [split; unfold base in *; cbn in *; try done; try lia; by intros y Hy%Hnone|].
  split; cbn; try done; try lia; unfold to_send, in_range; cbn.
  - intros y Hy. split; [right; lia|]. intros [Hy'%Hnone|?]; [done|lia].
  - intros y. split; [intros [Hy%Hnone|?]; [done|lia]|intros [[Hy%Hnone|?]|?]; [done|lia|lia]].
  - intros Hgt Hhas. unfold SendBuffer.has_unsent_data in Hhas.
    apply orb_true_iff in Hhas as [Hne|Hne]; apply negb_true_iff in Hne.
    + apply Z.eqb_neq in Hne. lia.
    + assert (RangeSet.is_empty (retransmits b) = true) by (by apply RangeSet.is_empty_spec). congruence.
Qed.

(** Without lost ranges the choice is a formula. *)
Lemma poll_transmit_eq max_len b : send_inv b -> 16 <= max_len <= VARINT_MAX -> retransmits b = ∅ ->
  let room := max_len - reserved (unsent b) false in
  let enc := offset b - unsent b <? room in
  let e := Z.min (offset b) (unsent b + (if enc then room - 8 else room)) in
  SendBuffer.poll_transmit max_len b =
    Ret (mkSendBuffer (unacked_segments b) (unacked_len b) (offset b) e (acks b) (retransmits b),
         Range (unsent b) e, enc).
Proof.
  intros [Hl [Hb Ho] Hu Hs Ha Hr Hlost] Hm Hnone. cbv zeta.
  assert (Hpop : RangeSet.pop_min (retransmits b) = (retransmits b, None)) by (by rewrite Hnone).
  destruct (offset_cost (unsent b) max_len ltac:(lia) ltac:(lia)) as [Hcost Hres].
  unfold SendBuffer.poll_transmit, assert. destruct (Z.leb_spec (8 + 8) max_len); [|lia]. cbn [obind].
  rewrite Hpop, Hcost. cbn [obind]. rewrite u64_sub_ok by lia. cbn [obind].
  destruct (Z.ltb_spec (offset b - unsent b) (max_len - reserved (unsent b) false)).
  - rewrite u64_sub_ok by lia. cbn [obind]. unfold saturating_add. rewrite (Z.min_r U64_MAX) by varint_lia.
    by rewrite (Z.add_comm (unsent b)).
  - cbn [obind]. unfold saturating_add. rewrite (Z.min_r U64_MAX) by varint_lia.
    by rewrite (Z.add_comm (unsent b)).
Qed.

Lemma poll_transmit_spec max_len b : send_inv b -> 16 <= max_len <= VARINT_MAX ->
  exists b' r enc, SendBuffer.poll_transmit max_len b = Ret (b', r, enc) /\ send_inv b' /\
    transmitted max_len b b' r enc.
Proof.
  intros Hi Hm. destruct (RangeSet.pop_min (retransmits b)) as [rest [r|]] eqn:Heq;
    eauto using poll_transmit_lost, poll_transmit_new.
Qed.

(** *** Draining the buffer *)

(** [to_send] as a boolean, and the number of offsets to send. *)
Definition to_send_b (b : SendBuffer) (y : Z) : bool :=
  RangeSet.contains (retransmits b) y || ((unsent b <=? y) && (y <? offset b)).
Definition outstanding (b : SendBuffer) : nat :=
  length (List.filter (to_send_b b) (seqZ 0 (offset b))).

Lemma to_send_b_spec b y : send_inv b -> to_send_b b y = true <-> to_send b y.
Proof.
  intros Hi. unfold to_send_b, to_send.
  rewrite orb_true_iff, RangeSet.btree_contains_spec by apply Hi. intuition lia.
Qed.

Lemma to_send_bounds b y : send_inv b -> to_send b y -> 0 <= y < offset b.
Proof.
  intros [_ [_ Ho] Hu _ _ Hr Hlost] [Hy|?]; [|lia]. pose proof (Hlost _ Hy).
  destruct Hy as (a & c & Hac & Hin). pose proof (RangeSet.wf_bounds _ Hr _ _ Hac).
  unfold in_range in Hin; cbn in Hin. lia.
Qed.

Lemma has_unsent_data_spec b : send_inv b ->
  SendBuffer.has_unsent_data b = true <-> exists y, to_send b y.
Proof.
  intros Hi. unfold SendBuffer.has_unsent_data, to_send.
  rewrite orb_true_iff, !negb_true_iff, Z.eqb_neq.
  pose proof (sb_offset b Hi). split.
  - intros [?|Hr]; [exists (unsent b); lia|].
    assert (retransmits b <> ∅) as Hne by (intros ?%RangeSet.is_empty_spec; congruence).
    apply map_choose in Hne as (a & c & Hac).
    pose proof (RangeSet.wf_bounds _ (sb_retransmits b Hi) _ _ Hac).
    exists a. left. exists a, c. unfold in_range; cbn. split; [done|lia].
  - intros (y & [(a & c & Hac & _)|?]); [right|left; lia].
    apply not_true_is_false. intros He%RangeSet.is_empty_spec. rewrite He in Hac. by simplify_map_eq.
Qed.

Lemma filter_length_lt {A} (p q : A -> bool) l x : (forall y, q y = true -> p y = true) ->
  x ∈ l -> p x = true -> q x = false ->
  (length (List.filter q l) < length (List.filter p l))%nat.
Proof.
  intros Hqp Hx Hp Hq. assert (Hle : forall k, (length (List.filter q k) <= length (List.filter p k))%nat).
  { induction k as [|z k IH]; cbn; [done|]. specialize (Hqp z). destruct (q z), (p z); cbn; try lia;
      by specialize (Hqp eq_refl). }
  induction Hx as [x k|x z k Hx IH]; cbn.
  - rewrite Hp, Hq. cbn. specialize (Hle k). lia.
  - specialize (IH Hp Hq). specialize (Hqp z).
    destruct (q z), (p z); cbn; try lia; by specialize (Hqp eq_refl).
Qed.

Lemma outstanding_decreases max_len b b' r enc : send_inv b -> send_inv b' ->
  transmitted max_len b b' r enc -> 16 < max_len ->
  SendBuffer.has_unsent_data b = true -> (outstanding b' < outstanding b)%nat.
Proof.
  intros Hi Hi' [(_ & Hoff & _) Hr _ Honce Hrest Hprog] Hm Hhas. specialize (Hprog Hm Hhas).
  unfold outstanding. rewrite Hoff.
  destruct (Honce (rstart r)) as [Hin Hout]; [unfold in_range; lia|].
  apply filter_length_lt with (x := rstart r).
  - intros y. rewrite !to_send_b_spec by done. intros. apply Hrest. by left.
  - apply elem_of_seqZ. pose proof (to_send_bounds b (rstart r) Hi Hin). lia.
  - by apply to_send_b_spec.
  - apply not_true_is_false. by rewrite to_send_b_spec.
Qed.

Lemma outstanding_le b : send_inv b -> Z.of_nat (outstanding b) <= offset b.
Proof.
  intros Hi. pose proof (sb_offset b Hi). pose proof (sb_unsent b Hi). unfold outstanding.
  pose proof (List.filter_length_le (to_send_b b) (seqZ 0 (offset b))) as Hle.
  rewrite length_seqZ in Hle. lia.
Qed.

(** Successive calls, each with its own room. *)
Fixpoint transmit_loop (rooms : list Z) (b : SendBuffer) : outcome (SendBuffer * list range) :=
  match rooms with
  | [] => Ret (b, [])
  | max_len :: rooms =>
      let! '(b, r, _) := SendBuffer.poll_transmit max_len b in
      let! '(b, rs) := transmit_loop rooms b in Ret (b, r :: rs)
  end.

Lemma transmit_loop_spec rooms b : send_inv b -> Forall (fun m => 16 < m <= VARINT_MAX) rooms ->
  exists b' rs, transmit_loop rooms b = Ret (b', rs) /\ send_inv b' /\
    buffered b' = buffered b /\ base b' = base b /\ offset b' = offset b /\
    (forall y, to_send b y <-> to_send b' y \/ exists r, r ∈ rs /\ in_range y r) /\
    (forall y r, r ∈ rs -> in_range y r -> to_send b y /\ ~ to_send b' y) /\
    (forall i j ri rj y, rs !! i = Some ri -> rs !! j = Some rj ->
      in_range y ri -> in_range y rj -> i = j) /\
    ((outstanding b <= length rooms)%nat -> SendBuffer.has_unsent_data b' = false).
Proof.
  intros Hi Hrooms. revert b Hi. induction Hrooms as [|m rooms Hm _ IH]; intros b Hi; cbn.
  - exists b, []. split_and!; try done; [set_solver..|]. intros Hle. apply not_true_is_false.
    intros (y & Hy)%has_unsent_data_spec; [|done].
    assert (y ∈ List.filter (to_send_b b) (seqZ 0 (offset b))) as Hin; [|
      unfold outstanding in Hle; by destruct (List.filter _ _); [apply elem_of_nil in Hin|cbn in Hle; lia]].
    apply list_elem_of_In, filter_In. rewrite <- list_elem_of_In, elem_of_seqZ, to_send_b_spec by done.
    pose proof (to_send_bounds b y Hi Hy). split; [lia|done].
  - destruct (poll_transmit_spec m b Hi) as (b1 & r & enc & -> & Hi1 & Htr); [lia|]. cbn [obind].
    pose proof Htr as [(Hd & Ho & Hba & _) _ _ Honce Hrest _].
    destruct (IH b1 Hi1) as (b' & rs & -> & Hi' & Hd' & Hba' & Ho' & Hall & Hsub & Hdis & Hend). cbn [obind].
    exists b', (r :: rs). split_and!; try done; try congruence.
    + intros y. rewrite Hrest, Hall. set_solver.
    + intros y r' [->|Hin]%elem_of_cons Hy.
      * destruct (Honce y Hy) as [? Hn]. split; [done|]. intros ?. apply Hn, Hall. by left.
      * destruct (Hsub y r' Hin Hy). split; [apply Hrest; by left|done].
    + intros [|i] [|j] ri rj y Hri Hrj Hyi Hyj; cbn in *; simplify_eq; [done| | |f_equal; eauto].
      * apply list_elem_of_lookup_2 in Hrj. by destruct (Honce y Hyi), (Hsub y rj Hrj Hyj).
      * apply list_elem_of_lookup_2 in Hri. by destruct (Honce y Hyj), (Hsub y ri Hri Hyi).
    + intros Hle. apply Hend. destruct (SendBuffer.has_unsent_data b) eqn:Hhas.
      * pose proof (outstanding_decreases m b b1 r enc Hi Hi1 Htr ltac:(lia) Hhas). lia.
      * assert (outstanding b1 = 0%nat) as ->; [|lia].
        apply length_zero_iff_nil. destruct (List.filter _ _) as [|y l] eqn:Hf; [done|].
        assert (In y (List.filter (to_send_b b1) (seqZ 0 (offset b1)))) as Hin by (rewrite Hf; by left).
        apply filter_In in Hin as [_ Hy%to_send_b_spec]; [|done].
        assert (exists y, to_send b y) as Hex%has_unsent_data_spec by (exists y; apply Hrest; by left); [congruence|done].
Qed.

(** *** Reading the data of a range *)

(** The buffered bytes of a range of stream offsets. *)
Definition stream_slice (b : SendBuffer) (r : range) : list Z :=
  take (Z.to_nat (rend r - rstart r)) (drop (Z.to_nat (rstart r - base b)) (buffered b)).

Lemma stream_slice_ext b b' r : unacked_segments b' = unacked_segments b -> base b' = base b ->
  stream_slice b' r = stream_slice b r.
Proof. intros E1 E2. unfold stream_slice, buffered. by rewrite E1, E2. Qed.

(** Without a length the range and its offset take all of the room. *)
Lemma poll_transmit_full max_len b b' r : send_inv b -> 16 <= max_len <= VARINT_MAX ->
  SendBuffer.poll_transmit max_len b = Ret (b', r, false) -> rend r - rstart r + reserved (rstart r) false = max_len.
Proof.
  intros Hi Hm. pose proof Hi as [_ [_ Ho] Hu _ _ Hwf Hlost]. unfold SendBuffer.poll_transmit, assert.
  destruct (Z.leb_spec (8 + 8) max_len); [|lia]. cbn [obind].
  destruct (RangeSet.pop_min (retransmits b)) as [rest [x|]] eqn:Hpop.
  - destruct (pop_min_bounds b rest x Hi Hpop) as [Hx1 Hx2].
    destruct (room_spec (rstart x) (rend x - rstart x) max_len) as (enc & Hm0 & _ & _ & -> & Henc); [lia|lia|].
    cbn [obind]. rewrite u64_sub_ok by lia. cbn [obind]. rewrite Henc. cbn [obind].
    intros Ha. apply obind_ret in Ha as (limit & Hl & Ha). apply u64_add_ret in Hl as [-> _].
    apply obind_ret in Ha as (rest' & _ & Ha). simplify_eq. cbn [rstart rend].
    destruct (Z.ltb_spec (rend x - rstart x) (max_len - reserved (rstart x) false)) as [Hlt|Hge]; [|lia].
    apply obind_ret in Henc as (m & _ & Henc). by injection Henc as _ Henc.
  - destruct (room_spec (unsent b) (offset b - unsent b) max_len) as (enc & Hm0 & _ & _ & -> & Henc); [lia|lia|].
    cbn [obind]. rewrite u64_sub_ok by lia. cbn [obind]. rewrite Henc. cbn [obind].
    intros Ha. simplify_eq. cbn [rstart rend].
    destruct (Z.ltb_spec (offset b - unsent b) (max_len - reserved (unsent b) false)) as [Hlt|Hge].
    + apply obind_ret in Henc as (m & _ & Henc). by injection Henc as _ Henc.
    + unfold saturating_add. varint_lia.
Qed.

Lemma poll_transmit_segments max_len b b' r enc : SendBuffer.poll_transmit max_len b = Ret (b', r, enc) ->
  unacked_segments b' = unacked_segments b.
Proof.
  unfold SendBuffer.poll_transmit. intros Ha. apply obind_ret in Ha as (_ & _ & Ha).
  destruct (RangeSet.pop_min (retransmits b)) as [rest [x|]].
  - apply obind_ret in Ha as (m & _ & Ha). apply obind_ret in Ha as (len & _ & Ha).
    apply obind_ret in Ha as ([m' e] & _ & Ha). apply obind_ret in Ha as (limit & _ & Ha).
    apply obind_ret in Ha as (s & _ & Ha). by simplify_eq.
  - apply obind_ret in Ha as (m & _ & Ha). apply obind_ret in Ha as (len & _ & Ha).
    apply obind_ret in Ha as ([m' e] & _ & Ha). by simplify_eq.
Qed.

Lemma get_loop_spec segs start e pos : 0 <= pos <= start -> start < e <= pos + zlen (concat segs) ->
  pos + zlen (concat segs) < U64 ->
  exists l, SendBuffer.get_loop start e pos segs = Ret l /\ l <> [] /\
    l `prefix_of` take (Z.to_nat (e - start)) (drop (Z.to_nat (start - pos)) (concat segs)) /\
    (forall seg segs', segs = seg :: segs' -> e <= pos + zlen seg -> zlen l = e - start).
Proof.
  revert pos. induction segs as [|seg segs IH]; intros pos Hpos He Hmax; [unfold zlen in He; cbn in He; lia|].
  cbn [concat] in *. rewrite zlen_app in He, Hmax.
  pose proof (zlen_nonneg seg). pose proof (zlen_nonneg (concat segs)). cbn [SendBuffer.get_loop].
  rewrite u64_add_ok by lia. cbn [obind]. destruct (Z.ltb_spec start (pos + zlen seg)).
  - rewrite !u64_sub_ok by lia. cbn [obind]. rewrite u64_sub_ok by lia. cbn [obind].
    set (n := Z.min (e - start) (zlen seg - (start - pos))).
    eexists. split; [done|].
    assert (Hlen : zlen (take (Z.to_nat n) (drop (Z.to_nat (start - pos)) seg)) = n).
    { apply zlen_take. rewrite zlen_drop; lia. }
    split; [intros Hnil; rewrite Hnil, zlen_nil in Hlen; lia|]. split; [|intros ?? [= -> ->] ?; lia].
    rewrite drop_app_le by (unfold zlen in *; lia).
    exists (drop (Z.to_nat n) (take (Z.to_nat (e - start)) (drop (Z.to_nat (start - pos)) seg ++ concat segs))).
    rewrite <- (take_drop (Z.to_nat n) (take (Z.to_nat (e - start)) _)) at 1. f_equal.
    rewrite take_take, Nat.min_l by lia. apply take_app_le.
    rewrite length_drop. unfold zlen in *. lia.
  - destruct (IH (pos + zlen seg)) as (l & Hl & Hne & Hpre & _); [lia..|].
    exists l. split; [done|]. split; [done|]. split; [|intros ?? [= -> ->] ?; lia].
    rewrite drop_app_ge by (unfold zlen in *; lia).
    by replace (Z.to_nat (start - pos) - length seg)%nat with (Z.to_nat (start - (pos + zlen seg)))
      by (unfold zlen in *; lia).
Qed.

Lemma get_spec r b : send_inv b -> base b <= rstart r < rend r -> rend r <= offset b ->
  exists l, SendBuffer.get r b = Ret l /\ l <> [] /\ l `prefix_of` stream_slice b r /\
    (rend r <= base b + zlen (default [] (head (unacked_segments b))) -> l = stream_slice b r).
Proof.
  intros [Hl [Hb Ho] _ _ _ _ _] Hs He. unfold SendBuffer.get, stream_slice, buffered in *.
  unfold base in *. rewrite u64_sub_ok by lia. cbn [obind]. rewrite !u64_sub_ok by lia. cbn [obind].
  set (bs := offset b - unacked_len b) in *.
  destruct (get_loop_spec (unacked_segments b) (rstart r - bs) (rend r - bs) 0) as (l & -> & Hne & Hpre & Hall);
    [lia|lia|varint_lia|].
  exists l. replace (rend r - bs - (rstart r - bs)) with (rend r - rstart r) in Hpre by lia.
  rewrite Z.sub_0_r in Hpre. split_and!; try done. intros Hfirst.
  apply prefix_length_eq; [done|]. destruct (unacked_segments b) as [|seg segs] eqn:Hsegs; cbn in Hfirst.
    { unfold zlen in *; cbn in *; lia. }
  specialize (Hall _ _ eq_refl ltac:(lia)). rewrite length_take. unfold zlen in *. lia.
Qed.

(** What the comment of [get] asks the caller to do: call again from where the
    last call stopped. *)
Fixpoint get_all (fuel : nat) (r : range) (b : SendBuffer) : outcome (list Z) :=
  match fuel with
  | O => Panic
  | S fuel =>
      if range_is_empty r then Ret []
      else
        let! l := SendBuffer.get r b in
        let! rest := get_all fuel (Range (rstart r + zlen l) (rend r)) b in Ret (l ++ rest)
  end.

Lemma stream_slice_length b r : send_inv b -> base b <= rstart r <= rend r -> rend r <= offset b ->
  zlen (stream_slice b r) = rend r - rstart r.
Proof.
  intros [Hl _ _ _ _ _ _] Hs He. unfold stream_slice, base in *.
  pose proof (zlen_drop (rstart r - (offset b - unacked_len b)) (buffered b)).
  rewrite zlen_take; lia.
Qed.

(** A buffer of one write hands out what it is asked for. *)
Lemma get_from_base r b data : SendBuffer.get r b = Ret data -> base b <= rstart r.
Proof.
  unfold SendBuffer.get. intros Hg. apply obind_ret in Hg as (ba & Hba & Hg).
  apply obind_ret in Hg as (st & Hst & _). apply u64_sub_ret in Hba as [-> _]. apply u64_sub_ret in Hst as [_ ?].
  unfold base. lia.
Qed.

Lemma get_one_segment r b data : send_inv b -> (length (unacked_segments b) <= 1)%nat -> rstart r < rend r ->
  rend r <= offset b -> SendBuffer.get r b = Ret data -> data = stream_slice b r /\ zlen data = rend r - rstart r.
Proof.
  intros Hi Hone Hne Hend Hget. pose proof (get_from_base _ _ _ Hget) as Hlo.
  destruct (get_spec r b Hi) as (l & Hl & _ & _ & Hfull); [lia|lia|]. rewrite Hget in Hl. injection Hl as <-.
  rewrite Hfull; [split; [done|apply stream_slice_length; lia || done]|].
  pose proof (sb_len _ Hi) as Hlen. unfold base, buffered in *.
  destruct (unacked_segments b) as [|seg [|? ?]]; cbn in *; [rewrite zlen_nil in *; lia|rewrite app_nil_r in Hlen; lia|lia].
Qed.

Lemma get_all_spec fuel r b : send_inv b -> base b <= rstart r <= rend r -> rend r <= offset b ->
  (Z.to_nat (rend r - rstart r) < fuel)%nat -> get_all fuel r b = Ret (stream_slice b r).
Proof.
  intros Hi. revert r. induction fuel as [|fuel IH]; intros r Hs He Hfuel; [lia|]. cbn [get_all].
  unfold range_is_empty. destruct (Z.ltb_spec (rstart r) (rend r)); cbn [negb].
  - destruct (get_spec r b Hi) as (l & -> & Hne & [k Hk] & _); [lia..|]. cbn [obind].
    pose proof (stream_slice_length b r Hi ltac:(lia) He) as Hlen. rewrite Hk, zlen_app in Hlen.
    pose proof (zlen_nonneg k). assert (0 < zlen l) by (destruct l; [done|rewrite zlen_cons; pose proof (zlen_nonneg l); lia]).
    rewrite IH by (cbn; lia). cbn [obind]. rewrite Hk. do 2 f_equal.
    unfold stream_slice in *; cbn [rstart rend].
    apply (f_equal (drop (length l))) in Hk. rewrite drop_app_length in Hk. rewrite <- Hk.
    rewrite skipn_firstn_comm, drop_drop. unfold zlen in *. f_equal; [lia|]. f_equal. lia.
  - unfold stream_slice. replace (rend r - rstart r) with 0 by lia. done.
Qed.

(** *** Acknowledgements *)

(** The test of [ack] on a segment: its first and its last byte are
    acknowledged. *)
Definition seg_acked (acks : RangeSet.t) (start : Z) (seg : list Z) : Prop :=
  RangeSet.elem start acks /\ RangeSet.elem (start + zlen seg - 1) acks.

Fixpoint segs_acked (acks : RangeSet.t) (start : Z) (segs : list (list Z)) : Prop :=
  match segs with
  | [] => True
  | seg :: segs => seg_acked acks start seg /\ segs_acked acks (start + zlen seg) segs
  end.

Lemma drop_acked_spec acks base freed segs : RangeSet.wf acks -> 0 <= base -> 0 <= freed ->
  base + freed + zlen (concat segs) < U64 -> (forall seg, seg ∈ segs -> seg <> []) ->
  exists dropped kept, SendBuffer.drop_acked acks base freed segs = Ret (kept, freed + zlen (concat dropped)) /\
    segs = dropped ++ kept /\ segs_acked acks (base + freed) dropped /\
    (forall seg rest, kept = seg :: rest -> ~ seg_acked acks (base + freed + zlen (concat dropped)) seg).
Proof.
  intros Hwf Hb. revert freed. induction segs as [|seg segs IH]; intros freed Hf Hmax Hne.
  { exists [], []. cbn. rewrite zlen_nil, Z.add_0_r. split_and!; try done. }
  cbn [concat] in Hmax. rewrite zlen_app in Hmax. pose proof (zlen_nonneg (concat segs)).
  assert (1 <= zlen seg).
  { destruct seg as [|z seg]; [by destruct (Hne []); [left|]|rewrite zlen_cons; pose proof (zlen_nonneg seg); lia]. }
  cbn [SendBuffer.drop_acked]. rewrite u64_add_ok by lia. cbn [obind]. rewrite u64_add_ok by lia. cbn [obind].
  assert (Hcov : exists covered : bool,
    (if RangeSet.contains acks (base + freed) then
       let! last := u64_sub (base + freed + zlen seg) 1 in Ret (RangeSet.contains acks last) else Ret false)
    = Ret covered /\ (covered = true <-> seg_acked acks (base + freed) seg)).
  { unfold seg_acked. pose proof (RangeSet.btree_contains_spec acks (base + freed) Hwf) as Hfst.
    pose proof (RangeSet.btree_contains_spec acks (base + freed + zlen seg - 1) Hwf) as Hlst.
    destruct (RangeSet.contains acks (base + freed)).
    - rewrite u64_sub_ok by lia. cbn. eexists. split; [done|]. tauto.
    - exists false. split; [done|]. intuition congruence. }
  destruct Hcov as (covered & -> & Hcov). cbn [obind]. destruct covered.
  - rewrite u64_add_ok by lia. cbn [obind].
    destruct (IH (freed + zlen seg)) as (dropped & kept & -> & -> & Hd & Hk); [lia|lia|set_solver|].
    exists (seg :: dropped), kept. cbn [concat segs_acked app]. rewrite zlen_app. split; [f_equal; f_equal; lia|].
    split; [done|]. split; [split; [by apply Hcov|by rewrite <- Z.add_assoc]|].
    intros seg' rest Heq. rewrite !Z.add_assoc in *. eauto.
  - exists [], (seg :: segs). cbn. rewrite zlen_nil, !Z.add_0_r. split_and!; try done.
    intros ?? [= <- <-] Hs%Hcov. done.
Qed.

Lemma segs_acked_whole acks start segs : segs_acked acks start segs ->
  (forall pre seg post, segs = pre ++ seg :: post ->
    seg_acked acks (start + zlen (concat pre)) seg ->
    forall y, start + zlen (concat pre) <= y < start + zlen (concat pre) + zlen seg -> RangeSet.elem y acks) ->
  forall y, start <= y < start + zlen (concat segs) -> RangeSet.elem y acks.
Proof.
  revert start. induction segs as [|seg segs IH]; intros start; [intros _ _ y; cbn; rewrite zlen_nil; lia|].
  intros [Hseg Hsegs] Hw y. cbn [concat]. rewrite zlen_app. intros Hy.
  destruct (Z.lt_ge_cases y (start + zlen seg)).
  - apply (Hw [] seg segs); cbn; rewrite ?zlen_nil, ?Z.add_0_r; [done|done|lia].
  - apply (IH (start + zlen seg) Hsegs); [|lia]. intros pre s post -> Hs z Hz.
    apply (Hw (seg :: pre) s post); cbn [concat]; rewrite ?zlen_app, ?Z.add_assoc; done.
Qed.

(** What [ack] of [rng] does: a prefix of the segments goes, those whose end
    points are acknowledged; everything else is kept. *)
Record acked (rng : range) (b b' : SendBuffer) (dropped : list (list Z)) : Prop := {
  ak_segments : unacked_segments b = dropped ++ unacked_segments b';
  ak_base : base b' = base b + zlen (concat dropped);
  ak_rest : offset b' = offset b /\ unsent b' = unsent b /\ retransmits b' = retransmits b;
  ak_acks : forall y, RangeSet.elem y (acks b') <->
    (RangeSet.elem y (acks b) \/ in_range y rng) /\ ~ (base b <= y < base b');
  ak_covered : exists all, RangeSet.wf all /\
    (forall y, RangeSet.elem y all <-> RangeSet.elem y (acks b) \/ in_range y rng) /\
    segs_acked all (base b) dropped /\
    (forall seg rest, unacked_segments b' = seg :: rest -> ~ seg_acked all (base b') seg);
}.

(** The stream may have been opened anew since the range was sent: it need
    not lie below the offset. *)
Lemma ack_any rng b : send_inv b -> 0 <= rstart rng -> rend rng <= U64_MAX ->
  exists b' dropped, SendBuffer.ack rng b = Ret b' /\ send_inv b' /\ acked rng b b' dropped.
Proof.
  intros Hi Hs He. pose proof Hi as [Hl [Hb Ho] Hu Hseg Ha Hr Hlost]. unfold SendBuffer.ack.
  destruct (RangeSet.btree_insert_spec rng (acks b) Ha Hs) as (all & x & -> & Hwf & Hall & _); [varint_lia|].
  cbn [obind]. unfold base in Hb. rewrite u64_sub_ok by lia. cbn [obind]. fold (base b) in *.
  pose proof (zlen_nonneg (buffered b)).
  destruct (drop_acked_spec all (base b) 0 (unacked_segments b)) as (dropped & kept & -> & Hsegs & Hd & Hk);
    [done|lia|lia|unfold base, buffered in *; varint_lia|done|].
  rewrite Z.add_0_r, Z.add_0_l in *. cbn [obind]. unfold buffered in Hl.
  assert (Hcat : zlen (concat (unacked_segments b)) = zlen (concat dropped) + zlen (concat kept))
    by (by rewrite Hsegs, concat_app, zlen_app).
  pose proof (zlen_nonneg (concat kept)). pose proof (zlen_nonneg (concat dropped)).
  rewrite u64_sub_ok by lia. cbn [obind].
  assert (Hrm : exists acks', (if 0 <? zlen (concat dropped) then
      let! e := u64_add (base b) (zlen (concat dropped)) in
      let! '(acks, _) := RangeSet.remove (Range (base b) e) all in Ret acks else Ret all) = Ret acks' /\
    RangeSet.wf acks' /\ forall y, RangeSet.elem y acks' <->
      RangeSet.elem y all /\ ~ (base b <= y < base b + zlen (concat dropped))).
  { destruct (Z.ltb_spec 0 (zlen (concat dropped))); [|exists all; split_and!; try done; intros; intuition lia].
    rewrite u64_add_ok by (unfold base; varint_lia). cbn [obind].
    destruct (RangeSet.btree_remove_spec (Range (base b) (base b + zlen (concat dropped))) all Hwf)
      as (s & z & -> & Hws & Hel & _); [done|unfold base in *; cbn; varint_lia|]. cbn. eauto. }
  destruct Hrm as (acks' & -> & Hwf' & Hel). cbn [obind].
  eexists _, dropped. split; [done|].
  assert (Hbase : base (mkSendBuffer kept (unacked_len b - zlen (concat dropped)) (offset b) (unsent b)
    acks' (retransmits b)) = base b + zlen (concat dropped)) by (unfold base; cbn; lia).
  split.
  - split; rewrite ?Hbase; cbn; try done; try lia.
    intros seg Hin. apply Hseg. rewrite Hsegs. set_solver.
  - split; rewrite ?Hbase; cbn; try done.
    + intros y. by rewrite Hel, Hall.
    + exists all. split_and!; try done.
Qed.

Lemma ack_spec rng b : send_inv b -> 0 <= rstart rng -> rend rng <= offset b ->
  exists b' dropped, SendBuffer.ack rng b = Ret b' /\ send_inv b' /\ acked rng b b' dropped.
Proof. intros Hi Hs He. apply ack_any; [done..|]. destruct (sb_offset _ Hi). varint_lia. Qed.

(** ** Properties of the buffer *)

(** C28: Every byte that waits to be sent is chosen exactly once, whatever room
    each packet has: successive calls of [poll_transmit], each with more than
    the 16 bytes of metadata, never panic and keep the invariant; the ranges
    they return are disjoint and are, with what still waits, exactly the bytes
    that waited; after as many calls as bytes were written nothing waits. *)
Theorem transmit_each_byte_once (rooms : list Z) (b : SendBuffer) :
  send_inv b -> Forall (fun m => 16 < m <= VARINT_MAX) rooms ->
  exists b' rs, transmit_loop rooms b = Ret (b', rs) /\ send_inv b' /\
    buffered b' = buffered b /\ base b' = base b /\
    (forall y, to_send b y <-> to_send b' y \/ exists r, r ∈ rs /\ in_range y r) /\
    (forall y r, r ∈ rs -> in_range y r -> ~ to_send b' y) /\
    (forall i j ri rj y, rs !! i = Some ri -> rs !! j = Some rj ->
      in_range y ri -> in_range y rj -> i = j) /\
    (offset b <= zlen rooms -> SendBuffer.has_unsent_data b' = false).
Proof.
  intros Hi Hrooms.
  destruct (transmit_loop_spec rooms b Hi Hrooms) as (b' & rs & ? & ? & ? & ? & ? & ? & Hsub & Hdis & Hend).
  exists b', rs. split_and!; try done.
  - intros y r Hr Hy. by destruct (Hsub y r Hr Hy).
  - intros Hle. apply Hend. pose proof (outstanding_le b Hi). unfold zlen in Hle. lia.
Qed.

(** A buffer with three segments, the first of which was sent and lost in part. *)
Definition sample_buffer : SendBuffer :=
  mkSendBuffer [[1; 2; 3; 4]; [5; 6]; [7; 8; 9]] 9 11 6 ∅ {[ 3 := 5 ]}.

Lemma sample_buffer_inv : send_inv sample_buffer.
Proof.
  split; cbn; try done; [set_solver| |].
  - split.
    + intros a e [<- <-]%lookup_singleton_Some. by vm_compute.
    + intros a e c d [<- <-]%lookup_singleton_Some [<- <-]%lookup_singleton_Some. lia.
  - intros y (a & e & [<- <-]%lookup_singleton_Some & Hy). unfold in_range in Hy; cbn in Hy. lia.
Qed.

Lemma transmit_each_byte_once_witness :
  exists b' rs, transmit_loop (replicate 11 19) sample_buffer = Ret (b', rs) /\
    (11 <= zlen (replicate 11 19) -> SendBuffer.has_unsent_data b' = false).
Proof.
  destruct (transmit_each_byte_once (replicate 11 19) sample_buffer) as (b' & rs & H & _ & _ & _ & _ & _ & _ & Hend).
  - exact sample_buffer_inv.
  - apply Forall_replicate. unfold VARINT_MAX. vm_compute; intuition congruence.
  - exists b', rs. split; [exact H|exact Hend].
Defined.

(** [get] returns the bytes of the stream: for a non-empty range of
    buffered offsets it does not panic and returns a non-empty prefix of the
    bytes at these offsets, all of them when the range ends within the first
    segment; called again from where it stopped, as its comment asks, it
    delivers exactly the bytes of the range. *)
Theorem get_reads_stream (r : range) (b : SendBuffer) :
  send_inv b -> base b <= rstart r < rend r -> rend r <= offset b ->
  (exists l, SendBuffer.get r b = Ret l /\ l <> [] /\ l `prefix_of` stream_slice b r /\
    (rend r <= base b + zlen (default [] (head (unacked_segments b))) -> l = stream_slice b r)) /\
  get_all (S (Z.to_nat (rend r - rstart r))) r b = Ret (stream_slice b r) /\
  zlen (stream_slice b r) = rend r - rstart r.
Proof.
  intros Hi Hs He. split; [by apply get_spec|].
  split; [apply get_all_spec; [done|lia|done|lia]|apply stream_slice_length; [done|lia|done]].
Qed.

Lemma get_reads_stream_witness :
  get_all 7 (Range 4 10) sample_buffer = Ret [3; 4; 5; 6; 7; 8] /\
  SendBuffer.get (Range 4 10) sample_buffer = Ret [3; 4] /\
  zlen (stream_slice sample_buffer (Range 4 10)) = 6.
Proof.
  destruct (get_reads_stream (Range 4 10) sample_buffer) as (_ & H & H');
    [exact sample_buffer_inv|vm_compute; intuition congruence|vm_compute; congruence|].
  split; [exact H|]. split; [reflexivity|exact H'].
Defined.

(** An acknowledgement of offsets that were written does not panic and
    keeps the invariant: it frees the longest prefix of the segments whose
    first and last bytes are acknowledged, moves the base past them, forgets
    the acknowledgements of freed bytes only, and leaves the other bytes, the
    offsets to send and the first unsent offset alone.  When no segment has
    acknowledged end points and an unacknowledged middle, only acknowledged
    bytes are freed. *)
Theorem ack_frees_prefix (rng : range) (b : SendBuffer) :
  send_inv b -> 0 <= rstart rng -> rend rng <= offset b ->
  exists b' dropped, SendBuffer.ack rng b = Ret b' /\ send_inv b' /\ acked rng b b' dropped /\
    ((forall pre seg post all, unacked_segments b = pre ++ seg :: post ->
       (forall y, RangeSet.elem y all <-> RangeSet.elem y (acks b) \/ in_range y rng) ->
       seg_acked all (base b + zlen (concat pre)) seg ->
       forall y, base b + zlen (concat pre) <= y < base b + zlen (concat pre) + zlen seg -> RangeSet.elem y all) ->
     forall y, base b <= y < base b' -> RangeSet.elem y (acks b) \/ in_range y rng).
Proof.
  intros Hi Hs He. destruct (ack_spec rng b Hi Hs He) as (b' & dropped & ? & ? & Hacked).
  exists b', dropped. split_and!; try done. intros Hw y.
  destruct Hacked as [Hsegs -> _ _ (all & _ & Hall & Hd & _)]. intros Hy. apply Hall.
  apply (segs_acked_whole all (base b) dropped Hd); [|done].
  intros pre seg post -> Ha. apply (Hw pre seg (post ++ unacked_segments b') all); [|done|done].
  by rewrite Hsegs, <- app_assoc.
Qed.

Lemma ack_frees_prefix_witness :
  exists b' dropped, SendBuffer.ack (Range 2 8) sample_buffer = Ret b' /\
    acked (Range 2 8) sample_buffer b' dropped /\ unacked_segments b' = [[7; 8; 9]].
Proof.
  destruct (ack_frees_prefix (Range 2 8) sample_buffer) as (b' & dropped & H & _ & Ha & _);
    [exact sample_buffer_inv|vm_compute; congruence|vm_compute; congruence|].
  exists b', dropped. split; [exact H|]. split; [exact Ha|].
  vm_compute in H. injection H as <-. reflexivity.
Defined.

(** *** One segment acknowledged in pieces *)

Lemma ack_one_segment rng b data : send_inv b -> unacked_segments b = [data] ->
  0 <= rstart rng -> rend rng <= offset b ->
  exists b', SendBuffer.ack rng b = Ret b' /\ send_inv b' /\
    offset b' = offset b /\ unsent b' = unsent b /\ retransmits b' = retransmits b /\
    let sent y := RangeSet.elem y (acks b) \/ in_range y rng in
    ((sent (base b) /\ sent (base b + zlen data - 1) /\ unacked_segments b' = []) \/
     (~ (sent (base b) /\ sent (base b + zlen data - 1)) /\ unacked_segments b' = [data] /\
      base b' = base b /\ forall y, RangeSet.elem y (acks b') <-> sent y)).
Proof.
  intros Hi Hsegs Hs He.
  destruct (ack_spec rng b Hi Hs He) as (b' & d & Hack & Hi' & [Hs' Hb (? & ? & ?) Ha (all & _ & Hall & Hd & Hk)]).
  exists b'. split_and!; try done. cbv zeta. rewrite Hsegs in Hs'. destruct d as [|d ds]; cbn in Hs', Hb.
  - right. rewrite zlen_nil, Z.add_0_r in Hb. specialize (Hk data [] (eq_sym Hs')). rewrite Hb in *.
    unfold seg_acked in Hk. rewrite !Hall in Hk. split_and!; try done. intros y. rewrite Ha. intuition lia.
  - left. injection Hs' as <- Hs'. apply eq_sym, app_eq_nil in Hs' as [-> ->].
    destruct Hd as [[Hfst%Hall Hlst%Hall] _]. done.
Qed.

Lemma retransmit_spec rng b : send_inv b -> 0 <= rstart rng -> rend rng <= unsent b ->
  exists b', SendBuffer.retransmit rng b = Ret b' /\ send_inv b' /\
    unacked_segments b' = unacked_segments b /\ unacked_len b' = unacked_len b /\
    offset b' = offset b /\ unsent b' = unsent b /\ acks b' = acks b /\
    (forall y, to_send b' y <-> to_send b y \/ in_range y rng).
Proof.
  intros [Hl [Hb Ho] Hu Hseg Ha Hr Hlost] Hs He. unfold SendBuffer.retransmit, assert.
  destruct (Z.leb_spec (rend rng) (unsent b)); [|lia]. cbn [obind].
  destruct (RangeSet.btree_insert_spec rng (retransmits b) Hr Hs) as (s & x & -> & Hwf & Hel & _); [varint_lia|].
  cbn [obind]. eexists. split; [done|]. split; [|split_and!; try done].
  - split; cbn; try done. intros y [Hy|Hy]%Hel; [auto|unfold in_range in Hy; lia].
  - intros y. unfold to_send; cbn. rewrite Hel. tauto.
Qed.

(** C37: [ack] can free bytes the peer never acknowledged: of one segment that
    was sent, acknowledging a prefix and a suffix frees the whole segment, the
    buffer reports that everything is acknowledged, and when the bytes in
    between are then declared lost they are chosen again but can no longer be
    read: [get] underflows. *)
Theorem ack_loses_middle (data : list Z) (i j max_len : Z) (b : SendBuffer) :
  send_inv b -> unacked_segments b = [data] -> base b = 0 -> unsent b = offset b ->
  acks b = ∅ -> retransmits b = ∅ ->
  0 < i < j -> j < zlen data -> 16 < max_len <= VARINT_MAX ->
  exists b1 b2 b3 b4 r enc,
    SendBuffer.ack (Range 0 i) b = Ret b1 /\ SendBuffer.ack (Range j (zlen data)) b1 = Ret b2 /\
    SendBuffer.is_fully_acked b1 = false /\ SendBuffer.is_fully_acked b2 = true /\
    SendBuffer.retransmit (Range i j) b2 = Ret b3 /\
    SendBuffer.poll_transmit max_len b3 = Ret (b4, r, enc) /\ rstart r < rend r /\
    (forall y, in_range y r -> ~ (in_range y (Range 0 i) \/ in_range y (Range j (zlen data)))) /\
    SendBuffer.get r b4 = Panic.
Proof.
  intros Hi Hsegs Hbase Hun Hacks Hre Hij Hj Hm.
  assert (Hno : forall y, ~ RangeSet.elem y ∅) by (intros y (a & e & Ha & _); by simplify_map_eq).
  assert (Hoff : offset b = zlen data).
  { pose proof (sb_len b Hi) as Hl. unfold buffered, base in *. rewrite Hsegs in Hl. cbn in Hl.
    rewrite app_nil_r in Hl. lia. }
  pose proof (sb_offset b Hi) as [_ Ho].
  destruct (ack_one_segment (Range 0 i) b data Hi Hsegs) as (b1 & H1 & Hi1 & Ho1 & Hu1 & Hr1 & Hc1);
    [cbn; lia|cbn; lia|]. unfold in_range in Hc1; cbn in Hc1. rewrite Hacks, Hbase in Hc1.
  destruct Hc1 as [(_ & [?%Hno|?] & _)|(_ & Hs1 & Hb1 & Ha1)]; [done|lia|].
  destruct (ack_one_segment (Range j (zlen data)) b1 data Hi1 Hs1) as (b2 & H2 & Hi2 & Ho2 & Hu2 & Hr2 & Hc2);
    [cbn; lia|cbn; lia|]. unfold in_range in Hc2; cbn in Hc2. rewrite !Ha1, Hb1 in Hc2.
  destruct Hc2 as [(_ & _ & Hs2)|(Hn & _)]; [|exfalso; apply Hn; split; [left; right|right]; lia].
  assert (Hl2 : unacked_len b2 = 0) by (rewrite (sb_len b2 Hi2); unfold buffered; by rewrite Hs2).
  destruct (retransmit_spec (Range i j) b2 Hi2) as (b3 & H3 & Hi3 & Hs3 & Hl3 & Ho3 & Hu3 & _ & Hto3);
    [cbn; lia|cbn; lia|].
  assert (Hto : forall y, to_send b3 y <-> in_range y (Range i j)).
  { intros y. rewrite Hto3. unfold to_send. rewrite Hr2, Hr1, Hre. split; [|by right].
    intros [[?%Hno|?]|?]; [done|lia|done]. }
  destruct (poll_transmit_spec max_len b3 Hi3) as (b4 & r & enc & H4 & Hi4 & [(Hd4 & Ho4 & Hb4 & _) Hr4 _ Honce _ Hprog]);
    [lia|].
  assert (rstart r < rend r) as Hlt.
  { apply Hprog; [lia|]. apply has_unsent_data_spec; [done|]. exists i. apply Hto. unfold in_range; cbn; lia. }
  exists b1, b2, b3, b4, r, enc. split_and!; try done.
  - unfold SendBuffer.is_fully_acked. rewrite (sb_len b1 Hi1). unfold buffered. rewrite Hs1. cbn.
    rewrite app_nil_r. lia.
  - unfold SendBuffer.is_fully_acked. by rewrite Hl2.
  - intros y Hy. destruct (Honce y Hy) as [Hin%Hto _]. unfold in_range in *; cbn in *. lia.
  - destruct (Honce (rstart r)) as [Hin%Hto _]; [unfold in_range; lia|]. unfold in_range in Hin; cbn in Hin.
    unfold base in Hb4. unfold SendBuffer.get. rewrite u64_sub_ok by lia. cbn [obind].
    unfold u64_sub at 1. by destruct (Z.leb_spec (offset b4 - unacked_len b4) (rstart r)); [lia|].
Qed.

Definition one_segment : SendBuffer := mkSendBuffer [[1; 2; 3; 4; 5]] 5 5 5 ∅ ∅.

Lemma one_segment_inv : send_inv one_segment.
Proof.
  split; cbn; try done; try apply RangeSet.wf_empty; [set_solver|].
  intros y (a & e & Ha & _). by simplify_map_eq.
Qed.

Lemma ack_loses_middle_witness :
  exists b1 b2 b4 r, SendBuffer.ack (Range 0 2) one_segment = Ret b1 /\
    SendBuffer.ack (Range 3 5) b1 = Ret b2 /\ SendBuffer.is_fully_acked b2 = true /\
    SendBuffer.get r b4 = Panic.
Proof.
  destruct (ack_loses_middle [1; 2; 3; 4; 5] 2 3 100 one_segment one_segment_inv)
    as (b1 & b2 & b3 & b4 & r & enc & H1 & H2 & _ & H3 & _ & _ & _ & _ & H4);
    [reflexivity..|vm_compute; intuition congruence|reflexivity|vm_compute; intuition congruence|].
  exists b1, b2, b4, r. split; [exact H1|]. split; [exact H2|]. split; [exact H3|exact H4].
Defined.

(** A segment of length 0 at the start of the stream: its last byte is computed
    as [0 - 1]. *)
Example ack_empty_segment_panics :
  (let! b := SendBuffer.write [] SendBuffer_default in
   let! b := SendBuffer.write [7] b in
   let! '(b, r, _) := SendBuffer.poll_transmit 100 b in SendBuffer.ack r b) = Panic.
Proof. reflexivity. Qed.

(** ** The life of a send stream *)

(** What can happen to a stream: the calls of the application, of the peer's
    frames, and the transmission of a frame as [write_stream_frames] does it. *)
Inductive send_event :=
| EvWrite (data : list Z)
| EvFinish
| EvReset
| EvStop (error_code : Z)
| EvAck (frame : StreamMeta)
| EvTransmit (max_len : Z)
| EvLost (rng : range).

(** The FIN decision of a transmission ([state.rs:325-331]). *)
Definition transmit (max_len : Z) (s : Send) : outcome (Send * range * bool * bool) :=
  let! '(b, r, enc) := SendBuffer.poll_transmit max_len (pending s) in
  let fin := fin_pending s && (rend r =? offset b) in
  Ret (mkSend (state s) b (priority s) (if fin then false else fin_pending s) (stop_reason s), r, enc, fin).

Definition send_step (ev : send_event) (s : Send) : outcome Send :=
  match ev with
  | EvWrite data => let! '(s, _) := Send.write data s in Ret s
  | EvFinish => Ret (fst (Send.finish s))
  | EvReset => Ret (Send.reset s)
  | EvStop error_code => Ret (fst (Send.try_stop error_code s))
  | EvAck frame => let! '(s, _) := Send.ack frame s in Ret s
  | EvTransmit max_len => let! '(s, _, _, _) := transmit max_len s in Ret s
  | EvLost rng => let! b := SendBuffer.retransmit rng (pending s) in Ret (Send.with_pending b s)
  end.

Fixpoint send_run (evs : list send_event) (s : Send) : outcome Send :=
  match evs with
  | [] => Ret s
  | ev :: evs => let! s := send_step ev s in send_run evs s
  end.

(** The states in the order a stream goes through them. *)
Definition rank (st : SendState) : Z :=
  match st with
  | Ready => 0
  | DataSent false => 1
  | DataSent true => 2
  | ResetSent => 3
  end.

(** What never changes back. *)
Record send_le (s s' : Send) : Prop := {
  le_rank : rank (state s) <= rank (state s');
  le_offset : Send.stream_offset s <= Send.stream_offset s';
  le_final : state s <> Ready -> Send.stream_offset s' = Send.stream_offset s;
  le_stopped : stop_reason s <> None ->
    stop_reason s' = stop_reason s /\ Send.stream_offset s' = Send.stream_offset s;
  le_fin : state s <> Ready -> fin_pending s = false -> fin_pending s' = false;
}.

#[export] Instance send_le_preorder : PreOrder send_le.
Proof.
  split; [by split|]. intros s1 s2 s3 [H1 H2 H3 H4 H5] [K1 K2 K3 K4 K5].
  assert (state s1 <> Ready -> state s2 <> Ready).
  { intros Hn Hr. rewrite Hr in H1. destruct (state s1) as [|[]|]; cbn in H1; [done|lia..]. }
  split; [lia|lia| | |].
  - intros Hn. rewrite K3, H3; auto.
  - intros Hn. destruct (H4 Hn) as [E1 E2]. rewrite <- E1 in Hn. destruct (K4 Hn) as [-> ->]. done.
  - intros Hn Hf. apply K5; auto.
Qed.

(** The operations that leave the end of the stream where it is. *)
Lemma poll_transmit_offset max_len b b' r enc :
  SendBuffer.poll_transmit max_len b = Ret (b', r, enc) -> offset b' = offset b.
Proof.
  unfold SendBuffer.poll_transmit. intros H.
  destruct (RangeSet.pop_min _) as [rest [r'|]]; outcome_inv;
    repeat (match goal with v : _ * _ |- _ => destruct v end; outcome_inv); by simplify_eq.
Qed.

Lemma ack_offset rng b b' : SendBuffer.ack rng b = Ret b' -> offset b' = offset b.
Proof.
  unfold SendBuffer.ack. intros H. outcome_inv.
  repeat (match goal with v : _ * _ |- _ => destruct v end; outcome_inv). by simplify_eq.
Qed.

Lemma retransmit_offset rng b b' : SendBuffer.retransmit rng b = Ret b' -> offset b' = offset b.
Proof.
  unfold SendBuffer.retransmit. intros H. outcome_inv.
  repeat (match goal with v : _ * _ |- _ => destruct v end; outcome_inv). by simplify_eq.
Qed.

Lemma send_step_le ev s s' : send_step ev s = Ret s' -> send_le s s'.
Proof.
  destruct ev; cbn; intros H; outcome_inv.
  - destruct v as [s1 r]. injection H as <-. unfold Send.write, Send.is_writable in Hv.
    destruct (state s) eqn:Hst; cbn in Hv; [|by simplify_eq..].
    destruct (stop_reason s) eqn:Hs; [by simplify_eq|]. outcome_inv. simplify_eq.
    unfold SendBuffer.write in Hv0. outcome_inv. simplify_eq. pose proof (zlen_nonneg data).
    split; unfold Send.stream_offset; cbn; rewrite ?Hst, ?Hs; try done. lia.
  - simplify_eq. unfold Send.finish. destruct (stop_reason s) eqn:Hs; [done|].
    case_decide as Hd; [|done]. split; unfold Send.stream_offset; cbn; rewrite ?Hd, ?Hs; done.
  - simplify_eq. unfold Send.reset. destruct (state s) as [|[]|] eqn:Hst; [..|done];
      split; unfold Send.stream_offset; cbn; rewrite ?Hst; done.
  - simplify_eq. unfold Send.try_stop. destruct (stop_reason s) eqn:Hs; [done|].
    split; unfold Send.stream_offset; cbn; rewrite ?Hs; done.
  - destruct v as [s1 r]. injection H as <-. unfold Send.ack in Hv. outcome_inv.
    apply ack_offset in Hv0. destruct (state s) as [|[]|] eqn:Hst; simplify_eq;
      split; unfold Send.stream_offset, Send.with_pending; cbn; rewrite ?Hst, ?Hv0; try done.
    by destruct (sm_fin frame).
  - destruct v as [[[s1 r] e] f]. injection H as <-. unfold transmit in Hv. outcome_inv.
    destruct v as [[b r'] e']. apply poll_transmit_offset in Hv0. simplify_eq.
    split; unfold Send.stream_offset; cbn; rewrite ?Hv0; try done. by intros _ ->.
  - simplify_eq. apply retransmit_offset in Hv. split; unfold Send.stream_offset; cbn; rewrite ?Hv; done.
Qed.

(** C34: A send stream only moves forward, whatever happens to it: its state
    goes from open over finished to reset and never back; the reason the peer
    gave for stopping never changes; once it is finished, reset or stopped, the
    end of the stream is fixed and every later write is refused without
    effect; and a FIN that was sent is never sent again, not even when the
    frame that carried it is lost. *)
Theorem send_stream_lifecycle (evs : list send_event) (s s' : Send) :
  send_run evs s = Ret s' ->
  send_le s s' /\
  (state s <> Ready -> forall data, Send.write data s' = Ret (s', Err WriteClosedStream)) /\
  (state s = Ready -> stop_reason s <> None -> state s' = Ready ->
     forall data, exists code, stop_reason s = Some code /\ Send.write data s' = Ret (s', Err (WriteStopped code))).
Proof.
  assert (Hle : forall s, send_run evs s = Ret s' -> send_le s s').
  { induction evs as [|ev evs IH]; intros s0; cbn; [by intros [= ->]|]. intros H. outcome_inv.
    transitivity v; [by apply send_step_le in Hv|auto]. }
  intros H%Hle. split; [done|]. destruct H as [Hr _ _ Hs _]. split.
  - intros Hn data. unfold Send.write, Send.is_writable.
    destruct (state s) as [|[]|], (state s') as [|[]|]; cbn in *; (lia || done).
  - intros _ Hstop Hready data. destruct (Hs Hstop) as [Heq _]. unfold Send.write, Send.is_writable.
    rewrite Hready, Heq. cbn. destruct (stop_reason s) as [code|]; [by exists code|done].
Qed.

Lemma send_stream_lifecycle_witness :
  exists s', send_run [EvFinish; EvTransmit 100; EvLost (Range 1 2); EvTransmit 100; EvStop 7]
      (mkSend Ready (mkSendBuffer [[1; 2; 3]] 3 3 0 ∅ ∅) 0 false None) = Ret s' /\
    send_le (mkSend Ready (mkSendBuffer [[1; 2; 3]] 3 3 0 ∅ ∅) 0 false None) s' /\ stop_reason s' = Some 7.
Proof.
  eexists. split; [vm_compute; reflexivity|]. split; [|reflexivity].
  eapply (send_stream_lifecycle [EvFinish; EvTransmit 100; EvLost (Range 1 2); EvTransmit 100; EvStop 7]).
  vm_compute. reflexivity.
Defined.
