(* ===== verification/Recv.v ===== *)
(** * Recv: the receiving part of a stream ([core/src/connection/stream/recv.rs])

    The assembler, which puts STREAM frames in order for the application, and
    the state machine of a receive stream with its final-size checks. *)
From S2P Require Import Prelude Buffers Varint Common RangeSet Frame.

(** ** Data *)

(** [recv.rs:340-346] *)
Record Chunk := mkChunk { ch_offset : Z; ch_bytes : list Z }.
#[export] Instance Chunk_eq_dec : EqDecision Chunk.
Proof. solve_decision. Defined.

(** [recv.rs:348-357] *)
Record Buffer := mkBuffer {
  bf_offset : Z; bf_bytes : list Z; bf_allocation_size : Z; bf_defragmented : bool }.

(** [recv.rs:427-436] *)
Inductive AssemblerState := Ordered | Unordered (recvd : RangeSet.t).

(** [recv.rs:164-179] *)
Record Assembler := mkAssembler {
  a_state : AssemblerState;
  a_data : list Buffer;
  buffered : Z;
  allocated : Z;
  bytes_read : Z;
  a_end : Z;
}.

Definition Assembler_default : Assembler := mkAssembler Ordered [] 0 0 0 0.

(** [recv.rs:438-441] *)
Inductive IllegalOrderedRead := IsIllegalOrderedRead.

(** [recv.rs:150-154] *)
Inductive RecvState := RsRecv (size : option Z) | RsResetRecvd (size error_code : Z).
#[export] Instance RecvState_eq_dec : EqDecision RecvState.
Proof. solve_decision. Defined.

(** [recv.rs:16-23] *)
Record Recv := mkRecv { r_state : RecvState; assembler : Assembler; r_end : Z; stopped : bool }.

(** [recv.rs:156-160] *)
Definition Recv_default : Recv := mkRecv (RsRecv None) Assembler_default 0 false.

(** [recv.rs:531-535] the parts that are not the borrowed [Recv] *)
Inductive ChunksState := Readable (rs : Recv) | Reset (code : Z) | Finished.

(** [recv.rs:537-552] *)
Inductive ReadError := ReadBlocked | ReadReset (code : Z).

(** [recv.rs:554-568] *)
Inductive ReadableError := ReadableClosedStream | ReadableIllegalOrderedRead.

(** [stream/mod.rs:14-18] *)
Inductive ClosedStream := IsClosedStream.

(** ** Buffers *)
Module Buffer.
(** [recv.rs:360-368] *)
Definition new (offset : Z) (bytes : list Z) (allocation_size : Z) : Buffer :=
  mkBuffer offset bytes allocation_size false.

(** [recv.rs:370-379] *)
Definition new_defragmented (offset : Z) (bytes : list Z) : Buffer :=
  mkBuffer offset bytes (zlen bytes) true.

(** [recv.rs:381-401] *)
Definition try_mark_defragment (offset : Z) (b : Buffer) : outcome Buffer :=
  let duplicate := saturating_sub offset (bf_offset b) in
  let off := Z.max (bf_offset b) offset in
  if zlen (bf_bytes b) <=? duplicate then Ret (mkBuffer off [] 0 true)
  else
    let bytes := drop (Z.to_nat duplicate) (bf_bytes b) in
    let! defragmented :=
      if bf_defragmented b then Ret true
      else let! m := u64_mul (zlen bytes) 6 in Ret (bf_allocation_size b <=? m / 5) in
    Ret (mkBuffer off bytes (if defragmented then zlen bytes else bf_allocation_size b) defragmented).

(** [recv.rs:404-413] *)
Definition cmp (a b : Buffer) : comparison :=
  match CompOpp (bf_offset a ?= bf_offset b) with
  | Eq => zlen (bf_bytes a) ?= zlen (bf_bytes b)
  | c => c
  end.

(** [recv.rs:421-425] *)
Definition eq (a b : Buffer) : bool :=
  (bf_offset a =? bf_offset b) && (zlen (bf_bytes a) =? zlen (bf_bytes b)).
End Buffer.

(** ** The assembler *)
Module Assembler.
Definition is_ordered (st : AssemblerState) : bool :=
  match st with Ordered => true | Unordered _ => false end.

(** [recv.rs:182-192]; [unimplemented!] panics *)
Definition ensure_ordering (ordered : bool) (a : Assembler) : outcome (result unit IllegalOrderedRead) :=
  if ordered && negb (is_ordered (a_state a)) then Ret (Err IsIllegalOrderedRead)
  else if negb ordered && is_ordered (a_state a) then Panic
  else Ret (Ok tt).

(** [recv.rs:194-228] *)
Definition read (max_length : Z) (ordered : bool) (a : Assembler) : outcome (Assembler * option Chunk) :=
  if negb ordered then Panic
  else
    match a_data a with
    | [] => Ret (a, None)
    | chunk :: rest =>
        if negb (bf_offset chunk =? bytes_read a) then Ret (a, None)
        else
          let len := zlen (bf_bytes chunk) in
          if max_length <? len then
            let! br := u64_add (bytes_read a) max_length in
            let! off := u64_add (bf_offset chunk) max_length in
            let! bufd := u64_sub (buffered a) max_length in
            let tail := mkBuffer off (drop (Z.to_nat max_length) (bf_bytes chunk))
              (bf_allocation_size chunk) (bf_defragmented chunk) in
            Ret (mkAssembler (a_state a) (tail :: rest) bufd (allocated a) br (a_end a),
                 Some (mkChunk (bf_offset chunk) (take (Z.to_nat max_length) (bf_bytes chunk))))
          else
            let! br := u64_add (bytes_read a) len in
            let! bufd := u64_sub (buffered a) len in
            let! alloc := u64_sub (allocated a) (bf_allocation_size chunk) in
            Ret (mkAssembler (a_state a) rest bufd alloc br (a_end a),
                 Some (mkChunk (bf_offset chunk) (bf_bytes chunk)))
    end.

(** [recv.rs:267-275] the index of the first buffer that ends after [offset] *)
Fixpoint find_at (offset : Z) (data : list Buffer) : outcome nat :=
  match data with
  | [] => Ret O
  | buf :: rest =>
      let! buf_end := u64_add (bf_offset buf) (zlen (bf_bytes buf)) in
      if offset <? buf_end then Ret O
      else let! i := find_at offset rest in Ret (S i)
  end.

(** [recv.rs:277-292] *)
Definition trim_prev (insert_at : nat) (data : list Buffer) (offset : Z) (bytes : list Z)
    : outcome (option (Z * list Z)) :=
  match insert_at with
  | O => Ret (Some (offset, bytes))
  | S i =>
      let! prev := unwrap (data !! i) in
      let! prev_end := u64_add (bf_offset prev) (zlen (bf_bytes prev)) in
      if offset <? prev_end then
        let! duplicate := u64_sub prev_end offset in
        if zlen bytes <=? duplicate then Ret None
        else Ret (Some (prev_end, drop (Z.to_nat duplicate) bytes))
      else Ret (Some (offset, bytes))
  end.

(** [recv.rs:294-314] the loop over the buffers from [insert_at] on: the ones
    that are left, the bytes that are left, and the two counters *)
Fixpoint trim_next (offset new_end : Z) (bytes : list Z) (bufd alloc : Z) (post : list Buffer)
    : outcome (list Buffer * list Z * Z * Z) :=
  match post with
  | [] => Ret ([], bytes, bufd, alloc)
  | buf :: rest =>
      let! buf_end := u64_add (bf_offset buf) (zlen (bf_bytes buf)) in
      if new_end <=? bf_offset buf then Ret (post, bytes, bufd, alloc)
      else if buf_end <=? new_end then
        let! bufd := u64_sub bufd (zlen (bf_bytes buf)) in
        let! alloc := u64_sub alloc (bf_allocation_size buf) in
        trim_next offset new_end bytes bufd alloc rest
      else
        let! keep := u64_sub (bf_offset buf) offset in
        Ret (post, take (Z.to_nat keep) bytes, bufd, alloc)
  end.

(** [recv.rs:251-265] *)
Definition trim_read (offset : Z) (bytes : list Z) (br : Z) : outcome (option (Z * list Z)) :=
  if offset <? br then
    let! duplicate := u64_sub br offset in
    if zlen bytes <=? duplicate then Ret None
    else Ret (Some (br, drop (Z.to_nat duplicate) bytes))
  else Ret (Some (offset, bytes)).

Definition is_nil {A} (l : list A) : bool := match l with [] => true | _ => false end.

(** [recv.rs:230-324] *)
Definition insert (offset : Z) (bytes : list Z) (allocation_size : Z) (a : Assembler) : outcome Assembler :=
  let! _ := assert (zlen bytes <=? allocation_size) in
  let! e := u64_add offset (zlen bytes) in
  let a := mkAssembler (a_state a) (a_data a) (buffered a) (allocated a) (bytes_read a) (Z.max (a_end a) e) in
  if is_nil bytes then Ret a
  else if e <=? bytes_read a then Ret a
  else
    let! trimmed := trim_read offset bytes (bytes_read a) in
    match trimmed with
    | None => Ret a
    | Some (offset, bytes) =>
        if is_nil bytes then Ret a
        else
          let! insert_at := find_at offset (a_data a) in
          let! trimmed := trim_prev insert_at (a_data a) offset bytes in
          match trimmed with
          | None => Ret a
          | Some (offset, bytes) =>
              let! new_end := u64_add offset (zlen bytes) in
              let! '(post, bytes, bufd, alloc) :=
                trim_next offset new_end bytes (buffered a) (allocated a) (drop insert_at (a_data a)) in
              let pre := take insert_at (a_data a) in
              if is_nil bytes then
                Ret (mkAssembler (a_state a) (pre ++ post) bufd alloc (bytes_read a) (a_end a))
              else
                let buffer := Buffer.new offset bytes allocation_size in
                let! bufd := u64_add bufd (zlen (bf_bytes buffer)) in
                let! alloc := u64_add alloc (bf_allocation_size buffer) in
                Ret (mkAssembler (a_state a) (pre ++ buffer :: post) bufd alloc (bytes_read a) (a_end a))
          end
    end.

(** [recv.rs:331-336] *)
Definition clear (a : Assembler) : Assembler :=
  mkAssembler (a_state a) [] 0 0 (bytes_read a) (a_end a).
End Assembler.

(** ** The stream *)
Module Recv.
(** [recv.rs:103-108] *)
Definition final_offset (r : Recv) : option Z :=
  match r_state r with
  | RsRecv size => size
  | RsResetRecvd size _ => Some size
  end.

(** [recv.rs:94-96] *)
Definition final_offset_unknown (r : Recv) : bool :=
  match r_state r with RsRecv None => true | _ => false end.

(** [recv.rs:98-101] *)
Definition is_receiving (r : Recv) : bool :=
  match r_state r with RsRecv _ => true | _ => false end.

(** [recv.rs:142-147] *)
Definition reset_code (r : Recv) : option Z :=
  match r_state r with RsResetRecvd _ code => Some code | _ => None end.

(** [recv.rs:26-67] *)
Definition ingest (frame : Stream) (payload_len : Z) (r : Recv)
    : outcome (Recv * result (Z * bool) TransportError) :=
  let! e := u64_add (st_offset frame) (zlen (st_data frame)) in
  if 2 ^ 62 <=? e then Ret (r, Err (transport_error TransportErrorCode.FLOW_CONTROL_ERROR "maximum stream offset too large"))
  else if match final_offset r with
          | Some final => (final <? e) || (st_fin frame && negb (e =? final))
          | None => false
          end
  then Ret (r, Err (transport_error TransportErrorCode.FINAL_SIZE_ERROR EmptyString))
  else
    let new_bytes := saturating_sub e (r_end r) in
    let st :=
      match r_state r with
      | RsRecv size => if st_fin frame && negb (stopped r) then RsRecv (Some e) else RsRecv size
      | st => st
      end in
    let! asm :=
      if negb (stopped r) then Assembler.insert (st_offset frame) (st_data frame) payload_len (assembler r)
      else Ret (assembler r) in
    Ret (mkRecv st asm (Z.max (r_end r) e) (stopped r), Ok (new_bytes, st_fin frame && stopped r)).

(** [recv.rs:69-83] *)
Definition stop (r : Recv) : outcome (Recv * result (Z * bool) ClosedStream) :=
  if stopped r then Ret (r, Err IsClosedStream)
  else
    let r := mkRecv (r_state r) (Assembler.clear (assembler r)) (r_end r) true in
    let! read_credits := u64_sub (r_end r) (bytes_read (assembler r)) in
    Ret (r, Ok (read_credits, is_receiving r)).

(** [recv.rs:110-140] *)
Definition reset (error_code final : Z) (r : Recv) : Recv * result bool TransportError :=
  let refused :=
    match final_offset r with
    | Some offset => if negb (offset =? final) then Some "inconsistent value"%string else None
    | None => if final <? r_end r then Some "lower than high water mark"%string else None
    end in
  match refused with
  | Some reason => (r, Err (transport_error TransportErrorCode.FINAL_SIZE_ERROR reason))
  | None =>
    match r_state r with
    | RsResetRecvd _ _ => (r, Ok false)
    | RsRecv _ =>
        (mkRecv (RsResetRecvd final error_code) (Assembler.clear (assembler r)) (r_end r) (stopped r), Ok true)
    end
  end.
End Recv.

(** ** Reading *)
Module Chunks.
(** [recv.rs:481-517]; the state is the pair of the [ChunksState] and the number
    of bytes read through it *)
Definition next (max_length : Z) (ordered : bool) (cs : ChunksState) (rd : Z)
    : outcome (ChunksState * Z * result (option Chunk) ReadError) :=
  match cs with
  | Reset code => Ret (cs, rd, Err (ReadReset code))
  | Finished => Ret (cs, rd, Ok None)
  | Readable rs =>
      let! '(asm, chunk) := Assembler.read max_length ordered (assembler rs) in
      let rs := mkRecv (r_state rs) asm (r_end rs) (stopped rs) in
      match chunk with
      | Some chunk =>
          let! rd := u64_add rd (zlen (ch_bytes chunk)) in
          Ret (Readable rs, rd, Ok (Some chunk))
      | None =>
          match r_state rs with
          | RsResetRecvd _ code =>
              let! _ := assert (rd =? 0) in Ret (Reset code, rd, Err (ReadReset code))
          | RsRecv size =>
              if bool_decide (size = Some (r_end rs)) && (bytes_read asm =? r_end rs)
              then Ret (Finished, rd, Ok None)
              else Ret (Readable rs, rd, Err ReadBlocked)
          end
      end
  end.
End Chunks.

(** ** The invariant of the assembler *)

Definition bf_end (b : Buffer) : Z := bf_offset b + zlen (bf_bytes b).

(** The offsets a list of buffers holds. *)
Definition holds (l : list Buffer) (y : Z) : Prop := exists b, b ∈ l /\ bf_offset b <= y < bf_end b.

Fixpoint sumz (f : Buffer -> Z) (l : list Buffer) : Z :=
  match l with [] => 0 | b :: l => f b + sumz f l end.
Definition bf_len (b : Buffer) : Z := zlen (bf_bytes b).

Lemma sumz_app f l k : sumz f (l ++ k) = sumz f l + sumz f k.
Proof. induction l; cbn; lia. Qed.

Lemma sumz_nonneg f l : (forall b, b ∈ l -> 0 <= f b) -> 0 <= sumz f l.
Proof.
  induction l as [|b l IH]; cbn; [done|]. intros Hf. pose proof (Hf b ltac:(left)).
  assert (0 <= sumz f l); [apply IH; intros; apply Hf; by right|lia].
Qed.

Lemma holds_app l k y : holds (l ++ k) y <-> holds l y \/ holds k y.
Proof. unfold holds. setoid_rewrite elem_of_app. naive_solver. Qed.

Lemma holds_cons b l y : holds (b :: l) y <-> bf_offset b <= y < bf_end b \/ holds l y.
Proof. unfold holds. setoid_rewrite elem_of_cons. naive_solver. Qed.

Lemma holds_nil y : ~ holds [] y.
Proof. intros (b & Hb & _). by apply elem_of_nil in Hb. Qed.

Section Stream.
(** The bytes the peer sends, by their offset. *)
Context (stream : Z -> Z).

Definition slice (off n : Z) : list Z := stream <$> seqZ off n.

Lemma zlen_slice off n : 0 <= n -> zlen (slice off n) = n.
Proof. intros. unfold zlen, slice. rewrite length_fmap, length_seqZ. lia. Qed.

Lemma slice_app off n m : 0 <= n -> 0 <= m -> slice off (n + m) = slice off n ++ slice (off + n) m.
Proof. intros. unfold slice. by rewrite seqZ_app, fmap_app by done. Qed.

Lemma take_slice off n m : 0 <= n <= m -> take (Z.to_nat n) (slice off m) = slice off n.
Proof.
  intros. replace m with (n + (m - n)) by lia. rewrite slice_app by lia.
  apply take_app_length'. pose proof (zlen_slice off n). unfold zlen in *. lia.
Qed.

Lemma drop_slice off n m : 0 <= n <= m -> drop (Z.to_nat n) (slice off m) = slice (off + n) (m - n).
Proof.
  intros. replace m with (n + (m - n)) at 1 by lia. rewrite slice_app by lia.
  apply drop_app_length'. pose proof (zlen_slice off n). unfold zlen in *. lia.
Qed.

(** A buffer holds bytes of the stream. *)
Record buffer_ok (b : Buffer) : Prop := {
  bo_bytes : bf_bytes b = slice (bf_offset b) (bf_len b);
  bo_len : 0 < bf_len b <= bf_allocation_size b;
  bo_end : bf_end b <= VARINT_MAX;
}.

(** Buffers in order from [lo] on, without overlap. *)
Fixpoint chain (lo : Z) (l : list Buffer) : Prop :=
  match l with
  | [] => True
  | b :: l => lo <= bf_offset b /\ buffer_ok b /\ chain (bf_end b) l
  end.

Fixpoint chain_end (lo : Z) (l : list Buffer) : Z :=
  match l with
  | [] => lo
  | b :: l => chain_end (bf_end b) l
  end.

Lemma chain_app lo l k : chain lo (l ++ k) <-> chain lo l /\ chain (chain_end lo l) k.
Proof. revert lo. induction l as [|b l IH]; intros lo; cbn; [tauto|]. rewrite IH. tauto. Qed.

Lemma chain_mono lo lo' l : lo' <= lo -> chain lo l -> chain lo' l.
Proof. destruct l as [|b l]; cbn; [done|]. intros ? (? & ? & ?). split; [lia|done]. Qed.

Lemma chain_ok lo l b : chain lo l -> b ∈ l -> buffer_ok b.
Proof.
  revert lo. induction l as [|b' l IH]; intros lo; [by intros _ ?%elem_of_nil|].
  intros (_ & Hb & Hl) [->|Hin]%elem_of_cons; [done|by apply (IH (bf_end b'))].
Qed.

Lemma chain_holds_ge lo l y : chain lo l -> holds l y -> lo <= y.
Proof.
  revert lo. induction l as [|b l IH]; intros lo; [by intros _ ?%holds_nil|].
  intros (Hlo & [_ Hlen _] & Hl) [?|Hh]%holds_cons; [lia|]. specialize (IH _ Hl Hh).
  unfold bf_end, bf_len in *. lia.
Qed.

Lemma chain_end_ge lo l : chain lo l -> lo <= chain_end lo l.
Proof.
  revert lo. induction l as [|b l IH]; intros lo; cbn; [lia|].
  intros (? & [_ ? _] & Hl). specialize (IH _ Hl). unfold bf_end, bf_len in *. lia.
Qed.

Lemma chain_holds_lt lo l y : chain lo l -> holds l y -> y < chain_end lo l.
Proof.
  revert lo. induction l as [|b l IH]; intros lo; [by intros _ ?%holds_nil|].
  intros (_ & _ & Hl) [?|Hh]%holds_cons; cbn; [|by apply IH]. pose proof (chain_end_ge _ _ Hl). lia.
Qed.

Lemma chain_offset_ge lo l b : chain lo l -> b ∈ l -> lo <= bf_offset b.
Proof.
  intros Hc Hb. apply (chain_holds_ge lo l); [done|]. exists b. split; [done|].
  pose proof (chain_ok _ _ _ Hc Hb) as [_ Hlen _]. unfold bf_end, bf_len in *. lia.
Qed.

Lemma chain_sum lo l : lo <= VARINT_MAX -> chain lo l ->
  0 <= sumz bf_len l <= VARINT_MAX - lo /\ sumz bf_len l <= sumz bf_allocation_size l.
Proof.
  revert lo. induction l as [|b l IH]; intros lo Hlo; cbn; [lia|].
  intros (? & [_ Hlen Hend] & Hl). specialize (IH _ Hend Hl). unfold bf_end, bf_len in *. lia.
Qed.

(** [Assembler]: ordered data that was not read yet, with exact counters. *)
Record asm_inv (a : Assembler) : Prop := {
  ai_ordered : a_state a = Ordered;
  ai_chain : chain (bytes_read a) (a_data a);
  ai_buffered : buffered a = sumz bf_len (a_data a);
  ai_allocated : allocated a = sumz bf_allocation_size (a_data a);
  ai_read : 0 <= bytes_read a <= a_end a;
  ai_end : a_end a <= VARINT_MAX;
  ai_below : forall y, holds (a_data a) y -> y < a_end a;
}.

Lemma asm_inv_default : asm_inv Assembler_default.
Proof. split; cbn; try done. by intros y ?%holds_nil. Qed.

(** *** The steps of [insert] *)

Lemma trim_read_spec offset n br : 0 < n -> 0 <= offset -> 0 <= br < offset + n ->
  exists m, Assembler.trim_read offset (slice offset n) br = Ret (Some (Z.max offset br, slice (Z.max offset br) m)) /\
    0 < m /\ Z.max offset br + m = offset + n.
Proof.
  intros Hn Ho Hb. unfold Assembler.trim_read. destruct (Z.ltb_spec offset br).
  - rewrite u64_sub_ok by lia. cbn [obind]. rewrite zlen_slice by lia.
    destruct (Z.leb_spec n (br - offset)); [lia|]. exists (n - (br - offset)).
    rewrite drop_slice by lia. rewrite Z.max_r by lia. split; [|lia]. by replace (offset + (br - offset)) with br by lia.
  - exists n. rewrite Z.max_l by lia. split; [done|lia].
Qed.

Lemma find_at_spec lo offset data : chain lo data -> 0 <= lo ->
  exists pre post, data = pre ++ post /\ Assembler.find_at offset data = Ret (length pre) /\
    (forall b, b ∈ pre -> bf_end b <= offset) /\
    (forall b rest, post = b :: rest -> offset < bf_end b).
Proof.
  revert lo. induction data as [|b data IH]; intros lo Hc Hlo.
  { exists [], []. split_and!; try done. by intros b ?%elem_of_nil. }
  destruct Hc as (? & [_ Hlen Hend] & Hc). cbn [Assembler.find_at].
  rewrite u64_add_ok by (unfold bf_end in *; varint_lia). cbn [obind]. fold (bf_end b).
  destruct (Z.ltb_spec offset (bf_end b)).
  - exists [], (b :: data). split_and!; try done; [by intros ? ?%elem_of_nil|by intros ?? [= <- <-]].
  - destruct (IH (bf_end b) Hc) as (pre & post & -> & -> & Hpre & Hpost); [unfold bf_end, bf_len in *; lia|].
    exists (b :: pre), post. split_and!; try done. intros b' [->|?]%elem_of_cons; auto.
Qed.

(** The previous buffer never reaches into the new data. *)
Lemma trim_prev_spec lo pre post offset bytes : chain lo (pre ++ post) -> 0 <= lo ->
  (forall b, b ∈ pre -> bf_end b <= offset) ->
  Assembler.trim_prev (length pre) (pre ++ post) offset bytes = Ret (Some (offset, bytes)).
Proof.
  intros Hc Hlo Hpre. induction pre as [|b pre _] using rev_ind; [done|].
  rewrite length_app, Nat.add_1_r. cbn [Assembler.trim_prev].
  rewrite <- app_assoc, lookup_app_r, Nat.sub_diag by lia. cbn.
  assert (Hb : bf_end b <= offset) by (apply Hpre; set_solver).
  pose proof (chain_ok _ _ b Hc ltac:(set_solver)) as [_ _ Hend]. unfold bf_end in *.
  rewrite u64_add_ok by varint_lia. cbn [obind].
  by destruct (Z.ltb_spec offset (bf_offset b + zlen (bf_bytes b))); [lia|].
Qed.

Lemma trim_next_inv lo offset n bufd alloc post res : chain lo post -> 0 <= n ->
  Assembler.trim_next offset (offset + n) (slice offset n) bufd alloc post = Ret res ->
  exists k gone post', res = (post', slice offset k, bufd - sumz bf_len gone, alloc - sumz bf_allocation_size gone) /\
    post = gone ++ post' /\ 0 <= k <= n /\ chain (offset + k) post' /\
    (forall b, b ∈ gone -> bf_end b <= offset + n) /\
    (k = n \/ exists b rest, post' = b :: rest /\ offset + k = bf_offset b /\ offset + n < bf_end b).
Proof.
  revert lo bufd alloc. induction post as [|b post IH]; intros lo bufd alloc Hc Hn H; cbn [Assembler.trim_next] in H.
  { injection H as <-. exists n, [], []. cbn. rewrite !Z.sub_0_r. split_and!; try done; [by intros b ?%elem_of_nil|by left]. }
  pose proof Hc as (? & Hb & Hc'). pose proof Hb as [_ Hlen _]. outcome_inv. subst v. fold (bf_end b) in *.
  destruct (Z.leb_spec (offset + n) (bf_offset b)).
  { injection H as <-. exists n, [], (b :: post). cbn. rewrite !Z.sub_0_r.
    split_and!; try done; [by intros ? ?%elem_of_nil|by left]. }
  destruct (Z.leb_spec (bf_end b) (offset + n)).
  - outcome_inv. subst. destruct (IH _ _ _ Hc' Hn H) as (k & gone & post' & -> & -> & Hk & Hcp & Hg & Hlast).
    exists k, (b :: gone), post'. split; [cbn; unfold bf_len; f_equal; [f_equal|]; lia|].
    split_and!; try done; try lia. intros ? [->|?]%elem_of_cons; auto.
  - outcome_inv. subst. exists (bf_offset b - offset), [], (b :: post). cbn [sumz app].
    rewrite take_slice, !Z.sub_0_r by lia. split_and!; try done; try lia; [|by intros ? ?%elem_of_nil|].
    + cbn. split; [lia|done].
    + right. exists b, post. split_and!; [done|lia|lia].
Qed.

Lemma trim_next_total offset n bufd alloc post : chain offset post -> 0 <= offset -> 0 <= n ->
  sumz bf_len post <= bufd -> sumz bf_allocation_size post <= alloc ->
  exists res, Assembler.trim_next offset (offset + n) (slice offset n) bufd alloc post = Ret res.
Proof.
  intros Hc Ho Hn. revert bufd alloc. assert (Hc' : exists lo, offset <= lo /\ chain lo post) by (by exists offset).
  clear Hc. destruct Hc' as (lo & Hlo & Hc). revert lo Hlo Hc.
  induction post as [|b post IH]; intros lo Hlo Hc bufd alloc Hb Ha; [by eexists|].
  destruct Hc as (? & Hbo & Hc). pose proof Hbo as [_ Hlen Hend]. cbn in Hb, Ha |- *.
  pose proof (chain_sum _ _ Hend Hc). unfold bf_end, bf_len in *.
  rewrite u64_add_ok by varint_lia. cbn [obind].
  destruct (Z.leb_spec (offset + n) (bf_offset b)); [by eexists|].
  destruct (Z.leb_spec (bf_offset b + zlen (bf_bytes b)) (offset + n)).
  - rewrite !u64_sub_ok by lia. cbn [obind].
    apply (IH (bf_offset b + zlen (bf_bytes b))); [lia|done|lia|lia].
  - rewrite u64_sub_ok by lia. by eexists.
Qed.
(** No buffer starts before [offset] and ends after it. *)
Definition no_straddle (a : Assembler) (offset : Z) : Prop :=
  forall b, b ∈ a_data a -> ~ (bf_offset b < offset < bf_end b).

(** The rest of [insert], once the read prefix is trimmed: the new data takes
    the place of the buffers it covers. *)
Lemma insert_body a offset n : asm_inv a -> bytes_read a <= offset -> 0 < n -> offset + n <= VARINT_MAX ->
  exists pre post, a_data a = pre ++ post /\
    Assembler.find_at offset (a_data a) = Ret (length pre) /\
    Assembler.trim_prev (length pre) (a_data a) offset (slice offset n) = Ret (Some (offset, slice offset n)) /\
    (forall b, b ∈ pre -> bf_end b <= offset) /\ (forall b rest, post = b :: rest -> offset < bf_end b) /\
    (no_straddle a offset -> chain offset post) /\
    chain (chain_end (bytes_read a) pre) post /\ chain (bytes_read a) pre /\ chain_end (bytes_read a) pre <= offset.
Proof.
  intros [Ho Hc Hb Ha Hr He Hbel] Hoff Hn Hmax.
  destruct (find_at_spec _ offset _ Hc) as (pre & post & Heq & Hf & Hpre & Hpost); [lia|].
  exists pre, post. rewrite Heq in *. pose proof Hc as [Hc1 Hc2]%chain_app.
  split_and!; try done.
  - apply (trim_prev_spec (bytes_read a)); [done|lia|done].
  - intros Hns. destruct post as [|b post]; [done|]. destruct Hc2 as (_ & Hb2 & Hc2).
    split; [|done]. specialize (Hpost b post eq_refl). destruct (Z.lt_ge_cases (bf_offset b) offset); [|done].
    exfalso. apply (Hns b); [rewrite Heq; set_solver|lia].
  - clear -Hpre Hoff. induction pre as [|b pre _] using rev_ind; [done|].
    assert (forall lo l, chain_end lo (l ++ [b]) = bf_end b) as ->;
      [intros lo l; revert lo; induction l; cbn; auto|apply Hpre; set_solver].
Qed.
Definition with_end (e : Z) (a : Assembler) : Assembler :=
  mkAssembler (a_state a) (a_data a) (buffered a) (allocated a) (bytes_read a) (Z.max (a_end a) e).

(** The last part of [insert]: what remains of the new data becomes a buffer. *)
Definition place (pre : list Buffer) (o alloc : Z) (a : Assembler) (t : list Buffer * list Z * Z * Z)
    : outcome Assembler :=
  let '(post, bytes, bufd, allc) := t in
  if Assembler.is_nil bytes then
    Ret (mkAssembler (a_state a) (pre ++ post) bufd allc (bytes_read a) (a_end a))
  else
    let! bufd := u64_add bufd (zlen bytes) in
    let! allc := u64_add allc alloc in
    Ret (mkAssembler (a_state a) (pre ++ Buffer.new o bytes alloc :: post) bufd allc (bytes_read a) (a_end a)).

Lemma is_nil_slice off n : 0 < n -> Assembler.is_nil (slice off n) = false.
Proof. intros. pose proof (zlen_slice off n). destruct (slice off n); [unfold zlen in *; cbn in *; lia|done]. Qed.

Lemma insert_cases offset n alloc a : asm_inv a -> 0 <= offset -> 0 <= n <= alloc -> offset + n <= VARINT_MAX ->
  ((n = 0 \/ offset + n <= bytes_read a) /\
    Assembler.insert offset (slice offset n) alloc a = Ret (with_end (offset + n) a)) \/
  (exists m pre post, let o := Z.max offset (bytes_read a) in
    0 < m /\ o + m = offset + n /\ a_data a = pre ++ post /\
    (forall b, b ∈ pre -> bf_end b <= o) /\ (forall b rest, post = b :: rest -> o < bf_end b) /\
    (no_straddle a o -> chain o post) /\
    chain (chain_end (bytes_read a) pre) post /\ chain (bytes_read a) pre /\ chain_end (bytes_read a) pre <= o /\
    Assembler.insert offset (slice offset n) alloc a =
      let! t := Assembler.trim_next o (o + m) (slice o m) (buffered a) (allocated a) post in
      place pre o alloc (with_end (offset + n) a) t).
Proof.
  intros Hi Ho Hn Hmax. pose proof Hi as [_ _ _ _ Hr He _]. unfold Assembler.insert, assert.
  rewrite zlen_slice by lia. destruct (Z.leb_spec n alloc); [|lia]. cbn [obind].
  rewrite u64_add_ok by varint_lia. cbn [obind].
  destruct (Z.eq_dec n 0) as [->|Hn0]; [left; split; [by left|done]|]. rewrite is_nil_slice by lia.
  cbn [bytes_read]. destruct (Z.leb_spec (offset + n) (bytes_read a)); [left; split; [by right|done]|].
  right. destruct (trim_read_spec offset n (bytes_read a)) as (m & -> & Hm & Hend); [lia..|]. cbn [obind].
  rewrite is_nil_slice by done. set (o := Z.max offset (bytes_read a)) in *.
  destruct (insert_body a o m Hi) as (pre & post & Heq & Hf & Ht & Hpre & Hpost & Hns & Hc & Hc' & Hce); [lia..|].
  exists m, pre, post. cbv zeta. split_and!; try done.
  - cbn [a_data buffered allocated bytes_read a_state a_end]. rewrite Hf. cbn [obind]. rewrite Ht. cbn [obind].
    rewrite zlen_slice, u64_add_ok by varint_lia. cbn [obind].
    rewrite Heq, drop_app_length, take_app_length. done.
Qed.

Lemma place_inv pre o k alloc a post bufd allc a' : 0 <= k <= alloc -> o + k <= VARINT_MAX -> chain (o + k) post ->
  place pre o alloc a (post, slice o k, bufd, allc) = Ret a' ->
  exists mid, a' = mkAssembler (a_state a) (pre ++ mid ++ post) (bufd + sumz bf_len mid)
      (allc + sumz bf_allocation_size mid) (bytes_read a) (a_end a) /\
    chain o (mid ++ post) /\ (forall y, holds mid y <-> o <= y < o + k) /\
    (forall b, b ∈ mid -> o <= bf_offset b /\ bf_end b <= o + k) /\
    0 <= sumz bf_allocation_size mid <= alloc.
Proof.
  intros Hk Hmax Hc. unfold place. destruct (Z.eq_dec k 0) as [->|].
  - rewrite Z.add_0_r in Hc. cbn. intros [= <-]. exists []. cbn. rewrite !Z.add_0_r. split_and!; try done; [|by intros ? ?%elem_of_nil|lia].
    intros y. split; [by intros ?%holds_nil|lia].
  - rewrite is_nil_slice by lia. intros H. outcome_inv. subst. exists [Buffer.new o (slice o k) alloc].
    assert (bf_len (Buffer.new o (slice o k) alloc) = k) as Hl by (unfold bf_len; cbn; by rewrite zlen_slice by lia).
    cbn [sumz app chain]. unfold bf_end. fold (bf_len (Buffer.new o (slice o k) alloc)). rewrite Hl, !Z.add_0_r.
    cbn. split; [by rewrite zlen_slice by lia|]. split; [split; [done|split; [|done]]|].
    + split; cbn; rewrite ?Hl; try done; [lia|]. unfold bf_end. cbn. rewrite zlen_slice; lia.
    + split; [|split; [|lia]].
      * intros y. rewrite holds_cons. unfold bf_end. cbn. rewrite zlen_slice by lia.
        split; [intros [?|?%holds_nil]; done|auto].
      * intros b ->%list_elem_of_singleton. cbn. rewrite zlen_slice; lia.
Qed.

(** What [insert] does to the data, when it returns: the invariant is kept,
    nothing but the frame's bytes is added, all of them that were not read are
    there, and what was buffered stays unless a buffer straddles the start of
    the frame. *)
Lemma insert_inv offset n alloc a a' : asm_inv a -> 0 <= offset -> 0 <= n <= alloc -> offset + n <= VARINT_MAX ->
  Assembler.insert offset (slice offset n) alloc a = Ret a' ->
  asm_inv a' /\ bytes_read a' = bytes_read a /\ allocated a' <= allocated a + alloc /\
  (forall y, holds (a_data a') y -> holds (a_data a) y \/ offset <= y < offset + n) /\
  (forall y, offset <= y < offset + n -> bytes_read a <= y -> holds (a_data a') y) /\
  (no_straddle a (Z.max offset (bytes_read a)) -> forall y, holds (a_data a) y -> holds (a_data a') y) /\
  (forall b, b ∈ a_data a' -> b ∈ a_data a \/ offset <= bf_offset b /\ bf_end b <= offset + n).
Proof.
  intros Hi Ho Hn Hmax. pose proof Hi as [Hst Hc Hb Ha Hr He Hbel].
  destruct (insert_cases offset n alloc a Hi Ho Hn Hmax) as [[Hc0 ->]|(m & pre & post & Hm & Hend & Heq & Hpre & _ & Hns & Hc2 & Hc1 & Hce & ->)].
  - intros [= <-]. unfold with_end; cbn. split_and!; try done; try lia.
    + split; cbn; try done; try lia. intros y Hy. specialize (Hbel y Hy). lia.
    + intros y Hy. by left.
    + intros b Hb'. by left.
  - set (o := Z.max offset (bytes_read a)) in *. intros H. outcome_inv.
    assert (Hm0 : 0 <= m) by lia. destruct (trim_next_inv _ _ _ _ _ _ _ Hc2 Hm0 Hv) as (k & gone & post' & -> & -> & Hk & Hcp & Hg & Hlast).
    rewrite Heq in *. rewrite !sumz_app in *.
    assert (Hcov : forall y, o <= y < o + m -> (o <= y < o + k) \/ holds post' y).
    { intros y Hy. destruct Hlast as [->|(b & rest & -> & ? & ?)]; [by left|].
      destruct (Z.lt_ge_cases y (o + k)); [left; lia|right]. apply holds_cons. left. lia. }
    assert (Hgone : no_straddle a o -> forall y, holds gone y -> o <= y < o + m).
    { intros Hs y (b & Hbg & Hy). specialize (Hg b Hbg). split; [|lia].
      specialize (Hns Hs). apply chain_app in Hns as [Hns _].
      pose proof (chain_offset_ge _ _ _ Hns Hbg). lia. }
    assert (Hpost' : forall y, holds post' y -> o <= y /\ y < a_end a).
    { intros y Hy. split; [pose proof (chain_holds_ge _ _ _ Hcp Hy); lia|].
      apply Hbel. apply holds_app. right. apply holds_app. by right. }
    assert (Hka : 0 <= k <= alloc) by lia. assert (Hkm : o + k <= VARINT_MAX) by lia.
    destruct (place_inv _ _ _ _ _ _ _ _ _ Hka Hkm Hcp H) as (mid & -> & Hcm & Hmid & Hin & Hal).
    assert (Hle : bytes_read a <= VARINT_MAX) by lia.
    destruct (chain_sum _ _ Hle Hc1) as [Hs1 Hs1'].
    assert (Hg0 : 0 <= sumz bf_allocation_size gone).
    { apply sumz_nonneg. intros b Hb'. assert (b ∈ gone ++ post') as Hbin by set_solver.
      pose proof (chain_ok _ _ _ Hc2 Hbin) as [_ ? _]. lia. }
    unfold with_end; cbn. split; [split; cbn; try done; try lia|split_and!; try done; try lia].
    + apply chain_app. split; [done|]. by apply chain_mono with (lo := o).
    + rewrite !sumz_app. lia.
    + rewrite !sumz_app. lia.
    + intros y Hy. specialize (Hbel y). rewrite !holds_app in Hy, Hbel. rewrite Hmid in Hy. 
      destruct Hy as [Hy|[Hy|Hy]]; [|lia|]; (assert (y < a_end a) by tauto; lia).
    + intros y. rewrite !holds_app, Hmid. intros [?|[?|?]]; [tauto|right; lia|tauto].
    + intros y Hy Hy'. rewrite !holds_app, Hmid. destruct (Hcov y); [lia|tauto|tauto].
    + intros Hs y. rewrite !holds_app, Hmid. intros [?|[Hy|?]]; [tauto| |tauto].
      destruct (Hcov y) as [?|?]; [by apply Hgone|tauto|tauto].
    + intros b. rewrite !elem_of_app. intros [?|[Hb'%Hin|?]]; [tauto|right; lia|tauto].
Qed.

Lemma insert_total offset n alloc a : asm_inv a -> 0 <= offset -> 0 <= n <= alloc -> offset + n <= VARINT_MAX ->
  no_straddle a (Z.max offset (bytes_read a)) -> allocated a + alloc < U64 ->
  exists a', Assembler.insert offset (slice offset n) alloc a = Ret a'.
Proof.
  intros Hi Ho Hn Hmax Hs Hal. pose proof Hi as [Hst Hc Hb Ha Hr He Hbel].
  destruct (insert_cases offset n alloc a Hi Ho Hn Hmax)
    as [[_ ->]|(m & pre & post & Hm & Hend & Heq & Hpre & _ & Hns & Hc2 & Hc1 & Hce & ->)]; [by eexists|].
  set (o := Z.max offset (bytes_read a)) in *. specialize (Hns Hs). rewrite Heq, sumz_app in *.
  assert (Hle : bytes_read a <= VARINT_MAX) by lia. destruct (chain_sum _ _ Hle Hc) as [Hsum _].
  rewrite sumz_app in Hsum. destruct (chain_sum _ _ Hle Hc1) as [Hs1 Hs1'].
  assert (Hm0 : 0 <= m) by lia. assert (Ho0 : 0 <= o) by lia.
  destruct (trim_next_total o m (buffered a) (allocated a) post Hns Ho0 Hm0) as (t & Ht); [lia|lia|].
  rewrite Ht. cbn [obind].
  destruct (trim_next_inv _ _ _ _ _ _ _ Hns Hm0 Ht) as (k & gone & post' & -> & -> & Hk & Hcp & Hg & _).
  assert (0 <= sumz bf_allocation_size gone /\ 0 <= sumz bf_len gone) as [Hg1 Hg2].
  { split; apply sumz_nonneg; intros b Hb'; assert (b ∈ gone ++ post') as Hin by set_solver;
      pose proof (chain_ok _ _ _ Hns Hin) as [_ ? _]; lia. }
  unfold place. destruct (Assembler.is_nil _); [by eexists|]. rewrite zlen_slice by lia.
  rewrite u64_add_ok by varint_lia. cbn [obind]. rewrite u64_add_ok by lia. by eexists.
Qed.
(** *** [read] *)

(** A buffer without its first [k] bytes. *)
Lemma buffer_tail k c : buffer_ok c -> 0 <= k < bf_len c ->
  let tail := mkBuffer (bf_offset c + k) (drop (Z.to_nat k) (bf_bytes c)) (bf_allocation_size c)
    (bf_defragmented c) in
  buffer_ok tail /\ bf_end tail = bf_end c /\ bf_len tail = bf_len c - k.
Proof.
  intros [Hb Hl He] Hk tail.
  assert (Hlen : bf_len tail = bf_len c - k) by (apply zlen_drop; unfold bf_len in Hk; lia).
  assert (Hend : bf_end tail = bf_end c) by (unfold bf_end; fold (bf_len tail) (bf_len c); rewrite Hlen; cbn; lia).
  split; [|done]. split; [|rewrite Hlen; cbn; lia|by rewrite Hend].
  rewrite Hlen. cbn. rewrite Hb at 1. by rewrite drop_slice by lia.
Qed.

Lemma read_spec max_length a : asm_inv a -> 0 <= max_length ->
  exists a' res, Assembler.read max_length true a = Ret (a', res) /\ asm_inv a' /\
    allocated a' <= allocated a /\
    (forall b, b ∈ a_data a' -> exists b', b' ∈ a_data a /\ bf_offset b' <= bf_offset b /\ bf_end b = bf_end b') /\
    match res with
    | None => a' = a /\ ~ holds (a_data a) (bytes_read a)
    | Some c =>
        let n := zlen (ch_bytes c) in
        c = mkChunk (bytes_read a) (slice (bytes_read a) n) /\ n <= max_length /\ (0 < max_length -> 0 < n) /\
        bytes_read a' = bytes_read a + n /\
        (forall y, holds (a_data a) y <-> bytes_read a <= y < bytes_read a' \/ holds (a_data a') y)
    end.
Proof.
  intros Hi Hmax. pose proof Hi as [Hst Hc Hb Ha Hr He Hbel]. unfold Assembler.read. cbn [negb].
  destruct (a_data a) as [|c rest] eqn:Hdata.
  { exists a, None. rewrite Hdata. split_and!; try done; [intros b ?; by exists b|apply holds_nil]. }
  destruct Hc as (Hlo & [Hcb Hcl Hce] & Hcr). pose proof (chain_sum _ _ Hce Hcr) as Hsum.
  assert (Hrest : forall y, holds rest y -> bf_end c <= y < a_end a).
  { intros y Hy. split; [by apply (chain_holds_ge _ _ _ Hcr)|apply Hbel, holds_cons; by right]. }
  destruct (Z.eqb_spec (bf_offset c) (bytes_read a)) as [Heq|Hne]; cbn [negb].
  2: { exists a, None. rewrite Hdata. split_and!; try done; [intros b ?; by exists b|].
    intros [?|Hy%Hrest]%holds_cons; unfold bf_end, bf_len in *; lia. }
  assert (Hcend : bf_end c <= a_end a).
  { assert (bf_end c - 1 < a_end a); [|lia]. apply Hbel, holds_cons. left. unfold bf_end, bf_len in *. lia. }
  cbn [sumz] in *. unfold bf_end, bf_len in *. destruct (Z.ltb_spec max_length (zlen (bf_bytes c))).
  - rewrite !u64_add_ok by varint_lia. cbn [obind].
    rewrite u64_sub_ok by lia. cbn [obind]. eexists _, (Some _). split; [done|].
    destruct (buffer_tail max_length c) as (Htok & Hte & Htl); [done|unfold bf_len; lia|].
    set (tail := mkBuffer (bf_offset c + max_length) (drop (Z.to_nat max_length) (bf_bytes c))
      (bf_allocation_size c) (bf_defragmented c)) in *.
    cbn [ch_bytes bytes_read a_data allocated]. rewrite zlen_take by lia.
    assert (Hh : forall y, holds (c :: rest) y <->
      (bytes_read a <= y < bytes_read a + max_length) \/ holds (tail :: rest) y).
    { intros y. rewrite !holds_cons, Hte. unfold bf_end. cbn. intuition lia. }
    split; [|split; [lia|split; [|split_and!; try done; try lia]]].
    + split; cbn [a_state a_data buffered allocated bytes_read a_end chain sumz]; try done; try lia.
      * rewrite Hte. split; [cbn; lia|done].
      * rewrite Htl. unfold bf_len in *. lia.
      * intros y Hy. apply Hbel, Hh. by right.
    + intros b [->|Hin]%elem_of_cons; [exists c; split; [set_solver|unfold bf_end in Hte; cbn in *; lia]|exists b; split; [set_solver|lia]].
    + f_equal; [done|]. rewrite Hcb at 1. rewrite take_slice, Heq by lia. done.
  - rewrite u64_add_ok by varint_lia. cbn [obind]. rewrite u64_sub_ok by lia. cbn [obind].
    rewrite u64_sub_ok by lia. cbn [obind]. eexists _, (Some _). split; [done|].
    cbn [ch_bytes bytes_read a_data allocated].
    split; [|split; [lia|split; [|split_and!; try done; try lia]]].
    + split; cbn [a_state a_data buffered allocated bytes_read a_end]; try done; try lia.
      * by rewrite <- Heq.
      * unfold bf_len in Hb |- *. lia.
      * intros y Hy. apply Hrest in Hy. lia.
    + intros b Hin. exists b. split; [set_solver|lia].
    + f_equal; [done|]. by rewrite Hcb at 1; rewrite Heq.
    + intros y. rewrite holds_cons. unfold bf_end. rewrite Heq. tauto.
Qed.
(** *** Sequences of frames and reads *)

(** A frame with [n] bytes of the stream from [offset] on, whose packet had
    [alloc] bytes; or a call of [read] by the application. *)
Inductive asm_op := OpInsert (offset n alloc : Z) | OpRead (max_length : Z).

Fixpoint asm_run (ops : list asm_op) (a : Assembler) : outcome (Assembler * list Z) :=
  match ops with
  | [] => Ret (a, [])
  | OpInsert offset n alloc :: ops =>
      let! a := Assembler.insert offset (slice offset n) alloc a in asm_run ops a
  | OpRead max_length :: ops =>
      let! '(a, c) := Assembler.read max_length true a in
      let! '(a, out) := asm_run ops a in
      Ret (a, match c with Some c => ch_bytes c ++ out | None => out end)
  end.

Definition op_ok (op : asm_op) : Prop :=
  match op with
  | OpInsert offset n alloc => 0 <= offset /\ 0 <= n <= alloc /\ offset + n <= VARINT_MAX
  | OpRead max_length => 0 <= max_length
  end.

(** The offsets the frames bring. *)
Definition received (ops : list asm_op) (y : Z) : Prop :=
  exists offset n alloc, OpInsert offset n alloc ∈ ops /\ offset <= y < offset + n.

(** No frame starts inside another one: the peer sends the stream again in the
    pieces it used the first time. *)
Definition no_reframe (ops : list asm_op) : Prop :=
  forall o n al o' n' al', OpInsert o n al ∈ ops -> OpInsert o' n' al' ∈ ops -> ~ (o < o' < o + n).

Fixpoint total_alloc (ops : list asm_op) : Z :=
  match ops with
  | [] => 0
  | OpInsert _ _ alloc :: ops => alloc + total_alloc ops
  | OpRead _ :: ops => total_alloc ops
  end.

Lemma received_cons op ops y : received (op :: ops) y <->
  (exists offset n alloc, op = OpInsert offset n alloc /\ offset <= y < offset + n) \/ received ops y.
Proof. unfold received. setoid_rewrite elem_of_cons. naive_solver. Qed.

Lemma asm_run_safe ops a a' out : Forall op_ok ops -> asm_inv a -> asm_run ops a = Ret (a', out) ->
  asm_inv a' /\ bytes_read a' = bytes_read a + zlen out /\ out = slice (bytes_read a) (zlen out) /\
  (forall y, bytes_read a <= y < bytes_read a' \/ holds (a_data a') y -> holds (a_data a) y \/ received ops y).
Proof.
  intros Hops. revert a out. induction Hops as [|op ops Hop _ IH]; intros a out Hi; cbn [asm_run].
  { intros [= -> <-]. cbn. split_and!; try done; [rewrite zlen_nil; lia|]. intros y [?|?]; [lia|by left]. }
  destruct op as [offset n alloc|m]; cbn in Hop; cbn [asm_run]; intros H; outcome_inv.
  - destruct Hop as (? & ? & ?).
    destruct (insert_inv offset n alloc a v) as (Hi' & Hb & _ & Hnew & _); [done..|].
    destruct (IH _ _ Hi' H) as (? & Hb' & Hout & Hrec). rewrite Hb in *. split_and!; try done.
    intros y Hy. rewrite received_cons. destruct (Hrec y Hy) as [[?|?]%Hnew|?]; [by left|right; left; eauto 10|tauto].
  - destruct (read_spec m a Hi Hop) as (a1 & c & Hread & Hi1 & _ & _ & Hc). rewrite Hread in Hv.
    injection Hv as <-. outcome_inv. destruct v as [a2 out']. injection H as -> <-.
    destruct (IH _ _ Hi1 Hv) as (? & Hb' & Hout & Hrec). pose proof (zlen_nonneg out').
    destruct c as [c|].
    + destruct Hc as (Hc & _ & _ & Hb1 & Hh). set (k := zlen (ch_bytes c)) in *.
      assert (0 <= k) by (unfold k; apply zlen_nonneg). rewrite zlen_app. fold k. split_and!; try done; try lia.
      * rewrite slice_app by lia. f_equal; [by rewrite Hc at 1|]. by rewrite Hout at 1; rewrite Hb1.
      * intros y Hy. rewrite received_cons. destruct (Z.lt_ge_cases y (bytes_read a1)).
        { destruct Hy as [?|Hy]; [left; apply Hh; left; lia|]. destruct (Hrec y); [by right| |tauto].
          left. apply Hh. by right. }
        destruct (Hrec y) as [?|?]; [destruct Hy; [left; lia|tauto]|left; apply Hh; by right|tauto].
    + destruct Hc as [-> _]. split_and!; try done. intros y Hy. rewrite received_cons. destruct (Hrec y Hy); tauto.
Qed.

(** What [no_reframe] needs: every buffer is a piece of one frame. *)
Definition pieces (ops : list asm_op) (a : Assembler) : Prop :=
  forall b, b ∈ a_data a -> exists o n al, OpInsert o n al ∈ ops /\ o <= bf_offset b /\ bf_end b <= o + n.

Lemma pieces_no_straddle ops a offset n alloc : asm_inv a -> pieces ops a -> no_reframe ops ->
  OpInsert offset n alloc ∈ ops -> no_straddle a (Z.max offset (bytes_read a)).
Proof.
  intros Hi Hp Hn Hin b Hb Hs. destruct (Hp b Hb) as (o & n' & al & Ho & ? & ?).
  pose proof (chain_offset_ge _ _ _ (ai_chain a Hi) Hb). apply (Hn _ _ _ _ _ _ Ho Hin). lia.
Qed.

Lemma asm_run_total all ops a : Forall op_ok ops -> asm_inv a -> no_reframe all -> (forall op, op ∈ ops -> op ∈ all) ->
  pieces all a -> allocated a + total_alloc ops < U64 ->
  exists a' out, asm_run ops a = Ret (a', out) /\ pieces all a' /\ allocated a' <= allocated a + total_alloc ops /\
    (forall y, holds (a_data a) y \/ received ops y -> y < bytes_read a' \/ holds (a_data a') y).
Proof.
  intros Hops. revert a. induction Hops as [|op ops Hop Hops IH]; intros a Hi Hn Hsub Hp Hal; cbn [asm_run total_alloc].
  { exists a, []. split_and!; try done; [cbn; lia|]. intros y [?|(o & n & al & ?%elem_of_nil & _)]; [by right|done]. }
  destruct op as [offset n alloc|m]; cbn in Hop, Hal; cbn [asm_run total_alloc].
  - destruct Hop as (? & ? & ?). assert (Hin : OpInsert offset n alloc ∈ all) by (apply Hsub; by left).
    assert (0 <= total_alloc ops).
    { clear -Hops. induction Hops as [|[]]; cbn in *; lia. }
    pose proof (pieces_no_straddle _ _ _ _ _ Hi Hp Hn Hin) as Hs.
    destruct (insert_total offset n alloc a) as [a1 Hins]; [done..|lia|]. rewrite Hins. cbn [obind].
    destruct (insert_inv offset n alloc a a1) as (Hi1 & Hb & Hal1 & Hnew & Hall & Hkeep & Hbuf); [done..|].
    destruct (IH a1) as (a' & out & Hrun & Hp' & Hal' & Hh); [done|done|intros ??; apply Hsub; by right| |lia|].
    { intros b [?|[? ?]]%Hbuf; [by apply Hp|by exists offset, n, alloc]. }
    exists a', out. split_and!; try done; [lia|]. intros y Hy. 
    destruct (asm_run_safe ops a1 a' out Hops Hi1 Hrun) as (_ & Hb' & _). pose proof (zlen_nonneg out).
    rewrite received_cons in Hy. destruct Hy as [Hy|[(o & k & al & [= <- <- <-] & Hy)|Hy]]; [|..|by apply Hh; right].
    + apply Hh. left. by apply Hkeep.
    + destruct (Z.lt_ge_cases y (bytes_read a)); [left; lia|]. apply Hh. left. by apply Hall.
  - destruct (read_spec m a Hi Hop) as (a1 & c & -> & Hi1 & Hal1 & Hbuf & Hc). cbn [obind].
    destruct (IH a1) as (a' & out & Hrun & Hp' & Hal' & Hh); [done|done|intros ??; apply Hsub; by right| |lia|].
    { intros b (b' & Hb' & ? & ?)%Hbuf. destruct (Hp b' Hb') as (o & n & al & ? & ? & ?). exists o, n, al. split; [done|lia]. }
    rewrite Hrun. cbn [obind]. eexists a', _. split; [done|]. split_and!; [done|lia|].
    destruct (asm_run_safe ops a1 a' out Hops Hi1 Hrun) as (_ & Hb' & _). pose proof (zlen_nonneg out).
    intros y Hy. rewrite received_cons in Hy.
    destruct Hy as [Hy|[(o & k & al & [=] & _)|Hy]]; [|by apply Hh; right].
    destruct c as [c|]; [|destruct Hc as [-> _]; apply Hh; by left].
    destruct Hc as (_ & _ & _ & ? & Hcov). apply Hcov in Hy as [?|?]; [left; lia|apply Hh; by left].
Qed.

(** Reading goes on as long as the next byte is there. *)
Lemma asm_read_all n N m a : asm_inv a -> 0 < m -> (forall y, bytes_read a <= y < N -> holds (a_data a) y) ->
  N <= bytes_read a + Z.of_nat n ->
  exists a' out, asm_run (replicate n (OpRead m)) a = Ret (a', out) /\ N <= bytes_read a'.
Proof.
  intros Hi Hm. revert a Hi. induction n as [|n IH]; intros a Hi Hh HN; cbn [replicate asm_run].
  { exists a, []. split; [done|lia]. }
  destruct (read_spec m a Hi ltac:(lia)) as (a1 & c & -> & Hi1 & _ & _ & Hc). cbn [obind].
  destruct c as [c|].
  - destruct Hc as (_ & _ & Hpos & Hb & Hcov). specialize (Hpos Hm).
    destruct (IH a1 Hi1) as (a' & out & -> & Hle).
    + intros y Hy. destruct (Hcov y) as [[?|?] _]; [apply Hh; lia|lia|done].
    + lia.
    + cbn [obind]. by eexists _, _.
  - destruct Hc as [-> Hno]. assert (N <= bytes_read a).
    { destruct (Z.le_gt_cases N (bytes_read a)); [done|]. destruct Hno. apply Hh. lia. }
    destruct (IH a Hi) as (a' & out & -> & Hle); [intros; lia|lia|]. cbn [obind]. by eexists _, _.
Qed.
End Stream.

(** ** Properties of the assembler *)

(** C26: The application reads the stream, in order and without gaps: whatever
    frames arrive, in whatever order and however they overlap, as long as they
    carry the peer's bytes, the concatenation of the chunks returned by the
    reads so far is exactly the prefix of the stream of length [bytes_read];
    the counters are exact; and only bytes that were received are delivered or
    buffered. *)
Theorem assembler_delivers_prefix (stream : Z -> Z) (ops : list asm_op) (a : Assembler) (out : list Z) :
  Forall op_ok ops -> asm_run stream ops Assembler_default = Ret (a, out) ->
  out = slice stream 0 (bytes_read a) /\ asm_inv stream a /\
  (forall y, 0 <= y < bytes_read a \/ holds (a_data a) y -> received ops y).
Proof.
  intros Hops Hrun. destruct (asm_run_safe stream ops _ _ _ Hops (asm_inv_default stream) Hrun) as (Hi & Hb & Hout & Hrec).
  cbn in *. split_and!; try done; [by rewrite Hout at 1; rewrite Hb|].
  intros y Hy. destruct (Hrec y Hy) as [?%holds_nil|?]; done.
Qed.

(** A stream and frames that arrive out of order, twice and overlapping. *)
Definition sample_stream (y : Z) : Z := (3 * y + 1) mod 256.
Definition sample_ops : list asm_op :=
  [OpInsert 4 4 10; OpRead 3; OpInsert 8 4 9; OpInsert 0 4 10; OpRead 3; OpInsert 0 12 20; OpRead 100; OpRead 100].

Lemma sample_ops_ok : Forall op_ok sample_ops.
Proof. repeat constructor; cbn; (lia || (vm_compute; congruence)). Qed.

Lemma assembler_delivers_prefix_witness :
  exists a out, asm_run sample_stream sample_ops Assembler_default = Ret (a, out) /\
    out = slice sample_stream 0 (bytes_read a) /\ bytes_read a = 12.
Proof.
  eexists _, _. split; [vm_compute; reflexivity|]. split; [|reflexivity].
  eapply (assembler_delivers_prefix sample_stream sample_ops).
  - exact sample_ops_ok.
  - vm_compute. reflexivity.
Defined.

(** C27: Nothing that was received is lost when the peer sends the stream again
    in the pieces it used before (no frame starts strictly inside another):
    the assembler never panics, every received byte was read or is buffered,
    and once a whole prefix of the stream has been received, as many reads as
    it has bytes deliver all of it. *)
Theorem assembler_complete (stream : Z -> Z) (ops : list asm_op) :
  Forall op_ok ops -> no_reframe ops -> total_alloc ops < U64 ->
  exists a out, asm_run stream ops Assembler_default = Ret (a, out) /\
    (forall y, received ops y -> y < bytes_read a \/ holds (a_data a) y) /\
    (forall n m, 0 < m -> (forall y, 0 <= y < Z.of_nat n -> received ops y) ->
      exists a' out', asm_run stream (replicate n (OpRead m)) a = Ret (a', out') /\
        Z.of_nat n <= bytes_read a' /\ out ++ out' = slice stream 0 (bytes_read a')).
Proof.
  intros Hops Hn Hal. pose proof (asm_inv_default stream) as Hi0.
  destruct (asm_run_total stream ops ops Assembler_default Hops Hi0 Hn) as (a & out & Hrun & _ & _ & Hh); [done| |done|].
  { by intros b ?%elem_of_nil. }
  destruct (asm_run_safe stream ops _ _ _ Hops Hi0 Hrun) as (Hi & Hb & Hout & _). cbn in Hb, Hout.
  exists a, out. split; [done|]. split; [intros y Hy; apply Hh; by right|]. intros n m Hm Hall.
  destruct (asm_read_all stream n (Z.of_nat n) m a Hi Hm) as (a' & out' & Hrun' & Hle).
  - intros y Hy. destruct (Hh y) as [?|?]; [right; apply Hall; pose proof (zlen_nonneg out); lia|lia|done].
  - pose proof (zlen_nonneg out). lia.
  - exists a', out'. split_and!; try done.
    assert (Hreads : Forall op_ok (replicate n (OpRead m))) by (apply Forall_replicate; cbn; lia).
    destruct (asm_run_safe stream _ _ _ _ Hreads Hi Hrun') as (_ & Hb' & Hout' & _).
    rewrite Hb', Hb, Z.add_0_l. pose proof (zlen_nonneg out). pose proof (zlen_nonneg out').
    rewrite slice_app by lia. rewrite Hb in Hout'. by rewrite Hout at 1; rewrite Hout' at 1.
Qed.

Definition aligned_ops : list asm_op := [OpInsert 4 4 10; OpRead 3; OpInsert 0 4 10; OpInsert 4 8 10; OpRead 5].

Lemma assembler_complete_witness :
  exists a out, asm_run sample_stream aligned_ops Assembler_default = Ret (a, out) /\
    (forall y, received aligned_ops y -> y < bytes_read a \/ holds (a_data a) y).
Proof.
  destruct (assembler_complete sample_stream aligned_ops) as (a & out & H & Hh & _).
  - repeat constructor; cbn; (lia || (vm_compute; congruence)).
  - unfold no_reframe, aligned_ops. intros o n al o' n' al' H1 H2.
    repeat (apply elem_of_cons in H1 as [H1|H1]; [|]); repeat (apply elem_of_cons in H2 as [H2|H2]; [|]);
      try (by apply elem_of_nil in H1); try (by apply elem_of_nil in H2); try discriminate H1; try discriminate H2;
      injection H1 as -> -> ->; injection H2 as -> -> ->; lia.
  - vm_compute. reflexivity.
  - exists a, out. split; [exact H|exact Hh].
Defined.

(** A frame that starts inside a buffered one is mishandled, although a
    peer may cut the stream anew when it sends it again: when the frame ends
    inside the buffer too, [insert] underflows; when it reaches to the end of
    the buffer or beyond, the whole buffer is discarded, and its first byte,
    which was received, is neither buffered nor read. *)
Theorem assembler_reframe_defect (stream : Z -> Z) (a : Assembler) (b : Buffer) (offset n alloc : Z) :
  asm_inv stream a -> b ∈ a_data a -> bf_offset b < offset -> offset < bf_end b ->
  0 < n <= alloc -> offset + n <= VARINT_MAX ->
  (offset + n < bf_end b -> Assembler.insert offset (slice stream offset n) alloc a = Panic) /\
  (bf_end b <= offset + n -> forall a', Assembler.insert offset (slice stream offset n) alloc a = Ret a' ->
     holds (a_data a) (bf_offset b) /\ ~ holds (a_data a') (bf_offset b) /\ bytes_read a' <= bf_offset b).
Proof.
  intros Hi Hb Hlo Hhi Hn Hmax. pose proof (ai_chain _ a Hi) as Hc. pose proof (ai_read _ a Hi) as Hr.
  pose proof (chain_offset_ge _ _ _ _ Hc Hb) as Hbr.
  destruct (insert_cases stream offset n alloc a Hi ltac:(lia) ltac:(lia) Hmax)
    as [[[?|?] _]|(m & pre & post & Hm & Hend & Heq & Hpre & Hpost & _ & Hc2 & Hc1 & Hce & Hins)]; [lia|lia|].
  rewrite Z.max_l in * by lia. assert (m = n) as -> by lia.
  assert (exists rest, post = b :: rest) as [rest ->].
  { rewrite Heq in Hb. apply elem_of_app in Hb as [Hb|Hb]; [apply Hpre in Hb; lia|].
    destruct post as [|c rest]; [by apply elem_of_nil in Hb|]. specialize (Hpost c rest eq_refl).
    apply elem_of_cons in Hb as [->|Hb]; [by exists rest|]. destruct Hc2 as (_ & _ & Hc2).
    pose proof (chain_offset_ge _ _ _ _ Hc2 Hb). lia. }
  destruct Hc2 as (Hlo2 & [_ Hlen Hbend] & Hc2). split.
  - intros Hin. rewrite Hins. cbn [Assembler.trim_next]. unfold bf_end, bf_len in *.
    rewrite u64_add_ok by varint_lia. cbn [obind].
    destruct (Z.leb_spec (offset + n) (bf_offset b)); [lia|].
    destruct (Z.leb_spec (bf_offset b + zlen (bf_bytes b)) (offset + n)); [lia|].
    unfold u64_sub. by destruct (Z.leb_spec offset (bf_offset b)); [lia|].
  - intros Hend' a' Hret. destruct (insert_inv stream offset n alloc a a' Hi) as (_ & Hbr' & _); [lia|lia|done..|].
    split; [exists b; unfold bf_end, bf_len in *; split; [done|lia]|]. split; [|lia].
    rewrite Hins in Hret. outcome_inv. assert (Hn0 : 0 <= n) by lia.
    assert (Hcb : chain stream (chain_end (bytes_read a) pre) (b :: rest)) by (split; [done|split; [by apply (chain_ok stream _ _ _ Hc)|done]]).
    destruct (trim_next_inv stream _ _ _ _ _ _ _ Hcb Hn0 Hv) as (k & gone & post' & -> & Hsplit & Hk & Hcp & _ & Hlast).
    assert (Hka : 0 <= k <= alloc) by lia. assert (Hkm : offset + k <= VARINT_MAX) by lia.
    destruct (place_inv stream _ _ _ _ _ _ _ _ _ Hka Hkm Hcp Hret) as (mid & -> & Hcm & _). cbn.
    intros [Hh|Hh]%holds_app.
    + pose proof (chain_holds_lt _ _ _ _ Hc1 Hh). lia.
    + pose proof (chain_holds_ge _ _ _ _ Hcm Hh). lia.
Qed.

Definition one_buffer : Assembler := mkAssembler Ordered [mkBuffer 0 (slice sample_stream 0 10) 10 false] 10 10 0 10.

Lemma one_buffer_inv : asm_inv sample_stream one_buffer.
Proof.
  split; try done. intros y [Hy|?%holds_nil]%holds_cons; [|done].
  change (0 <= y < 10) in Hy. cbn. lia.
Qed.

Lemma assembler_reframe_defect_witness :
  Assembler.insert 2 (slice sample_stream 2 3) 3 one_buffer = Panic.
Proof.
  apply (assembler_reframe_defect sample_stream one_buffer (mkBuffer 0 (slice sample_stream 0 10) 10 false) 2 3 3).
  - exact one_buffer_inv.
  - left.
  - reflexivity.
  - reflexivity.
  - split; [reflexivity|discriminate].
  - vm_compute. discriminate.
  - reflexivity.
Defined.

(** ** The life of a receive stream *)

Inductive recv_event :=
| RvIngest (frame : Stream) (payload_len : Z)
| RvReset (error_code final : Z)
| RvStop.

(** One event: the new state, and the number of new bytes it reports. *)
Definition recv_step (ev : recv_event) (r : Recv) : outcome (Recv * Z) :=
  match ev with
  | RvIngest frame payload_len =>
      let! '(r, res) := Recv.ingest frame payload_len r in
      Ret (r, match res with Ok (new_bytes, _) => new_bytes | Err _ => 0 end)
  | RvReset error_code final => Ret (fst (Recv.reset error_code final r), 0)
  | RvStop => let! '(r, _) := Recv.stop r in Ret (r, 0)
  end.

Fixpoint recv_run (evs : list recv_event) (r : Recv) : outcome (Recv * Z) :=
  match evs with
  | [] => Ret (r, 0)
  | ev :: evs =>
      let! '(r, n) := recv_step ev r in
      let! '(r, m) := recv_run evs r in Ret (r, n + m)
  end.

(** What never changes back, with the number of new bytes in between. *)
Record recv_le (r r' : Recv) (n : Z) : Prop := {
  rl_credit : n = r_end r' - r_end r /\ 0 <= n;
  rl_final : forall f, Recv.final_offset r = Some f -> Recv.final_offset r' = Some f;
  rl_bounded : forall f, Recv.final_offset r = Some f -> r_end r <= f -> r_end r' <= f;
  rl_reset : Recv.is_receiving r = false -> r_state r' = r_state r;
  rl_stopped : stopped r = true -> stopped r' = true /\
    (a_data (assembler r) = [] -> a_data (assembler r') = []);
}.

Lemma recv_le_refl r : recv_le r r 0.
Proof. split; try done. lia. Qed.

Lemma recv_le_trans r1 r2 r3 n m : recv_le r1 r2 n -> recv_le r2 r3 m -> recv_le r1 r3 (n + m).
Proof.
  intros [H1 H2 H3 H4 H5] [K1 K2 K3 K4 K5]. split; [lia|auto| | |].
  - intros f Hf Hle. apply (K3 f); auto.
  - intros Hn. rewrite K4; [auto|]. unfold Recv.is_receiving in *. by rewrite (H4 Hn).
  - intros Hs. destruct (H5 Hs) as [Hs2 Hd2]. destruct (K5 Hs2). auto.
Qed.

(** [ingest] of a frame that ends at [e]: which frames are refused, and what
    the others do. *)
Lemma ingest_cases frame payload_len r r' res : Recv.ingest frame payload_len r = Ret (r', res) ->
  let e := st_offset frame + zlen (st_data frame) in
  (2 ^ 62 <= e /\ r' = r /\ exists why, res = Err (transport_error TransportErrorCode.FLOW_CONTROL_ERROR why)) \/
  (e < 2 ^ 62 /\ (exists f, Recv.final_offset r = Some f /\ (f < e \/ (st_fin frame = true /\ e <> f))) /\
    r' = r /\ exists why, res = Err (transport_error TransportErrorCode.FINAL_SIZE_ERROR why)) \/
  (e < 2 ^ 62 /\ (forall f, Recv.final_offset r = Some f -> e <= f /\ (st_fin frame = true -> e = f)) /\
    res = Ok (Z.max 0 (e - r_end r), st_fin frame && stopped r) /\
    r_end r' = Z.max (r_end r) e /\ stopped r' = stopped r /\
    (stopped r = true -> assembler r' = assembler r) /\
    (stopped r = false -> Assembler.insert (st_offset frame) (st_data frame) payload_len (assembler r) = Ret (assembler r')) /\
    r_state r' = match r_state r with
      | RsRecv size => if st_fin frame && negb (stopped r) then RsRecv (Some e) else RsRecv size
      | st => st end).
Proof.
  unfold Recv.ingest. intros H. cbv zeta. outcome_inv. subst. 
  set (e := st_offset frame + zlen (st_data frame)) in *.
  destruct (Z.leb_spec (2 ^ 62) e); [left; simplify_eq; eauto|]. right.
  destruct (match Recv.final_offset r with Some final => _ | None => _ end) eqn:Hf.
  { left. split; [lia|]. destruct (Recv.final_offset r) as [f|]; [|done]. simplify_eq.
    split; [exists f|by eauto]. split; [done|].
    destruct (Z.ltb_spec f e); [by left|]. right. destruct (st_fin frame); [split; [done|lia]|done]. }
  right. outcome_inv. simplify_eq. split; [lia|]. cbn. split_and!; try done.
  - intros f Hf'. rewrite Hf' in Hf. apply orb_false_iff in Hf as [? Hf]. split; [lia|]. intros Hfin.
    rewrite Hfin in Hf. cbn in Hf. lia.
  - intros Hs. rewrite Hs in Hv. cbn in Hv. by outcome_inv.
  - intros Hs. by rewrite Hs in Hv.
Qed.

Lemma ingest_le frame payload_len r r' res : Recv.ingest frame payload_len r = Ret (r', res) ->
  recv_le r r' (match res with Ok (new_bytes, _) => new_bytes | Err _ => 0 end).
Proof.
  intros H. destruct (ingest_cases _ _ _ _ _ H) as [(_ & -> & why & ->)|[(_ & _ & -> & why & ->)|(He & Hf & -> & Hend & Hs & Ha & _ & Hst)]];
    [apply recv_le_refl..|]. set (e := st_offset frame + zlen (st_data frame)) in *.
  split; unfold Recv.final_offset, Recv.is_receiving in *; rewrite ?Hend, ?Hst.
  - lia.
  - intros f Hf'. destruct (r_state r) as [size|]; [|done]. destruct (Hf f Hf') as [_ Hfin].
    destruct (st_fin frame), (stopped r); cbn; try done. by rewrite Hfin.
  - intros f Hf' ?. destruct (Hf f Hf'). lia.
  - by destruct (r_state r).
  - intros Hs'. rewrite Hs. split; [done|]. by rewrite Ha.
Qed.

Lemma reset_le code final r : recv_le r (fst (Recv.reset code final r)) 0.
Proof.
  unfold Recv.reset, Recv.final_offset. destruct (r_state r) as [size|f c] eqn:Hst.
  - destruct size as [f|].
    + destruct (Z.eqb_spec f final) as [->|]; cbn; [|apply recv_le_refl].
      split; unfold Recv.final_offset, Recv.is_receiving; cbn; rewrite ?Hst; try done. lia.
    + destruct (final <? r_end r); cbn; [apply recv_le_refl|].
      split; unfold Recv.final_offset, Recv.is_receiving; cbn; rewrite ?Hst; try done. lia.
  - destruct (negb (f =? final)); cbn; apply recv_le_refl.
Qed.

Lemma recv_step_le ev r r' n : recv_step ev r = Ret (r', n) -> recv_le r r' n.
Proof.
  destruct ev as [frame len|code final|]; cbn; intros H; outcome_inv.
  - destruct v as [r1 res]. injection H as <- <-. by apply ingest_le in Hv.
  - simplify_eq. apply reset_le.
  - destruct v as [r1 res]. injection H as <- <-. unfold Recv.stop in Hv.
    destruct (stopped r) eqn:Hs; [simplify_eq; apply recv_le_refl|]. outcome_inv. simplify_eq.
    split; cbn; rewrite ?Hs; try done. lia.
Qed.

(** The size of a receive stream is consistent, whatever frames arrive:
    once the final size is known it never changes, and no later frame is
    accepted beyond it; a reset is final; the new bytes reported to flow
    control add up to the growth of the highest offset, each byte counted
    once; a stopped stream stays stopped and buffers nothing more.  A frame is
    refused exactly when it ends beyond the largest stream offset or
    contradicts the final size, and then changes nothing. *)
Theorem recv_size_consistent (evs : list recv_event) (r r' : Recv) (n : Z) (frame : Stream) (len : Z) :
  recv_run evs r = Ret (r', n) ->
  recv_le r r' n /\
  (forall r'' res, Recv.ingest frame len r' = Ret (r'', res) ->
    let e := st_offset frame + zlen (st_data frame) in
    (exists err, res = Err err /\ r'' = r') <->
    (2 ^ 62 <= e \/ exists f, Recv.final_offset r' = Some f /\ (f < e \/ (st_fin frame = true /\ e <> f)))).
Proof.
  intros Hrun. split.
  - revert r n Hrun. induction evs as [|ev evs IH]; intros r n; cbn [recv_run].
    { intros [= <- <-]. apply recv_le_refl. }
    intros H. outcome_inv. destruct v as [r1 k]. outcome_inv. destruct v as [r2 m]. simplify_eq.
    apply (recv_le_trans _ r1); [by apply recv_step_le in Hv|auto].
  - intros r'' res H. destruct (ingest_cases _ _ _ _ _ H) as [(? & -> & why & ->)|[(? & ? & -> & why & ->)|(He & Hf & -> & _)]].
    + split; [tauto|eauto].
    + split; [tauto|eauto].
    + split; [intros (err & ? & _); done|]. intros [?|(f & Hf' & Hbad)]; [lia|].
      destruct (Hf f Hf') as [? Heq]. destruct Hbad as [?|[Hfin ?]]; [lia|]. by destruct (Heq Hfin).
Qed.

Definition fin_frame : Stream := {| st_id := 0; st_offset := 2; st_fin := true; st_data := [7; 8; 9] |}.
Definition first_frame : Stream := {| st_id := 0; st_offset := 0; st_fin := false; st_data := [4; 5; 6] |}.

Lemma recv_size_consistent_witness :
  exists r', recv_run [RvIngest fin_frame 10; RvStop; RvIngest first_frame 10; RvReset 1 9] Recv_default = Ret (r', 5) /\
    recv_le Recv_default r' 5 /\ Recv.final_offset r' = Some 5.
Proof.
  eexists. split; [vm_compute; reflexivity|]. split; [|reflexivity].
  eapply (recv_size_consistent [RvIngest fin_frame 10; RvStop; RvIngest first_frame 10; RvReset 1 9]
    Recv_default _ 5 first_frame 0).
  vm_compute. reflexivity.
Defined.

(** A FIN below the highest offset already received is accepted (RFC 9000
    asks for a FINAL_SIZE_ERROR), and the stream can then never be read to its
    end: the final size stays below the highest offset, and [next] never
    reports that the stream is finished, however much is read. *)
Theorem fin_below_high_water (frame : Stream) (len : Z) (r r' : Recv) res :
  r_state r = RsRecv None -> stopped r = false -> st_fin frame = true ->
  st_offset frame + zlen (st_data frame) < r_end r -> r_end r <= VARINT_MAX ->
  Recv.ingest frame len r = Ret (r', res) ->
  res = Ok (0, false) /\
  Recv.final_offset r' = Some (st_offset frame + zlen (st_data frame)) /\
  (forall rs max_length rd cs rd' out, r_state rs = r_state r' -> r_end rs = r_end r' ->
    Chunks.next max_length true (Readable rs) rd = Ret (cs, rd', out) ->
    out <> Ok None /\ exists rs', cs = Readable rs' /\ r_state rs' = r_state r' /\ r_end rs' = r_end r').
Proof.
  intros Hst Hs Hfin Hlow Hmax H.
  destruct (ingest_cases _ _ _ _ _ H) as [(? & _)|[(_ & (f & Hf & _) & _)|(He & _ & -> & Hend & _ & _ & _ & Hst')]].
  - unfold VARINT_MAX, VARINT_MAX_8 in Hmax. lia.
  - unfold Recv.final_offset in Hf. by rewrite Hst in Hf.
  - rewrite Hst, Hfin, Hs in Hst'. cbn in Hst'. split_and!.
    + rewrite Hfin, Hs. cbn. f_equal. f_equal. lia.
    + unfold Recv.final_offset. by rewrite Hst'.
    + intros rs m rd cs rd' out Hrs Hrend Hnext. unfold Chunks.next in Hnext. outcome_inv.
      destruct v as [asm [c|]]; cbn in Hnext; outcome_inv.
      * simplify_eq. split; [done|]. eexists. split; [done|]. by cbn.
      * rewrite Hrs, Hst' in Hnext. rewrite bool_decide_eq_false_2 in Hnext by (intros [=]; lia).
        cbn in Hnext. simplify_eq. split; [done|]. eexists. split; [done|]. cbn. split; congruence.
Qed.

Definition high_water : Recv := mkRecv (RsRecv None) (mkAssembler Ordered [] 0 0 10 10) 10 false.

Lemma fin_below_high_water_witness :
  exists r', Recv.ingest fin_frame 10 high_water = Ret (r', Ok (0, false)) /\ Recv.final_offset r' = Some 5.
Proof.
  eexists. split; [vm_compute; reflexivity|].
  eapply (fin_below_high_water fin_frame 10 high_water);
    [reflexivity|reflexivity|reflexivity|reflexivity|vm_compute; discriminate|vm_compute; reflexivity].
Defined.
