(* ===== verification/Streams.v ===== *)
(** * Streams: all streams of a connection ([core/src/connection/stream/state.rs])

    The table of send and receive streams, the queue of streams with data to
    send, the frames that arrive for a stream and the frames written for it.
    [HashMap]s are finite maps; the events sent to the application through the
    channel are the list [events], oldest first. *)
From S2P Require Import Prelude Buffers Varint Common RangeSet Frame Time ArrayRangeSet Packet Space Send Recv.

(** ** Data *)

(** [state.rs:431-452] *)
Record PendingStream := mkPendingStream { ps_priority : Z; ps_recency : Z; ps_id : StreamId }.
#[export] Instance PendingStream_eq_dec : EqDecision PendingStream.
Proof. solve_decision. Defined.

(** [state.rs:454-468], the heap as the list of its elements *)
Record PendingStreamsQueue := mkQueue {
  streams : list PendingStream;
  q_next : option PendingStream;
  q_recency : Z;
}.

(** [state.rs:520-533] *)
Inductive StreamEvent :=
| EvReadable (id : StreamId)
| EvFinished (id : StreamId)
| EvStopped (id : StreamId) (error_code : Z).
#[export] Instance StreamEvent_eq_dec : EqDecision StreamEvent.
Proof. solve_decision. Defined.

(** [mod.rs:1158-1178] *)
Inductive ConnectionError :=
| VersionMismatch
| ETransportError (e : TransportError)
| TransportClosed (c : TransportClose)
| ApplicationClosed (c : ApplicationClose)
| Reset.

(** [mod.rs:1189-1200] *)
Inductive Event :=
| Connected
| ConnectionLost (e : ConnectionError)
| EvStream (e : StreamEvent).

(** [state.rs:16-25]; [events] is the channel to the application, which the
    table shares with the connection *)
Record StreamsState := mkStreams {
  ss_side : Side;
  ss_send : gmap StreamId Send;
  ss_recv : gmap StreamId Recv;
  ss_next : Z * Z;
  ss_pending : PendingStreamsQueue;
  events : list Event;
}.

(** ** The queue *)
Module PendingStreamsQueue.
(** [state.rs:471-477] *)
Definition new : PendingStreamsQueue := mkQueue [] None U64_MAX.

(** The derived [Ord]: priority, then recency, then identifier. *)
Definition ps_cmp (a b : PendingStream) : comparison :=
  match ps_priority a ?= ps_priority b with
  | Eq =>
      match ps_recency a ?= ps_recency b with
      | Eq => ps_id a ?= ps_id b
      | c => c
      end
  | c => c
  end.

(** [BinaryHeap::pop]: a greatest element, and the others. *)
Fixpoint heap_pop (l : list PendingStream) : option (PendingStream * list PendingStream) :=
  match l with
  | [] => None
  | x :: l =>
      match heap_pop l with
      | None => Some (x, [])
      | Some (m, rest) =>
          match ps_cmp x m with
          | Lt => Some (m, x :: rest)
          | _ => Some (x, l)
          end
      end
  end.

(** [state.rs:479-488] *)
Definition reinsert_pending (id : StreamId) (priority : Z) (q : PendingStreamsQueue)
    : outcome PendingStreamsQueue :=
  let! _ := assert (match q_next q with None => true | Some _ => false end) in
  Ret (mkQueue (streams q) (Some (mkPendingStream priority (q_recency q) id)) (q_recency q)).

(** [state.rs:490-509] *)
Definition push_pending (id : StreamId) (priority : Z) (q : PendingStreamsQueue)
    : outcome PendingStreamsQueue :=
  let! r := u64_sub (q_recency q) 1 in
  Ret (mkQueue (mkPendingStream priority r id :: streams q) (q_next q) r).

(** [state.rs:511-513] *)
Definition pop (q : PendingStreamsQueue) : PendingStreamsQueue * option PendingStream :=
  match q_next q with
  | Some s => (mkQueue (streams q) None (q_recency q), Some s)
  | None =>
      match heap_pop (streams q) with
      | Some (m, rest) => (mkQueue rest None (q_recency q), Some m)
      | None => (q, None)
      end
  end.

(** [state.rs:515-517] *)
Definition iter (q : PendingStreamsQueue) : list PendingStream := option_list (q_next q) ++ streams q.
End PendingStreamsQueue.

(** ** The table *)
Module StreamsState.
(** [state.rs:28-37] *)
Definition new (side : Side) : StreamsState :=
  mkStreams side ∅ ∅ (0, 0) PendingStreamsQueue.new [].

(** [state.rs:39-41] *)
Definition send_event (e : StreamEvent) (s : StreamsState) : StreamsState :=
  mkStreams (ss_side s) (ss_send s) (ss_recv s) (ss_next s) (ss_pending s) (events s ++ [EvStream e]).

Definition with_send (m : gmap StreamId Send) (s : StreamsState) : StreamsState :=
  mkStreams (ss_side s) m (ss_recv s) (ss_next s) (ss_pending s) (events s).
Definition with_recv (m : gmap StreamId Recv) (s : StreamsState) : StreamsState :=
  mkStreams (ss_side s) (ss_send s) m (ss_next s) (ss_pending s) (events s).
Definition with_pending (q : PendingStreamsQueue) (s : StreamsState) : StreamsState :=
  mkStreams (ss_side s) (ss_send s) (ss_recv s) (ss_next s) q (events s).

(** [self.next[dir as usize]] *)
Definition next_of (d : Dir) (n : Z * Z) : Z := match d with Bi => n.1 | Uni => n.2 end.
Definition set_next (d : Dir) (x : Z) (n : Z * Z) : Z * Z :=
  match d with Bi => (x, n.2) | Uni => (n.1, x) end.

(** [state.rs:43-53] *)
Definition open (dir : Dir) (s : StreamsState) : outcome (StreamsState * StreamId) :=
  let index := next_of dir (ss_next s) in
  let! n := u64_add index 1 in
  let id := StreamId.new (ss_side s) dir index in
  let recv := match dir with Bi => <[id := Recv_default]> (ss_recv s) | Uni => ss_recv s end in
  Ret (mkStreams (ss_side s) (<[id := Send_default]> (ss_send s)) recv (set_next dir n (ss_next s))
         (ss_pending s) (events s), id).

(** [state.rs:55-73] *)
Definition validate_receive_id (id : StreamId) (s : StreamsState) : result unit TransportError :=
  if decide (ss_side s = StreamId.initiator id) then
    match StreamId.dir id with
    | Uni => Err (transport_error TransportErrorCode.STREAM_STATE_ERROR "illegal operation on send-only stream")
    | Bi =>
        if next_of Bi (ss_next s) <=? StreamId.index id
        then Err (transport_error TransportErrorCode.STREAM_STATE_ERROR "operation on unopened stream")
        else Ok tt
    end
  else Ok tt.

(** [state.rs:75-151] *)
Definition received (frame : Stream) (payload_len : Z) (s : StreamsState)
    : outcome (StreamsState * result unit TransportError) :=
  let id := st_id frame in
  match validate_receive_id id s with
  | Err e => Ret (s, Err e)
  | Ok _ =>
      let entry :=
        match ss_recv s !! id with
        | Some rs => Some rs
        | None =>
            if decide (StreamId.initiator id = ss_side s) then None
            else if (0 <? st_offset frame) || st_fin frame then None
            else Some Recv_default
        end in
      match entry with
      | None => Ret (s, Ok tt)
      | Some rs =>
          let s := with_recv (<[id := rs]> (ss_recv s)) s in
          if negb (Recv.is_receiving rs) then Ret (s, Ok tt)
          else
            let was_fin_unknown := Recv.final_offset_unknown rs in
            let! '(rs, res) := Recv.ingest frame payload_len rs in
            let s := with_recv (<[id := rs]> (ss_recv s)) s in
            match res with
            | Err e => Ret (s, Err e)
            | Ok (new_bytes, closed) =>
                if negb (stopped rs) then
                  if (0 <? new_bytes) || (st_fin frame && was_fin_unknown)
                  then Ret (send_event (EvReadable id) s, Ok tt)
                  else Ret (s, Ok tt)
                else if closed then Ret (with_recv (delete id (ss_recv s)) s, Ok tt)
                else Ret (s, Ok tt)
            end
      end
  end.

(** [state.rs:153-181] *)
Definition received_reset (frame : ResetStream) (s : StreamsState)
    : outcome (StreamsState * result unit TransportError) :=
  let id := rs_id frame in
  match validate_receive_id id s with
  | Err e => Ret (s, Err e)
  | Ok _ =>
      let rs := default Recv_default (ss_recv s !! id) in
      let '(rs, res) := Recv.reset (rs_error_code frame) (rs_final_offset frame) rs in
      let s := with_recv (<[id := rs]> (ss_recv s)) s in
      match res with
      | Err e => Ret (s, Err e)
      | Ok false => Ret (s, Ok tt)
      | Ok true =>
          if stopped rs then Ret (with_recv (delete id (ss_recv s)) s, Ok tt)
          else Ret (send_event (EvReadable id) s, Ok tt)
      end
  end.

(** [state.rs:183-213] *)
Definition received_stop_sending (frame : StopSending) (s : StreamsState)
    : StreamsState * result unit TransportError :=
  let id := ss_id frame in
  let error_code := ss_error_code frame in
  let refused :=
    if decide (StreamId.initiator id = ss_side s) then
      if next_of (StreamId.dir id) (ss_next s) <=? StreamId.index id
      then Some "STOP_SENDING on unopened stream"%string else None
    else if decide (StreamId.dir id = Uni) then Some "STOP_SENDING on recv-only stream"%string else None in
  match refused with
  | Some reason => (s, Err (transport_error TransportErrorCode.STREAM_STATE_ERROR reason))
  | None =>
      match ss_send s !! id with
      | None => (send_event (EvStopped id error_code) s, Ok tt)
      | Some ss =>
          let '(ss, first) := Send.try_stop error_code ss in
          let s := with_send (<[id := ss]> (ss_send s)) s in
          (if first then send_event (EvStopped id error_code) s else s, Ok tt)
      end
  end.

(** [state.rs:215-224] *)
Definition reset_acked (id : StreamId) (s : StreamsState) : StreamsState :=
  match ss_send s !! id with
  | Some ss => match state ss with ResetSent => with_send (delete id (ss_send s)) s | _ => s end
  | None => s
  end.

(** [state.rs:226-233] *)
Definition can_send_stream_data (s : StreamsState) : bool :=
  existsb (fun p => match ss_send s !! ps_id p with Some ss => negb (Send.is_reset ss) | None => false end)
    (PendingStreamsQueue.iter (ss_pending s)).

(** [state.rs:376-400] *)
Definition received_ack_of (frame : StreamMeta) (s : StreamsState) : outcome StreamsState :=
  let id := sm_id frame in
  match ss_send s !! id with
  | None => Ret s
  | Some ss =>
      if Send.is_reset ss then Ret s
      else
        let! '(ss, done) := Send.ack frame ss in
        if negb done then Ret (with_send (<[id := ss]> (ss_send s)) s)
        else Ret (send_event (EvFinished id) (with_send (delete id (ss_send s)) s))
  end.

(** [state.rs:402-428] *)
Definition retransmit (frame : StreamMeta) (s : StreamsState) : outcome StreamsState :=
  let id := sm_id frame in
  match ss_send s !! id with
  | None => Ret s
  | Some ss =>
      if Send.is_reset ss then Ret s
      else
        let was_pending := Send.is_pending ss in
        let! b := SendBuffer.retransmit (sm_offsets frame) (pending ss) in
        let ss := Send.with_pending b ss in
        let s := with_send (<[id := ss]> (ss_send s)) s in
        if negb was_pending then
          let! q := PendingStreamsQueue.push_pending id (priority ss) (ss_pending s) in
          Ret (with_pending q s)
        else Ret s
  end.

(** *** Writing frames *)
Section Write.
Context {W : Type} `{BufMut W}.

(** [frame.rs:346-346], [frame.rs:363-363] and [Stream::SIZE_BOUND] *)
Definition RESET_STREAM_SIZE_BOUND : Z := 1 + 8 + 8 + 8.
Definition STOP_SENDING_SIZE_BOUND : Z := 1 + 8 + 8.
Definition STREAM_SIZE_BOUND : Z := 1 + 8 + 8 + 8.

(** [state.rs:241-262] the RESET_STREAM loop, over the queue from its last
    element on: what is left of the queue, what was put into the retransmission
    record, and the buffer *)
Fixpoint write_resets (queue : list (StreamId * Z)) (sent : list (StreamId * Z))
    (send : gmap StreamId Send) (buf : W) : outcome (list (StreamId * Z) * list (StreamId * Z) * W) :=
  if RESET_STREAM_SIZE_BOUND <? remaining_mut buf then
    match queue with
    | [] => Ret ([], sent, buf)
    | (id, error_code) :: queue =>
        match send !! id with
        | None => write_resets queue sent send buf
        | Some stream =>
            let! buf := encode_reset_stream
              {| rs_id := id; rs_error_code := error_code; rs_final_offset := Send.stream_offset stream |} buf in
            write_resets queue (sent ++ [(id, error_code)]) send buf
        end
    end
  else Ret (queue, sent, buf).

(** [state.rs:264-281] the STOP_SENDING loop *)
Fixpoint write_stops (queue : list StopSending) (sent : list StopSending) (buf : W)
    : outcome (list StopSending * list StopSending * W) :=
  if STOP_SENDING_SIZE_BOUND <? remaining_mut buf then
    match queue with
    | [] => Ret ([], sent, buf)
    | frame :: queue =>
        let! buf := encode_stop_sending frame buf in
        write_stops queue (sent ++ [frame]) buf
    end
  else Ret (queue, sent, buf).

(** [get_or_create] followed by pushes: the record exists once something was
    pushed. *)
Definition thin_push (resets : list (StreamId * Z)) (stops : list StopSending) (t : ThinRetransmits)
    : ThinRetransmits :=
  match t, resets, stops with
  | None, [], [] => None
  | _, _, _ =>
      let r := Thin_get_or_create t in
      Some (mkRetransmits (hello r) (reset_stream r ++ resets) (stop_sending r ++ stops)
              (ack_frequency r) (handshake_done r))
  end.

(** [state.rs:235-282] *)
Definition write_control_frames (buf : W) (pending : Retransmits) (retransmits : ThinRetransmits)
    (s : StreamsState) : outcome (W * Retransmits * ThinRetransmits) :=
  let! '(resets, sent_resets, buf) := write_resets (rev (reset_stream pending)) [] (ss_send s) buf in
  let! '(stops, sent_stops, buf) := write_stops (rev (stop_sending pending)) [] buf in
  Ret (buf,
       mkRetransmits (hello pending) (rev resets) (rev stops) (ack_frequency pending) (handshake_done pending),
       thin_push sent_resets sent_stops retransmits).

(** One turn of the loop of [write_stream_frames]: [inl] goes on, [inr] breaks. *)
Abbreviation turn := (StreamsState * W * list StreamMeta)%type (only parsing).

(** [state.rs:294-370] *)
Definition write_turn (fair : bool) (t : turn) : outcome (turn + turn) :=
  let '(s, buf, metas) := t in
  if remaining_mut buf <? STREAM_SIZE_BOUND then Ret (inr t)
  else
    match PendingStreamsQueue.pop (ss_pending s) with
    | (_, None) => Ret (inr t)
    | (q, Some stream_pending) =>
        let s := with_pending q s in
        let id := ps_id stream_pending in
        match ss_send s !! id with
        | None => Ret (inl (s, buf, metas))
        | Some stream =>
            if Send.is_reset stream then Ret (inl (s, buf, metas))
            else if negb (Send.is_pending stream) then Ret (inl (s, buf, metas))
            else
              let! '(stream, rng, encode_length, fin) := Send.transmit (remaining_mut buf) stream in
              let s := with_send (<[id := stream]> (ss_send s)) s in
              if range_is_empty rng && negb fin then
                let! q := PendingStreamsQueue.push_pending id (priority stream) (ss_pending s) in
                Ret (inr (with_pending q s, buf, metas))
              else
                let meta := {| sm_id := id; sm_offsets := rng; sm_fin := fin |} in
                let! buf := encode_stream_meta meta encode_length buf in
                let! buf :=
                  if negb (range_is_empty rng) then
                    let! data := SendBuffer.get rng (pending stream) in put_slice data buf
                  else Ret buf in
                let metas := metas ++ [meta] in
                if Send.is_pending stream then
                  let! q :=
                    if fair then PendingStreamsQueue.push_pending id (priority stream) (ss_pending s)
                    else PendingStreamsQueue.reinsert_pending id (priority stream) (ss_pending s) in
                  Ret (inl (with_pending q s, buf, metas))
                else Ret (inl (s, buf, metas))
        end
    end.

(** The queue shrinks or the buffer does: see [write_turns_enough]. *)
Definition write_fuel (t : turn) : nat :=
  let '(s, buf, _) := t in
  S (length (PendingStreamsQueue.iter (ss_pending s)) + Z.to_nat (remaining_mut buf))%nat.

Fixpoint write_turns (fuel : nat) (fair : bool) (t : turn) : option (outcome turn) :=
  match fuel with
  | O => None
  | S fuel =>
      match write_turn fair t with
      | Panic => Some Panic
      | Ret (inr t) => Some (Ret t)
      | Ret (inl t) => write_turns fuel fair t
      end
  end.

(** [state.rs:284-374] *)
Definition write_stream_frames (buf : W) (fair : bool) (s : StreamsState) : outcome turn :=
  default Panic (write_turns (write_fuel (s, buf, [])) fair (s, buf, [])).
End Write.
End StreamsState.

(** ** Handles of the application *)

(** The handles borrow the table and the queued control frames of the
    application data space; [closed] is [conn_state.is_closed()]. *)
Module SendStream.
(** [send.rs:371-386] *)
Definition write (id : StreamId) (data : list Z) (closed : bool) (s : StreamsState)
    : outcome (StreamsState * result unit WriteError) :=
  if closed then Ret (s, Err WriteBlocked)
  else
    let stream := default Send_default (ss_send s !! id) in
    let was_pending := Send.is_pending stream in
    let! '(stream, res) := Send.write data stream in
    let s := StreamsState.with_send (<[id := stream]> (ss_send s)) s in
    match res with
    | Err e => Ret (s, Err e)
    | Ok _ =>
        if negb was_pending then
          let! q := PendingStreamsQueue.push_pending id (priority stream) (ss_pending s) in
          Ret (StreamsState.with_pending q s, Ok tt)
        else Ret (s, Ok tt)
    end.

(** [send.rs:388-394] *)
Definition stopped (id : StreamId) (s : StreamsState) : result (option Z) ClosedStream :=
  match ss_send s !! id with
  | Some stream => Ok (stop_reason stream)
  | None => Err IsClosedStream
  end.

(** [send.rs:396-413] *)
Definition finish (id : StreamId) (s : StreamsState) : outcome (StreamsState * result unit FinishError) :=
  match ss_send s !! id with
  | None => Ret (s, Err FinishClosedStream)
  | Some stream =>
      let was_pending := Send.is_pending stream in
      let '(stream, res) := Send.finish stream in
      let s := StreamsState.with_send (<[id := stream]> (ss_send s)) s in
      match res with
      | Err e => Ret (s, Err e)
      | Ok _ =>
          if negb was_pending then
            let! q := PendingStreamsQueue.push_pending id (priority stream) (ss_pending s) in
            Ret (StreamsState.with_pending q s, Ok tt)
          else Ret (s, Ok tt)
      end
  end.

(** [send.rs:415-429] *)
Definition reset (id : StreamId) (error_code : Z) (pending : Retransmits) (s : StreamsState)
    : StreamsState * Retransmits * result unit ClosedStream :=
  match ss_send s !! id with
  | None => (s, pending, Err IsClosedStream)
  | Some stream =>
      match state stream with
      | ResetSent => (s, pending, Err IsClosedStream)
      | _ =>
          (StreamsState.with_send (<[id := Send.reset stream]> (ss_send s)) s,
           mkRetransmits (hello pending) (reset_stream pending ++ [(id, error_code)]) (stop_sending pending)
             (ack_frequency pending) (handshake_done pending), Ok tt)
      end
  end.

(** [send.rs:431-437] *)
Definition set_priority (id : StreamId) (prio : Z) (s : StreamsState) : StreamsState * result unit ClosedStream :=
  match ss_send s !! id with
  | None => (s, Err IsClosedStream)
  | Some stream =>
      (StreamsState.with_send (<[id := mkSend (state stream) (pending stream) prio (fin_pending stream)
         (stop_reason stream)]> (ss_send s)) s, Ok tt)
  end.

(** [send.rs:439-444] *)
Definition get_priority (id : StreamId) (s : StreamsState) : result Z ClosedStream :=
  match ss_send s !! id with
  | Some stream => Ok (priority stream)
  | None => Err IsClosedStream
  end.
End SendStream.

(** A reader that is open on a stream: [Chunks], which owns the [Recv] it took
    out of the table. *)
(** [recv.rs:443-453] *)
Record OpenChunks := mkChunks { oc_id : StreamId; oc_ordered : bool; oc_state : ChunksState; oc_read : Z }.

Module RecvStream.
(** [recv.rs:456-479]; [RecvStream::read] is this constructor *)
Definition read (id : StreamId) (ordered : bool) (s : StreamsState)
    : outcome (StreamsState * result OpenChunks ReadableError) :=
  match ss_recv s !! id with
  | None => Ret (s, Err ReadableClosedStream)
  | Some rs =>
      if stopped rs then Ret (s, Err ReadableClosedStream)
      else
        let s := StreamsState.with_recv (delete id (ss_recv s)) s in
        let! r := Assembler.ensure_ordering ordered (assembler rs) in
        match r with
        | Err _ => Ret (s, Err ReadableIllegalOrderedRead)
        | Ok _ => Ret (s, Ok (mkChunks id ordered (Readable rs) 0))
        end
  end.

(** [recv.rs:481-517] [Chunks::next] *)
Definition next (max_length : Z) (c : OpenChunks) : outcome (OpenChunks * result (option Chunk) ReadError) :=
  let! '(st, rd, res) := Chunks.next max_length (oc_ordered c) (oc_state c) (oc_read c) in
  Ret (mkChunks (oc_id c) (oc_ordered c) st rd, res).

(** [recv.rs:520-529] [Chunks::drop] *)
Definition drop (c : OpenChunks) (s : StreamsState) : StreamsState :=
  match oc_state c with
  | Readable rs => StreamsState.with_recv (<[oc_id c := rs]> (ss_recv s)) s
  | _ => s
  end.

(** [recv.rs:601-630] *)
Definition stop (id : StreamId) (error_code : Z) (pending : Retransmits) (s : StreamsState)
    : outcome (StreamsState * Retransmits * result unit ClosedStream) :=
  match ss_recv s !! id with
  | None => Ret (s, pending, Err IsClosedStream)
  | Some stream =>
      let! '(stream, res) := Recv.stop stream in
      match res with
      | Err e => Ret (StreamsState.with_recv (<[id := stream]> (ss_recv s)) s, pending, Err e)
      | Ok (_, stop) =>
          let pending :=
            if stop then
              mkRetransmits (hello pending) (reset_stream pending)
                (stop_sending pending ++ [{| ss_id := id; ss_error_code := error_code |}])
                (ack_frequency pending) (handshake_done pending)
            else pending in
          let recv :=
            if negb (Recv.final_offset_unknown stream) then delete id (ss_recv s)
            else <[id := stream]> (ss_recv s) in
          Ret (StreamsState.with_recv recv s, pending, Ok tt)
      end
  end.

(** [recv.rs:632-652] *)
Definition received_reset (id : StreamId) (s : StreamsState) : StreamsState * result (option Z) ClosedStream :=
  match ss_recv s !! id with
  | None => (s, Err IsClosedStream)
  | Some rs =>
      if stopped rs then (s, Err IsClosedStream)
      else
        match Recv.reset_code rs with
        | None => (s, Ok None)
        | Some code => (StreamsState.with_recv (delete id (ss_recv s)) s, Ok (Some code))
        end
  end.
End RecvStream.

(** ** The queue is first-in first-out within a priority *)

(** The specification: the queued streams with their priorities, in the order
    they were pushed; [pop] takes the first one of the highest priority. *)
Inductive queue_op := QPush (id : StreamId) (priority : Z) | QPop.

Fixpoint spec_pop (l : list (Z * StreamId)) : option ((Z * StreamId) * list (Z * StreamId)) :=
  match l with
  | [] => None
  | x :: l =>
      match spec_pop l with
      | None => Some (x, [])
      | Some (m, rest) => if x.1 <? m.1 then Some (m, x :: rest) else Some (x, l)
      end
  end.

Fixpoint spec_run (ops : list queue_op) (l : list (Z * StreamId)) : list (option StreamId) :=
  match ops with
  | [] => []
  | QPush id priority :: ops => spec_run ops (l ++ [(priority, id)])
  | QPop :: ops =>
      match spec_pop l with
      | Some (m, rest) => Some m.2 :: spec_run ops rest
      | None => None :: spec_run ops l
      end
  end.

Fixpoint queue_run (ops : list queue_op) (q : PendingStreamsQueue) : outcome (list (option StreamId)) :=
  match ops with
  | [] => Ret []
  | QPush id priority :: ops => let! q := PendingStreamsQueue.push_pending id priority q in queue_run ops q
  | QPop :: ops =>
      let '(q, x) := PendingStreamsQueue.pop q in
      let! r := queue_run ops q in Ret ((ps_id <$> x) :: r)
  end.

Definition entry (p : PendingStream) : Z * StreamId := (ps_priority p, ps_id p).

(** The queue stands for the list [l]. *)
Record queue_repr (q : PendingStreamsQueue) (l : list (Z * StreamId)) : Prop := {
  qr_next : q_next q = None;
  qr_order : exists k, k ≡ₚ streams q /\ map entry k = l /\
    StronglySorted (fun a b => ps_recency b < ps_recency a) k /\
    Forall (fun p => q_recency q <= ps_recency p) k;
}.

Lemma ps_cmp_antisym a b : PendingStreamsQueue.ps_cmp a b = CompOpp (PendingStreamsQueue.ps_cmp b a).
Proof.
  unfold PendingStreamsQueue.ps_cmp. rewrite (Z.compare_antisym (ps_priority b)).
  destruct (ps_priority b ?= ps_priority a); try done. cbn.
  rewrite (Z.compare_antisym (ps_recency b)). destruct (ps_recency b ?= ps_recency a); try done. cbn.
  apply Z.compare_antisym.
Qed.

Lemma ps_cmp_le a b : PendingStreamsQueue.ps_cmp a b <> Gt <->
  ps_priority a < ps_priority b \/ ps_priority a = ps_priority b /\
    (ps_recency a < ps_recency b \/ ps_recency a = ps_recency b /\ ps_id a <= ps_id b).
Proof.
  unfold PendingStreamsQueue.ps_cmp.
  assert (forall P : Prop, P -> (Lt <> Gt <-> P)) as Hlt by (split; [done|discriminate]).
  assert (forall P : Prop, ~ P -> (Gt <> Gt <-> P)) as Hgt by (split; [congruence|done]).
  destruct (Z.compare_spec (ps_priority a) (ps_priority b)); [|apply Hlt; lia|apply Hgt; lia].
  destruct (Z.compare_spec (ps_recency a) (ps_recency b)); [|apply Hlt; lia|apply Hgt; lia].
  destruct (Z.compare_spec (ps_id a) (ps_id b)); [|apply Hlt; lia|apply Hgt; lia].
  split; [lia|discriminate].
Qed.

Lemma ps_cmp_trans a b c : PendingStreamsQueue.ps_cmp a b <> Gt -> PendingStreamsQueue.ps_cmp b c <> Gt ->
  PendingStreamsQueue.ps_cmp a c <> Gt.
Proof. rewrite !ps_cmp_le. lia. Qed.

Lemma heap_pop_spec l :
  match PendingStreamsQueue.heap_pop l with
  | None => l = []
  | Some (m, rest) => m :: rest ≡ₚ l /\ forall x, x ∈ l -> PendingStreamsQueue.ps_cmp x m <> Gt
  end.
Proof.
  assert (Hrefl : forall x, PendingStreamsQueue.ps_cmp x x <> Gt).
  { intros x. unfold PendingStreamsQueue.ps_cmp. by rewrite !Z.compare_refl. }
  induction l as [|x l IH]; cbn; [done|].
  destruct (PendingStreamsQueue.heap_pop l) as [[m rest]|].
  - destruct IH as [Hp Hm].
    assert (Hx : PendingStreamsQueue.ps_cmp x m <> Lt -> forall y, y ∈ x :: l -> PendingStreamsQueue.ps_cmp y x <> Gt).
    { intros Hc y [->|Hy]%elem_of_cons; [done|]. apply ps_cmp_trans with m; [auto|].
      rewrite ps_cmp_antisym. by destruct (PendingStreamsQueue.ps_cmp x m). }
    destruct (PendingStreamsQueue.ps_cmp x m) eqn:Hc.
    + split; [done|]. by apply Hx.
    + split; [by rewrite Permutation_swap, Hp|]. intros y [->|Hy]%elem_of_cons; [by rewrite Hc|auto].
    + split; [done|]. by apply Hx.
  - subst. split; [done|]. intros y [->|?%elem_of_nil]%elem_of_cons; done.
Qed.

(** What [spec_pop] takes out of a list of entries. *)
Lemma spec_pop_split k :
  match spec_pop (map entry k) with
  | None => k = []
  | Some (m, rest) => exists a p b, k = a ++ p :: b /\ m = entry p /\ rest = map entry (a ++ b) /\
      Forall (fun x => ps_priority x < ps_priority p) a /\ Forall (fun x => ps_priority x <= ps_priority p) b
  end.
Proof.
  induction k as [|x k IH]; cbn; [done|]. destruct (spec_pop (map entry k)) as [[m rest]|].
  - destruct IH as (a & p & b & -> & -> & -> & Ha & Hb). unfold entry at 1 2; cbn [fst].
    destruct (Z.ltb_spec (ps_priority x) (ps_priority p)).
    + exists (x :: a), p, b. split_and!; try done. by constructor.
    + exists [], x, (a ++ p :: b). split_and!; try done. apply Forall_app. split; [|constructor; [done|]].
      * eapply Forall_impl; [exact Ha|]. cbn. lia.
      * eapply Forall_impl; [exact Hb|]. cbn. lia.
  - subst. by exists [], x, [].
Qed.

Lemma sorted_app_inv {A} (R : A -> A -> Prop) a b x : StronglySorted R (a ++ x :: b) ->
  StronglySorted R (a ++ b) /\ Forall (R x) b.
Proof.
  induction a as [|y a IH]; cbn; intros Hs; apply StronglySorted_inv in Hs as [Hs Hf]; [done|].
  destruct (IH Hs). split; [|done]. constructor; [done|].
  apply Forall_app in Hf as [? Hf]. apply Forall_cons in Hf as [_ ?]. by apply Forall_app.
Qed.

Lemma pop_repr q l : queue_repr q l ->
  match spec_pop l with
  | None => PendingStreamsQueue.pop q = (q, None)
  | Some (m, rest) => exists q' p, PendingStreamsQueue.pop q = (q', Some p) /\ m = entry p /\ queue_repr q' rest /\
      q_recency q' = q_recency q
  end.
Proof.
  intros [Hn (k & Hk & <- & Hs & Hf)]. pose proof (spec_pop_split k) as Hsp. unfold PendingStreamsQueue.pop.
  rewrite Hn. pose proof (heap_pop_spec (streams q)) as Hh.
  destruct (spec_pop (map entry k)) as [[m rest]|].
  - destruct Hsp as (a & p & b & -> & -> & -> & Ha & Hb). destruct (sorted_app_inv _ _ _ _ Hs) as [Hs' Hrec].
    destruct (PendingStreamsQueue.heap_pop (streams q)) as [[x rest]|].
    2: { rewrite Hh in Hk. apply Permutation_nil_r in Hk. by destruct a. }
    destruct Hh as [Hp Hmax].
    assert (Hlt : forall y, y ∈ a ++ b -> PendingStreamsQueue.ps_cmp y p = Lt).
    { intros y Hy. unfold PendingStreamsQueue.ps_cmp. rewrite !Forall_forall in *.
      apply elem_of_app in Hy as [Hy|Hy].
      - specialize (Ha y Hy). by apply Z.compare_lt_iff in Ha as ->.
      - specialize (Hb y Hy). specialize (Hrec y Hy).
        destruct (Z.compare_spec (ps_priority y) (ps_priority p)); [|done|lia].
        by apply Z.compare_lt_iff in Hrec as ->. }
    assert (x = p) as ->.
    { assert (x ∈ a ++ p :: b) as Hx by (rewrite Hk, <- Hp; by left).
      destruct (decide (x = p)) as [|Hne]; [done|]. exfalso.
      apply (Hmax p); [rewrite <- Hk; set_solver|]. rewrite ps_cmp_antisym.
      rewrite Hlt; [done|]. set_solver. }
    eexists _, p. split; [done|]. split; [done|]. split; [|done]. split; [done|].
    exists (a ++ b). cbn. split_and!; try done.
    + apply (Permutation_cons_inv (a := p)). by rewrite Hp, <- Hk, Permutation_middle.
    + apply Forall_app in Hf as [? Hf]. apply Forall_cons in Hf as [_ ?]. by apply Forall_app.
  - subst. apply Permutation_nil_l in Hk. destruct (PendingStreamsQueue.heap_pop (streams q)) as [[x rest]|]; [|done].
    destruct Hh as [Hp _]. rewrite <- Hk in Hp. by apply Permutation_nil_r in Hp.
Qed.

Lemma push_repr q l id prio : queue_repr q l -> 1 <= q_recency q ->
  exists q', PendingStreamsQueue.push_pending id prio q = Ret q' /\ queue_repr q' (l ++ [(prio, id)]) /\
    q_recency q' = q_recency q - 1.
Proof.
  intros [Hn (k & Hk & <- & Hs & Hf)] Hr. unfold PendingStreamsQueue.push_pending.
  rewrite u64_sub_ok by done. cbn [obind]. eexists. split; [done|]. split; [|done].
  split; [done|]. exists (k ++ [mkPendingStream prio (q_recency q - 1) id]). cbn. split_and!.
  - rewrite Permutation_app_comm. cbn. by rewrite Hk.
  - by rewrite map_app.
  - clear Hk. induction k as [|x k IH]; cbn; [by repeat constructor|].
    apply StronglySorted_inv in Hs as [Hs Hx]. apply Forall_cons in Hf as [? Hf].
    constructor; [by apply IH|]. apply Forall_app. split; [done|]. constructor; [cbn; lia|done].
  - apply Forall_app. split; [|constructor; [cbn; lia|done]]. eapply Forall_impl; [exact Hf|]. cbn. lia.
Qed.

Lemma queue_run_refines ops q l : queue_repr q l -> zlen ops <= q_recency q -> queue_run ops q = Ret (spec_run ops l).
Proof.
  revert q l. induction ops as [|[id prio|] ops IH]; intros q l Hr Hlen; [done|..]; rewrite zlen_cons in Hlen;
    pose proof (zlen_nonneg ops); cbn [queue_run spec_run].
  - destruct (push_repr q l id prio Hr) as (q' & -> & Hr' & Hrec); [lia|]. cbn [obind]. apply IH; [done|lia].
  - pose proof (pop_repr q l Hr) as Hp. destruct (spec_pop l) as [[m rest]|].
    + destruct Hp as (q' & p & -> & -> & Hr' & Hrec). rewrite (IH q' rest Hr') by lia. done.
    + rewrite Hp. rewrite (IH q l Hr) by lia. done.
Qed.

(** C39: The heap of pending streams implements round-robin scheduling: over any
    sequence of fewer than [2 ^ 64] pushes and pops it returns what a list in
    push order returns, from which a pop takes the first stream of the highest
    priority.  So a stream that is pushed again after it was served comes
    after all the streams of its priority, and the recency counter does not
    underflow. *)
Theorem queue_refines_fifo (ops : list queue_op) : zlen ops <= U64_MAX ->
  queue_run ops PendingStreamsQueue.new = Ret (spec_run ops []).
Proof.
  intros Hlen. apply queue_run_refines; [|done]. split; [done|]. exists []. cbn. split_and!; try done. constructor.
Qed.

Definition sample_queue_ops : list queue_op := [QPush 4 0; QPush 8 0; QPush 12 5; QPop; QPop; QPush 4 0; QPop; QPop; QPop].

Lemma queue_refines_fifo_witness :
  queue_run sample_queue_ops PendingStreamsQueue.new = Ret [Some 12; Some 4; Some 8; Some 4; None].
Proof. apply (queue_refines_fifo sample_queue_ops). vm_compute. discriminate. Defined.

(** ** No stream with something to send is forgotten *)

Definition queued (q : PendingStreamsQueue) (id : StreamId) : Prop :=
  exists p, p ∈ PendingStreamsQueue.iter q /\ ps_id p = id.

(** Every stream that is not reset and has data or a FIN to send is in the
    queue, [id] excepted. *)
Definition queued_but (id : option StreamId) (s : StreamsState) : Prop :=
  forall i ss, ss_send s !! i = Some ss -> Some i <> id -> Send.is_reset ss = false ->
    Send.is_pending ss = true -> queued (ss_pending s) i.
Abbreviation all_queued := (queued_but None) (only parsing).

Lemma push_queued id prio q q' : PendingStreamsQueue.push_pending id prio q = Ret q' ->
  queued q' id /\ forall i, queued q i -> queued q' i.
Proof.
  unfold PendingStreamsQueue.push_pending. intros H. outcome_inv. subst q'. unfold queued, PendingStreamsQueue.iter. cbn.
  split; [exists (mkPendingStream prio v id); split; [set_solver|done]|].
  intros i (p & Hp & Hi). exists p. set_solver.
Qed.

Lemma reinsert_queued id prio q q' : PendingStreamsQueue.reinsert_pending id prio q = Ret q' ->
  queued q' id /\ forall i, queued q i -> queued q' i.
Proof.
  unfold PendingStreamsQueue.reinsert_pending, assert. intros H. destruct (q_next q) eqn:Hn; [done|]. outcome_inv.
  subst q'. unfold queued, PendingStreamsQueue.iter. rewrite Hn. cbn.
  split; [exists (mkPendingStream prio (q_recency q) id); split; [set_solver|done]|].
  intros i (p & Hp & Hi). exists p. set_solver.
Qed.

Lemma pop_queued q q' p : PendingStreamsQueue.pop q = (q', Some p) ->
  p :: PendingStreamsQueue.iter q' ≡ₚ PendingStreamsQueue.iter q.
Proof.
  unfold PendingStreamsQueue.pop, PendingStreamsQueue.iter. destruct (q_next q) as [x|]; [by intros [= <- <-]|].
  pose proof (heap_pop_spec (streams q)) as Hh. destruct (PendingStreamsQueue.heap_pop (streams q)) as [[m rest]|]; [|done].
  intros [= <- <-]. cbn. tauto.
Qed.

(** What an operation on one send stream has to show. *)
Lemma all_queued_insert s s' id ss' : queued_but (Some id) s -> ss_send s' = <[id := ss']> (ss_send s) ->
  (forall i, queued (ss_pending s) i -> queued (ss_pending s') i) ->
  (Send.is_reset ss' = false -> Send.is_pending ss' = true -> queued (ss_pending s') id) -> all_queued s'.
Proof.
  intros Hq Hs Hmono Hid i ss Hi _ Hr Hp. rewrite Hs in Hi.
  destruct (decide (i = id)) as [->|Hne]; [by simplify_map_eq; auto|].
  rewrite lookup_insert_ne in Hi by done. apply Hmono. apply (Hq i ss Hi); [congruence|done..].
Qed.

Lemma queued_but_weaken s id : all_queued s -> queued_but id s.
Proof. intros H i ss Hi _. by apply (H i ss Hi). Qed.

Lemma queued_but_gone s id ss : queued_but (Some id) s -> ss_send s !! id = Some ss ->
  (Send.is_reset ss = true \/ Send.is_pending ss = false) -> all_queued s.
Proof.
  intros H Hid Hss i ss' Hi _ Hr Hp. destruct (decide (i = id)) as [->|]; [|apply (H i ss'); congruence].
  rewrite Hid in Hi. injection Hi as <-. destruct Hss; congruence.
Qed.

Lemma all_queued_frame s s' : all_queued s -> ss_send s' = ss_send s -> ss_pending s' = ss_pending s -> all_queued s'.
Proof. unfold queued_but. by intros H -> ->. Qed.

Lemma all_queued_delete s s' id : all_queued s -> ss_send s' = delete id (ss_send s) ->
  ss_pending s' = ss_pending s -> all_queued s'.
Proof.
  unfold queued_but. intros H -> -> i ss [_ Hi]%lookup_delete_Some. by apply H.
Qed.

(** An update that leaves the stream as pending as it was. *)
Lemma all_queued_update s s' id ss ss' : all_queued s -> ss_send s !! id = Some ss ->
  ss_send s' = <[id := ss']> (ss_send s) -> ss_pending s' = ss_pending s ->
  (Send.is_reset ss' = false -> Send.is_reset ss = false) -> (Send.is_pending ss' = true -> Send.is_pending ss = true) ->
  all_queued s'.
Proof.
  intros H Hid Hs Hq Hr Hp. apply (all_queued_insert s s' id ss'); [by apply queued_but_weaken|done|by rewrite Hq|].
  intros ??. rewrite Hq. apply (H id ss); auto.
Qed.

Lemma send_ack_pending frame ss ss' done' : Send.ack frame ss = Ret (ss', done') ->
  Send.is_pending ss' = Send.is_pending ss /\ Send.is_reset ss' = Send.is_reset ss.
Proof.
  unfold Send.ack. intros H. outcome_inv. assert (SendBuffer.has_unsent_data v = SendBuffer.has_unsent_data (pending ss)) as Hh.
  { unfold SendBuffer.ack in Hv. outcome_inv. repeat (match goal with v : _ * _ |- _ => destruct v end; outcome_inv).
    by subst. }
  unfold Send.is_pending, Send.is_reset. destruct (state ss) eqn:Hst; simplify_eq; cbn; by rewrite ?Hh, ?Hst.
Qed.

Lemma transmit_reset max_len ss ss' r enc fin : transmit max_len ss = Ret (ss', r, enc, fin) ->
  Send.is_reset ss' = Send.is_reset ss.
Proof.
  unfold transmit. intros H. outcome_inv. destruct v as [[b r'] e']. simplify_eq. done.
Qed.

(** Everything that can happen to the table. *)
Section Steps.
Context {W : Type} `{BufMut W}.

Inductive streams_step : StreamsState -> StreamsState -> Prop :=
| StepOpen dir s s' id : StreamsState.open dir s = Ret (s', id) -> streams_step s s'
| StepStream frame len s s' res : StreamsState.received frame len s = Ret (s', res) -> streams_step s s'
| StepResetStream frame s s' res : StreamsState.received_reset frame s = Ret (s', res) -> streams_step s s'
| StepStopSending frame s s' res : StreamsState.received_stop_sending frame s = (s', res) -> streams_step s s'
| StepResetAcked id s : streams_step s (StreamsState.reset_acked id s)
| StepAcked frame s s' : StreamsState.received_ack_of frame s = Ret s' -> streams_step s s'
| StepLost frame s s' : StreamsState.retransmit frame s = Ret s' -> streams_step s s'
| StepSend (buf : W) fair s s' buf' metas :
    StreamsState.write_stream_frames buf fair s = Ret (s', buf', metas) -> streams_step s s'
| StepWrite id data closed s s' res : SendStream.write id data closed s = Ret (s', res) -> streams_step s s'
| StepFinish id s s' res : SendStream.finish id s = Ret (s', res) -> streams_step s s'
| StepReset id code p s s' p' res : SendStream.reset id code p s = (s', p', res) -> streams_step s s'
| StepPriority id prio s s' res : SendStream.set_priority id prio s = (s', res) -> streams_step s s'
| StepRead id ordered s s' res : RecvStream.read id ordered s = Ret (s', res) -> streams_step s s'
| StepDrop c s : streams_step s (RecvStream.drop c s)
| StepStop id code p s s' p' res : RecvStream.stop id code p s = Ret (s', p', res) -> streams_step s s'
| StepReceivedReset id s s' res : RecvStream.received_reset id s = (s', res) -> streams_step s s'.

Lemma write_turn_queued fair s buf metas t : all_queued s ->
  StreamsState.write_turn fair (s, buf, metas) = Ret t ->
  match t with inl (s', _, _) | inr (s', _, _) => all_queued s' end.
Proof.
  intros Hq Ht. unfold StreamsState.write_turn in Ht.
  destruct (remaining_mut buf <? StreamsState.STREAM_SIZE_BOUND); [by injection Ht as <-|].
  destruct (PendingStreamsQueue.pop (ss_pending s)) as [q [p|]] eqn:Hpop; [|by injection Ht as <-].
  apply pop_queued in Hpop. set (id := ps_id p) in *.
  assert (Hbut : queued_but (Some id) (StreamsState.with_pending q s)).
  { intros i ss Hi Hne Hr Hp. destruct (Hq i ss Hi ltac:(done) Hr Hp) as (x & Hx & Hxi). rewrite <- Hpop in Hx.
    apply elem_of_cons in Hx as [->|Hx]; [unfold id in Hne; congruence|]. by exists x. }
  cbn [ss_send StreamsState.with_pending] in Ht. destruct (ss_send s !! id) as [ss|] eqn:Hid.
  2: { injection Ht as <-. intros i ss Hi _ Hr Hp. apply (Hbut i ss Hi); [|done..]. cbn in Hi. congruence. }
  destruct (Send.is_reset ss) eqn:Hr; [injection Ht as <-; eapply queued_but_gone; [done|exact Hid|by left]|].
  destruct (Send.is_pending ss) eqn:Hp; cbn [negb] in Ht;
    [|injection Ht as <-; eapply queued_but_gone; [done|exact Hid|by right]].
  apply obind_ret in Ht as ([[[ss' r] enc] fin] & Htr & Ht).
  destruct (range_is_empty r && negb fin); outcome_inv.
  - subst t. destruct (push_queued _ _ _ _ Hv) as [Hin Hmono]. eapply all_queued_insert; [exact Hbut|done|exact Hmono|auto].
  - destruct (Send.is_pending ss') eqn:Hp'; outcome_inv; subst t.
    + assert (queued v1 id /\ forall i, queued q i -> queued v1 i) as [Hin Hmono].
      { destruct fair; [by apply push_queued in Hv1|by apply reinsert_queued in Hv1]. }
      eapply all_queued_insert; [exact Hbut|done|exact Hmono|auto].
    + eapply all_queued_insert; [exact Hbut|done|done|]. congruence.
Qed.

Lemma write_stream_frames_queued buf fair s s' buf' metas : all_queued s ->
  StreamsState.write_stream_frames buf fair s = Ret (s', buf', metas) -> all_queued s'.
Proof.
  unfold StreamsState.write_stream_frames. generalize (StreamsState.write_fuel (s, buf, [])) as fuel.
  generalize (@nil StreamMeta) as m0. intros m0 fuel. revert s buf m0.
  induction fuel as [|fuel IH]; intros s buf m0 Hq; cbn [StreamsState.write_turns]; [intros [=]|].
  destruct (StreamsState.write_turn fair (s, buf, m0)) as [[[[s1 b1] m1]|[[s1 b1] m1]]|] eqn:Ht; [| |intros [=]].
  - apply IH. by apply (write_turn_queued _ _ _ _ _ Hq Ht).
  - intros [= -> -> ->]. by apply (write_turn_queued _ _ _ _ _ Hq Ht).
Qed.

Lemma received_frame_send frame len s s' res : StreamsState.received frame len s = Ret (s', res) ->
  ss_send s' = ss_send s /\ ss_pending s' = ss_pending s /\ ss_next s' = ss_next s.
Proof.
  unfold StreamsState.received. intros H'. destruct (StreamsState.validate_receive_id _ _); [|by simplify_eq].
  destruct (match ss_recv s !! st_id frame with Some rs => _ | None => _ end) as [rs|]; [|by simplify_eq].
  destruct (negb (Recv.is_receiving rs)); [by simplify_eq|]. outcome_inv. destruct v as [rs' [[n c]|e]]; [|by simplify_eq].
  destruct (negb (stopped rs')); [|by destruct c; simplify_eq].
  by destruct ((0 <? n) || _); simplify_eq.
Qed.

Lemma received_reset_send frame s s' res : StreamsState.received_reset frame s = Ret (s', res) ->
  ss_send s' = ss_send s /\ ss_pending s' = ss_pending s /\ ss_next s' = ss_next s.
Proof.
  unfold StreamsState.received_reset. intros H'. destruct (StreamsState.validate_receive_id _ _); [|by simplify_eq].
  destruct (Recv.reset _ _ _) as [rs [[]|]]; [destruct (stopped rs)|..]; by simplify_eq.
Qed.

Lemma acked_queued frame s s' : all_queued s -> StreamsState.received_ack_of frame s = Ret s' -> all_queued s'.
Proof.
  unfold StreamsState.received_ack_of. intros Hq Hs.
  destruct (ss_send s !! sm_id frame) as [ss|] eqn:Hss; [|by simplify_eq].
  destruct (Send.is_reset ss) eqn:Hr; [by simplify_eq|]. outcome_inv. destruct v as [ss' d].
  apply send_ack_pending in Hv as [Hp Hr']. destruct d; cbn in Hs; simplify_eq.
  - by apply (all_queued_delete s _ (sm_id frame)).
  - eapply all_queued_update; [exact Hq|exact Hss|done|done|congruence|congruence].
Qed.

Lemma lost_queued frame s s' : all_queued s -> StreamsState.retransmit frame s = Ret s' -> all_queued s'.
Proof.
  unfold StreamsState.retransmit. intros Hq Hs.
  destruct (ss_send s !! sm_id frame) as [ss|] eqn:Hss; [|by simplify_eq].
  destruct (Send.is_reset ss) eqn:Hr; [by simplify_eq|]. outcome_inv.
  destruct (Send.is_pending ss) eqn:Hp; cbn [negb] in Hs.
  - injection Hs as <-. eapply all_queued_update; [exact Hq|exact Hss|done|done|done|done].
  - outcome_inv. subst s'. destruct (push_queued _ _ _ _ Hv0) as [Hin Hmono].
    eapply all_queued_insert; [by apply queued_but_weaken|done|exact Hmono|done].
Qed.

Lemma write_queued id data closed s s' res : all_queued s -> SendStream.write id data closed s = Ret (s', res) ->
  all_queued s'.
Proof.
  unfold SendStream.write. intros Hq Hs. destruct closed; [by simplify_eq|]. outcome_inv. destruct v as [ss' r].
  assert (Hres : match r with
    | Err _ => ss' = default Send_default (ss_send s !! id)
    | Ok _ => Send.is_reset (default Send_default (ss_send s !! id)) = false end).
  { unfold Send.write, Send.is_writable, Send.is_reset in *. destruct (state (default _ _)); cbn in Hv; [|by simplify_eq..].
    destruct (stop_reason _); [by simplify_eq|]. outcome_inv. by simplify_eq. }
  destruct r as [[]|e].
  - destruct (Send.is_pending (default _ _)) eqn:Hp; cbn [negb] in Hs; outcome_inv; simplify_eq.
    + eapply all_queued_insert; [by apply queued_but_weaken|done|done|]. intros _ _.
      destruct (ss_send s !! id) as [ss|] eqn:Hss; [|done]. by apply (Hq id ss).
    + destruct (push_queued _ _ _ _ Hv0) as [Hin Hmono].
      eapply all_queued_insert; [by apply queued_but_weaken|done|exact Hmono|done].
  - simplify_eq. eapply all_queued_insert; [by apply queued_but_weaken|done|done|].
    destruct (ss_send s !! id) as [ss|] eqn:Hss; cbn; [|done]. intros Hr Hp. by apply (Hq id ss).
Qed.

Lemma finish_queued id s s' res : all_queued s -> SendStream.finish id s = Ret (s', res) -> all_queued s'.
Proof.
  unfold SendStream.finish. intros Hq Hs. destruct (ss_send s !! id) as [ss|] eqn:Hss; [|by simplify_eq].
  unfold Send.finish in Hs. destruct (stop_reason ss); cbn in Hs.
  { simplify_eq. eapply all_queued_update; [exact Hq|exact Hss|done|done|done|done]. }
  case_decide as Hst; cbn in Hs; [|simplify_eq; eapply all_queued_update; [exact Hq|exact Hss|done|done|done|done]].
  destruct (Send.is_pending ss) eqn:Hp; cbn [negb] in Hs; outcome_inv; simplify_eq.
  - eapply all_queued_insert; [by apply queued_but_weaken|done|done|]. intros _ _.
    apply (Hq id ss); [done..| |done]. unfold Send.is_reset. by rewrite Hst.
  - destruct (push_queued _ _ _ _ Hv) as [Hin Hmono].
    eapply all_queued_insert; [by apply queued_but_weaken|done|exact Hmono|done].
Qed.

Lemma recv_handles_send s s' :
  (exists id ordered res, RecvStream.read id ordered s = Ret (s', res)) \/ (exists c, s' = RecvStream.drop c s) \/
  (exists id code p p' res, RecvStream.stop id code p s = Ret (s', p', res)) \/
  (exists id res, RecvStream.received_reset id s = (s', res)) ->
  ss_send s' = ss_send s /\ ss_pending s' = ss_pending s /\ ss_next s' = ss_next s.
Proof.
  intros [(id & ordered & res & Hs)|[[c ->]|[(id & code & p & p' & res & Hs)|(id & res & Hs)]]].
  - unfold RecvStream.read in Hs. destruct (ss_recv s !! id) as [rs|]; [|by simplify_eq].
    destruct (stopped rs); [by simplify_eq|]. outcome_inv. destruct v; by simplify_eq.
  - unfold RecvStream.drop. by destruct (oc_state c).
  - unfold RecvStream.stop in Hs. destruct (ss_recv s !! id) as [rs|]; [|by simplify_eq]. outcome_inv.
    destruct v as [rs' [[n st]|]]; by simplify_eq.
  - unfold RecvStream.received_reset in Hs. destruct (ss_recv s !! id) as [rs|]; [|by simplify_eq].
    destruct (stopped rs); [by simplify_eq|]. destruct (Recv.reset_code rs); by simplify_eq.
Qed.

Lemma streams_step_queued s s' : streams_step s s' -> all_queued s -> all_queued s'.
Proof.
  intros Hstep Hq. destruct Hstep as [dir s s' id Hs|frame len s s' res Hs|frame s s' res Hs|frame s s' res Hs|id s
    |frame s s' Hs|frame s s' Hs|buf fair s s' buf' metas Hs|id data closed s s' res Hs|id s s' res Hs
    |id code p s s' p' res Hs|id prio s s' res Hs|id ordered s s' res Hs|c s|id code p s s' p' res Hs|id s s' res Hs].
  - unfold StreamsState.open in Hs. outcome_inv. simplify_eq.
    eapply all_queued_insert; [by apply queued_but_weaken|done|done|done].
  - apply received_frame_send in Hs as (? & ? & _). by apply (all_queued_frame s).
  - apply received_reset_send in Hs as (? & ? & _). by apply (all_queued_frame s).
  - unfold StreamsState.received_stop_sending in Hs. destruct (if decide _ then _ else _); [by simplify_eq|].
    destruct (ss_send s !! ss_id frame) as [ss|] eqn:Hss; [|by simplify_eq].
    unfold Send.try_stop in Hs. destruct (stop_reason ss); simplify_eq;
      (eapply all_queued_update; [exact Hq|exact Hss|done|done|done|done]).
  - unfold StreamsState.reset_acked. destruct (ss_send s !! id) as [ss|]; [|done]. destruct (state ss); [done..|].
    by apply (all_queued_delete s _ id).
  - by apply acked_queued in Hs.
  - by apply lost_queued in Hs.
  - by apply write_stream_frames_queued in Hs.
  - by apply write_queued in Hs.
  - by apply finish_queued in Hs.
  - unfold SendStream.reset in Hs. destruct (ss_send s !! id) as [ss|] eqn:Hss; [|by simplify_eq].
    destruct (state ss) eqn:Hst; simplify_eq; try done;
      (eapply all_queued_update; [exact Hq|exact Hss|done|done| |]);
      unfold Send.reset, Send.is_reset; by rewrite Hst.
  - unfold SendStream.set_priority in Hs. destruct (ss_send s !! id) as [ss|] eqn:Hss; simplify_eq; [|done].
    eapply all_queued_update; [exact Hq|exact Hss|done|done|done|done].
  - destruct (recv_handles_send s s') as (? & ? & _); [eauto 10|by apply (all_queued_frame s)].
  - destruct (recv_handles_send s (RecvStream.drop c s)) as (? & ? & _); [eauto 10|by apply (all_queued_frame s)].
  - destruct (recv_handles_send s s') as (? & ? & _); [eauto 12|by apply (all_queued_frame s)].
  - destruct (recv_handles_send s s') as (? & ? & _); [eauto 10|by apply (all_queued_frame s)].
Qed.
End Steps.

(** C38: No stream starves unseen: in every state the table can reach, by any
    sequence of calls of the application, frames of the peer,
    acknowledgements, losses and transmissions, a stream that was not reset
    and has data or a FIN to send is in the queue of pending streams, and the
    connection is told that there is stream data to send. *)
Theorem pending_streams_are_queued {W : Type} `{BufMut W} (side : Side) (s : StreamsState) (id : StreamId) (ss : Send) :
  rtc (streams_step (W:=W)) (StreamsState.new side) s -> ss_send s !! id = Some ss ->
  Send.is_reset ss = false -> Send.is_pending ss = true ->
  queued (ss_pending s) id /\ StreamsState.can_send_stream_data s = true.
Proof.
  intros Hreach Hss Hr Hp.
  assert (Hq : queued (ss_pending s) id).
  { assert (all_queued (StreamsState.new side)) as Hq0 by (intros i ss' Hi; by cbn in Hi).
    assert (all_queued s) as Hq; [|by apply (Hq id ss)].
    clear -Hreach Hq0. induction Hreach as [|s1 s2 s3 Hstep _ IH]; [done|]. apply IH. by apply (streams_step_queued s1). }
  split; [done|]. destruct Hq as (p & Hin & <-). apply existsb_exists. exists p.
  split; [by apply list_elem_of_In|]. by rewrite Hss, Hr.
Qed.

(** A table with one open stream that was written to. *)
Definition opened (side : Side) : StreamsState :=
  mkStreams side {[ StreamId.new side Bi 0 := Send_default ]} {[ StreamId.new side Bi 0 := Recv_default ]} (1, 0)
    PendingStreamsQueue.new [].

Lemma pending_streams_are_queued_witness :
  exists s ss, rtc (streams_step (W:=slice_buf)) (StreamsState.new Client) s /\ ss_send s !! 0 = Some ss /\
    Send.is_pending ss = true /\ queued (ss_pending s) 0.
Proof.
  destruct (StreamsState.open Bi (StreamsState.new Client)) as [[s1 id1]|] eqn:Ho; [|discriminate Ho].
  destruct (SendStream.write 0 [1; 2; 3] false s1) as [[s2 r2]|] eqn:Hw.
  - assert (exists ss, ss_send s2 !! 0 = Some ss /\ Send.is_reset ss = false /\ Send.is_pending ss = true) as (ss & H1 & H2 & H3).
    { injection Ho as <- <-. vm_compute in Hw. injection Hw as <- <-. eexists. split; [vm_compute; reflexivity|]. split; reflexivity. }
    assert (rtc (streams_step (W:=slice_buf)) (StreamsState.new Client) s2) as Hrun.
    { eapply rtc_l; [exact (StepOpen _ _ _ _ Ho)|]. eapply rtc_l; [exact (StepWrite _ _ _ _ _ _ Hw)|]. apply rtc_refl. }
    exists s2, ss. split; [exact Hrun|]. split; [exact H1|]. split; [exact H3|].
    apply (pending_streams_are_queued Client s2 0 ss Hrun H1 H2 H3).
  - injection Ho as <- <-. vm_compute in Hw. discriminate Hw.
Defined.

(** ** The frames of [write_stream_frames] *)
Section Frames.
Context {W : Type} `{BufMutLaws W}.

Lemma put_slice_written l (w w' : W) : put_slice l w = Ret w' ->
  written w' = written w ++ l /\ remaining_mut w' = remaining_mut w - zlen l.
Proof. apply emits_written, emits_put_slice. Qed.

Lemma put_varint_shrinks v (w w' : W) : put_varint v w = Ret w' -> remaining_mut w' + 1 <= remaining_mut w.
Proof.
  assert (Hput : forall n v, (1 <= n)%nat -> put_uint n v w = Ret w' -> remaining_mut w' + 1 <= remaining_mut w).
  { intros n v' Hn Hv. apply (emits_written _ _ _ _ (emits_put_uint n v')) in Hv as [_ ->].
    rewrite zlen_be_bytes. lia. }
  unfold put_varint. intros Hv. outcome_inv.
  repeat match type of Hv with (if ?c then _ else _) = _ => destruct c end; [..|done]; (apply Hput in Hv; [done|lia]).
Qed.

Lemma encode_stream_meta_shrinks m enc (w w' : W) : encode_stream_meta m enc w = Ret w' ->
  remaining_mut w' + 1 <= remaining_mut w.
Proof.
  unfold encode_stream_meta. intros Hm. outcome_inv. apply put_varint_shrinks in Hv, Hv0.
  assert (remaining_mut v1 <= remaining_mut v0).
  { destruct (negb _); [apply put_varint_shrinks in Hv1; lia|]. outcome_inv. by subst. }
  destruct enc; outcome_inv; [apply put_varint_shrinks in Hm; lia|subst; lia].
Qed.

(** Each turn takes a stream out of the queue for good or uses up room. *)
Definition turn_measure (t : StreamsState * W * list StreamMeta) : nat :=
  (length (PendingStreamsQueue.iter (ss_pending t.1.1)) + Z.to_nat (remaining_mut t.1.2))%nat.

Lemma push_length id prio q q' : PendingStreamsQueue.push_pending id prio q = Ret q' ->
  length (PendingStreamsQueue.iter q') = S (length (PendingStreamsQueue.iter q)).
Proof.
  unfold PendingStreamsQueue.push_pending. intros Hp. outcome_inv. subst. unfold PendingStreamsQueue.iter. cbn.
  rewrite !length_app. cbn. lia.
Qed.

Lemma reinsert_length id prio q q' : PendingStreamsQueue.reinsert_pending id prio q = Ret q' ->
  length (PendingStreamsQueue.iter q') = S (length (PendingStreamsQueue.iter q)).
Proof.
  unfold PendingStreamsQueue.reinsert_pending, assert. intros Hp. destruct (q_next q) eqn:Hn; [done|]. outcome_inv.
  subst. unfold PendingStreamsQueue.iter. rewrite Hn. done.
Qed.

Lemma write_turn_decreases fair t t' : StreamsState.write_turn fair t = Ret (inl t') -> (turn_measure t' < turn_measure t)%nat.
Proof.
  destruct t as [[s buf] metas]. unfold StreamsState.write_turn, turn_measure. intros Ht. cbn [fst snd].
  destruct (remaining_mut buf <? StreamsState.STREAM_SIZE_BOUND); [done|].
  destruct (PendingStreamsQueue.pop (ss_pending s)) as [q [p|]] eqn:Hpop; [|done].
  apply pop_queued, Permutation_length in Hpop. cbn in Hpop. rewrite <- Hpop. cbn [ss_send StreamsState.with_pending] in Ht.
  destruct (ss_send s !! ps_id p) as [ss|]; [|injection Ht as <-; cbn; lia].
  destruct (Send.is_reset ss); [injection Ht as <-; cbn; lia|].
  destruct (negb (Send.is_pending ss)); [injection Ht as <-; cbn; lia|].
  apply obind_ret in Ht as ([[[ss' r] enc] fin] & _ & Ht).
  destruct (range_is_empty r && negb fin); outcome_inv; [discriminate|]. apply encode_stream_meta_shrinks in Hv.
  assert (remaining_mut v0 <= remaining_mut v /\ 0 <= remaining_mut v0) as [??].
  { split; [|apply remaining_mut_nonneg]. destruct (negb (range_is_empty r)); outcome_inv; [|by subst].
    apply put_slice_written in Hv0 as [_ ->]. pose proof (zlen_nonneg v1). lia. }
  destruct (Send.is_pending ss'); outcome_inv; subst; cbn; [|lia].
  assert (length (PendingStreamsQueue.iter v1) = S (length (PendingStreamsQueue.iter q))) as ->; [|lia].
  destruct fair; [by apply push_length in Hv1|by apply reinsert_length in Hv1].
Qed.

Lemma write_turns_enough fair fuel t : (turn_measure t < fuel)%nat -> is_Some (StreamsState.write_turns fuel fair t).
Proof.
  revert t. induction fuel as [|fuel IH]; intros t Hm; [lia|]. cbn [StreamsState.write_turns].
  destruct (StreamsState.write_turn fair t) as [[t'|t']|] eqn:Ht; [|eauto..].
  apply IH. pose proof (write_turn_decreases _ _ _ Ht). lia.
Qed.

(** *** The header of a frame *)
Definition stream_ty (m : StreamMeta) (enc : bool) : Z :=
  let ty := if rstart (sm_offsets m) =? 0 then 8 else 12 in
  let ty := if enc then ty + 2 else ty in if sm_fin m then ty + 1 else ty.

Definition stream_header (m : StreamMeta) (enc : bool) : list Z :=
  varint_bytes (stream_ty m enc) ++ varint_bytes (sm_id m) ++
  (if rstart (sm_offsets m) =? 0 then [] else varint_bytes (rstart (sm_offsets m))) ++
  (if enc then varint_bytes (rend (sm_offsets m) - rstart (sm_offsets m)) else []).

Lemma emits_stream_header m enc : is_varint (sm_id m) -> is_varint (rstart (sm_offsets m)) ->
  is_varint (rend (sm_offsets m) - rstart (sm_offsets m)) ->
  emits (W:=W) (encode_stream_meta m enc) (stream_header m enc).
Proof.
  intros Hid Hoff Hlen. destruct m as [id [a e] fin]; cbn in *. unfold encode_stream_meta, stream_header, stream_ty.
  cbn [rstart rend sm_offsets sm_id sm_fin]. rewrite u64_sub_ok by varint_lia.
  apply emits_bind with (f := put_varint _).
  { destruct (a =? 0), enc, fin; apply emits_put_varint; split; vm_compute; congruence. }
  apply emits_bind; [by apply emits_put_varint|].
  apply emits_bind; [destruct (a =? 0); cbn; [apply emits_ret|by apply emits_put_varint]|].
  destruct enc; cbn; [by apply emits_put_varint|apply emits_ret].
Qed.

Lemma stream_header_length m enc : zlen (stream_header m enc) =
  1 + zlen (varint_bytes (sm_id m)) + reserved (rstart (sm_offsets m)) false +
  (if enc then zlen (varint_bytes (rend (sm_offsets m) - rstart (sm_offsets m))) else 0).
Proof.
  assert (Hty : 0 <= stream_ty m enc <= VARINT_MAX_1).
  { unfold stream_ty. destruct (_ =? 0), enc, (sm_fin m); vm_compute; split; congruence. }
  destruct (varint_bytes_small (stream_ty m enc)) as [Hlen _]; [varint_lia|].
  unfold stream_header, reserved. rewrite !zlen_app, (Hlen (proj2 Hty)).
  destruct (rstart (sm_offsets m) =? 0), enc; change (zlen (@nil Z)) with 0; lia.
Qed.

(** A frame with a length, written in full, is what the parser reads back. *)
Lemma write_stream_frame {B : Type} `{BufBytes B} m data (w : W) : is_varint (sm_id m) -> is_varint (rstart (sm_offsets m)) ->
  rend (sm_offsets m) = rstart (sm_offsets m) + zlen data -> is_varint (zlen data) ->
  zlen (stream_header m true) + zlen data <= remaining_mut w ->
  exists w1 w2 bs, encode_stream_meta m true w = Ret w1 /\
    (if negb (range_is_empty (sm_offsets m)) then put_slice data w1 else Ret w1) = Ret w2 /\
    written w2 = written w ++ bs /\
    forall (p : FrameParser B) rest, view (fp_bytes p) = bs ++ rest ->
      exists ty b', try_next p = Ret (Some ty, Ok (FStream {| st_id := sm_id m; st_offset := rstart (sm_offsets m);
        st_fin := sm_fin m; st_data := data |}, b')) /\ view b' = rest.
Proof.
  intros Hid Hoff Hend Hlen Hfit. pose proof (zlen_nonneg data).
  destruct (encodes_stream (B:=B) (W:=W) m data Hid Hoff Hend Hlen) as (bs & Hbs & Hparse).
  assert (Hh : emits (W:=W) (encode_stream_meta m true) (stream_header m true)) by (apply emits_stream_header; [done..|by rewrite Hend, Z.add_simpl_l]).
  destruct (emits_fits _ _ w Hh) as (w1 & Hw1 & Hwr1 & Hr1); [lia|].
  destruct (emits_fits _ _ w1 (emits_put_slice data)) as (w2 & Hw2 & Hwr2 & Hr2); [lia|].
  assert (Hboth : encode_stream m data w = Ret w2) by (unfold encode_stream; by rewrite Hw1).
  destruct (emits_written _ _ _ _ Hbs Hboth) as [Hall _].
  unfold range_is_empty. rewrite Hend. destruct (Z.ltb_spec (rstart (sm_offsets m)) (rstart (sm_offsets m) + zlen data)); cbn [negb].
  - exists w1, w2, bs. done.
  - exists w1, w1, bs. split_and!; try done. assert (data = []) as -> by (apply zlen_0; lia).
    rewrite app_nil_r in Hwr2. congruence.
Qed.
End Frames.

(** C40: The loop of [write_stream_frames] terminates: every turn takes a stream
    out of the queue for good or writes at least one byte, so that as many
    turns as there are queued streams and free bytes, and one, are enough; any
    larger bound gives the same result. *)
Theorem write_stream_frames_terminates {W : Type} `{BufMutLaws W} (buf : W) (fair : bool) (s : StreamsState) (fuel : nat) :
  (StreamsState.write_fuel (s, buf, []) <= fuel)%nat ->
  StreamsState.write_turns fuel fair (s, buf, []) = Some (StreamsState.write_stream_frames buf fair s).
Proof.
  intros Hfuel. unfold StreamsState.write_stream_frames.
  destruct (write_turns_enough fair (StreamsState.write_fuel (s, buf, [])) (s, buf, [])) as [r Hr];
    [unfold turn_measure; cbn; lia|].
  rewrite Hr. cbn. clear -Hr Hfuel. revert fuel Hfuel Hr.
  generalize (StreamsState.write_fuel (s, buf, [])) as n. intros n. generalize (s, buf, @nil StreamMeta) as t.
  induction n as [|n IH]; intros t fuel Hf Hr; [done|]. destruct fuel as [|fuel]; [lia|].
  cbn [StreamsState.write_turns] in *. destruct (StreamsState.write_turn fair t) as [[t'|t']|]; [|done..].
  apply IH; [lia|done].
Qed.

(** A table with an open stream to which [data] was written, and its queue. *)
Definition written_once (data : list Z) : StreamsState :=
  mkStreams Client {[ 4 := mkSend Ready (mkSendBuffer [data] (zlen data) (zlen data) 0 ∅ ∅) 0 false None ]} ∅ (2, 0)
    (mkQueue [mkPendingStream 0 7 4] None 7) [].

Lemma write_stream_frames_terminates_witness :
  StreamsState.write_turns 102 true (written_once [1; 2; 3], SliceBuf [] 100, []) =
    Some (StreamsState.write_stream_frames (SliceBuf [] 100) true (written_once [1; 2; 3])).
Proof. apply (write_stream_frames_terminates (SliceBuf [] 100) true (written_once [1; 2; 3]) 102). vm_compute. reflexivity. Defined.

(** *** One stream with one segment *)

Lemma reserved_enc start : reserved start true = reserved start false + 8.
Proof. unfold reserved. destruct (start =? 0); lia. Qed.

Lemma varint_short v : 0 <= v <= VARINT_MAX_2 -> zlen (varint_bytes v) <= 2.
Proof. intros Hv. apply (varint_bytes_small v); [varint_lia|lia]. Qed.

Lemma range_nonempty a b : a < b -> range_is_empty (Range a b) = false.
Proof. intros. unfold range_is_empty. cbn. by destruct (Z.ltb_spec a b); [|lia]. Qed.

(** What [write_turn] does with the stream it takes from the queue, once the
    range is chosen. *)
Lemma write_turn_chosen {W : Type} `{BufMut W} fair s (buf : W) metas q p ss ss' r enc fin :
  StreamsState.STREAM_SIZE_BOUND <= remaining_mut buf ->
  PendingStreamsQueue.pop (ss_pending s) = (q, Some p) -> ss_send s !! ps_id p = Some ss ->
  Send.is_reset ss = false -> Send.is_pending ss = true ->
  transmit (remaining_mut buf) ss = Ret (ss', r, enc, fin) -> rstart r < rend r ->
  StreamsState.write_turn fair (s, buf, metas) =
    let id := ps_id p in
    let meta := {| sm_id := id; sm_offsets := r; sm_fin := fin |} in
    let s := StreamsState.with_send (<[id := ss']> (ss_send s)) (StreamsState.with_pending q s) in
    let! buf := encode_stream_meta meta enc buf in
    let! data := SendBuffer.get r (pending ss') in
    let! buf := put_slice data buf in
    if Send.is_pending ss' then
      let! q := if fair then PendingStreamsQueue.push_pending id (priority ss') q
                else PendingStreamsQueue.reinsert_pending id (priority ss') q in
      Ret (inl (StreamsState.with_pending q s, buf, metas ++ [meta]))
    else Ret (inl (s, buf, metas ++ [meta])).
Proof.
  intros Hroom Hpop Hss Hr Hp Htr Hne. unfold StreamsState.write_turn.
  destruct (Z.ltb_spec (remaining_mut buf) StreamsState.STREAM_SIZE_BOUND); [lia|].
  rewrite Hpop. cbn [ss_send StreamsState.with_pending]. rewrite Hss, Hr, Hp. cbn [negb]. rewrite Htr. cbn [obind].
  destruct r as [a b]. rewrite range_nonempty by done. cbn [andb negb].
  destruct (encode_stream_meta _ enc buf) as [w|]; [|done]. cbn [obind].
  destruct (SendBuffer.get _ _) as [data|]; [|done]. done.
Qed.

(** *** A turn whose data fits *)
Section Fits.
Context {B W : Type} `{BufBytes B} `{BufMutLaws W}.

(** What is left of the stream is chosen, and the FIN with it. *)
Lemma transmit_rest max_len ss : send_inv (pending ss) -> 16 <= max_len <= VARINT_MAX -> retransmits (pending ss) = ∅ ->
  offset (pending ss) - unsent (pending ss) + reserved (unsent (pending ss)) true <= max_len ->
  let b := pending ss in
  let b' := mkSendBuffer (unacked_segments b) (unacked_len b) (offset b) (offset b) (acks b) (retransmits b) in
  transmit max_len ss = Ret (mkSend (state ss) b' (priority ss) false (stop_reason ss), Range (unsent b) (offset b), true, fin_pending ss).
Proof.
  intros Hi Hm Hre Hfit b b'. rewrite reserved_enc in Hfit. pose proof (poll_transmit_eq max_len b Hi Hm Hre) as Hpoll. cbv zeta in Hpoll.
  fold b in Hfit. destruct (Z.ltb_spec (offset b - unsent b) (max_len - reserved (unsent b) false)); [|lia].
  rewrite Z.min_l in Hpoll by lia. unfold transmit. fold b. rewrite Hpoll. cbn. rewrite Z.eqb_refl, andb_true_r.
  by destruct (fin_pending ss).
Qed.

(** The header and the rest of the data fit. *)
Lemma header_fits m room : 0 <= sm_id m <= VARINT_MAX_4 -> room <= VARINT_MAX_2 ->
  0 <= rend (sm_offsets m) - rstart (sm_offsets m) ->
  rend (sm_offsets m) - rstart (sm_offsets m) + reserved (rstart (sm_offsets m)) true <= room ->
  zlen (stream_header m true) + (rend (sm_offsets m) - rstart (sm_offsets m)) <= room.
Proof.
  intros Hid Hroom Hlen Hfit. rewrite stream_header_length. rewrite reserved_enc in Hfit.
  assert (zlen (varint_bytes (sm_id m)) <= 4) by (apply (varint_bytes_small (sm_id m)); [varint_lia|lia]).
  pose proof (reserved_nonneg (rstart (sm_offsets m)) false).
  assert (zlen (varint_bytes (rend (sm_offsets m) - rstart (sm_offsets m))) <= 2) by (apply varint_short; lia).
  lia.
Qed.

(** A turn that chose a range of a stream with one segment, with a length and
    room for it, and its length and identifier. *)
Lemma turn_frames (fair : bool) (s : StreamsState) (buf : W) (metas : list StreamMeta) (q : PendingStreamsQueue)
    (p : PendingStream) (ss ss' : Send) (r : range) (fin : bool) :
  PendingStreamsQueue.pop (ss_pending s) = (q, Some p) -> ss_send s !! ps_id p = Some ss ->
  Send.is_reset ss = false -> Send.is_pending ss = true -> 0 <= ps_id p <= VARINT_MAX_4 ->
  StreamsState.STREAM_SIZE_BOUND <= remaining_mut buf <= VARINT_MAX_2 ->
  transmit (remaining_mut buf) ss = Ret (ss', r, true, fin) ->
  send_inv (pending ss') -> (length (unacked_segments (pending ss')) <= 1)%nat ->
  base (pending ss') <= rstart r < rend r -> rend r <= offset (pending ss') ->
  rend r - rstart r + reserved (rstart r) true <= remaining_mut buf ->
  let payload := stream_slice (pending ss') r in
  let s' := StreamsState.with_send (<[ps_id p := ss']> (ss_send s)) (StreamsState.with_pending q s) in
  let meta := {| sm_id := ps_id p; sm_offsets := r; sm_fin := fin |} in
  exists buf' bs,
    StreamsState.write_turn fair (s, buf, metas) =
      (if Send.is_pending ss' then
         let! q := if fair then PendingStreamsQueue.push_pending (ps_id p) (priority ss') q
                   else PendingStreamsQueue.reinsert_pending (ps_id p) (priority ss') q in
         Ret (inl (StreamsState.with_pending q s', buf', metas ++ [meta]))
       else Ret (inl (s', buf', metas ++ [meta]))) /\
    written buf' = written buf ++ bs /\ remaining_mut buf' < remaining_mut buf - (rend r - rstart r) /\
    zlen payload = rend r - rstart r /\
    (forall (fp : FrameParser B) rest, view (fp_bytes fp) = bs ++ rest ->
      exists ty b', try_next fp = Ret (Some ty, Ok (FStream {| st_id := ps_id p; st_offset := rstart r;
        st_fin := fin; st_data := payload |}, b')) /\ view b' = rest).
Proof.
  intros Hpop Hss Hr Hp Hid Hroom Htr Hi' Hone Hlo Hhi Hfit payload s' meta. pose proof (sb_offset _ Hi') as [Hb0 Hoff].
  pose proof (reserved_nonneg (rstart r) true).
  rewrite (write_turn_chosen fair s buf metas q p ss ss' r true fin) by first [done | lia].
  destruct (get_spec r (pending ss') Hi') as (data & Hget & _ & _ & _); [lia..|].
  destruct (get_one_segment r (pending ss') data Hi' Hone) as [-> Hlen]; [lia|done|done|]. fold payload in Hget, Hlen.
  cbv zeta. fold meta. destruct (write_stream_frame (B:=B) meta payload buf) as (w1 & w2 & bs & Hw1 & Hw2 & Hwr & Hparse);
    cbn [sm_id sm_offsets meta]; [varint_lia|cbn; varint_lia|rewrite Hlen; lia|rewrite Hlen; varint_lia| |].
  - rewrite Hlen. apply (header_fits meta); cbn; lia.
  - pose proof Hw2 as Hput. cbn [sm_offsets meta] in Hput. destruct r as [a e]. rewrite range_nonempty in Hput by (cbn in *; lia).
    cbn [negb] in Hput. rewrite Hw1. cbn [obind]. rewrite Hget. cbn [obind]. rewrite Hput. cbn [obind].
    apply encode_stream_meta_shrinks in Hw1. apply put_slice_written in Hput as [_ Hrem].
    exists w2, bs. split; [reflexivity|]. split_and!; [done| |done|done]. lia.
Qed.

Lemma turn_frames_rest (fair : bool) (s : StreamsState) (buf : W)
    (metas : list StreamMeta) (q : PendingStreamsQueue) (p : PendingStream) (ss : Send) (data : list Z) :
  PendingStreamsQueue.pop (ss_pending s) = (q, Some p) -> ss_send s !! ps_id p = Some ss ->
  Send.is_reset ss = false -> 0 <= ps_id p <= VARINT_MAX_4 ->
  send_inv (pending ss) -> unacked_segments (pending ss) = [data] -> retransmits (pending ss) = ∅ ->
  base (pending ss) <= unsent (pending ss) < offset (pending ss) ->
  StreamsState.STREAM_SIZE_BOUND <= remaining_mut buf <= VARINT_MAX_2 ->
  offset (pending ss) - unsent (pending ss) + reserved (unsent (pending ss)) true <= remaining_mut buf ->
  let r := Range (unsent (pending ss)) (offset (pending ss)) in
  let payload := drop (Z.to_nat (unsent (pending ss) - base (pending ss))) data in
  exists s' buf' bs ss',
    StreamsState.write_turn fair (s, buf, metas) =
      Ret (inl (s', buf', metas ++ [{| sm_id := ps_id p; sm_offsets := r; sm_fin := fin_pending ss |}])) /\
    ss_send s' !! ps_id p = Some ss' /\ Send.is_pending ss' = false /\ ss_pending s' = q /\
    written buf' = written buf ++ bs /\ zlen payload = rend r - rstart r /\
    (forall (fp : FrameParser B) rest, view (fp_bytes fp) = bs ++ rest ->
      exists ty b', try_next fp = Ret (Some ty, Ok (FStream {| st_id := ps_id p; st_offset := rstart r;
        st_fin := fin_pending ss; st_data := payload |}, b')) /\ view b' = rest).
Proof.
  intros Hpop Hss Hr Hid Hi Hsegs Hre Hun Hroom Hfit r payload. set (b := pending ss) in *.
  pose proof (sb_offset b Hi) as [Hb0 Hoff]. pose proof (sb_unsent b Hi) as Hu0. pose proof Hroom as Hroom'. unfold StreamsState.STREAM_SIZE_BOUND in Hroom'.
  assert (Hrm : 16 <= remaining_mut buf <= VARINT_MAX) by varint_lia.
  pose proof (transmit_rest (remaining_mut buf) ss Hi Hrm Hre Hfit) as Htr. cbv zeta in Htr. fold b in Htr. fold r in Htr.
  set (b' := mkSendBuffer _ _ _ _ _ _) in *. set (ss' := mkSend _ b' _ _ _) in *.
  assert (Hp : Send.is_pending ss = true).
  { unfold Send.is_pending, SendBuffer.has_unsent_data. fold b. by destruct (Z.eqb_spec (unsent b) (offset b)); [lia|]. }
  assert (Hi' : send_inv b').
  { destruct Hi as [? ? ? ? ? ? Hlost]. unfold b'. split; unfold base in *; cbn in *; try done; try lia.
    intros y Hy. specialize (Hlost y Hy). lia. }
  assert (Hbase : base b' = base b) by done.
  destruct (turn_frames fair s buf metas q p ss ss' r (fin_pending ss)) as (w & bs & Ht & Hw & _ & Hlen & Hparse);
    try done; [cbn; rewrite Hsegs; cbn; lia|].
  assert (Hdone : Send.is_pending ss' = false).
  { unfold Send.is_pending, SendBuffer.has_unsent_data. cbn. by rewrite Z.eqb_refl, Hre. }
  rewrite Hdone in Ht. assert (Hpay : stream_slice (pending ss') r = payload).
  { unfold stream_slice, Send.buffered, payload. cbn [pending ss' rstart r]. rewrite Hbase. cbn [unacked_segments b']. fold b. rewrite Hsegs.
    cbn [concat]. rewrite app_nil_r. apply take_ge. pose proof (sb_len b Hi) as Hl. unfold Send.buffered in Hl. rewrite Hsegs in Hl. cbn in Hl.
    rewrite app_nil_r in Hl. unfold zlen, base in *. rewrite length_drop. cbn. lia. }
  rewrite Hpay in Hlen, Hparse. eexists _, w, bs, ss'. split; [exact Ht|]. cbn. rewrite lookup_insert_eq. by split_and!.
Qed.
End Fits.

(** A write that fits into the packet is framed as it was written.  When a
    stream with one segment of data, nothing lost, is taken from the queue and
    what was not sent yet fits with its metadata, one turn of
    [write_stream_frames] appends bytes that any parser reads as one STREAM
    frame with the stream's identifier, the offset of the first unsent byte,
    exactly the unsent bytes of the stream, and the FIN if it is due; the
    metadata kept for acknowledgement names the same range, and the stream has
    nothing more to send. *)
Theorem small_write_is_framed {B W : Type} `{BufBytes B} `{BufMutLaws W} (fair : bool) (s : StreamsState) (buf : W)
    (metas : list StreamMeta) (q : PendingStreamsQueue) (p : PendingStream) (ss : Send) (data : list Z) :
  PendingStreamsQueue.pop (ss_pending s) = (q, Some p) -> ss_send s !! ps_id p = Some ss ->
  Send.is_reset ss = false -> 0 <= ps_id p <= VARINT_MAX_4 ->
  send_inv (pending ss) -> unacked_segments (pending ss) = [data] -> retransmits (pending ss) = ∅ ->
  base (pending ss) <= unsent (pending ss) < offset (pending ss) ->
  StreamsState.STREAM_SIZE_BOUND <= remaining_mut buf <= VARINT_MAX_2 ->
  offset (pending ss) - unsent (pending ss) + reserved (unsent (pending ss)) true <= remaining_mut buf ->
  let r := Range (unsent (pending ss)) (offset (pending ss)) in
  let payload := drop (Z.to_nat (unsent (pending ss) - base (pending ss))) data in
  exists s' buf' bs ss',
    StreamsState.write_turn fair (s, buf, metas) =
      Ret (inl (s', buf', metas ++ [{| sm_id := ps_id p; sm_offsets := r; sm_fin := fin_pending ss |}])) /\
    ss_send s' !! ps_id p = Some ss' /\ Send.is_pending ss' = false /\ ss_pending s' = q /\
    written buf' = written buf ++ bs /\ zlen payload = rend r - rstart r /\
    (forall (fp : FrameParser B) rest, view (fp_bytes fp) = bs ++ rest ->
      exists ty b', try_next fp = Ret (Some ty, Ok (FStream {| st_id := ps_id p; st_offset := rstart r;
        st_fin := fin_pending ss; st_data := payload |}, b')) /\ view b' = rest).
Proof. apply turn_frames_rest. Qed.

Lemma small_write_is_framed_witness :
  exists s' buf' metas', StreamsState.write_turn true (written_once [1; 2; 3], SliceBuf [] 100, []) = Ret (inl (s', buf', metas')) /\
    written buf' = [10; 4; 3; 1; 2; 3].
Proof.
  destruct (small_write_is_framed (B:=in_memory) true (written_once [1; 2; 3]) (SliceBuf [] 100) []
    (mkQueue [] None 7) (mkPendingStream 0 7 4) (mkSend Ready (mkSendBuffer [[1; 2; 3]] 3 3 0 ∅ ∅) 0 false None) [1; 2; 3])
    as (s' & buf' & bs & ss' & H & _).
  - reflexivity.
  - reflexivity.
  - reflexivity.
  - vm_compute; split; discriminate.
  - split; cbn; try done; try set_solver; try apply RangeSet.wf_empty. intros y (a & e & Ha & _). by simplify_map_eq.
  - reflexivity.
  - reflexivity.
  - vm_compute; split; [discriminate|reflexivity].
  - vm_compute; split; discriminate.
  - vm_compute. discriminate.
  - eexists _, _, _. split; [exact H|]. vm_compute in H. injection H as <- <-. reflexivity.
Defined.

(** A stream to which one segment was written. *)
Definition just_written (data : list Z) (ss : Send) : Send :=
  mkSend (state ss) (mkSendBuffer [data] (zlen data) (zlen data) 0 ∅ ∅) (priority ss) (fin_pending ss) (stop_reason ss).

Lemma just_written_inv data ss : data <> [] -> zlen data <= VARINT_MAX -> send_inv (pending (just_written data ss)).
Proof.
  intros Hne Hmax. pose proof (zlen_nonneg data). split; cbn; try done; try apply RangeSet.wf_empty.
  - unfold Send.buffered. cbn. by rewrite app_nil_r.
  - unfold base. cbn. lia.
  - intros seg ->%list_elem_of_singleton. done.
  - intros y (a & e & Ha & _). by simplify_map_eq.
Qed.

(** *** A turn whose data does not fit *)
Section Overflow.
Context {W : Type} `{BufMutLaws W}.

(** A fresh stream fills all the room with data. *)
Lemma transmit_all max_len data ss : pending ss = pending (just_written data ss) -> data <> [] -> 16 <= max_len <= zlen data ->
  zlen data <= VARINT_MAX ->
  exists fin ss', transmit max_len ss = Ret (ss', Range 0 max_len, false, fin) /\
    pending ss' = mkSendBuffer [data] (zlen data) (zlen data) max_len ∅ ∅.
Proof.
  intros Hp Hne Hm Hmax. pose proof (poll_transmit_eq max_len (pending ss)) as Hpoll. rewrite Hp in Hpoll.
  specialize (Hpoll (just_written_inv data _ Hne Hmax) ltac:(lia) eq_refl). cbv zeta in Hpoll.
  change (reserved (unsent (pending (just_written data ss))) false) with 0 in Hpoll. cbn [pending just_written offset unsent] in Hpoll.
  rewrite !Z.sub_0_r, Z.add_0_l in Hpoll. destruct (Z.ltb_spec (zlen data) max_len); [lia|]. rewrite Z.min_r in Hpoll by lia.
  unfold transmit. rewrite Hp. cbn [pending just_written]. rewrite Hpoll. cbn [obind]. by eexists _, _.
Qed.

Lemma get_all n data : 0 < n <= zlen data -> zlen data <= VARINT_MAX ->
  SendBuffer.get (Range 0 n) (mkSendBuffer [data] (zlen data) (zlen data) n ∅ ∅) = Ret (take (Z.to_nat n) data).
Proof.
  intros Hn Hmax. unfold SendBuffer.get. cbn. rewrite u64_sub_ok by lia. rewrite Z.sub_diag. cbn. rewrite !u64_sub_ok by lia.
  cbn. rewrite u64_add_ok by varint_lia. cbn. rewrite !u64_sub_ok by lia. cbn.
  rewrite !Z.sub_0_r. rewrite Z.min_l by lia. destruct (_ <? _) eqn:Hlt; [done|]. apply Z.ltb_ge in Hlt. cbn in Hlt. lia.
Qed.

Lemma turn_overflows fair s (buf : W) metas q p ss data :
  PendingStreamsQueue.pop (ss_pending s) = (q, Some p) -> ss_send s !! ps_id p = Some ss -> Send.is_reset ss = false ->
  pending ss = pending (just_written data ss) -> is_varint (ps_id p) ->
  StreamsState.STREAM_SIZE_BOUND <= remaining_mut buf <= zlen data -> zlen data <= VARINT_MAX ->
  StreamsState.write_turn fair (s, buf, metas) = Panic.
Proof.
  intros Hpop Hss Hr Hp Hid Hroom Hmax. pose proof Hroom as Hroom'. unfold StreamsState.STREAM_SIZE_BOUND in Hroom'.
  assert (Hne : data <> []) by (intros ->; unfold zlen in Hroom'; cbn in Hroom'; lia).
  destruct (transmit_all (remaining_mut buf) data ss Hp Hne) as (fin & ss' & Htr & Hp'); [lia|done|].
  assert (Hpend : Send.is_pending ss = true).
  { unfold Send.is_pending, SendBuffer.has_unsent_data. rewrite Hp. cbn. by destruct (zlen data) eqn:Hz; [lia| |]. }
  rewrite (write_turn_chosen fair s buf metas q p ss ss' (Range 0 (remaining_mut buf)) false fin) by first [done | lia | cbn; lia].
  cbv zeta. set (meta := {| sm_id := ps_id p; sm_offsets := _; sm_fin := fin |}).
  assert (Hh : emits (W:=W) (encode_stream_meta meta false) (stream_header meta false)).
  { apply emits_stream_header; cbn; varint_lia. }
  pose proof (stream_header_length meta false) as Hlen. cbn [sm_id sm_offsets meta rstart] in Hlen.
  pose proof (varint_bytes_length (ps_id p) Hid). change (reserved 0 false) with 0 in Hlen.
  destruct (Z.le_gt_cases (zlen (stream_header meta false)) (remaining_mut buf)) as [Hle|Hgt];
    [|by rewrite (emits_panic _ _ buf Hh Hgt)].
  destruct (emits_fits _ _ buf Hh Hle) as (w1 & -> & _ & Hr1). cbn [obind]. rewrite Hp', get_all by lia. cbn [obind].
  rewrite put_slice_panic; [done|]. rewrite zlen_take by lia. lia.
Qed.

(** The loop, when its first turn panics. *)
Lemma write_first_panics fair s (buf : W) : StreamsState.write_turn fair (s, buf, []) = Panic ->
  StreamsState.write_stream_frames buf fair s = Panic.
Proof. intros Ht. unfold StreamsState.write_stream_frames, StreamsState.write_fuel. cbn [StreamsState.write_turns]. by rewrite Ht. Qed.
End Overflow.

(** An open stream to which nothing was written. *)
Definition unwritten (prio : Z) : Send := mkSend Ready SendBuffer_default prio false None.

(** The first write to a stream queues it. *)
Lemma write_first (s : StreamsState) id data prio : ss_send s !! id = Some (unwritten prio) ->
  1 <= q_recency (ss_pending s) -> zlen data <= VARINT_MAX ->
  let r := q_recency (ss_pending s) - 1 in
  SendStream.write id data false s =
    Ret (StreamsState.with_pending (mkQueue (mkPendingStream prio r id :: streams (ss_pending s)) (q_next (ss_pending s)) r)
           (StreamsState.with_send (<[id := just_written data (unwritten prio)]> (ss_send s)) s), Ok tt).
Proof.
  intros Hss Hrec Hmax r. unfold SendStream.write. rewrite Hss. cbn. unfold Send.write, SendBuffer.write. cbn.
  rewrite !u64_add_ok by varint_lia. cbn [obind]. unfold PendingStreamsQueue.push_pending. cbn.
  by rewrite u64_sub_ok by lia.
Qed.

Lemma idle_queue q : PendingStreamsQueue.iter q = [] -> q_next q = None /\ streams q = [].
Proof. unfold PendingStreamsQueue.iter. by destruct (q_next q). Qed.

(** Writing to a fresh stream while no other stream has data to send. *)
Lemma write_fresh (s : StreamsState) id data : ss_send s !! id = Some Send_default ->
  PendingStreamsQueue.iter (ss_pending s) = [] -> 1 <= q_recency (ss_pending s) -> zlen data <= VARINT_MAX ->
  let r := q_recency (ss_pending s) - 1 in
  SendStream.write id data false s =
    Ret (StreamsState.with_pending (mkQueue [mkPendingStream 0 r id] None r)
           (StreamsState.with_send (<[id := just_written data Send_default]> (ss_send s)) s), Ok tt).
Proof. intros Hss [Hn Hs]%idle_queue Hrec Hmax. pose proof (write_first s id data 0 Hss Hrec Hmax) as Hw. by rewrite Hn, Hs in Hw. Qed.

Lemma just_written_pending data ss : data <> [] -> Send.is_pending (just_written data ss) = true.
Proof.
  intros Hne. unfold Send.is_pending, SendBuffer.has_unsent_data. cbn [pending just_written unsent offset].
  destruct data as [|x l]; [done|]. rewrite zlen_cons. pose proof (zlen_nonneg l). by destruct (Z.eqb_spec 0 (1 + zlen l)); [lia|].
Qed.

(** A stream with all of its data written, and finished. *)
Definition written_whole (data : list Z) (prio : Z) : Send :=
  mkSend (DataSent false) (mkSendBuffer [data] (zlen data) (zlen data) 0 ∅ ∅) prio true None.

Lemma finish_written (s : StreamsState) id data prio : ss_send s !! id = Some (just_written data (unwritten prio)) -> data <> [] ->
  SendStream.finish id s = Ret (StreamsState.with_send (<[id := written_whole data prio]> (ss_send s)) s, Ok tt).
Proof. intros Hss Hne. unfold SendStream.finish. rewrite Hss, (just_written_pending data _ Hne). unfold Send.finish. cbn. by rewrite decide_True. Qed.

(** A write that fills the packet crashes the sender.  The room given to
    [poll_transmit] leaves no space for the frame type and the stream
    identifier: when the application writes at least as many bytes as the
    packet has left to a fresh stream, the next [write_stream_frames] panics
    in [put_slice], whatever the stream, the packet and the data. *)
Theorem large_write_panics {W : Type} `{BufMutLaws W} (fair : bool) (s : StreamsState) (buf : W) (id : StreamId) (data : list Z) :
  ss_send s !! id = Some Send_default -> PendingStreamsQueue.iter (ss_pending s) = [] -> 1 <= q_recency (ss_pending s) ->
  is_varint id -> StreamsState.STREAM_SIZE_BOUND <= remaining_mut buf <= zlen data -> zlen data <= VARINT_MAX ->
  exists s', SendStream.write id data false s = Ret (s', Ok tt) /\
    StreamsState.write_stream_frames buf fair s' = Panic.
Proof.
  intros Hss Hq Hrec Hid Hroom Hmax. eexists. split; [by apply write_fresh|]. apply write_first_panics.
  eapply (turn_overflows fair _ buf [] _ (mkPendingStream 0 _ id) (just_written data Send_default) data);
    [reflexivity|cbn; apply lookup_insert_eq|done|done|done|done|done].
Qed.

Lemma large_write_panics_witness :
  exists s', SendStream.write 0 (replicate 200 7) false (opened Client) = Ret (s', Ok tt) /\
    StreamsState.write_stream_frames (SliceBuf [] 100) true s' = Panic.
Proof.
  apply (large_write_panics true (opened Client) (SliceBuf [] 100) 0 (replicate 200 7));
    [reflexivity|reflexivity|vm_compute; intuition congruence..].
Defined.

(** ** A new stream of the peer *)

(** A receive stream after its first frame. *)
Definition after_first_frame (data : list Z) (len : Z) : Recv :=
  mkRecv (RsRecv None) (mkAssembler Ordered [mkBuffer 0 data len false] (zlen data) len 0 (zlen data)) (zlen data) false.

Lemma insert_first data len : data <> [] -> zlen data <= len < U64 ->
  Assembler.insert 0 data len Assembler_default = Ret (assembler (after_first_frame data len)).
Proof.
  intros Hne Hlen. assert (0 < zlen data) by (destruct data; [done|rewrite zlen_cons; pose proof (zlen_nonneg data); lia]).
  assert (Hnil : Assembler.is_nil data = false) by (by destruct data).
  unfold Assembler.insert, assert. destruct (Z.leb_spec (zlen data) len); [|lia]. cbn [obind].
  rewrite u64_add_ok by u64_lia. rewrite Z.add_0_l. cbn [obind bytes_read Assembler_default]. rewrite Hnil.
  destruct (Z.leb_spec (zlen data) 0); [lia|]. unfold Assembler.trim_read. rewrite Z.ltb_irrefl. cbn [obind].
  rewrite Hnil. cbn. rewrite !u64_add_ok by u64_lia. cbn. rewrite Hnil.
  rewrite Z.max_r by lia. done.
Qed.

Lemma ingest_first id data len : data <> [] -> zlen data < 2 ^ 62 -> zlen data <= len < U64 ->
  Recv.ingest {| st_id := id; st_offset := 0; st_fin := false; st_data := data |} len Recv_default =
    Ret (after_first_frame data len, Ok (zlen data, false)).
Proof.
  intros Hne Hmax Hlen. pose proof (zlen_nonneg data). unfold Recv.ingest. cbn [st_offset st_data st_fin].
  rewrite u64_add_ok by u64_lia. rewrite Z.add_0_l. cbn [obind].
  destruct (Z.leb_spec (2 ^ 62) (zlen data)); [lia|]. cbn -[Z.sub Z.max]. rewrite insert_first by done. cbn -[Z.sub Z.max].
  unfold saturating_sub. by rewrite Z.sub_0_r, !Z.max_r by lia.
Qed.

Lemma first_frame_received (s : StreamsState) id data len :
  StreamId.initiator id <> ss_side s -> ss_recv s !! id = None -> data <> [] -> zlen data < 2 ^ 62 -> zlen data <= len < U64 ->
  StreamsState.received {| st_id := id; st_offset := 0; st_fin := false; st_data := data |} len s =
    Ret (StreamsState.send_event (EvReadable id)
           (StreamsState.with_recv (<[id := after_first_frame data len]> (ss_recv s)) s), Ok tt).
Proof.
  intros Hinit Hnone Hne Hmax Hlen. assert (0 < zlen data) by (destruct data; [done|rewrite zlen_cons; pose proof (zlen_nonneg data); lia]).
  unfold StreamsState.received, StreamsState.validate_receive_id. cbn [st_id st_offset st_fin].
  rewrite (decide_False (P := ss_side s = _)) by congruence. rewrite Hnone, decide_False by done.
  rewrite Z.ltb_irrefl. cbn [orb Recv.is_receiving r_state Recv_default negb]. rewrite ingest_first by done. cbn [obind stopped negb after_first_frame].
  destruct (Z.ltb_spec 0 (zlen data)); [|lia]. cbn [orb]. unfold StreamsState.with_recv. cbn. by rewrite insert_insert_eq.
Qed.

Lemma late_frame_dropped (s : StreamsState) frame len :
  StreamId.initiator (st_id frame) <> ss_side s -> ss_recv s !! st_id frame = None -> 0 < st_offset frame \/ st_fin frame = true ->
  StreamsState.received frame len s = Ret (s, Ok tt).
Proof.
  intros Hinit Hnone Hbad. unfold StreamsState.received, StreamsState.validate_receive_id.
  rewrite (decide_False (P := ss_side s = _)) by congruence. rewrite Hnone, decide_False by done.
  assert ((0 <? st_offset frame) || st_fin frame = true) as -> by (destruct Hbad as [?| ->]; [lia|by rewrite orb_true_r]). done.
Qed.

(** The first STREAM frame of a stream the peer opens creates the stream
    only when it starts at offset 0 without FIN: then the application is told
    that the stream is readable, and a read that is large enough returns
    exactly the frame's bytes.  Any other first frame, one that overtook the
    frame at offset 0 or one that carries the whole of a short stream with its
    FIN, is discarded without error and without trace, although its packet is
    acknowledged. *)
Theorem new_peer_stream (s : StreamsState) (frame : Stream) (len : Z) :
  StreamId.initiator (st_id frame) <> ss_side s -> ss_recv s !! st_id frame = None ->
  st_data frame <> [] -> zlen (st_data frame) < 2 ^ 62 -> zlen (st_data frame) <= len < U64 ->
  (st_offset frame = 0 -> st_fin frame = false ->
    exists s', StreamsState.received frame len s = Ret (s', Ok tt) /\
      events s' = events s ++ [EvStream (EvReadable (st_id frame))] /\
      forall max_length, zlen (st_data frame) <= max_length ->
        exists s'' c c', RecvStream.read (st_id frame) true s' = Ret (s'', Ok c) /\
          RecvStream.next max_length c = Ret (c', Ok (Some (mkChunk 0 (st_data frame))))) /\
  (0 < st_offset frame \/ st_fin frame = true -> StreamsState.received frame len s = Ret (s, Ok tt)).
Proof.
  destruct frame as [id off fin data]; cbn. intros Hinit Hnone Hne Hmax Hlen. split; [|intros Hbad; by apply late_frame_dropped].
  intros -> ->. eexists. split; [by apply first_frame_received|]. split; [done|]. intros m Hm.
  unfold RecvStream.read. cbn. rewrite lookup_insert_eq. cbn. eexists _, _, _. split; [done|].
  unfold RecvStream.next, Chunks.next, Assembler.read. cbn. pose proof (zlen_nonneg data).
  destruct (Z.ltb_spec m (zlen data)); [lia|]. rewrite !u64_add_ok by u64_lia. cbn. rewrite !u64_sub_ok by lia. cbn.
  rewrite u64_add_ok by u64_lia. done.
Qed.

Lemma new_peer_stream_witness :
  StreamsState.received {| st_id := 0; st_offset := 0; st_fin := true; st_data := [1; 2] |} 2 (StreamsState.new Server) =
    Ret (StreamsState.new Server, Ok tt).
Proof.
  apply (new_peer_stream (StreamsState.new Server) {| st_id := 0; st_offset := 0; st_fin := true; st_data := [1; 2] |} 2);
    [discriminate|reflexivity|discriminate|reflexivity|vm_compute; intuition congruence|by right].
Defined.
