(* ===== verification/Connection.v ===== *)
(** * Connection: the connection state machine ([core/src/connection/mod.rs])

    A connection with its packet number spaces, path, timers and streams; what
    it does with a datagram, with an acknowledgement, when a timer fires and
    when it is asked for packets to send; and the loop that drives it, as a
    step relation.  [Instant::now()] and what the socket returns are arguments.
    The channel of events is the list [events] of the table of streams. *)
From S2P Require Import Prelude Time Buffers Varint Common ArrayRangeSet Packet Frame Timer Space Path Send Recv Streams.

(** ** Data *)

(** [mod.rs:36-36], [mod.rs:37-37] *)
Definition ACK_DELAY_EXP : Z := 3.
Definition TIMER_GRANULARITY : Duration := from_millis 1.

(** [lib.rs:10-10], [lib.rs:11-11] *)
Definition SUPPORTED_VERSIONS : list Z := [1].
Definition FAKE_CID : list Z :=
  [48; 49; 50; 51; 52; 53; 54; 55; 56; 57; 97; 98; 99; 100; 101; 102; 103; 104; 105; 106].

(** [mod.rs:1122-1131] *)
Inductive State :=
| StHandshake
| Established
| Closed (c : ConnectionClose)
| Draining
| Drained.

Module State.
(** [mod.rs:1138-1140] *)
Definition is_handshake (s : State) : bool := match s with StHandshake => true | _ => false end.
(** [mod.rs:1142-1144] *)
Definition is_closed (s : State) : bool :=
  match s with Closed _ | Draining | Drained => true | _ => false end.
(** [mod.rs:1146-1148] *)
Definition is_drained (s : State) : bool := match s with Drained => true | _ => false end.
End State.

(** [mod.rs:1151-1156] *)
Record SentFrames := mkSentFrames {
  sent_retransmits : ThinRetransmits;
  sent_largest_acked : option Z;
  sent_stream_frames : list StreamMeta;
}.
Definition SentFrames_default : SentFrames := mkSentFrames None None [].

(** [mod.rs:1180-1187] [ConnectionError::from(ConnectionClose)] *)
Definition ConnectionError_from_close (x : ConnectionClose) : ConnectionError :=
  match x with
  | Transport reason => TransportClosed reason
  | Application reason => ApplicationClosed reason
  end.

(** [mod.rs:150-166] *)
Record Connection := mkConnection {
  side : Side;
  c_state : State;
  path : NetworkPath;
  spaces : Spaces;
  highest_space : SpaceId;
  timers : TimerTable;
  c_streams : StreamsState;
  pending_close : bool;
  app_limited : bool;
}.

(** Assignments to one field. *)
Definition with_state (x : State) (c : Connection) : Connection :=
  mkConnection (side c) x (path c) (spaces c) (highest_space c) (timers c) (c_streams c) (pending_close c) (app_limited c).
Definition with_path (x : NetworkPath) (c : Connection) : Connection :=
  mkConnection (side c) (c_state c) x (spaces c) (highest_space c) (timers c) (c_streams c) (pending_close c) (app_limited c).
Definition with_spaces (x : Spaces) (c : Connection) : Connection :=
  mkConnection (side c) (c_state c) (path c) x (highest_space c) (timers c) (c_streams c) (pending_close c) (app_limited c).
Definition with_highest (x : SpaceId) (c : Connection) : Connection :=
  mkConnection (side c) (c_state c) (path c) (spaces c) x (timers c) (c_streams c) (pending_close c) (app_limited c).
Definition with_timers (x : TimerTable) (c : Connection) : Connection :=
  mkConnection (side c) (c_state c) (path c) (spaces c) (highest_space c) x (c_streams c) (pending_close c) (app_limited c).
Definition with_streams (x : StreamsState) (c : Connection) : Connection :=
  mkConnection (side c) (c_state c) (path c) (spaces c) (highest_space c) (timers c) x (pending_close c) (app_limited c).
Definition with_pending_close (x : bool) (c : Connection) : Connection :=
  mkConnection (side c) (c_state c) (path c) (spaces c) (highest_space c) (timers c) (c_streams c) x (app_limited c).
Definition with_app_limited (x : bool) (c : Connection) : Connection :=
  mkConnection (side c) (c_state c) (path c) (spaces c) (highest_space c) (timers c) (c_streams c) (pending_close c) x.

(** [self.spaces[id]] as a place. *)
Definition space_of (c : Connection) (id : SpaceId) : PacketSpace := get_space (spaces c) id.
Definition with_space (id : SpaceId) (x : PacketSpace) (c : Connection) : Connection :=
  with_spaces (set_space id x (spaces c)) c.

Definition space_with_loss (sent : gmap Z SentPacket) (n : Z) (loss : option Instant) (s : PacketSpace) : PacketSpace :=
  mkPacketSpace (hi s) (dedup s) (rx_packet s) (Space.pending s) (pending_acks s) (next_packet_number s)
    (largest_acked_packet s) (largest_acked_packet_sent s) (largest_ack_eliciting_sent s)
    (unacked_non_ack_eliciting_tail s) sent loss (ping_pending s) (immediate_ack_pending s) n.
Definition space_with_rx (d : Dedup) (rx : Z) (s : PacketSpace) : PacketSpace :=
  mkPacketSpace (hi s) d rx (Space.pending s) (pending_acks s) (next_packet_number s)
    (largest_acked_packet s) (largest_acked_packet_sent s) (largest_ack_eliciting_sent s)
    (unacked_non_ack_eliciting_tail s) (sent_packets s) (loss_time s) (ping_pending s) (immediate_ack_pending s)
    (in_flight s).
Definition space_with_acks (a : PendingAcks) (s : PacketSpace) : PacketSpace :=
  mkPacketSpace (hi s) (dedup s) (rx_packet s) (Space.pending s) a (next_packet_number s)
    (largest_acked_packet s) (largest_acked_packet_sent s) (largest_ack_eliciting_sent s)
    (unacked_non_ack_eliciting_tail s) (sent_packets s) (loss_time s) (ping_pending s) (immediate_ack_pending s)
    (in_flight s).
Definition space_with_pending (h : bool) (r : Retransmits) (ping : bool) (s : PacketSpace) : PacketSpace :=
  mkPacketSpace h (dedup s) (rx_packet s) r (pending_acks s) (next_packet_number s)
    (largest_acked_packet s) (largest_acked_packet_sent s) (largest_ack_eliciting_sent s)
    (unacked_non_ack_eliciting_tail s) (sent_packets s) (loss_time s) ping (immediate_ack_pending s)
    (in_flight s).
Definition space_with_acked (largest : option Z) (at_ : Instant) (s : PacketSpace) : PacketSpace :=
  mkPacketSpace (hi s) (dedup s) (rx_packet s) (Space.pending s) (pending_acks s) (next_packet_number s)
    largest at_ (largest_ack_eliciting_sent s)
    (unacked_non_ack_eliciting_tail s) (sent_packets s) (loss_time s) (ping_pending s) (immediate_ack_pending s)
    (in_flight s).

Definition with_hello (b : bool) (r : Retransmits) : Retransmits :=
  mkRetransmits b (reset_stream r) (stop_sending r) (ack_frequency r) (handshake_done r).

(** The entries of [sent_packets] as a [BTreeMap] iterates over them. *)
Definition key_le (a b : Z * SentPacket) : Prop := a.1 <= b.1.
#[export] Instance key_le_dec : RelDecision key_le.
Proof. intros a b. unfold key_le. apply _. Defined.
Definition btree_iter (m : gmap Z SentPacket) : list (Z * SentPacket) := merge_sort key_le (map_to_list m).

(** ** Operations *)
Module Connection.

(** [mod.rs:169-199] *)
Definition new (now : Instant) (side : Side) : outcome Connection :=
  let! path := NetworkPath.new now in
  let s := PacketSpace.new now in
  let c := mkConnection side StHandshake path (mkSpaces s s s) SpInitial TimerTable_default
             (StreamsState.new side) false false in
  match side with
  | Client =>
      let s := space_of c SpInitial in
      Ret (with_space SpInitial (space_with_pending (hi s) (with_hello true (Space.pending s)) (ping_pending s) s) c)
  | Server => Ret c
  end.

Definition send_event (e : Event) (c : Connection) : Connection :=
  let s := c_streams c in
  with_streams (mkStreams (ss_side s) (ss_send s) (ss_recv s) (ss_next s) (ss_pending s) (events s ++ [e])) c.

(** [mod.rs:205-207] *)
Definition error (e : ConnectionError) (c : Connection) : Connection := send_event (ConnectionLost e) c.

(** [mod.rs:770-775] *)
Definition close_common (c : Connection) : Connection :=
  with_timers (fold_left (fun t timer => TimerTable.stop timer t) Timer_VARIANTS (timers c)) c.

(** [mod.rs:778-778], [mod.rs:777-780] *)
Definition CLOSE_TIMEOUT : Duration := from_secs 3.
Definition set_close_timer (now : Instant) (c : Connection) : outcome Connection :=
  let! t := inst_add now CLOSE_TIMEOUT in
  Ret (with_timers (TimerTable.set CloseTimer t (timers c)) c).

(** [mod.rs:758-768] *)
Definition close (now : Instant) (error_code : Z) (reason : list Z) (c : Connection) : outcome Connection :=
  let reason := Application {| ac_error_code := error_code; ac_reason := reason |} in
  if negb (State.is_closed (c_state c)) then
    let c := close_common c in
    let! c := set_close_timer now c in
    Ret (with_state (Closed reason) (with_pending_close true c))
  else Ret c.

(** [mod.rs:782-787] *)
Definition kill (reason : ConnectionError) (c : Connection) : Connection :=
  with_state Drained (error reason (close_common c)).

(** *** Loss detection *)

(** [mod.rs:350-355]; [min_by_key] returns the first of several least elements. *)
Definition loss_time_and_space (c : Connection) : option (Instant * SpaceId) :=
  fold_left (fun best id =>
    match loss_time (space_of c id), best with
    | None, _ => best
    | Some t, None => Some (t, id)
    | Some t, Some (t', _) => if t <? t' then Some (t, id) else best
    end) SpaceId_VARIANTS None.

(** [mod.rs:383-387] *)
Definition earliest_sent (c : Connection) : option Instant :=
  fold_left (fun best id =>
    match btree_iter (sent_packets (space_of c id)), best with
    | [], _ => best
    | (_, p) :: _, None => Some (time_sent p)
    | (_, p) :: _, Some t => Some (Z.min t (time_sent p))
    end) SpaceId_VARIANTS None.

(** [mod.rs:377-379] *)
Definition has_in_flight (c : Connection) : bool :=
  existsb (fun id => 0 <? in_flight (space_of c id)) SpaceId_VARIANTS.

(** [mod.rs:357-395] *)
Definition set_loss_detection_timer (c : Connection) : outcome Connection :=
  if State.is_closed (c_state c) then Ret c
  else
    match loss_time_and_space c with
    | Some (loss_time, _) => Ret (with_timers (TimerTable.set LossDetection loss_time (timers c)) c)
    | None =>
        let stopped := with_timers (TimerTable.stop LossDetection (timers c)) c in
        if has_in_flight c then
          let! pto := dur_mul (RttEstimator.conservative (rtt (path c))) 3 in
          let! pto := dur_add pto TIMER_GRANULARITY in
          match earliest_sent c with
          | Some sent =>
              let! t := inst_add sent pto in
              Ret (with_timers (TimerTable.set LossDetection t (timers c)) c)
          | None => Ret stopped
          end
        else Ret stopped
    end.

(** The loop of [discard_space]. *)
Fixpoint remove_all (l : list (Z * SentPacket)) (p : NetworkPath) : outcome NetworkPath :=
  match l with
  | [] => Ret p
  | (pn, packet) :: l => let! '(p, _) := NetworkPath.remove_in_flight pn packet p in remove_all l p
  end.

(** [mod.rs:209-220] *)
Definition discard_space (id : SpaceId) (c : Connection) : outcome Connection :=
  let! _ := assert (bool_decide (id <> SpData)) in
  let s := space_of c id in
  let c := with_space id (space_with_loss ∅ 0 None s) c in
  let! p := remove_all (btree_iter (sent_packets s)) (path c) in
  set_loss_detection_timer (with_path p c).

(** [mod.rs:423-443] the scan of the sent packets: those that are lost, and the
    time at which the next one will be *)
Fixpoint scan_lost (l : list (Z * SentPacket)) (largest_acked : Z) (delay : Duration) (lost_send_before : Instant)
    (lost_packets : list (Z * SentPacket)) (next : option Instant)
    : outcome (list (Z * SentPacket) * option Instant) :=
  match l with
  | [] => Ret (lost_packets, next)
  | (pn, packet) :: l =>
      if largest_acked <? pn then Ret (lost_packets, next)
      else if time_sent packet <=? lost_send_before then
        scan_lost l largest_acked delay lost_send_before (lost_packets ++ [(pn, packet)]) next
      else
        let! candidate := inst_add (time_sent packet) delay in
        let next := match next with None => Some candidate | Some prev => Some (Z.min prev candidate) end in
        scan_lost l largest_acked delay lost_send_before lost_packets next
  end.

(** [for frame in packet.stream_frames { streams.f(frame) }] *)
Fixpoint for_frames (f : StreamMeta -> StreamsState -> outcome StreamsState) (l : list StreamMeta) (s : StreamsState)
    : outcome StreamsState :=
  match l with
  | [] => Ret s
  | frame :: l => let! s := f frame s in for_frames f l s
  end.

(** [mod.rs:451-469] one lost packet *)
Definition lose_packet (now : Instant) (id : SpaceId) (pn : Z) (packet : SentPacket) (c : Connection)
    : outcome Connection :=
  let! '(p, removed_from_path) := NetworkPath.remove_in_flight pn packet (path c) in
  let p :=
    if removed_from_path && ack_eliciting packet then
      mkNetworkPath (sending_queue p) (rtt p)
        (NewReno.on_congestion_event now (time_sent packet) (congestion p)) (np_in_flight p) (first_packet p)
    else p in
  let c := with_path p c in
  let! ss := for_frames StreamsState.retransmit (stream_frames packet) (c_streams c) in
  let c := with_streams ss c in
  let s := space_of c id in
  let s :=
    match Space.retransmits packet with
    | Some r => space_with_pending (hi s) (Retransmits_or (Space.pending s) r) (ping_pending s) s
    | None => s
    end in
  let! '(s, _) := PacketSpace.take pn s in
  Ret (with_space id s c).

Fixpoint lose_packets (now : Instant) (id : SpaceId) (l : list (Z * SentPacket)) (c : Connection)
    : outcome Connection :=
  match l with
  | [] => Ret c
  | (pn, packet) :: l => let! c := lose_packet now id pn packet c in lose_packets now id l c
  end.

(** [mod.rs:415-415] *)
Definition loss_delay (r : RttEstimator) : outcome Duration :=
  let! d := dur_mul (RttEstimator.conservative r) 9 in dur_div d 8.

(** [mod.rs:397-472] *)
Definition detect_lost_packets (now : Instant) (id : SpaceId) (c : Connection) : outcome Connection :=
  let s := space_of c id in
  match largest_acked_packet s with
  | None => Ret (with_space id (space_with_loss (sent_packets s) (in_flight s) None s) c)
  | Some largest_acked =>
      let! d := loss_delay (rtt (path c)) in
      let delay := Z.max d TIMER_GRANULARITY in
      let lost_send_before := default now (inst_checked_sub now delay) in
      let! '(lost_packets, next) :=
        scan_lost (btree_iter (sent_packets s)) largest_acked delay lost_send_before [] None in
      let c := with_space id (space_with_loss (sent_packets s) (in_flight s) next s) c in
      match lost_packets with
      | [] => Ret c
      | _ =>
          let! c := lose_packets now id lost_packets c in
          set_loss_detection_timer c
      end
  end.

(** [mod.rs:1052-1068] *)
Definition on_loss_detection_timeout (now : Instant) (c : Connection) : outcome Connection :=
  let! c :=
    match loss_time_and_space c with
    | Some (_, id) => detect_lost_packets now id c
    | None =>
        fold_left (fun oc id =>
          let! c := oc in
          if 0 <? in_flight (space_of c id) then detect_lost_packets now id c else Ret c)
          SpaceId_VARIANTS (Ret c)
    end in
  set_loss_detection_timer c.

(** *** Acknowledgements *)

(** [mod.rs:502-537] one acknowledged number; the accumulator is the largest
    packet newly acknowledged, [newly_acked_any] is [Some] of it *)
Definition ack_number (id : SpaceId) (pn : Z) (acc : Connection * option SentPacket)
    : outcome (Connection * option SentPacket) :=
  let '(c, largest) := acc in
  let! '(s, taken) := PacketSpace.take pn (space_of c id) in
  match taken with
  | None => Ret (c, largest)
  | Some packet =>
      let largest :=
        match largest with
        | None => Some packet
        | Some l => if number l <? number packet then Some packet else Some l
        end in
      let! s :=
        match largest_acked packet with
        | Some n =>
            let! m := u64_add n 1 in
            let! a := PendingAcks.subtract_below m (pending_acks s) in
            Ret (space_with_acks a s)
        | None => Ret s
        end in
      let c := with_space id s c in
      let! ss := for_frames StreamsState.received_ack_of (stream_frames packet) (c_streams c) in
      let c := with_streams ss c in
      let! '(p, removed_from_path) := NetworkPath.remove_in_flight (number packet) packet (path c) in
      let! cong :=
        if removed_from_path && ack_eliciting packet then
          NewReno.on_ack (time_sent packet) (size packet) (app_limited c) (congestion p)
        else Ret (congestion p) in
      Ret (with_path (mkNetworkPath (sending_queue p) (rtt p) cong (np_in_flight p) (first_packet p)) c, largest)
  end.

Fixpoint ack_numbers (id : SpaceId) (l : list Z) (acc : Connection * option SentPacket)
    : outcome (Connection * option SentPacket) :=
  match l with
  | [] => Ret acc
  | pn :: l => let! acc := ack_number id pn acc in ack_numbers id l acc
  end.

(** The numbers of the inclusive ranges of an ACK frame, in the order of the loops. *)
Definition acked_numbers (l : list (Z * Z)) : list Z := l ≫= (fun r => seqZ r.1 (r.2 + 1 - r.1)).

Definition protocol_violation (reason : string) : TransportError :=
  transport_error TransportErrorCode.PROTOCOL_VIOLATION reason.

(** [mod.rs:474-564] *)
Definition on_ack_received (now : Instant) (id : SpaceId) (ack : Ack) (c : Connection)
    : outcome (Connection * result unit TransportError) :=
  if next_packet_number (space_of c id) <=? ack_largest ack then
    Ret (c, Err (protocol_violation "ACK for unsent packet"))
  else if match largest_acked_packet (space_of c id) with Some prev => ack_largest ack <? prev | None => false end then
    Ret (c, Err (protocol_violation "ACK regressed largest acknowledged packet"))
  else
    let! l := ack_ranges ack in
    let! '(c, newly) := ack_numbers id (acked_numbers l) (c, None) in
    match newly with
    | None => Ret (c, Ok tt)
    | Some packet =>
        let s := space_of c id in
        let largest := match largest_acked_packet s with None => ack_largest ack | Some prev => Z.max prev (ack_largest ack) end in
        let c := with_space id (space_with_acked (Some largest) now s) c in
        let ack_delay := from_micros (as_u64 (Z.shiftl (Frame.ack_delay ack) ACK_DELAY_EXP)) in
        let sample := inst_sub now (time_sent packet) in
        let p := path c in
        let! r := RttEstimator.update ack_delay sample (rtt p) in
        let c := with_path (mkNetworkPath (sending_queue p) r (congestion p) (np_in_flight p) (first_packet p)) c in
        let! c := detect_lost_packets now id c in
        let! c := set_loss_detection_timer c in
        Ret (c, Ok tt)
    end.

(** *** Received packets *)
Section Receive.
Context {B : Type} `{Buf B}.

(** What the handler of a frame does next: go on with the payload, or return. *)
Inductive next_frame :=
| GoOn
| Return (r : result unit TransportError).

(** [mod.rs:638-704] one frame of an Initial or Handshake packet *)
Definition early_frame (now : Instant) (id : SpaceId) (frame : Frame) (c : Connection)
    : outcome (Connection * next_frame) :=
  match frame with
  | Padding | Ping => Ret (c, GoOn)
  | FAck ack =>
      let! '(c, r) := on_ack_received now id ack c in
      Ret (c, match r with Ok _ => GoOn | Err e => Return (Err e) end)
  | FCrypto _ =>
      let s := space_of c id in
      let first_time := negb (hi s) in
      let c := with_space id (space_with_pending true
                 (if first_time then with_hello true (Space.pending s) else Space.pending s) (ping_pending s) s) c in
      let c := if SpaceId_as_usize (highest_space c) <? SpaceId_as_usize id then with_highest id c else c in
      if State.is_handshake (c_state c) && (bool_decide (id = SpInitial) || bool_decide (id = SpHandshake))
      then Ret (send_event Connected (with_state Established c), GoOn)
      else Ret (c, GoOn)
  | Close close => Ret (kill (ConnectionError_from_close close) c, Return (Ok tt))
  | _ => Ret (c, Return (Err (protocol_violation "illegal frame in Initial/Handshake packet")))
  end.

(** [mod.rs:727-752] one frame of a 1-RTT packet *)
Definition data_frame (now : Instant) (id : SpaceId) (payload_len : Z) (frame : Frame) (c : Connection)
    : outcome (Connection * next_frame) :=
  let on_streams (r : StreamsState * result unit TransportError) :=
    (with_streams r.1 c, match r.2 with Ok _ => GoOn | Err e => Return (Err e) end) in
  match frame with
  | Padding | Ping => Ret (c, GoOn)
  | ImmediateAck =>
      let s := space_of c id in
      Ret (with_space id (space_with_acks (PendingAcks.set_immediate_ack_required (pending_acks s)) s) c, GoOn)
  | FAck ack =>
      let! '(c, r) := on_ack_received now id ack c in
      Ret (c, match r with Ok _ => GoOn | Err e => Return (Err e) end)
  | FStream stream => let! r := StreamsState.received stream payload_len (c_streams c) in Ret (on_streams r)
  | FResetStream reset => let! r := StreamsState.received_reset reset (c_streams c) in Ret (on_streams r)
  | FStopSending stop => Ret (on_streams (StreamsState.received_stop_sending stop (c_streams c)))
  | Close close => Ret (kill (ConnectionError_from_close close) c, Return (Ok tt))
  | _ => Ret (c, GoOn)
  end.

(** [while let Some(frame) = parser.next().transpose()? { .. }]: a turn of the
    loop reads a byte at least, so the length of the payload is fuel enough
    (see [frame_loop_fold]). *)
Fixpoint frame_loop (fuel : nat) (h : Frame -> Connection -> outcome (Connection * next_frame)) (p : FrameParser B)
    (c : Connection) : outcome (Connection * result unit TransportError) :=
  match fuel with
  | O => Panic
  | S fuel =>
      let! '(p, x) := FrameParser_next p in
      match x with
      | None => Ret (c, Ok tt)
      | Some (Err e) => Ret (c, Err e)
      | Some (Ok frame) =>
          let! '(c, next) := h frame c in
          match next with
          | GoOn => frame_loop fuel h p c
          | Return r => Ret (c, r)
          end
      end
  end.

Definition process_frames (h : Frame -> Connection -> outcome (Connection * next_frame)) (payload : B) (c : Connection)
    : outcome (Connection * result unit TransportError) :=
  match FrameParser_new payload with
  | Err e => Ret (c, Err e)
  | Ok parser => frame_loop (S (length (view payload))) h parser c
  end.

(** [mod.rs:610-709] *)
Definition process_early_payload (now : Instant) (packet : Packet B) (c : Connection)
    : outcome (Connection * result unit TransportError) :=
  process_frames (early_frame now (Header.space (header packet))) (payload packet) c.

(** [mod.rs:711-756] *)
Definition process_payload (now : Instant) (packet : Packet B) (c : Connection)
    : outcome (Connection * result unit TransportError) :=
  process_frames (data_frame now (Header.space (header packet)) (remaining (payload packet))) (payload packet) c.

(** [mod.rs:566-608] *)
Definition process_packet (now : Instant) (number : option Z) (packet : Packet B) (c : Connection)
    : outcome (Connection * result unit ConnectionError) :=
  let lift (r : Connection * result unit TransportError) :=
    (r.1, match r.2 with Ok _ => Ok tt | Err e => Err (ETransportError e) end) in
  match Header.space (header packet) with
  | SpInitial | SpHandshake => let! r := process_early_payload now packet c in Ret (lift r)
  | SpData =>
      match number with
      | None => Ret (c, Err (ETransportError (protocol_violation "missing packet number")))
      | Some _ => let! r := process_payload now packet c in Ret (lift r)
      end
  end.

(** [mod.rs:307-348] *)
Definition on_packet_authenticated (now : Instant) (id : SpaceId) (number : option Z) (c : Connection)
    : outcome Connection :=
  match number with
  | None => Ret c
  | Some number =>
      let! c :=
        if bool_decide (side c = Server) && hi (space_of c SpInitial) && bool_decide (id = SpHandshake)
        then discard_space SpInitial c else Ret c in
      let s := space_of c id in
      let! '(a, arm_timer) := PendingAcks.packet_received (pending_acks s) now number true (dedup s) in
      let s := space_with_acks a s in
      let s := if rx_packet s <=? number then space_with_rx (dedup s) number s else s in
      let c := with_space id s c in
      if decide (id = SpData) then
        if arm_timer then
          let! t := inst_add now (from_millis 25) in
          Ret (with_timers (TimerTable.set MaxAckDelay t (timers c)) c)
        else Ret c
      else
        Ret (with_space id (space_with_acks (PendingAcks.set_immediate_ack_required (pending_acks s)) s) c)
  end.

(** [mod.rs:222-232] *)
Definition handle_first_packet (now : Instant) (packet : InitialPacket B) (c : Connection)
    : outcome (Connection * result unit ConnectionError) :=
  let! number := PacketNumber.expand (ih_number (ip_header packet)) 0 in
  let! c := on_packet_authenticated now SpInitial (Some number) c in
  process_packet now (Some number) (Packet_from_initial packet) c.

(** [mod.rs:282-291] the state an error leads to *)
Definition state_after (e : ConnectionError) : State :=
  match e with
  | ApplicationClosed reason => Closed (Application reason)
  | TransportClosed reason => Closed (Transport reason)
  | Reset => Drained
  | ETransportError err => Closed (ConnectionClose_from_error err)
  | VersionMismatch => Draining
  end.

(** [mod.rs:279-304] what the result of a packet does to the state *)
Definition conclude (now : Instant) (was_closed was_drained : bool) (res : result unit ConnectionError) (c : Connection)
    : outcome Connection :=
  let c := match res with Ok _ => c | Err e => with_state (state_after e) (error e c) end in
  let! c :=
    if negb was_closed && State.is_closed (c_state c) then
      let c := close_common c in
      if negb (State.is_drained (c_state c)) then set_close_timer now c else Ret c
    else Ret c in
  Ret (if negb was_drained && State.is_drained (c_state c)
       then with_timers (TimerTable.stop CloseTimer (timers c)) c else c).

(** [mod.rs:274-304] the part of [handle_data] behind the filter of duplicates *)
Definition handle_packet (now : Instant) (number : option Z) (packet : Packet B) (c : Connection)
    : outcome Connection :=
  let was_closed := State.is_closed (c_state c) in
  let was_drained := State.is_drained (c_state c) in
  let! c :=
    if negb (State.is_closed (c_state c))
    then on_packet_authenticated now (Header.space (header packet)) number c else Ret c in
  let! '(c, res) := process_packet now number packet c in
  conclude now was_closed was_drained res c.

(** [mod.rs:234-305] *)
Definition handle_data (now : Instant) (data : B) (c : Connection) : outcome Connection :=
  let! r := Header.decode data (zlen FAKE_CID) SUPPORTED_VERSIONS in
  match r with
  | Err _ => Ret c
  | Ok (h, data) =>
      let packet := {| header := h; payload := data |} in
      let id := Header.space h in
      let s := space_of c id in
      let! number :=
        match Header.number h with
        | None => Ret None
        | Some n =>
            let! expected := u64_add (rx_packet s) 1 in
            let! pn := PacketNumber.expand n expected in
            Ret (Some pn)
        end in
      let! '(d, is_duplicate) :=
        match number with
        | Some pn => Dedup_insert (dedup s) pn
        | None => Ret (dedup s, false)
        end in
      let c := with_space id (space_with_rx d (rx_packet s) s) c in
      if is_duplicate then Ret c
      else if State.is_handshake (c_state c) && Header.is_short h then Ret c
      else handle_packet now number packet c
  end.
End Receive.

(** *** Packets to send *)
Section Transmit.
Context {W : Type} `{BufMut W}.

(** [mod.rs:976-996] *)
Definition populate_acks (now : Instant) (s : PacketSpace) (buf : W) : outcome (option Z * W) :=
  let a := pending_acks s in
  let! _ := assert (negb (ArrayRangeSet.is_empty (ranges a))) in
  let delay_micros := as_u64 (as_micros (PendingAcks.ack_delay a now)) in
  let delay := Z.shiftr delay_micros ACK_DELAY_EXP in
  let! largest := ArrayRangeSet.max (ranges a) in
  let! buf := encode_ack delay (ranges a) None buf in
  Ret (largest, buf).

(** [mod.rs:998-1050] *)
Definition populate_packet (now : Instant) (id : SpaceId) (out : W) (c : Connection)
    : outcome (Connection * SentFrames * W) :=
  let s := space_of c id in
  let! '(sent_largest, out) :=
    if negb (ArrayRangeSet.is_empty (ranges (pending_acks s))) then populate_acks now s out else Ret (None, out) in
  let! '(c, thin, out) :=
    if hello (Space.pending s) then
      let! out := put_u8 6 out in
      let! out := put_u8 0 out in
      let! out := put_u8 1 out in
      let! out := put_u8 0 out in
      Ret (with_space id (space_with_pending true (with_hello false (Space.pending s)) (ping_pending s) s) c,
           Some (with_hello true (Thin_get_or_create None)), out)
    else Ret (c, None, out) in
  let s := space_of c id in
  let! '(c, out) :=
    if bool_decide (id = SpData) && ping_pending s then
      let! out := put_u8 1 out in
      Ret (with_space id (space_with_pending (hi s) (Space.pending s) false s) c, out)
    else Ret (c, out) in
  let s := space_of c id in
  if decide (id = SpData) then
    let! '(out, pending, thin) :=
      StreamsState.write_control_frames out (Space.pending s) thin (c_streams c) in
    let c := with_space id (space_with_pending (hi s) pending (ping_pending s) s) c in
    let! '(ss, out, metas) := StreamsState.write_stream_frames out true (c_streams c) in
    Ret (with_streams ss c, mkSentFrames thin sent_largest metas, out)
  else Ret (c, mkSentFrames thin sent_largest [], out).
End Transmit.

(** [mod.rs:789-795] *)
Definition space_can_send (c : Connection) (id : SpaceId) : SendableFrames :=
  let s := PacketSpace.can_send (space_of c id) in
  match id with
  | SpData => {| sf_acks := sf_acks s; sf_other := sf_other s || StreamsState.can_send_stream_data (c_streams c) |}
  | _ => s
  end.

(** [mod.rs:872-893] the header of a packet of a space *)
Definition packet_header (id : SpaceId) (number : PacketNumber) : outcome Header :=
  let! cid := ConnectionId.new FAKE_CID in
  let! version := unwrap (SUPPORTED_VERSIONS !! 0%nat) in
  Ret match id with
      | SpInitial => HInitial {| ih_dst_cid := cid; ih_src_cid := cid; ih_token := [];
                                 ih_number := number; ih_version := version |}
      | SpHandshake => HLong Handshake cid cid number version
      | SpData => HShort false false cid number
      end.

(** [mod.rs:846-951] one packet of a space *)
Definition transmit_space (now : Instant) (close : bool) (id : SpaceId) (ack_eliciting : bool) (c : Connection)
    : outcome Connection :=
  let! '(s, exact_number) := PacketSpace.get_tx_number (space_of c id) in
  let c := with_space id s c in
  let! number := PacketNumber.new exact_number (default 0 (largest_acked_packet s)) in
  let! h := packet_header id number in
  let out := SliceBuf [] (Z.to_nat INITIAL_MTU) in
  let! out := Header.encode h out in
  let! '(c, sent, out) :=
    if close then
      let s := space_of c id in
      let! out :=
        if negb (ArrayRangeSet.is_empty (ranges (pending_acks s)))
        then let! '(_, out) := populate_acks now s out in Ret out else Ret out in
      Ret (with_pending_close false c, SentFrames_default, out)
    else populate_packet now id out c in
  let c :=
    match sent_largest_acked sent with
    | Some _ =>
        let s := space_of c id in
        let c := with_space id (space_with_acks (PendingAcks.acks_sent (pending_acks s)) s) c in
        with_timers (TimerTable.stop MaxAckDelay (timers c)) c
    | None => c
    end in
  let! packet_len := u64_sub INITIAL_MTU (remaining_mut out) in
  let meta := mkSentPacket now (as_u16 (if ack_eliciting then packet_len else 0)) ack_eliciting
                (sent_largest_acked sent) (sent_retransmits sent) (sent_stream_frames sent) exact_number id in
  let p := path c in
  let scheduled := {| sch_packet := take (Z.to_nat packet_len) (written out); meta_info := meta |} in
  Ret (with_path (mkNetworkPath (sending_queue p ++ [scheduled]) (rtt p) (congestion p) (np_in_flight p) (first_packet p)) c).

(** [mod.rs:824-863] one space in the loop of [poll_transmit] *)
Definition transmit_turn (now : Instant) (close congestion_blocked : bool) (id : SpaceId) (acc : Connection * bool)
    : outcome (Connection * bool) :=
  let '(c, sent_any) := acc in
  let can_send := space_can_send c id in
  if SendableFrames_is_empty can_send && negb (close && bool_decide (id = highest_space c)) then Ret (c, sent_any)
  else
    let! c :=
      if bool_decide (side c = Client) && bool_decide (id = SpHandshake) && hi (space_of c SpInitial)
      then discard_space SpInitial c else Ret c in
    let ack_eliciting := sf_other can_send ||
      match id with SpData => StreamsState.can_send_stream_data (c_streams c) | _ => false end in
    if ack_eliciting && congestion_blocked then Ret (with_app_limited false c, sent_any)
    else let! c := transmit_space now close id ack_eliciting c in Ret (c, true).

Definition transmit_turns (now : Instant) (close congestion_blocked : bool) (c : Connection)
    : outcome (Connection * bool) :=
  let! acc := transmit_turn now close congestion_blocked SpInitial (c, false) in
  let! acc := transmit_turn now close congestion_blocked SpHandshake acc in
  transmit_turn now close congestion_blocked SpData acc.

(** [mod.rs:797-974] *)
Definition poll_transmit (now : Instant) (c : Connection) : outcome (Connection * bool) :=
  let close :=
    match c_state c with
    | Drained => None
    | Draining | Closed _ => if pending_close c then Some true else None
    | _ => Some false
    end in
  match close with
  | None => Ret (c, false)
  | Some close =>
      let congestion_blocked := NewReno.window (congestion (path c)) <=? if_bytes (np_in_flight (path c)) in
      let! '(c, sent_any) := transmit_turns now close congestion_blocked c in
      if negb sent_any then Ret (c, false)
      else
        let more := existsb (fun id => negb (SendableFrames_is_empty (space_can_send c id))) SpaceId_VARIANTS in
        let limited := negb more && (if_bytes (np_in_flight (path c)) <? NewReno.window (congestion (path c))) in
        Ret (with_app_limited limited c, more)
  end.

(** [mod.rs:1070-1088] *)
Definition handle_timeout (timer : Timer) (now : Instant) (c : Connection) : outcome Connection :=
  match timer with
  | LossDetection => on_loss_detection_timeout now c
  | CloseTimer => Ret (with_state Drained c)
  | MaxAckDelay =>
      let s := space_of c SpData in
      Ret (with_space SpData (space_with_acks (PendingAcks.on_ack_delay_timeout (pending_acks s)) s) c)
  | _ => Ret c
  end.

(** *** Streams, for the application *)

(** [mod.rs:1090-1099] the streams and the queued frames a [RecvStream] borrows *)
Definition recv_stream (id : StreamId) (c : Connection) : outcome (StreamsState * Retransmits) :=
  let! _ := assert (bool_decide (StreamId.dir id = Bi) || bool_decide (StreamId.initiator id <> side c)) in
  Ret (c_streams c, Space.pending (space_of c SpData)).

(** [mod.rs:1101-1111] *)
Definition send_stream (id : StreamId) (c : Connection) : outcome (StreamsState * Retransmits * bool) :=
  let! _ := assert (bool_decide (StreamId.dir id = Bi) || bool_decide (StreamId.initiator id = side c)) in
  Ret (c_streams c, Space.pending (space_of c SpData), State.is_closed (c_state c)).

(** What the handles write back. *)
Definition with_handle (ss : StreamsState) (pending : Retransmits) (c : Connection) : Connection :=
  let s := space_of c SpData in
  with_space SpData (space_with_pending (hi s) pending (ping_pending s) s) (with_streams ss c).

(** [mod.rs:1113-1119] *)
Definition open_stream (dir : Dir) (c : Connection) : outcome (Connection * StreamId) :=
  if State.is_closed (c_state c) then Panic
  else let! '(ss, id) := StreamsState.open dir (c_streams c) in Ret (with_streams ss c, id).
End Connection.
