(* ===== verification/Accounting.v ===== *)
(** * Accounting: the invariant of a connection

    The bytes in flight of the path and of the spaces, the packet numbers in
    use, the timers and the queue of streams stay consistent whatever the
    connection does.  [keeps] is what the operations on received packets and
    timers have in common. *)
From S2P Require Import Prelude Time Buffers Varint Common ArrayRangeSet Packet Frame Timer Space Path Send Recv Streams Connection.

(** ** The invariant *)

Definition key_of (m : SentPacket) : SpaceId * Z := (space_id m, number m).

(** A packet that waits in the queue of the path. *)
Record queued_ok (s : Spaces) (m : SentPacket) : Prop := {
  qo_number : 0 <= number m < next_packet_number (get_space s (space_id m));
  qo_fresh : sent_packets (get_space s (space_id m)) !! number m = None;
  qo_size : 0 <= size m < U16;
}.

Definition queued_packets (p : NetworkPath) : list SentPacket := map meta_info (sending_queue p).

Record conn_inv (c : Connection) : Prop := {
  ci_path : path_inv (path c) (spaces c);
  ci_queue : Forall (queued_ok (spaces c)) (queued_packets (path c));
  ci_unique : NoDup (map key_of (queued_packets (path c)));
  ci_first : first_packet (path c) = None ->
    match queued_packets (path c) with
    | [] => forall id, next_packet_number (space_of c id) = 0
    | m :: _ => number m = 0
    end;
  ci_timers : timers_wf (timers c);
  ci_streams : all_queued (c_streams c);
}.

(** The fields of a space that the accounts are about. *)
Record books (s s' : PacketSpace) : Prop := {
  bk_next : next_packet_number s' = next_packet_number s;
  bk_in_flight : in_flight s' = in_flight s;
  bk_sent : sent_packets s' = sent_packets s;
  bk_tail : unacked_non_ack_eliciting_tail s' = unacked_non_ack_eliciting_tail s;
}.

Lemma books_refl s : books s s.
Proof. by split. Qed.

Lemma books_space_inv s s' : books s s' -> space_inv s -> space_inv s'.
Proof. intros [Hn Hf Hs Ht] [? ? ? ?]. split; by rewrite ?Hn, ?Hf, ?Hs, ?Ht. Qed.

Lemma all_spaces_books f s s' : (forall id, books (get_space s id) (get_space s' id)) -> all_spaces f s' = all_spaces f s.
Proof.
  intros H. unfold all_spaces. pose proof (bk_sent _ _ (H SpInitial)) as H1.
  pose proof (bk_sent _ _ (H SpHandshake)) as H2. pose proof (bk_sent _ _ (H SpData)) as H3. cbn in *. congruence.
Qed.

Lemma path_inv_books p p' s s' : path_inv p s -> np_in_flight p' = np_in_flight p -> first_packet p' = first_packet p ->
  (forall id, books (get_space s id) (get_space s' id)) -> path_inv p' s'.
Proof.
  intros [Hsp Hb He Hf] Hi Hfst Hbk. split.
  - intros id. by apply (books_space_inv _ _ (Hbk id)).
  - by rewrite Hi, Hb, (all_spaces_books _ _ _ Hbk).
  - by rewrite Hi, He, (all_spaces_books _ _ _ Hbk).
  - rewrite Hfst. destruct (first_packet p); [done|]. intros id. by rewrite (bk_sent _ _ (Hbk id)).
Qed.

Lemma queued_ok_books s s' m : (forall id, books (get_space s id) (get_space s' id)) -> queued_ok s m -> queued_ok s' m.
Proof.
  intros Hbk [Hn Hf Hs]. destruct (Hbk (space_id m)) as [Hnx _ Hst _]. split; [by rewrite Hnx|by rewrite Hst|done].
Qed.

(** Whatever leaves the accounts alone keeps the invariant. *)
Lemma conn_inv_frame c c' : conn_inv c -> sending_queue (path c') = sending_queue (path c) ->
  np_in_flight (path c') = np_in_flight (path c) -> first_packet (path c') = first_packet (path c) ->
  (forall id, books (space_of c id) (space_of c' id)) ->
  (timers_wf (timers c) -> timers_wf (timers c')) -> (all_queued (c_streams c) -> all_queued (c_streams c')) -> conn_inv c'.
Proof.
  intros [Hp Hq Hu Hf Ht Hs] Eq Ei Ef Hbk Ht' Hs'. unfold space_of in Hbk.
  assert (Hqp : queued_packets (path c') = queued_packets (path c)) by (unfold queued_packets; by rewrite Eq).
  split; try auto.
  - by apply (path_inv_books (path c) _ (spaces c)).
  - rewrite Hqp. eapply Forall_impl; [exact Hq|]. intros m. by apply queued_ok_books.
  - by rewrite Hqp.
  - rewrite Ef, Hqp. intros Hn. specialize (Hf Hn). destruct (queued_packets (path c)); [|done].
    intros id. unfold space_of at 1. rewrite (bk_next _ _ (Hbk id)). apply (Hf id).
Qed.

(** ** What the operations have in common *)

(** How far a connection has come. *)
Definition rank (s : State) : Z :=
  match s with StHandshake => 0 | Established => 1 | Closed _ | Draining => 2 | Drained => 3 end.

Record keeps (c c' : Connection) : Prop := {
  k_inv : conn_inv c -> conn_inv c';
  k_rank : rank (c_state c) <= rank (c_state c');
  k_number : forall id, next_packet_number (space_of c' id) = next_packet_number (space_of c id);
  k_dedup : forall id, dedup (space_of c' id) = dedup (space_of c id);
  k_rx : forall id, rx_packet (space_of c' id) = rx_packet (space_of c id);
  k_queue : sending_queue (path c') = sending_queue (path c);
  k_side : side c' = side c;
}.

#[export] Instance keeps_preorder : PreOrder keeps.
Proof.
  split; [by intros c; split|]. intros c1 c2 c3 [] []. split; try congruence; auto; [lia|..]; intros id; congruence.
Qed.

Lemma space_of_with id id' x c : space_of (with_space id x c) id' = if decide (id = id') then x else space_of c id'.
Proof. apply get_set_space. Qed.

(** The other assignments leave the spaces alone. *)
Lemma space_of_path p c id : space_of (with_path p c) id = space_of c id.
Proof. done. Qed.
Lemma space_of_streams ss c id : space_of (with_streams ss c) id = space_of c id.
Proof. done. Qed.
Lemma space_of_timers t c id : space_of (with_timers t c) id = space_of c id.
Proof. done. Qed.

Create Rewrite HintDb conn.
#[export] Hint Rewrite space_of_with space_of_path space_of_streams space_of_timers : conn.

Lemma timers_wf_fold l t : timers_wf t -> timers_wf (fold_left (fun t timer => TimerTable.stop timer t) l t).
Proof. revert t. induction l as [|x l IH]; intros t Ht; [done|]. apply IH. by apply timers_wf_insert. Qed.

(** The fields of a space that [keeps] speaks of are untouched. *)
Definition quiet (s s' : PacketSpace) : Prop :=
  books s s' /\ dedup s' = dedup s /\ rx_packet s' = rx_packet s.

Lemma quiet_refl s : quiet s s.
Proof. by split; [apply books_refl|]. Qed.

Lemma keeps_frame c c' : side c' = side c -> rank (c_state c) <= rank (c_state c') ->
  sending_queue (path c') = sending_queue (path c) ->
  np_in_flight (path c') = np_in_flight (path c) -> first_packet (path c') = first_packet (path c) ->
  (forall id, quiet (space_of c id) (space_of c' id)) ->
  (timers_wf (timers c) -> timers_wf (timers c')) -> (all_queued (c_streams c) -> all_queued (c_streams c')) ->
  keeps c c'.
Proof.
  intros Hside Hr Hq Hi Hf Hs Ht Hst. split; try done; try (intros id; apply Hs).
  - intros Hinv. apply (conn_inv_frame c); try done. intros id. apply Hs.
Qed.

Lemma keeps_space id s' c : quiet (space_of c id) s' -> keeps c (with_space id s' c).
Proof.
  intros Hq. apply keeps_frame; try done. intros id'. rewrite space_of_with.
  destruct (decide (id = id')) as [->|]; [done|apply quiet_refl].
Qed.

Lemma keeps_timers t c : (timers_wf (timers c) -> timers_wf t) -> keeps c (with_timers t c).
Proof. intros Ht. by apply keeps_frame. Qed.

Lemma keeps_streams ss c : (all_queued (c_streams c) -> all_queued ss) -> keeps c (with_streams ss c).
Proof. intros Hs. by apply keeps_frame. Qed.

Lemma keeps_event e c : keeps c (Connection.send_event e c).
Proof. apply keeps_streams. intros Hq. by apply (all_queued_frame (c_streams c)). Qed.

Lemma keeps_state x c : rank (c_state c) <= rank x -> keeps c (with_state x c).
Proof. intros Hr. by apply keeps_frame. Qed.

Lemma keeps_close_common c : keeps c (Connection.close_common c).
Proof. apply keeps_timers. apply timers_wf_fold. Qed.

Lemma keeps_close_timer now c c' : Connection.set_close_timer now c = Ret c' -> keeps c c'.
Proof. unfold Connection.set_close_timer. intros H. outcome_inv. subst. apply keeps_timers. apply timers_wf_insert. Qed.

Lemma keeps_kill e c : keeps c (Connection.kill e c).
Proof.
  unfold Connection.kill. etrans; [apply keeps_close_common|]. etrans; [apply keeps_event|].
  apply keeps_state. cbn. destruct (c_state c); cbn; lia.
Qed.

Lemma keeps_loss_timer c c' : Connection.set_loss_detection_timer c = Ret c' -> keeps c c'.
Proof.
  unfold Connection.set_loss_detection_timer. destruct (State.is_closed _); [by intros [= <-]|].
  assert (Hset : forall t, keeps c (with_timers (TimerTable.set LossDetection t (timers c)) c)).
  { intros t. apply keeps_timers, timers_wf_insert. }
  assert (Hstop : keeps c (with_timers (TimerTable.stop LossDetection (timers c)) c)) by apply keeps_timers, timers_wf_insert.
  destruct (Connection.loss_time_and_space c) as [[t id]|]; [by intros [= <-]|].
  destruct (Connection.has_in_flight c); [|by intros [= <-]]. intros H. outcome_inv.
  destruct (Connection.earliest_sent c); outcome_inv; by subst.
Qed.

(** The loss timer changes nothing but the timers. *)
Lemma loss_timer_only c c' : Connection.set_loss_detection_timer c = Ret c' -> exists t, c' = with_timers t c.
Proof.
  unfold Connection.set_loss_detection_timer. destruct (State.is_closed _); [intros [= <-]; exists (timers c); by destruct c|].
  destruct (Connection.loss_time_and_space c) as [[t id]|]; [intros [= <-]; eauto|].
  destruct (Connection.has_in_flight c); [|intros [= <-]; eauto]. intros H. outcome_inv.
  destruct (Connection.earliest_sent c); outcome_inv; subst; eauto.
Qed.

(** ** Packets that leave the accounts *)

Lemma btree_iter_perm m : btree_iter m ≡ₚ map_to_list m.
Proof. apply merge_sort_Permutation. Qed.

Lemma elem_of_btree_iter m n p : (n, p) ∈ btree_iter m <-> m !! n = Some p.
Proof. by rewrite btree_iter_perm, elem_of_map_to_list. Qed.

Lemma NoDup_btree_iter m : NoDup (btree_iter m).*1.
Proof. rewrite btree_iter_perm. apply NoDup_fst_map_to_list. Qed.

Lemma remove_fields n m p p' b : NetworkPath.remove_in_flight n m p = Ret (p', b) ->
  sending_queue p' = sending_queue p /\ first_packet p' = first_packet p /\ rtt p' = rtt p /\ congestion p' = congestion p.
Proof.
  unfold NetworkPath.remove_in_flight. destruct (match first_packet p with None => _ | _ => _ end); [by intros [= <- <-]|].
  intros H. outcome_inv. by simplify_eq.
Qed.

(** [s'] is [s] without the packet [pn]. *)
Record taken (pn : Z) (packet : SentPacket) (s s' : PacketSpace) : Prop := {
  tk_next : next_packet_number s' = next_packet_number s;
  tk_sent : sent_packets s' = delete pn (sent_packets s);
  tk_in_flight : in_flight s' = in_flight s - size packet;
  tk_tail : unacked_non_ack_eliciting_tail s' = unacked_non_ack_eliciting_tail s;
  tk_dedup : dedup s' = dedup s;
  tk_rx : rx_packet s' = rx_packet s;
}.

Lemma take_cases pn s s' r : PacketSpace.take pn s = Ret (s', r) ->
  r = sent_packets s !! pn /\ match r with None => s' = s | Some packet => taken pn packet s s' end.
Proof.
  unfold PacketSpace.take. destruct (sent_packets s !! pn) as [packet|]; [|by intros [= <- <-]].
  intros H. outcome_inv. simplify_eq. done.
Qed.

Lemma taken_quiet_l pn packet s0 s s' : quiet s0 s -> taken pn packet s s' -> taken pn packet s0 s'.
Proof. intros ([] & ? & ?) []. split; congruence. Qed.

Lemma taken_quiet_r pn packet s s' s'' : taken pn packet s s' -> quiet s' s'' -> taken pn packet s s''.
Proof. intros [] ([] & ? & ?). split; congruence. Qed.

(** Taking a packet off both accounts. *)
Lemma path_inv_taken c id pn packet p' b s' : path_inv (path c) (spaces c) ->
  sent_packets (space_of c id) !! pn = Some packet -> NetworkPath.remove_in_flight pn packet (path c) = Ret (p', b) ->
  taken pn packet (space_of c id) s' -> b = true /\ path_inv p' (set_space id s' (spaces c)).
Proof.
  intros Hinv Hpn Hr [Hn Hs Hf Ht _ _].
  destruct (remove_spec (path c) (spaces c) id pn packet Hinv Hpn) as (p1 & sp & Hr1 & Htk & Hinv' & _).
  rewrite Hr in Hr1. injection Hr1 as <- ->. split; [done|].
  apply take_cases in Htk as [_ [Hn1 Hs1 Hf1 Ht1 _ _]]. eapply path_inv_books; [exact Hinv'|done..|].
  intros id'. rewrite !get_set_space. destruct (decide (id = id')); [|apply books_refl].
  unfold space_of in *. split; congruence.
Qed.

Lemma keeps_take c c' id pn n packet p' b : sent_packets (space_of c id) !! pn = Some packet ->
  (conn_inv c -> n = pn) -> NetworkPath.remove_in_flight n packet (path c) = Ret (p', b) ->
  side c' = side c -> rank (c_state c) <= rank (c_state c') -> sending_queue (path c') = sending_queue (path c) ->
  np_in_flight (path c') = np_in_flight p' -> first_packet (path c') = first_packet (path c) ->
  taken pn packet (space_of c id) (space_of c' id) ->
  (forall id', id' <> id -> quiet (space_of c id') (space_of c' id')) ->
  (timers_wf (timers c) -> timers_wf (timers c')) -> (all_queued (c_streams c) -> all_queued (c_streams c')) -> keeps c c'.
Proof.
  intros Hpn Hn Hr Hside Hrank Hq Hi Hf Htk Hqt Ht Hs.
  assert (Hall : forall id', next_packet_number (space_of c' id') = next_packet_number (space_of c id') /\
    dedup (space_of c' id') = dedup (space_of c id') /\ rx_packet (space_of c' id') = rx_packet (space_of c id')).
  { intros id'. destruct (decide (id' = id)) as [->|Hne]; [by destruct Htk|]. by destruct (Hqt id' Hne) as ([] & ? & ?). }
  split; try done; try (intros id'; apply Hall). intros Hinv. rewrite (Hn Hinv) in Hr.
  destruct Hinv as [Hp Hqu Hu Hfst Htm Hst].
  destruct (path_inv_taken c id pn packet p' b (space_of c' id) Hp Hpn Hr Htk) as [_ Hp'].
  assert (Hqp : queued_packets (path c') = queued_packets (path c)) by (unfold queued_packets; by rewrite Hq).
  split; rewrite ?Hqp; try auto.
  - eapply path_inv_books; [exact Hp'|done|by rewrite Hf; symmetry; apply (remove_fields _ _ _ _ _ Hr)|].
    intros id'. rewrite get_set_space. destruct (decide (id = id')) as [->|Hne]; [apply books_refl|]. by apply Hqt.
  - eapply Forall_impl; [exact Hqu|]. intros m [Hm Hfr Hsz].
    destruct (Hall (space_id m)) as [Hnm _]. unfold space_of in *. split; [by rewrite Hnm| |done].
    destruct (decide (space_id m = id)) as [He|Hne].
    + rewrite He, (tk_sent _ _ _ _ Htk) in *. apply lookup_delete_None. auto.
    + destruct (Hqt _ Hne) as ([_ _ Hse _] & _). by rewrite Hse.
  - rewrite Hf. intros Hnone. specialize (Hfst Hnone). destruct (queued_packets (path c)); [|done].
    intros id'. destruct (Hall id') as [-> _]. apply Hfst.
Qed.

(** *** Lost packets *)

Lemma for_frames_queued f l s s' : (forall frame s s', all_queued s -> f frame s = Ret s' -> all_queued s') ->
  Connection.for_frames f l s = Ret s' -> all_queued s -> all_queued s'.
Proof.
  intros Hf. revert s. induction l as [|x l IH]; intros s; cbn; [by intros [= ->]|].
  intros H Hq. outcome_inv. apply (IH _ H). by apply (Hf x s).
Qed.

Lemma keeps_lose now id pn packet c c' : sent_packets (space_of c id) !! pn = Some packet ->
  Connection.lose_packet now id pn packet c = Ret c' ->
  keeps c c' /\ sent_packets (space_of c' id) = delete pn (sent_packets (space_of c id)) /\ c_state c' = c_state c.
Proof.
  intros Hpn. unfold Connection.lose_packet. intros H.
  apply obind_ret in H as ([p removed] & Hr & H). apply obind_ret in H as (ss & Hss & H).
  apply obind_ret in H as ([s' r] & Ht & H). injection H as <-.
  destruct (remove_fields _ _ _ _ _ Hr) as (Hq & Hf & _).
  set (p2 := if removed && ack_eliciting packet then _ else p) in *.
  assert (Hp2 : sending_queue p2 = sending_queue p /\ np_in_flight p2 = np_in_flight p /\ first_packet p2 = first_packet p).
  { unfold p2. by destruct (removed && ack_eliciting packet). }
  destruct Hp2 as (Hp2q & Hp2i & Hp2f).
  change (space_of (with_streams ss (with_path p2 c)) id) with (space_of c id) in Ht.
  set (s1 := match Space.retransmits packet with Some _ => _ | None => _ end) in Ht.
  assert (Hs1 : quiet (space_of c id) s1) by (unfold s1; destruct (Space.retransmits packet); by split; [split|]).
  apply take_cases in Ht as [Hr' Ht]. destruct Hs1 as [[Hb1 Hb2 Hb3 Hb4] Hs1']. rewrite Hb3, Hpn in Hr'. subst r.
  assert (Htk : taken pn packet (space_of c id) s') by (eapply taken_quiet_l; [split; [split|]|]; done).
  split; [|split; [|done]].
  - eapply (keeps_take c _ id pn pn packet p removed); try done; cbn [path with_space with_spaces with_streams with_path c_streams].
    + congruence.
    + congruence.
    + by rewrite space_of_with, decide_True.
    + intros id' Hne. rewrite space_of_with, decide_False by done. apply quiet_refl.
    + apply (for_frames_queued _ _ _ _ lost_queued Hss).
  - rewrite space_of_with, decide_True by done. apply Htk.
Qed.

Lemma keeps_lose_all now id l c c' : NoDup l.*1 -> (forall pn packet, (pn, packet) ∈ l -> sent_packets (space_of c id) !! pn = Some packet) ->
  Connection.lose_packets now id l c = Ret c' ->
  keeps c c' /\ (forall n, sent_packets (space_of c' id) !! n = if decide (n ∈ l.*1) then None else sent_packets (space_of c id) !! n) /\
  c_state c' = c_state c.
Proof.
  revert c. induction l as [|[pn packet] l IH]; intros c; cbn; [intros _ _ [= ->]; split; [done|]; split; [|done]|].
  { intros n. by rewrite decide_False by apply not_elem_of_nil. }
  intros [Hni Hnd]%NoDup_cons Hl H. apply obind_ret in H as (c1 & Hc1 & H).
  destruct (keeps_lose now id pn packet c c1 (Hl pn packet ltac:(set_solver)) Hc1) as (Hk & Hd & Hst).
  destruct (IH c1 Hnd) as (Hk' & Hn & Hst'); [|done|].
  - intros pn' packet' Hin. rewrite Hd. rewrite lookup_delete_ne; [by apply Hl, elem_of_cons; right|].
    intros ->. apply Hni. apply list_elem_of_fmap. by exists (pn', packet').
  - split; [by etrans|]. split; [|congruence]. intros n. rewrite Hn, Hd.
    destruct (decide (n ∈ l.*1)) as [Hin|Hout]; [by rewrite decide_True by set_solver|].
    destruct (decide (n = pn)) as [->|Hne].
    + rewrite lookup_delete_eq, decide_True by set_solver. done.
    + rewrite lookup_delete_ne by done. by rewrite decide_False by set_solver.
Qed.

(** What [scan_lost] returns: the lost packets among those up to [largest]. *)
Definition is_lost (largest lost_send_before : Z) (x : Z * SentPacket) : Prop :=
  x.1 <= largest /\ time_sent x.2 <= lost_send_before.

Lemma scan_lost_spec l largest delay before acc next lost next' :
  Connection.scan_lost l largest delay before acc next = Ret (lost, next') ->
  exists l', lost = acc ++ l' /\ l' `sublist_of` l /\ Forall (is_lost largest before) l'.
Proof.
  revert acc next. induction l as [|[pn packet] l IH]; intros acc next; cbn.
  { intros [= <- <-]. exists []. by rewrite app_nil_r. }
  destruct (Z.ltb_spec largest pn) as [|Hle].
  { intros [= <- <-]. exists []. rewrite app_nil_r. split; [done|]. split; [apply sublist_nil_l|done]. }
  destruct (Z.leb_spec (time_sent packet) before) as [Ht|_].
  - intros (l' & -> & Hl & Hall)%IH. exists ((pn, packet) :: l'). rewrite <- app_assoc. split; [done|].
    split; [by apply sublist_skip|]. by constructor.
  - intros H. outcome_inv. apply IH in H as (l' & -> & Hl & Hall). exists l'. split; [done|]. by split; [apply sublist_cons|].
Qed.

(** Loss detection forgets only packets up to the largest acknowledged one. *)
Lemma keeps_detect now id c c' : Connection.detect_lost_packets now id c = Ret c' ->
  keeps c c' /\ sent_packets (space_of c' id) ⊆ sent_packets (space_of c id) /\
  c_state c' = c_state c.
Proof.
  unfold Connection.detect_lost_packets.
  assert (Hloss : forall next, keeps c (with_space id (space_with_loss (sent_packets (space_of c id)) (in_flight (space_of c id)) next (space_of c id)) c)).
  { intros next. apply keeps_space. by split; [split|]. }
  assert (Hsame : forall next, sent_packets (space_of (with_space id (space_with_loss (sent_packets (space_of c id)) (in_flight (space_of c id)) next (space_of c id)) c) id) = sent_packets (space_of c id)).
  { intros next. by rewrite space_of_with, decide_True. }
  destruct (largest_acked_packet (space_of c id)) as [largest|]; [|intros [= <-]; by rewrite Hsame].
  intros H. apply obind_ret in H as (d & _ & H). apply obind_ret in H as ([lost next] & Hscan & H).
  apply scan_lost_spec in Hscan as (l & -> & Hl & Hall). cbn [app] in H.
  destruct l as [|x l]; [injection H as <-; by rewrite Hsame|].
  apply obind_ret in H as (c1 & H1 & H). destruct (loss_timer_only _ _ H) as [t Ht].
  apply keeps_lose_all in H1 as (Hk & Hn & Hst).
  - split; [|split].
    + etrans; [apply Hloss|]. etrans; [exact Hk|]. by apply keeps_loss_timer.
    + subst c'. change (space_of (with_timers t c1) id) with (space_of c1 id).
      apply map_subseteq_spec. intros n p. rewrite Hn, Hsame. by case_decide.
    + subst c'. apply Hst.
  - eapply sublist_NoDup; [apply NoDup_btree_iter|apply fmap_sublist, Hl].
  - intros pn packet Hin. rewrite Hsame. apply elem_of_btree_iter. by apply (elem_of_sublist _ _ _ Hin).
Qed.

Lemma keeps_timeout now c c' : Connection.on_loss_detection_timeout now c = Ret c' -> keeps c c'.
Proof.
  unfold Connection.on_loss_detection_timeout. intros H. apply obind_ret in H as (c1 & H1 & H).
  etrans; [|by apply keeps_loss_timer]. clear H.
  destruct (Connection.loss_time_and_space c) as [[t id]|]; [by eapply keeps_detect|].
  assert (Hstep : forall id c c2, (if 0 <? in_flight (space_of c id) then Connection.detect_lost_packets now id c else Ret c) = Ret c2 -> keeps c c2).
  { intros id c0 c2. destruct (0 <? _); [intros H; by eapply keeps_detect|by intros [= <-]]. }
  cbn -[Connection.detect_lost_packets] in H1.
  apply obind_ret in H1 as (c3 & H3 & Hs3). apply obind_ret in H3 as (c2 & H2 & Hs2).
  etrans; [exact (Hstep _ _ _ H2)|]. etrans; [exact (Hstep _ _ _ Hs2)|]. exact (Hstep _ _ _ Hs3).
Qed.

(** ** Acknowledged packets *)

Lemma keeps_ack_number id pn c largest c' largest' : Connection.ack_number id pn (c, largest) = Ret (c', largest') ->
  keeps c c' /\ sent_packets (space_of c' id) = delete pn (sent_packets (space_of c id)) /\ c_state c' = c_state c /\
  match sent_packets (space_of c id) !! pn with
  | None => c' = c /\ largest' = largest
  | Some packet => is_Some largest'
  end.
Proof.
  unfold Connection.ack_number. intros H. apply obind_ret in H as ([s taken] & Ht & H).
  apply take_cases in Ht as [Hr Ht]. rewrite <- Hr. destruct taken as [packet|].
  2: { simplify_eq. split; [done|]. split; [by rewrite delete_id|done]. }
  apply obind_ret in H as (s1 & Hs1 & H). apply obind_ret in H as (ss & Hss & H).
  apply obind_ret in H as ([p removed] & Hrm & H). apply obind_ret in H as (cong & Hcong & H). simplify_eq.
  assert (Hq1 : quiet s s1).
  { destruct (largest_acked packet); [|injection Hs1 as <-; apply quiet_refl]. outcome_inv. subst s1. by split; [split|]. }
  destruct (remove_fields _ _ _ _ _ Hrm) as (Hq & Hf & _).
  assert (Htk : Accounting.taken pn packet (space_of c id) s1) by (by eapply taken_quiet_r).
  split; [|split; [|split; [done|]]].
  - eapply (keeps_take c _ id pn (number packet) packet p removed); try done; cbn [path with_space with_spaces with_streams with_path c_streams].
    + intros Hinv. destruct (sp_packet _ (pi_spaces _ _ (ci_path _ Hinv) id) pn packet) as [? _]; done.
    + autorewrite with conn. by rewrite decide_True.
    + intros id' Hne. autorewrite with conn. rewrite decide_False by done. apply quiet_refl.
    + apply (for_frames_queued _ _ _ _ acked_queued Hss).
  - autorewrite with conn. rewrite decide_True by done. apply Htk.
  - destruct largest; [destruct (_ <? _)|]; done.
Qed.

Lemma keeps_ack_numbers id l c largest c' largest' : Connection.ack_numbers id l (c, largest) = Ret (c', largest') ->
  keeps c c' /\ c_state c' = c_state c /\
  (forall n, sent_packets (space_of c' id) !! n = if decide (n ∈ l) then None else sent_packets (space_of c id) !! n) /\
  (largest' = None -> largest = None /\ c' = c /\ forall n, n ∈ l -> sent_packets (space_of c id) !! n = None).
Proof.
  revert c largest. induction l as [|pn l IH]; intros c largest; cbn -[Connection.ack_number].
  { intros [= <- <-]. split; [done|]. split; [done|]. split; [|intros; split_and!; [done|done|set_solver]].
    intros n. by rewrite decide_False by apply not_elem_of_nil. }
  intros Ha. apply obind_ret in Ha as ([c1 largest1] & H1 & Ha).
  apply keeps_ack_number in H1 as (Hk1 & Hd1 & Hst1 & Hl1). apply IH in Ha as (Hk & Hst & Hn & Hl).
  split; [by etrans|]. split; [congruence|]. split.
  - intros n. rewrite Hn, Hd1. destruct (decide (n ∈ l)) as [Hin|Hout]; [by rewrite decide_True by set_solver|].
    destruct (decide (n = pn)) as [->|Hne].
    + rewrite lookup_delete_eq, decide_True by set_solver. done.
    + rewrite lookup_delete_ne by done. by rewrite decide_False by set_solver.
  - intros Hnone. destruct (Hl Hnone) as (Hl1' & -> & Hall). subst largest1.
    destruct (sent_packets (space_of c id) !! pn) eqn:Hpn; [by destruct Hl1|]. destruct Hl1 as [-> <-].
    split_and!; try done. intros n [->|Hin]%elem_of_cons; auto.
Qed.

Lemma elem_of_acked_numbers l n : n ∈ Connection.acked_numbers l <-> exists lo hi, (lo, hi) ∈ l /\ lo <= n <= hi.
Proof.
  unfold Connection.acked_numbers. rewrite list_elem_of_bind. split.
  - intros ([lo hi] & Hn & Hin). rewrite elem_of_seqZ in Hn. cbn in Hn. exists lo, hi. split; [done|lia].
  - intros (lo & hi & Hin & Hn). exists (lo, hi). rewrite elem_of_seqZ. cbn. split; [lia|done].
Qed.

(** What [on_ack_received] keeps, and what it forgets. *)
Lemma keeps_on_ack now id ack c c' r : Connection.on_ack_received now id ack c = Ret (c', r) ->
  keeps c c' /\ c_state c' = c_state c /\
  match r with
  | Err e => c' = c
  | Ok _ => exists l, ack_ranges ack = Ret l /\ ack_largest ack < next_packet_number (space_of c id) /\
      sent_packets (space_of c' id) ⊆ sent_packets (space_of c id) /\
      forall n, n ∈ Connection.acked_numbers l -> sent_packets (space_of c' id) !! n = None
  end.
Proof.
  unfold Connection.on_ack_received. destruct (Z.leb_spec (next_packet_number (space_of c id)) (ack_largest ack)); [by intros [= <- <-]|].
  destruct (match largest_acked_packet (space_of c id) with Some _ => _ | None => false end); [by intros [= <- <-]|].
  intros Ha. apply obind_ret in Ha as (l & Hl & Ha). apply obind_ret in Ha as ([c1 newly] & H1 & Ha).
  apply keeps_ack_numbers in H1 as (Hk1 & Hst1 & Hn1 & Hnone1).
  assert (Hgone : forall n, n ∈ Connection.acked_numbers l -> sent_packets (space_of c1 id) !! n = None).
  { intros n Hn. by rewrite Hn1, decide_True. }
  assert (Hsub : sent_packets (space_of c1 id) ⊆ sent_packets (space_of c id)).
  { apply map_subseteq_spec. intros n p. rewrite Hn1. by case_decide. }
  destruct newly as [packet|].
  2: { simplify_eq. split; [done|]. split; [done|]. by exists l. }
  apply obind_ret in Ha as (rt & _ & Ha). set (c2 := with_path _ _) in Ha.
  assert (Hk2 : keeps c1 c2).
  { apply keeps_frame; try done. intros id'. unfold c2. autorewrite with conn.
    destruct (decide (id = id')) as [->|]; [by split; [split|]|apply quiet_refl]. }
  assert (Hs2 : sent_packets (space_of c2 id) = sent_packets (space_of c1 id)).
  { unfold c2. autorewrite with conn. by rewrite decide_True. }
  assert (Hst2 : c_state c2 = c_state c1) by done. clearbody c2.
  apply obind_ret in Ha as (c3 & H3 & Ha). apply obind_ret in Ha as (c4 & H4 & Ha). simplify_eq.
  apply keeps_detect in H3 as (Hk3 & Hs3 & Hst3). rewrite Hs2 in Hs3.
  pose proof (keeps_loss_timer _ _ H4) as Hk4. apply loss_timer_only in H4 as [t ->].
  split; [etrans; [exact Hk1|]; etrans; [exact Hk2|]; by etrans|].
  split; [rewrite <- Hst1, <- Hst2, <- Hst3; done|]. exists l. autorewrite with conn. split_and!; try done.
  - by etrans.
  - intros n Hn. destruct (sent_packets (space_of c3 id) !! n) as [q|] eqn:Hq; [|done].
    rewrite map_subseteq_spec in Hs3. apply Hs3 in Hq. by rewrite Hgone in Hq.
Qed.

(** ** Discarding a space *)

Lemma set_space_twice id x y s : set_space id x (set_space id y s) = set_space id x s.
Proof. by destruct id. Qed.

Lemma set_space_get id s : set_space id (get_space s id) s = s.
Proof. by destruct s, id. Qed.

(** Everything a space has in flight is taken off the path, without a panic. *)
Lemma remove_all_spec l p s id : path_inv p s -> l ≡ₚ map_to_list (sent_packets (get_space s id)) ->
  exists p' sp, Connection.remove_all l p = Ret p' /\ path_inv p' (set_space id sp s) /\
    sent_packets sp = ∅ /\ next_packet_number sp = next_packet_number (get_space s id) /\
    unacked_non_ack_eliciting_tail sp = unacked_non_ack_eliciting_tail (get_space s id) /\
    sending_queue p' = sending_queue p /\ first_packet p' = first_packet p /\ congestion p' = congestion p /\
    if_bytes (np_in_flight p') = if_bytes (np_in_flight p) - total size (sent_packets (get_space s id)).
Proof.
  revert p s. induction l as [|[n m] l IH]; intros p s Hinv Hl.
  - assert (He : sent_packets (get_space s id) = ∅) by (apply map_to_list_empty_iff, Permutation_nil; done).
    exists p, (get_space s id). rewrite set_space_get, He. split_and!; try done. unfold total. rewrite map_fold_empty. lia.
  - assert (Hn : sent_packets (get_space s id) !! n = Some m) by (apply elem_of_map_to_list; rewrite <- Hl; set_solver).
    destruct (remove_spec p s id n m Hinv Hn) as (p1 & sp1 & Hr & Ht & Hinv1 & Hb).
    apply take_cases in Ht as [_ [Hnx Hs _ Htl _ _]].
    destruct (IH p1 (set_space id sp1 s) Hinv1) as (p' & sp & Hr' & Hinv' & He & Hnx' & Htl' & Hq & Hf & Hc & Hb').
    { rewrite get_set_space, decide_True, Hs by done. eapply (Permutation_cons_inv (a := (n, m))).
      rewrite Hl. symmetry. by apply map_to_list_delete. }
    rewrite get_set_space, decide_True in Hnx', Htl', Hb' by done.
    destruct (remove_fields _ _ _ _ _ Hr) as (Hq1 & Hf1 & _ & Hc1).
    exists p', sp. cbn [Connection.remove_all]. rewrite Hr. cbn [obind]. rewrite set_space_twice in Hinv'.
    split_and!; try done; try congruence. rewrite Hb', Hb, Hs, (total_delete size _ _ _ Hn). lia.
Qed.

Lemma discard_spec id c c' : Connection.discard_space id c = Ret c' ->
  exists p t, c' = with_timers t (with_path p (with_space id (space_with_loss ∅ 0 None (space_of c id)) c)) /\
    Connection.remove_all (btree_iter (sent_packets (space_of c id))) (path c) = Ret p /\
    (timers_wf (timers c) -> timers_wf t).
Proof.
  unfold Connection.discard_space. intros Hd. apply obind_ret in Hd as (_ & _ & Hd). apply obind_ret in Hd as (p & Hp & Hd).
  destruct (loss_timer_only _ _ Hd) as [t ->]. exists p, t. split; [done|]. split; [done|].
  intros Hwf. revert Hd. unfold Connection.set_loss_detection_timer.
  destruct (State.is_closed _); [by intros [= <-]|].
  assert (Hset : forall x, timers_wf (TimerTable.set LossDetection x (timers c))) by (intros x; by apply timers_wf_insert).
  assert (Hstop : timers_wf (TimerTable.stop LossDetection (timers c))) by (by apply timers_wf_insert).
  destruct (Connection.loss_time_and_space _) as [[t' id']|]; [by intros [= <-]|].
  destruct (Connection.has_in_flight _); [|by intros [= <-]]. intros Hd. outcome_inv.
  destruct (Connection.earliest_sent _); outcome_inv; by simplify_eq.
Qed.

Lemma remove_all_fields l p p' : Connection.remove_all l p = Ret p' ->
  sending_queue p' = sending_queue p /\ first_packet p' = first_packet p /\ congestion p' = congestion p.
Proof.
  revert p. induction l as [|[n m] l IH]; intros p; cbn; [by intros [= ->]|].
  intros Hr. apply obind_ret in Hr as ([p1 b] & H1 & Hr). destruct (remove_fields _ _ _ _ _ H1) as (? & ? & ? & ?).
  destruct (IH _ Hr) as (? & ? & ?). split_and!; congruence.
Qed.

Lemma keeps_discard id c c' : Connection.discard_space id c = Ret c' -> keeps c c' /\ c_state c' = c_state c.
Proof.
  intros (p & t & -> & Hr & Ht)%discard_spec. split; [|done].
  destruct (remove_all_fields _ _ _ Hr) as (Hq & Hf & _).
  set (c1 := with_timers _ _).
  assert (Hsp : forall id', space_of c1 id' = if decide (id = id') then space_with_loss ∅ 0 None (space_of c id) else space_of c id').
  { intros id'. unfold c1. by autorewrite with conn. }
  split; try done; try (intros id'; rewrite Hsp; by case_decide; subst).
  intros [Hp Hqu Hu Hfst Htm Hst].
  destruct (remove_all_spec _ (path c) (spaces c) id Hp (btree_iter_perm _)) as (p1 & sp & Hr1 & Hinv & He & Hnx & Htl & _).
  assert (p1 = p) as -> by (unfold space_of in Hr; congruence).
  assert (Hqp : queued_packets (path c1) = queued_packets (path c)) by (unfold queued_packets; cbn; by rewrite Hq).
  assert (Hfl : in_flight sp = 0).
  { rewrite (sp_in_flight sp). - rewrite He. done. - pose proof (pi_spaces _ _ Hinv id) as Hsi. by rewrite get_set_space, decide_True in Hsi. }
  split; rewrite ?Hqp; try auto.
  - eapply path_inv_books; [exact Hinv|done..|]. intros id'. rewrite get_set_space. rewrite (Hsp id' : get_space (spaces c1) id' = _).
    destruct (decide (id = id')) as [->|]; [|apply books_refl]. by split; cbn; rewrite ?He, ?Hnx, ?Htl, ?Hfl.
  - eapply Forall_impl; [exact Hqu|]. intros m [Hm Hfr Hsz].
    assert (Hs1 : space_of c1 (space_id m) = get_space (spaces c1) (space_id m)) by done. rewrite Hsp in Hs1.
    split; rewrite <- ?Hs1; [..|done]; unfold space_of; case_decide; subst; done.
  - intros Hnone. cbn in Hnone. rewrite Hf in Hnone. specialize (Hfst Hnone).
    destruct (queued_packets (path c)); [|done]. intros id'. rewrite Hsp. case_decide; subst; apply Hfst.
Qed.

(** ** Frames and packets *)

Lemma streams_keep c ss : streams_step (W:=slice_buf) (c_streams c) ss -> keeps c (with_streams ss c).
Proof. intros Hs. apply keeps_streams. by apply streams_step_queued. Qed.

(** A handler of frames keeps the invariant; unless it killed the connection,
    which ends the packet without an error, the connection is not drained. *)
Definition good_result (c c' : Connection) (ok : bool) : Prop :=
  keeps c c' /\ (ok = false -> c_state c <> Drained -> c_state c' <> Drained).

Definition killed (next : Connection.next_frame) : bool :=
  match next with Connection.Return (Ok _) => true | _ => false end.

Lemma good_same c c' b : keeps c c' -> c_state c' = c_state c -> good_result c c' b.
Proof. intros Hk Hs. split; [done|]. by rewrite Hs. Qed.

Lemma good_trans c c1 c' b : good_result c c1 false -> good_result c1 c' b -> good_result c c' b.
Proof. intros [H1 H2] [H3 H4]. split; [by etrans|]. auto. Qed.

Lemma early_frame_good now id frame c c' next : Connection.early_frame now id frame c = Ret (c', next) ->
  good_result c c' (killed next).
Proof.
  destruct frame; cbn [Connection.early_frame]; try (intros [= <- <-]; by apply good_same).
  - intros Ha. apply obind_ret in Ha as ([c1 r] & Ha & H1). simplify_eq. apply keeps_on_ack in Ha as (Hk & Hs & _).
    by apply good_same.
  - set (c1 := with_space id _ c). assert (Hk1 : keeps c c1) by (apply keeps_space; by split; [split|]).
    set (c2 := if _ <? _ then _ else _). assert (Hk2 : keeps c1 c2 /\ c_state c2 = c_state c).
    { unfold c2. destruct (_ <? _); [|done]. split; [by apply keeps_frame|done]. }
    destruct Hk2 as [Hk2 Hs2]. clearbody c2. destruct (State.is_handshake (c_state c2) && _) eqn:Hh; intros [= <- <-].
    + split; [|cbn; done]. etrans; [exact Hk1|]. etrans; [exact Hk2|]. etrans; [|apply keeps_event]. apply keeps_state.
      cbn. destruct (c_state c2); cbn in *; first [done|lia].
    + apply good_same; [by etrans|done].
  - intros [= <- <-]. split; [apply keeps_kill|done].
Qed.

Lemma data_frame_good now id len frame c c' next : Connection.data_frame now id len frame c = Ret (c', next) ->
  good_result c c' (killed next).
Proof.
  assert (Hstreams : forall ss, streams_step (W:=slice_buf) (c_streams c) ss -> good_result c (with_streams ss c) (killed next)).
  { intros ss Hs. apply good_same; [by apply streams_keep|done]. }
  destruct frame; cbn [Connection.data_frame]; try (intros [= <- <-]; by apply good_same).
  - intros Ha. apply obind_ret in Ha as ([c1 r] & Ha & H1). simplify_eq. apply keeps_on_ack in Ha as (Hk & Hs & _).
    by apply good_same.
  - intros Ha. apply obind_ret in Ha as ([ss res] & Ha & H1). simplify_eq. apply Hstreams. by eapply StepResetStream.
  - intros [= <- <-]. apply Hstreams. destruct (StreamsState.received_stop_sending _ _) as [ss res] eqn:Hr.
    by eapply StepStopSending.
  - intros Ha. apply obind_ret in Ha as ([ss res] & Ha & H1). simplify_eq. apply Hstreams. by eapply StepStream.
  - intros [= <- <-]. split; [apply keeps_kill|done].
  - intros [= <- <-]. apply good_same; [|done]. apply keeps_space. by split; [split|].
Qed.

Section Payload.
Context {B : Type} `{Buf B}.

Definition is_ok {A E} (r : result A E) : bool := match r with Ok _ => true | Err _ => false end.

Lemma frame_loop_good fuel h (p : FrameParser B) c c' r :
  (forall frame c c' next, h frame c = Ret (c', next) -> good_result c c' (killed next)) ->
  Connection.frame_loop fuel h p c = Ret (c', r) -> good_result c c' (is_ok r).
Proof.
  intros Hh. revert p c. induction fuel as [|fuel IH]; intros p c; cbn [Connection.frame_loop]; [done|].
  intros Hl. apply obind_ret in Hl as ([p' x] & _ & Hl). destruct x as [[frame|e]|].
  - apply obind_ret in Hl as ([c1 next] & H1 & Hl). apply Hh in H1. destruct next as [|r1].
    + eapply good_trans; [exact H1|]. by apply (IH p').
    + simplify_eq. destruct r; exact H1.
  - simplify_eq. by apply good_same.
  - simplify_eq. by apply good_same.
Qed.

Lemma process_packet_good now number (packet : Packet B) c c' r : Connection.process_packet now number packet c = Ret (c', r) ->
  good_result c c' (is_ok r).
Proof.
  assert (Hf : forall h r0, (forall frame c c' next, h frame c = Ret (c', next) -> good_result c c' (killed next)) ->
    Connection.process_frames h (payload packet) c = Ret r0 -> good_result c r0.1 (is_ok r0.2)).
  { intros h [c0 r0] Hh. unfold Connection.process_frames. destruct (FrameParser_new _); [by apply frame_loop_good|].
    intros [= <- <-]. by apply good_same. }
  unfold Connection.process_packet, Connection.process_early_payload, Connection.process_payload.
  destruct (Header.space (header packet)); [| |destruct number; [|by intros [= <- <-]; apply good_same]];
    intros Hp; apply obind_ret in Hp as ([c1 r1] & Hp & Heq); simplify_eq; apply Hf in Hp; cbn in *;
    solve [by destruct r1|intros; by eapply early_frame_good|intros; by eapply data_frame_good].
Qed.
End Payload.

(** Recording a received number. *)
Lemma conn_inv_rx id d rx c : conn_inv c -> conn_inv (with_space id (space_with_rx d rx (space_of c id)) c).
Proof.
  intros Hinv. apply (conn_inv_frame c); try done. intros id'. autorewrite with conn.
  case_decide; subst; [by split|apply books_refl].
Qed.

Lemma with_space_same id c : with_space id (space_of c id) c = c.
Proof. destruct c as [? ? ? [] ? ? ? ? ?]. by destruct id. Qed.

Lemma with_space_twice id x y c : with_space id x (with_space id y c) = with_space id x c.
Proof. unfold with_space. cbn. by rewrite set_space_twice. Qed.

Lemma authenticated_spec now id number c c' : Connection.on_packet_authenticated now id number c = Ret c' ->
  (conn_inv c -> conn_inv c') /\ c_state c' = c_state c /\
  (forall i, dedup (space_of c' i) = dedup (space_of c i)) /\
  (forall i, rx_packet (space_of c' i) =
    match number with
    | Some n => if decide (id = i) then Z.max (rx_packet (space_of c i)) n else rx_packet (space_of c i)
    | None => rx_packet (space_of c i)
    end).
Proof.
  unfold Connection.on_packet_authenticated. destruct number as [n|]; [|by intros [= <-]].
  intros Ha. apply obind_ret in Ha as (c1 & H1 & Ha).
  assert (Hk1 : keeps c c1 /\ c_state c1 = c_state c).
  { destruct (_ && _); [by apply keeps_discard in H1|by injection H1 as <-]. }
  clear H1. destruct Hk1 as [Hk1 Hs1]. apply obind_ret in Ha as ([a arm] & _ & Ha).
  set (s := if _ <=? n then _ else _) in Ha.
  assert (Hbk : books (space_of c1 id) s) by (unfold s; by destruct (_ <=? n); split).
  assert (Hd : dedup s = dedup (space_of c1 id)) by (unfold s; by destruct (_ <=? n)).
  assert (Hrx : rx_packet s = Z.max (rx_packet (space_of c1 id)) n).
  { unfold s. cbn [rx_packet space_with_acks]. destruct (Z.leb_spec (rx_packet (space_of c1 id)) n); cbn; lia. }
  clearbody s.
  assert (Hfin : forall s' t, books s s' -> dedup s' = dedup s -> rx_packet s' = rx_packet s ->
    (timers_wf (timers c1) -> timers_wf t) -> let c2 := with_timers t (with_space id s' c1) in
    (conn_inv c -> conn_inv c2) /\ c_state c2 = c_state c /\
    (forall i, dedup (space_of c2 i) = dedup (space_of c i)) /\
    (forall i, rx_packet (space_of c2 i) = if decide (id = i) then Z.max (rx_packet (space_of c i)) n else rx_packet (space_of c i))).
  { intros s' t [] Hd' Hrx' Ht c2.
    assert (Hsp : forall i, space_of c2 i = if decide (id = i) then s' else space_of c1 i).
    { intros i. unfold c2. by autorewrite with conn. }
    split; [|split; [done|]].
    - intros Hinv. apply (conn_inv_frame c1); try done; [by apply Hk1|]. intros i. rewrite Hsp. destruct (decide (id = i)) as [<-|]; [|apply books_refl].
      destruct Hbk. split; congruence.
    - split; intros i; rewrite Hsp; destruct (decide (id = i)) as [<-|]; rewrite ?Hd', ?Hd, ?Hrx', ?Hrx, ?(k_rx _ _ Hk1), ?(k_dedup _ _ Hk1); done. }
  destruct (decide (id = SpData)).
  - destruct arm; outcome_inv; subst c'; [apply Hfin; [by split|done..|intros; by apply timers_wf_insert]|].
    apply (Hfin s (timers c1)); [by split|done..].
  - injection Ha as <-. rewrite with_space_twice.
    apply (Hfin (space_with_acks (PendingAcks.set_immediate_ack_required (pending_acks s)) s) (timers c1)); [by split|done..].
Qed.

Section Datagrams.
Context {B : Type} `{Buf B}.

Lemma handle_packet_spec now number (packet : Packet B) c c' : Connection.handle_packet now number packet c = Ret c' ->
  (conn_inv c -> conn_inv c') /\ (c_state c <> Drained -> rank (c_state c) <= rank (c_state c')) /\
  (forall i, dedup (space_of c' i) = dedup (space_of c i)) /\
  (forall i, rx_packet (space_of c' i) =
    match number with
    | Some n => if decide (State.is_closed (c_state c) = false /\ Header.space (header packet) = i)
                then Z.max (rx_packet (space_of c i)) n else rx_packet (space_of c i)
    | None => rx_packet (space_of c i)
    end).
Proof.
  unfold Connection.handle_packet, Connection.conclude. intros Ha. apply obind_ret in Ha as (c1 & H1 & Ha).
  apply obind_ret in Ha as ([c2 r] & H2 & Ha). apply obind_ret in Ha as (c4 & H4 & Ha). injection Ha as <-.
  assert (Hc1 : (conn_inv c -> conn_inv c1) /\ c_state c1 = c_state c /\ (forall i, dedup (space_of c1 i) = dedup (space_of c i)) /\
    (forall i, rx_packet (space_of c1 i) = match number with
      | Some n => if decide (State.is_closed (c_state c) = false /\ Header.space (header packet) = i)
                  then Z.max (rx_packet (space_of c i)) n else rx_packet (space_of c i)
      | None => rx_packet (space_of c i) end)).
  { destruct (State.is_closed (c_state c)) eqn:Hcl; cbn [negb] in H1.
    - injection H1 as <-. split_and!; try done. intros i. destruct number; [|done]. by rewrite decide_False by naive_solver.
    - apply authenticated_spec in H1 as (Hi & Hs & Hd & Hr). split_and!; try done. intros i. rewrite Hr.
      destruct number; [|done]. destruct (decide (_ = i)), (decide (_ /\ _)); naive_solver. }
  clear H1. destruct Hc1 as (Hi1 & Hs1 & Hd1 & Hr1). apply process_packet_good in H2 as [Hk2 Hnd2].
  set (c3 := match r with Ok _ => c2 | Err _ => _ end) in H4.
  assert (Hk3 : c_state c <> Drained -> keeps c2 c3).
  { intros Hnd. unfold c3. destruct r as [|e]; [done|]. etrans; [apply keeps_event|]. apply keeps_state.
    assert (c_state c2 <> Drained) by (apply Hnd2; [done|by rewrite Hs1]). cbn.
    destruct (c_state c2), e; cbn; try done; lia. }
  assert (Hk4 : keeps c3 c4).
  { destruct (_ && _); [|by injection H4 as <-]. destruct (negb _); [|injection H4 as <-; apply keeps_close_common].
    etrans; [apply keeps_close_common|]. by eapply keeps_close_timer. }
  clear H4. set (c5 := if _ && _ then _ else c4).
  assert (Hk5 : keeps c4 c5) by (unfold c5; destruct (_ && _); [apply keeps_timers, timers_wf_insert|done]).
  clearbody c5.
  assert (Hc3 : (conn_inv c2 -> conn_inv c3) /\ forall i, space_of c3 i = space_of c2 i).
  { unfold c3. destruct r as [|e]; [done|]. split; [|done]. intros Hinv. apply (conn_inv_frame c2); try done; by (intros; apply books_refl) || (intros Hq; by apply (all_queued_frame (c_streams c2))). }
  destruct Hc3 as [Hi3 Hsp3]. pose proof (transitivity Hk4 Hk5) as Hk. clear Hk4 Hk5. split; [|split; [|split]].
  - intros Hinv. apply Hk, Hi3, Hk2, Hi1, Hinv.
  - intros Hnd. pose proof (k_rank _ _ Hk). pose proof (k_rank _ _ (Hk3 Hnd)). pose proof (k_rank _ _ Hk2). rewrite <- Hs1. lia.
  - intros i. by rewrite (k_dedup _ _ Hk), Hsp3, (k_dedup _ _ Hk2).
  - intros i. by rewrite (k_rx _ _ Hk), Hsp3, (k_rx _ _ Hk2).
Qed.

Lemma handle_data_spec now (data : B) c c' : Connection.handle_data now data c = Ret c' ->
  (conn_inv c -> conn_inv c') /\ (c_state c <> Drained -> rank (c_state c) <= rank (c_state c')).
Proof.
  unfold Connection.handle_data. intros Ha. apply obind_ret in Ha as (r & _ & Ha).
  destruct r as [[h p]|]; [|by injection Ha as <-]. apply obind_ret in Ha as (number & _ & Ha).
  apply obind_ret in Ha as ([d dup] & _ & Ha). set (c1 := with_space _ _ _) in Ha.
  assert (Hi : conn_inv c -> conn_inv c1) by apply conn_inv_rx.
  destruct dup; [by injection Ha as <-|]. destruct (_ && _); [by injection Ha as <-|].
  apply handle_packet_spec in Ha as (Hi' & Hr & _). split; [auto|exact Hr].
Qed.
End Datagrams.

(** ** Transmission *)

(** [c'] differs from [c] in fields that the accounts do not look at. *)
Record mild (c c' : Connection) : Prop := {
  md_spaces : forall i, quiet (space_of c i) (space_of c' i);
  md_state : c_state c' = c_state c;
  md_side : side c' = side c;
  md_path : path c' = path c;
  md_timers : timers_wf (timers c) -> timers_wf (timers c');
  md_streams : all_queued (c_streams c) -> all_queued (c_streams c');
}.

#[export] Instance mild_preorder : PreOrder mild.
Proof.
  split; [intros c; split; try done; intros i; apply quiet_refl|].
  intros c1 c2 c3 [Hs1 ? ? ? ? ?] [Hs2 ? ? ? ? ?]. split; try congruence; auto.
  intros i. destruct (Hs1 i) as ([] & ? & ?), (Hs2 i) as ([] & ? & ?). split; [split|]; try congruence. split; congruence.
Qed.

Lemma mild_space id s' c : quiet (space_of c id) s' -> mild c (with_space id s' c).
Proof.
  intros Hq. split; try done. intros i. autorewrite with conn. destruct (decide (id = i)) as [<-|]; [done|apply quiet_refl].
Qed.

Lemma populate_mild {W : Type} `{BufMut W} now id (out out' : W) c c' sent :
  Connection.populate_packet now id out c = Ret (c', sent, out') -> mild c c'.
Proof.
  unfold Connection.populate_packet. intros Ha. apply obind_ret in Ha as ([lg out1] & _ & Ha).
  apply obind_ret in Ha as ([[c1 thin] out2] & H1 & Ha). apply obind_ret in Ha as ([c2 out3] & H2 & Ha).
  assert (Hc1 : mild c c1).
  { destruct (hello _); [|by injection H1 as <- <- <-]. outcome_inv. simplify_eq. apply mild_space. by split; [split|]. }
  assert (Hc2 : mild c1 c2).
  { destruct (_ && _); [|by injection H2 as <- <-]. outcome_inv. simplify_eq. apply mild_space. by split; [split|]. }
  clear H1 H2. etrans; [exact Hc1|]. etrans; [exact Hc2|]. destruct (decide (id = SpData)); [|by simplify_eq].
  apply obind_ret in Ha as ([[out4 pend] thin'] & _ & Ha). apply obind_ret in Ha as ([[ss out5] metas] & Hw & Ha). simplify_eq.
  set (c3 := with_space _ _ c2) in *. transitivity c3.
  - apply mild_space. by split; [split|].
  - split; try done. intros Hq. by apply (write_stream_frames_queued _ _ _ _ _ _ Hq Hw).
Qed.

(** Queueing a packet under the next number of its space. *)
Lemma conn_inv_enqueue c c2 x id s0 : conn_inv c -> let c0 := with_space id s0 c in
  sent_packets s0 = sent_packets (space_of c id) -> in_flight s0 = in_flight (space_of c id) ->
  unacked_non_ack_eliciting_tail s0 = unacked_non_ack_eliciting_tail (space_of c id) ->
  next_packet_number s0 = next_packet_number (space_of c id) + 1 -> next_packet_number s0 <= 2 ^ 62 ->
  mild c0 c2 -> key_of (meta_info x) = (id, next_packet_number (space_of c id)) -> 0 <= size (meta_info x) < U16 ->
  conn_inv (with_path (mkNetworkPath (sending_queue (path c) ++ [x]) (rtt (path c)) (congestion (path c))
    (np_in_flight (path c)) (first_packet (path c))) c2).
Proof.
  intros [Hpath Hqu Hu Hfst Htm Hst] c0 Hsent Hfl Htl Hnx Hmax [Hq _ _ _ Ht Hs] Hkey Hsz. injection Hkey as Hid Hnum.
  assert (Hsp : forall i, sent_packets (space_of c2 i) = sent_packets (space_of c i) /\ in_flight (space_of c2 i) = in_flight (space_of c i) /\
    unacked_non_ack_eliciting_tail (space_of c2 i) = unacked_non_ack_eliciting_tail (space_of c i) /\
    next_packet_number (space_of c2 i) = next_packet_number (space_of c i) + if decide (id = i) then 1 else 0).
  { intros i. destruct (Hq i) as ([-> -> -> ->] & _). unfold c0. autorewrite with conn.
    destruct (decide (id = i)) as [<-|]; split_and!; try done; lia. }
  unfold space_of in Hsp, Hnum. split; cbn [path with_path first_packet sending_queue spaces timers c_streams]; try auto.
  - destruct Hpath as [Hsi Hb He Hf]. split; cbn [np_in_flight first_packet].
    + intros i. destruct (Hsi i) as [Hn0 Hf0 Hp0 Ht0]. destruct (Hsp i) as (E1 & E2 & E3 & E4). split; rewrite ?E1, ?E2, ?E3.
      * rewrite E4. destruct (decide (id = i)) as [<-|]; [unfold space_of in Hnx; lia|lia].
      * done.
      * intros n p Hnp. destruct (Hp0 n p Hnp) as (? & ? & ?). rewrite E4. split_and!; try done; try lia. destruct (decide _); lia.
      * done.
    + rewrite Hb. unfold all_spaces. destruct (Hsp SpInitial) as [E1 _], (Hsp SpHandshake) as [E2 _], (Hsp SpData) as [E3 _].
      cbn in E1, E2, E3. by rewrite E1, E2, E3.
    + rewrite He. unfold all_spaces. destruct (Hsp SpInitial) as [E1 _], (Hsp SpHandshake) as [E2 _], (Hsp SpData) as [E3 _].
      cbn in E1, E2, E3. by rewrite E1, E2, E3.
    + destruct (first_packet (path c)); [done|]. intros i. destruct (Hsp i) as [-> _]. apply Hf.
  - unfold queued_packets. cbn [sending_queue]. rewrite map_app. apply Forall_app. split.
    + eapply Forall_impl; [exact Hqu|]. intros m [Hm Hfr Hsm]. destruct (Hsp (space_id m)) as (E1 & _ & _ & E4).
      split; rewrite ?E1, ?E4; try done. destruct (decide _); lia.
    + apply Forall_singleton. destruct (Hsp id) as (E1 & _ & _ & E4). destruct (pi_spaces _ _ Hpath id) as [Hn0 _ Hp0 _].
      split; rewrite ?Hid, ?E1, ?E4, ?Hnum; try done.
      * rewrite decide_True by done. lia.
      * destruct (sent_packets _ !! _) eqn:Hl; [|done]. apply Hp0 in Hl. lia.
  - unfold queued_packets. cbn [sending_queue]. rewrite !map_app. apply NoDup_app. split; [done|]. split; [|apply NoDup_singleton].
    intros k Hk Hin. cbn in Hin. apply list_elem_of_singleton in Hin. subst k.
    apply list_elem_of_fmap in Hk as (m & Hk & Hm). rewrite Forall_forall in Hqu. destruct (Hqu m Hm) as [Hn0 _ _].
    unfold key_of in Hk. injection Hk as Hk1 Hk2. rewrite <- Hk1, Hid in Hn0. lia.
  - intros Hnone. specialize (Hfst Hnone). unfold queued_packets in *. cbn [sending_queue]. rewrite map_app.
    destruct (map meta_info (sending_queue (path c))); [|done]. cbn. rewrite Hnum. apply Hfst.
Qed.

Lemma transmit_space_spec now close id el c c' : Connection.transmit_space now close id el c = Ret c' ->
  (conn_inv c -> conn_inv c') /\ c_state c' = c_state c /\ side c' = side c /\
  congestion (path c') = congestion (path c) /\ np_in_flight (path c') = np_in_flight (path c) /\
  (close = true -> pending_close c' = false) /\
  exists x, sending_queue (path c') = sending_queue (path c) ++ [x] /\
    key_of (meta_info x) = (id, next_packet_number (space_of c id)) /\ 0 <= size (meta_info x) < U16 /\
    ack_eliciting (meta_info x) = el.
Proof.
  unfold Connection.transmit_space. intros Ha. apply obind_ret in Ha as ([s n] & Htx & Ha).
  apply obind_ret in Ha as (pn & _ & Ha). apply obind_ret in Ha as (h & _ & Ha). apply obind_ret in Ha as (out & _ & Ha).
  apply obind_ret in Ha as ([[c1 sent] out1] & H1 & Ha). apply obind_ret in Ha as (len & _ & Ha).
  set (c2 := match sent_largest_acked sent with Some _ => _ | None => c1 end) in Ha.
  unfold PacketSpace.get_tx_number, assert in Htx. destruct (Z.ltb_spec (next_packet_number (space_of c id)) (2 ^ 62)) as [Hlt|]; [|done].
  cbn [obind] in Htx. apply obind_ret in Htx as (n' & Hn' & Htx). injection Htx as <- <-. apply u64_add_ret in Hn' as [-> _].
  set (c0 := with_space id _ c) in H1.
  assert (Hc1 : mild c0 c1 /\ (close = true -> pending_close c1 = false)).
  { destruct close; [|by apply populate_mild in H1]. outcome_inv. simplify_eq. split; [|done]. split; try done. }
  destruct Hc1 as (Hk1 & Hcl). clear H1.
  assert (Hc2 : mild c1 c2 /\ pending_close c2 = pending_close c1).
  { unfold c2. destruct (sent_largest_acked sent); [|done]. split; [|done].
    set (c3 := with_space id _ c1). transitivity c3; [apply mild_space; by split; [split|]|]. split; try done. intros. by apply timers_wf_insert. }
  destruct Hc2 as (Hk2 & Hcl2). clearbody c2. pose proof (transitivity Hk1 Hk2) as Hk.
  set (m := mkSentPacket now (as_u16 _) el _ _ _ _ id) in Ha. set (x := {| sch_packet := _; meta_info := m |}) in Ha. injection Ha as <-.
  assert (Hsz : 0 <= size (meta_info x) < U16) by (apply Z.mod_pos_bound; by unfold U16).
  cbn [c_state side path with_path congestion np_in_flight pending_close sending_queue].
  pose proof (md_path _ _ Hk) as Hp. change (path c0) with (path c) in Hp. rewrite Hp. split; [|split_and!].
  - intros Hinv. eapply (conn_inv_enqueue c c2 x id); [done|..|exact Hk|done|done]; first [done|cbn; lia].
  - apply (md_state _ _ Hk).
  - apply (md_side _ _ Hk).
  - done.
  - done.
  - intros Hc. rewrite Hcl2. auto.
  - by exists x.
Qed.

(** What [poll_transmit] leaves as it is. *)
Record sends (c c' : Connection) : Prop := {
  sn_inv : conn_inv c -> conn_inv c';
  sn_state : c_state c' = c_state c;
  sn_side : side c' = side c;
  sn_window : congestion (path c') = congestion (path c);
  sn_bytes : conn_inv c -> if_bytes (np_in_flight (path c')) <= if_bytes (np_in_flight (path c));
}.

#[export] Instance sends_preorder : PreOrder sends.
Proof. split; [by split|]. intros c1 c2 c3 [] []. split; try congruence; auto. intros Hi. etrans; [|by eauto]. auto. Qed.

Lemma sends_discard id c c' : Connection.discard_space id c = Ret c' -> sends c c' /\ sending_queue (path c') = sending_queue (path c).
Proof.
  intros Hd. destruct (keeps_discard _ _ _ Hd) as [Hk Hs]. apply discard_spec in Hd as (p & t & -> & Hr & _).
  destruct (remove_all_fields _ _ _ Hr) as (Hq & _ & Hc). split; [|done]. split; try done; [by apply Hk|].
  intros [Hpath _ _ _ _ _].
  destruct (remove_all_spec _ (path c) (spaces c) id Hpath (btree_iter_perm _)) as (p1 & sp & Hr1 & _ & _ & _ & _ & _ & _ & _ & Hb).
  assert (p1 = p) as -> by (unfold space_of in Hr; congruence). cbn. rewrite Hb.
  assert (0 <= total size (sent_packets (get_space (spaces c) id))); [|lia].
  apply total_nonneg. intros n q Hn. destruct (sp_packet _ (pi_spaces _ _ Hpath id) n q Hn) as (_ & _ & ?). lia.
Qed.

Lemma transmit_turn_spec now close blocked id c b c' b' :
  Connection.transmit_turn now close blocked id (c, b) = Ret (c', b') ->
  sends c c' /\ (b' = b \/ b' = true) /\ exists l, sending_queue (path c') = sending_queue (path c) ++ l /\
    Forall (fun x => ack_eliciting (meta_info x) && blocked = false) l /\ (length l <= 1)%nat /\
    (l <> [] -> b' = true /\ (close = true -> pending_close c' = false)) /\ (b' = false -> l = []).
Proof.
  unfold Connection.transmit_turn.
  assert (Hnone : forall c' b', sends c c' -> sending_queue (path c') = sending_queue (path c) -> b' = b ->
    sends c c' /\ (b' = b \/ b' = true) /\ exists l, sending_queue (path c') = sending_queue (path c) ++ l /\
    Forall (fun x => ack_eliciting (meta_info x) && blocked = false) l /\ (length l <= 1)%nat /\
    (l <> [] -> b' = true /\ (close = true -> pending_close c' = false)) /\ (b' = false -> l = [])).
  { intros c2 b2 Hs Hq ->. split; [done|]. split; [by left|]. exists []. rewrite app_nil_r. split_and!; try done. cbn. lia. }
  destruct (_ && _); [intros [= <- <-]; by apply Hnone|]. intros Ha. apply obind_ret in Ha as (c1 & H1 & Ha).
  assert (Hc1 : sends c c1 /\ sending_queue (path c1) = sending_queue (path c)).
  { destruct (_ && _); [by apply sends_discard in H1|by injection H1 as <-]. }
  clear H1. destruct Hc1 as [Hk1 Hq1]. set (el := sf_other _ || _) in Ha.
  destruct (el && blocked) eqn:Hel; [simplify_eq; apply Hnone; [|done..]|].
  { etrans; [exact Hk1|]. split; try done. intros Hi. by apply (conn_inv_frame c1). }
  apply obind_ret in Ha as (c2 & H2 & Ha). injection Ha as <- <-.
  apply transmit_space_spec in H2 as (Hi & Hs & Hside & Hcg & Hfl & Hcl & x & Hq & _ & _ & Hx).
  split; [|split; [by right|]].
  - etrans; [exact Hk1|]. split; try done. intros _. by rewrite Hfl.
  - exists [x]. rewrite Hq, Hq1. split_and!; try done. apply Forall_singleton. by rewrite Hx.
Qed.

Lemma conn_poll_spec now c c' again : Connection.poll_transmit now c = Ret (c', again) ->
  sends c c' /\ exists l, sending_queue (path c') = sending_queue (path c) ++ l /\ (length l <= 3)%nat /\
    Forall (fun x => ack_eliciting (meta_info x) = true ->
      if_bytes (np_in_flight (path c)) < NewReno.window (congestion (path c))) l /\
    (State.is_closed (c_state c) = true -> l <> [] -> pending_close c = true).
Proof.
  unfold Connection.poll_transmit. intros Ha.
  assert (Hnone : forall c', c' = c -> sends c c' /\ exists l, sending_queue (path c') = sending_queue (path c) ++ l /\ (length l <= 3)%nat /\
    Forall (fun x => ack_eliciting (meta_info x) = true ->
      if_bytes (np_in_flight (path c)) < NewReno.window (congestion (path c))) l /\
    (State.is_closed (c_state c) = true -> l <> [] -> pending_close c = true)).
  { intros ? ->. split; [done|]. exists []. rewrite app_nil_r. split_and!; try done. cbn; lia. }
  set (mode := match c_state c with Drained => None | _ => _ end) in Ha.
  assert (Hmode : mode = None \/ (State.is_closed (c_state c) = true -> pending_close c = true)).
  { unfold mode. destruct (c_state c), (pending_close c); auto. }
  destruct mode as [close|]; [|injection Ha as <- <-; by apply Hnone]. clear Hnone.
  destruct Hmode as [|Hmode]; [done|]. set (blocked := NewReno.window _ <=? _) in Ha.
  apply obind_ret in Ha as ([c3 any] & Ht & Ha). unfold Connection.transmit_turns in Ht.
  apply obind_ret in Ht as ([c1 b1] & H1 & Ht). apply obind_ret in Ht as ([c2 b2] & H2 & H3).
  apply transmit_turn_spec in H1 as (Hs1 & _ & l1 & Hq1 & Hb1 & Hl1 & _). apply transmit_turn_spec in H2 as (Hs2 & _ & l2 & Hq2 & Hb2 & Hl2 & _).
  apply transmit_turn_spec in H3 as (Hs3 & _ & l3 & Hq3 & Hb3 & Hl3 & _).
  assert (Hall : sends c c3 /\ exists l, sending_queue (path c3) = sending_queue (path c) ++ l /\ (length l <= 3)%nat /\
    Forall (fun x => ack_eliciting (meta_info x) = true ->
      if_bytes (np_in_flight (path c)) < NewReno.window (congestion (path c))) l /\
    (State.is_closed (c_state c) = true -> l <> [] -> pending_close c = true)).
  { split; [etrans; [exact Hs1|]; by etrans|]. exists (l1 ++ l2 ++ l3). rewrite Hq3, Hq2, Hq1, !app_assoc. split_and!; try done.
    - rewrite !length_app. lia.
    - repeat apply Forall_app_2; (eapply Forall_impl; [eassumption|]); cbn; intros x Hx Hel; rewrite Hel in Hx; unfold blocked in Hx; lia.
    - auto. }
  destruct (negb any); injection Ha as <- <-; [done|]. destruct Hall as [Hs Hl]. split; [|exact Hl]. etrans; [exact Hs|].
  split; try done. intros Hi. by apply (conn_inv_frame c3).
Qed.

(** ** Sending *)

Lemma send_one_fields io s p p' s' i : NetworkPath.send_one io s p = Ret (p', s', i) ->
  match sending_queue p with
  | [] => p' = p /\ s' = s /\ i = None
  | x :: queue =>
      exists t f sp m, io = Some t /\ InFlight.insert m (np_in_flight p) = Ret f /\
        m = mkSentPacket t (size (meta_info x)) (ack_eliciting (meta_info x)) (largest_acked (meta_info x))
              (Space.retransmits (meta_info x)) (stream_frames (meta_info x)) (number (meta_info x)) (space_id (meta_info x)) /\
        sending_queue p' = queue /\ congestion p' = congestion p /\ rtt p' = rtt p /\
        first_packet p' = Some (default (number m) (first_packet p)) /\
        np_in_flight p' = mkInFlight (saturating_sub (if_bytes f) 0) (if_ack_eliciting f) /\
        PacketSpace.sent m (get_space s (space_id m)) = Ret (sp, 0) /\ s' = set_space (space_id m) sp s /\
        i = Some {| psi_ack_eliciting := ack_eliciting m; psi_send_time := t |}
  end.
Proof.
  unfold NetworkPath.send_one. destruct (sending_queue p) as [|x queue]; [by intros [= <- <- <-]|].
  intros Ha. apply obind_ret in Ha as (t & Ht & Ha). destruct io as [t'|]; [|done]. injection Ht as ->.
  set (m := mkSentPacket t _ _ _ _ _ _ _) in Ha. apply obind_ret in Ha as (f & Hf & Ha).
  apply obind_ret in Ha as ([sp gone] & Hs & Ha).
  assert (gone = 0) as ->.
  { unfold PacketSpace.sent in Hs. apply obind_ret in Hs as ([? ?] & _ & Hs). apply obind_ret in Hs as (? & _ & Hs). by simplify_eq. }
  injection Ha as <- <- <-. exists t, f, sp, m. split_and!; try done. cbn. by destruct (first_packet p).
Qed.

Lemma sent_fields m s s' n : PacketSpace.sent m s = Ret (s', n) ->
  next_packet_number s' = next_packet_number s /\ sent_packets s' = <[number m := m]> (sent_packets s) /\
  in_flight s' = in_flight s + size m /\ (0 <= unacked_non_ack_eliciting_tail s -> 0 <= unacked_non_ack_eliciting_tail s').
Proof.
  unfold PacketSpace.sent. intros Ha. apply obind_ret in Ha as ([l t] & Hl & Ha). outcome_inv. simplify_eq. cbn.
  split_and!; try done. intros Ht. destruct (ack_eliciting m); [by simplify_eq|]. destruct (_ <? _); outcome_inv; simplify_eq; lia.
Qed.

(** Sending the first queued packet moves it to the books of its space. *)
Lemma send_one_inv io c p' s' i : NetworkPath.send_one io (spaces c) (path c) = Ret (p', s', i) ->
  conn_inv c -> conn_inv (with_spaces s' (with_path p' c)).
Proof.
  intros Ha [Hpath Hqu Hu Hfst Htm Hst]. apply send_one_fields in Ha. unfold queued_packets in *.
  destruct (sending_queue (path c)) as [|x queue] eqn:Hq.
  { destruct Ha as (-> & -> & _). split; try done; cbn; unfold queued_packets; by rewrite Hq. }
  destruct Ha as (t & f & sp & m & _ & Hf & Hm & Hq' & _ & _ & Hf' & Hfl & Hs & -> & _). cbn [map] in *.
  apply Forall_cons in Hqu as [[Hn0 Hfresh Hsz] Hqu]. apply NoDup_cons in Hu as [Hni Hu].
  assert (Hid : space_id m = space_id (meta_info x) /\ number m = number (meta_info x) /\ size m = size (meta_info x)
    /\ ack_eliciting m = ack_eliciting (meta_info x)) by (by subst m).
  destruct Hid as (Hid & Hnum & Hsize & Hel). rewrite <- Hid, <- Hnum in *. rewrite <- Hsize in Hsz. clear Hm.
  apply sent_fields in Hs as (Hnx & Hsent & Hin & Htl). set (id := space_id m) in *.
  unfold InFlight.insert in Hf. outcome_inv. subst f v v0. cbn in Hfl.
  assert (Hfn : first_packet (path c) = None -> number m = 0) by (intros Hn; rewrite (Hfst Hn) in *; done).
  assert (Htot : forall g, total g (sent_packets sp) = g m + total g (sent_packets (get_space (spaces c) id))).
  { intros g. rewrite Hsent. by apply total_insert. }
  pose proof (pi_spaces _ _ Hpath) as Hsi.
  assert (Hnn : 0 <= if_bytes (np_in_flight (path c))).
  { rewrite (pi_bytes _ _ Hpath). unfold all_spaces.
    assert (forall i, 0 <= total size (sent_packets (get_space (spaces c) i))) as Hge.
    { intros i'. apply total_nonneg. intros n q Hnq. destruct (sp_packet _ (Hsi i') n q Hnq) as (_ & _ & ?). lia. }
    pose proof (Hge SpInitial). pose proof (Hge SpHandshake). pose proof (Hge SpData). cbn in *. lia. }
  split; cbn [path spaces with_spaces with_path timers c_streams]; try done.
  - split.
    + intros i'. rewrite get_set_space. destruct (decide (id = i')) as [<-|]; [|done].
      destruct (Hsi id) as [Hn1 Hf1 Hp1 Ht1]. split; [by rewrite Hnx|by rewrite Hin, Htot, Hf1; lia| |auto].
      intros n q. rewrite Hsent, Hnx. intros [[<- <-]|[_ Hl]]%lookup_insert_Some; [done|by apply Hp1].
    + rewrite all_spaces_set, Htot, Hfl, <- (pi_bytes _ _ Hpath). unfold saturating_sub. cbn. lia.
    + rewrite all_spaces_set, Htot, Hfl, <- (pi_eliciting _ _ Hpath). unfold eliciting_count. cbn. lia.
    + rewrite Hf'. pose proof (pi_first _ _ Hpath) as Hpf. destruct (first_packet (path c)); [done|]. by apply Hfn.
  - unfold queued_packets. rewrite Hq'. rewrite Forall_forall in *. intros y Hy. destruct (Hqu y Hy) as [Hy1 Hy2 Hy3].
    split; [| |done]; rewrite get_set_space; destruct (decide (id = space_id y)) as [He|]; try done.
    + rewrite Hnx, He. done.
    + rewrite Hsent, He. rewrite lookup_insert_ne; [done|]. intros Heq. apply Hni. apply list_elem_of_fmap. exists y.
      split; [|done]. unfold key_of, id in *. congruence.
  - unfold queued_packets. by rewrite Hq'.
  - rewrite Hf'. done.
Qed.
