(* ===== verification/Driver.v ===== *)
(** * Driver: the loop that runs a connection ([run_connection] in [core/src/connection/mod.rs])

    A round of the loop schedules packets, sends them and then does one thing:
    the application handles an event, a timer fires, a datagram is processed,
    or nothing is ready.  What the outside world contributes to a round is a
    record of inputs, so that a round is a function. *)
From S2P Require Import Prelude Time Buffers Common Packet Frame Timer Space Path Send Recv Streams Connection Accounting.

(** ** What the application does when it handles an event *)

(** The public operations of a connection,
    with what is done to the stream handles they return *)
Inductive app_op :=
| AppClose (now : Instant) (error_code : Z) (reason : list Z)
| AppOpen (dir : Dir)
| AppWrite (id : StreamId) (data : list Z)
| AppFinish (id : StreamId)
| AppReset (id : StreamId) (error_code : Z)
| AppPriority (id : StreamId) (priority : Z)
| AppRead (id : StreamId) (ordered : bool) (sizes : list Z)
| AppStop (id : StreamId) (error_code : Z)
| AppReceivedReset (id : StreamId).

(** A reader is asked for chunks of the given sizes, and dropped. *)
Fixpoint read_chunks (sizes : list Z) (c : OpenChunks) : outcome OpenChunks :=
  match sizes with
  | [] => Ret c
  | n :: sizes => let! '(c, _) := RecvStream.next n c in read_chunks sizes c
  end.

Definition run_app (op : app_op) (c : Connection) : outcome Connection :=
  match op with
  | AppClose now error_code reason => Connection.close now error_code reason c
  | AppOpen dir => let! '(c, _) := Connection.open_stream dir c in Ret c
  | AppWrite id data =>
      let! '(ss, p, closed) := Connection.send_stream id c in
      let! '(ss, _) := SendStream.write id data closed ss in Ret (Connection.with_handle ss p c)
  | AppFinish id =>
      let! '(ss, p, _) := Connection.send_stream id c in
      let! '(ss, _) := SendStream.finish id ss in Ret (Connection.with_handle ss p c)
  | AppReset id error_code =>
      let! '(ss, p, _) := Connection.send_stream id c in
      let '(ss, p, _) := SendStream.reset id error_code p ss in Ret (Connection.with_handle ss p c)
  | AppPriority id priority =>
      let! '(ss, p, _) := Connection.send_stream id c in
      let '(ss, _) := SendStream.set_priority id priority ss in Ret (Connection.with_handle ss p c)
  | AppRead id ordered sizes =>
      let! '(ss, p) := Connection.recv_stream id c in
      let! '(ss, r) := RecvStream.read id ordered ss in
      match r with
      | Err _ => Ret (Connection.with_handle ss p c)
      | Ok chunks =>
          let! chunks := read_chunks sizes chunks in
          Ret (Connection.with_handle (RecvStream.drop chunks ss) p c)
      end
  | AppStop id error_code =>
      let! '(ss, p) := Connection.recv_stream id c in
      let! '(ss, p, _) := RecvStream.stop id error_code p ss in Ret (Connection.with_handle ss p c)
  | AppReceivedReset id =>
      let! '(ss, p) := Connection.recv_stream id c in
      let '(ss, _) := RecvStream.received_reset id ss in Ret (Connection.with_handle ss p c)
  end.

Fixpoint run_app_ops (ops : list app_op) (c : Connection) : outcome Connection :=
  match ops with
  | [] => Ret c
  | op :: ops => let! c := run_app op c in run_app_ops ops c
  end.

(** ** A round *)

(** The inputs of a round: the time at its start; for every packet, when the
    socket took it, or its failure; what the handler does if there is an event
    for it; the times at which the timers are polled and the timeout is
    handled; and the next datagram, with the time it came, if there is one. *)
Record Round (B : Type) := mkRound {
  r_now : Instant;
  r_io : nat -> option Instant;
  r_ops : list app_op;
  r_poll : Instant;
  r_timeout : Instant;
  r_data : option (Instant * B);
}.
Arguments mkRound {B}. Arguments r_now {B}. Arguments r_io {B}. Arguments r_ops {B}.
Arguments r_poll {B}. Arguments r_timeout {B}. Arguments r_data {B}.

Module Driver.
(** [mod.rs:113-123] at most [n] calls of [poll_transmit] *)
Fixpoint burst (n : nat) (now : Instant) (c : Connection) : outcome Connection :=
  match n with
  | O => Ret c
  | S n => let! '(c, again) := Connection.poll_transmit now c in if again then burst n now c else Ret c
  end.

Definition MAX_SPINS : nat := 128.

(** [mod.rs:126-132] the loop over [send_one]; the fuel is the length of the
    queue, see [send_loop_enough] *)
Fixpoint send_loop (fuel : nat) (io : nat -> option Instant) (c : Connection) : option (outcome Connection) :=
  match fuel with
  | O => None
  | S fuel =>
      match NetworkPath.send_one (io 0%nat) (spaces c) (path c) with
      | Panic => Some Panic
      | Ret (p, s, info) =>
          let c := with_spaces s (with_path p c) in
          match info with
          | None => Some (Ret c)
          | Some info =>
              match (if psi_ack_eliciting info then Connection.set_loss_detection_timer c else Ret c) with
              | Panic => Some Panic
              | Ret c => send_loop fuel (fun i => io (S i)) c
              end
          end
      end
  end.

Definition send_queued (io : nat -> option Instant) (c : Connection) : outcome Connection :=
  default Panic (send_loop (S (length (sending_queue (path c)))) io c).

Definition take_event (c : Connection) : option (Event * Connection) :=
  let s := c_streams c in
  match events s with
  | [] => None
  | e :: l => Some (e, with_streams (mkStreams (ss_side s) (ss_send s) (ss_recv s) (ss_next s) (ss_pending s) l) c)
  end.

Section Run.
Context {B : Type} `{Buf B}.

(** [mod.rs:134-146] the biased [select!]: the first branch that is ready *)
Definition select (r : Round B) (c : Connection) : outcome Connection :=
  match take_event c with
  | Some (_, c) => run_app_ops (r_ops r) c
  | None =>
      let! '(t, fired) := TimerTable.poll (r_poll r) (timers c) in
      let c := with_timers t c in
      match fired with
      | Some timer => Connection.handle_timeout timer (r_timeout r) c
      | None =>
          match r_data r with
          | Some (now, data) => Connection.handle_data now data c
          | None => Ret c
          end
      end
  end.

(** [mod.rs:87-148] one round of the loop; a drained connection stays as it is *)
Definition round (r : Round B) (c : Connection) : outcome Connection :=
  if State.is_drained (c_state c) then Ret c
  else
    let! c := burst MAX_SPINS (r_now r) c in
    let! c := send_queued (r_io r) c in
    select r c.

Fixpoint run_connection (l : list (Round B)) (c : Connection) : outcome Connection :=
  match l with
  | [] => Ret c
  | r :: l => let! c := round r c in run_connection l c
  end.

(** The connections of a client and of a server, after any rounds. *)
Inductive reachable : Connection -> Prop :=
| reachable_client now c : Connection.new now Client = Ret c -> reachable c
| reachable_server now now' packet c c' : Connection.new now Server = Ret c ->
    Connection.handle_first_packet now' packet c = Ret (c', Ok tt) -> reachable c'
| reachable_round r c c' : reachable c -> round r c = Ret c' -> reachable c'.
End Run.
End Driver.

(** ** Every round keeps the invariant *)

(** The invariant holds, and the connection does not go back. *)
Record forward (c c' : Connection) : Prop := {
  fw_inv : conn_inv c -> conn_inv c';
  fw_rank : rank (c_state c) <= rank (c_state c');
}.

#[export] Instance forward_preorder : PreOrder forward.
Proof. split; [by split|]. intros c1 c2 c3 [] []. split; [auto|lia]. Qed.

Lemma keeps_forward c c' : keeps c c' -> forward c c'.
Proof. intros []. by split. Qed.

Lemma sends_forward c c' : sends c c' -> forward c c'.
Proof. intros [? Hs _ _ _]. split; [done|]. by rewrite Hs. Qed.

Lemma handle_keeps ss p c : (all_queued (c_streams c) -> all_queued ss) -> keeps c (Connection.with_handle ss p c).
Proof.
  intros Hs. unfold Connection.with_handle. set (c1 := with_streams ss c). transitivity c1.
  - by apply keeps_streams.
  - apply (keeps_space SpData _ c1). by split; [split|].
Qed.

Lemma run_app_keeps op c c' : run_app op c = Ret c' -> keeps c c'.
Proof.
  assert (Hstep : forall ss p, streams_step (W:=slice_buf) (c_streams c) ss -> keeps c (Connection.with_handle ss p c)).
  { intros ss p Hs. apply handle_keeps. by apply streams_step_queued. }
  assert (Hassert : forall (b : bool) A (k : outcome A) r, (let! _ := assert b in k) = Ret r -> k = Ret r).
  { intros [] A k r; [done|]. intros [=]. }
  destruct op as [now code reason|dir|id data|id|id code|id prio|id ordered sizes|id code|id]; cbn [run_app];
    unfold Connection.send_stream, Connection.recv_stream.
  - unfold Connection.close. destruct (State.is_closed (c_state c)) eqn:Hcl; cbn [negb]; [by intros [= <-]|].
    intros Ha. apply obind_ret in Ha as (c1 & H1 & Ha). injection Ha as <-.
    etrans; [apply keeps_close_common|]. etrans; [by eapply keeps_close_timer|]. etrans; [by apply (keeps_frame _ (with_pending_close true c1))|].
    apply keeps_state. cbn. unfold Connection.set_close_timer in H1. apply obind_ret in H1 as (t & _ & H1). injection H1 as <-. cbn.
    destruct (c_state c); cbn in *; done || lia.
  - unfold Connection.open_stream. destruct (State.is_closed _); [done|]. intros Ha. apply obind_ret in Ha as ([c1 id] & H1 & Ha). injection Ha as <-.
    apply obind_ret in H1 as ([ss id'] & H1 & Ha). injection Ha as <- <-. apply streams_keep. by eapply StepOpen.
  - intros Ha. apply obind_ret in Ha as ([[ss p] closed] & H1 & Ha). apply Hassert in H1. injection H1 as <- <- <-.
    apply obind_ret in Ha as ([ss res] & Hw & Ha). injection Ha as <-. apply Hstep. by eapply StepWrite.
  - intros Ha. apply obind_ret in Ha as ([[ss p] closed] & H1 & Ha). apply Hassert in H1. injection H1 as <- <- <-.
    apply obind_ret in Ha as ([ss res] & Hw & Ha). injection Ha as <-. apply Hstep. by eapply StepFinish.
  - intros Ha. apply obind_ret in Ha as ([[ss p] closed] & H1 & Ha). apply Hassert in H1. injection H1 as <- <- <-.
    destruct (SendStream.reset _ _ _ _) as [[ss p] res] eqn:Hr. injection Ha as <-. apply Hstep. by eapply StepReset.
  - intros Ha. apply obind_ret in Ha as ([[ss p] closed] & H1 & Ha). apply Hassert in H1. injection H1 as <- <- <-.
    destruct (SendStream.set_priority _ _ _) as [ss res] eqn:Hr. injection Ha as <-. apply Hstep. by eapply StepPriority.
  - intros Ha. apply obind_ret in Ha as ([ss p] & H1 & Ha). apply Hassert in H1. injection H1 as <- <-.
    apply obind_ret in Ha as ([ss [chunks|e]] & Hr & Ha).
    + apply obind_ret in Ha as (chunks' & _ & Ha). injection Ha as <-. apply handle_keeps. intros Hq.
      apply (streams_step_queued (W:=slice_buf) ss); [apply StepDrop|].
      apply (streams_step_queued (W:=slice_buf) (c_streams c)); [by eapply StepRead|done].
    + injection Ha as <-. apply Hstep. by eapply StepRead.
  - intros Ha. apply obind_ret in Ha as ([ss p] & H1 & Ha). apply Hassert in H1. injection H1 as <- <-.
    apply obind_ret in Ha as ([[ss p] res] & Hr & Ha). injection Ha as <-. apply Hstep. by eapply StepStop.
  - intros Ha. apply obind_ret in Ha as ([ss p] & H1 & Ha). apply Hassert in H1. injection H1 as <- <-.
    destruct (RecvStream.received_reset _ _) as [ss res] eqn:Hr. injection Ha as <-. apply Hstep. by eapply StepReceivedReset.
Qed.

Lemma run_app_ops_keeps ops c c' : run_app_ops ops c = Ret c' -> keeps c c'.
Proof.
  revert c. induction ops as [|op ops IH]; intros c; cbn [run_app_ops]; [by intros [= ->]|].
  intros Ha. apply obind_ret in Ha as (c1 & H1 & Ha). etrans; [by eapply run_app_keeps|auto].
Qed.

Lemma burst_sends n now c c' : Driver.burst n now c = Ret c' -> sends c c'.
Proof.
  revert c. induction n as [|n IH]; intros c; cbn [Driver.burst]; [by intros [= ->]|].
  intros Ha. apply obind_ret in Ha as ([c1 again] & H1 & Ha). apply conn_poll_spec in H1 as [Hs _].
  etrans; [exact Hs|]. destruct again; [auto|by injection Ha as <-].
Qed.

(** The queue is sent in as many turns as it is long, and one to find it empty. *)
Lemma send_loop_spec fuel io c : (length (sending_queue (path c)) < fuel)%nat ->
  match Driver.send_loop fuel io c with
  | None => False
  | Some Panic => True
  | Some (Ret c') => forward c c' /\ c_state c' = c_state c /\ sending_queue (path c') = []
  end.
Proof.
  revert io c. induction fuel as [|fuel IH]; intros io c Hlen; [lia|]. cbn [Driver.send_loop].
  destruct (NetworkPath.send_one _ _ _) as [[[p s] info]|] eqn:Hs; [|done].
  pose proof (send_one_inv _ _ _ _ _ Hs) as Hinv. apply send_one_fields in Hs.
  destruct (sending_queue (path c)) as [|x queue] eqn:Hq.
  { destruct Hs as (-> & -> & ->). split; [by split|]. done. }
  destruct Hs as (t & f & sp & m & _ & _ & _ & Hq' & _ & _ & _ & _ & _ & _ & ->).
  set (c1 := with_spaces s (with_path p c)) in *. assert (Hf1 : forward c c1) by (by split).
  destruct (if psi_ack_eliciting _ then _ else _) as [c2|] eqn:H2; [|done].
  assert (Hc2 : forward c1 c2 /\ c_state c2 = c_state c1 /\ sending_queue (path c2) = sending_queue (path c1)).
  { destruct (psi_ack_eliciting _); [|by injection H2 as <-]. pose proof (keeps_loss_timer _ _ H2) as Hk.
    apply loss_timer_only in H2 as [t' ->]. split; [by apply keeps_forward|done]. }
  destruct Hc2 as (Hf2 & Hst2 & Hq2). specialize (IH (fun i => io (S i)) c2).
  destruct (Driver.send_loop fuel _ c2) as [[c3|]|]; [|done|].
  - destruct IH as (Hf3 & Hst3 & Hq3); [rewrite Hq2; cbn; rewrite Hq'; cbn in Hlen; lia|]. split; [|split; [|done]].
    + etrans; [exact Hf1|]. by etrans.
    + by rewrite Hst3, Hst2.
  - apply IH. rewrite Hq2. cbn. rewrite Hq'. cbn in Hlen. lia.
Qed.

Lemma send_queued_spec io c c' : Driver.send_queued io c = Ret c' ->
  forward c c' /\ c_state c' = c_state c /\ sending_queue (path c') = [].
Proof.
  unfold Driver.send_queued. pose proof (send_loop_spec (S (length (sending_queue (path c)))) io c ltac:(lia)) as Hs.
  destruct (Driver.send_loop _ _ _) as [[c1|]|]; cbn; try done. by intros [= <-].
Qed.

Section Rounds.
Context {B : Type} `{Buf B}.

Lemma timeout_forward timer now c c' : Connection.handle_timeout timer now c = Ret c' -> forward c c'.
Proof.
  destruct timer; cbn [Connection.handle_timeout]; try (intros [= <-]; done).
  - intros Ha. by apply keeps_forward, (keeps_timeout now).
  - intros [= <-]. apply keeps_forward, keeps_state. cbn. destruct (c_state c); cbn; lia.
  - intros [= <-]. apply keeps_forward, keeps_space. by split; [split|].
Qed.

Lemma poll_timers_wf now t t' r : TimerTable.poll now t = Ret (t', r) -> timers_wf t -> timers_wf t'.
Proof.
  unfold TimerTable.poll. destruct (TimerTable.earliest 0 (data t)) as [[i time]|]; [|by intros [= <- <-]].
  destruct (time <=? now); [|by intros [= <- <-]]. intros Ha. apply obind_ret in Ha as (timer & _ & Ha).
  injection Ha as <- <-. apply timers_wf_insert.
Qed.

Lemma select_forward (r : Round B) c c' : c_state c <> Drained -> Driver.select r c = Ret c' -> forward c c'.
Proof.
  intros Hnd. unfold Driver.select, Driver.take_event. destruct (events (c_streams c)) as [|e l].
  - intros Ha. apply obind_ret in Ha as ([t fired] & Ht & Ha).
    assert (Hf : forward c (with_timers t c)) by (apply keeps_forward, keeps_timers, (poll_timers_wf _ _ _ _ Ht)).
    etrans; [exact Hf|]. destruct fired as [timer|]; [by eapply timeout_forward|].
    destruct (r_data r) as [[now data]|]; [|by injection Ha as <-]. apply handle_data_spec in Ha as [Hi Hr].
    split; [exact Hi|by apply Hr].
  - intros Ha. apply run_app_ops_keeps in Ha. apply keeps_forward. etrans; [|exact Ha]. apply keeps_streams. intros Hq. by apply (all_queued_frame (c_streams c)).
Qed.

Lemma round_forward (r : Round B) c c' : Driver.round r c = Ret c' -> forward c c'.
Proof.
  unfold Driver.round. destruct (State.is_drained (c_state c)) eqn:Hd; [by intros [= <-]|]. intros Ha.
  apply obind_ret in Ha as (c1 & H1 & Ha). apply obind_ret in Ha as (c2 & H2 & Ha).
  apply burst_sends in H1. pose proof (sn_state _ _ H1) as Hs1. apply send_queued_spec in H2 as (Hf2 & Hs2 & _).
  etrans; [by apply sends_forward|]. etrans; [exact Hf2|]. apply (select_forward r); [|done].
  rewrite Hs2, Hs1. by destruct (c_state c).
Qed.

Lemma run_forward (l : list (Round B)) c c' : Driver.run_connection l c = Ret c' -> forward c c'.
Proof.
  revert c. induction l as [|r l IH]; intros c; cbn [Driver.run_connection]; [by intros [= ->]|].
  intros Ha. apply obind_ret in Ha as (c1 & H1 & Ha). etrans; [by eapply round_forward|auto].
Qed.

Lemma conn_inv_new now side c : Connection.new now side = Ret c -> conn_inv c.
Proof.
  unfold Connection.new. intros Ha. apply obind_ret in Ha as (p & Hp & Ha).
  assert (Hq : sending_queue p = []).
  { unfold NetworkPath.new in Hp. apply obind_ret in Hp as (? & _ & Hp). by injection Hp as <-. }
  pose proof (path_inv_new now p Hp) as Hpath. set (c0 := mkConnection _ _ _ _ _ _ _ _ _) in Ha.
  assert (Hinv : conn_inv c0).
  { split; cbn; unfold queued_packets; rewrite ?Hq; try done; [apply NoDup_nil_2|by intros _ []]. }
  destruct side; injection Ha as <-; [|done]. apply (keeps_space SpInitial _ c0); [by split; [split|]|done].
Qed.

Lemma reachable_inv c : Driver.reachable (B:=B) c -> conn_inv c.
Proof.
  induction 1 as [now c Hn|now now' packet c c' Hn Hf|r c c' _ IH Hr].
  - by eapply conn_inv_new.
  - apply conn_inv_new in Hn. unfold Connection.handle_first_packet in Hf. apply obind_ret in Hf as (n & _ & Hf).
    apply obind_ret in Hf as (c1 & H1 & Hf). apply authenticated_spec in H1 as (Hi & _). apply process_packet_good in Hf as [Hk _].
    apply Hk, Hi, Hn.
  - apply round_forward in Hr. by apply Hr.
Qed.
End Rounds.

(** ** Properties *)

(** C1: Whatever happens to a connection, its books balance.  In every
    connection that the loop can reach from a new client or an accepted server
    connection, the path has as many bytes and ack-eliciting packets in flight
    as the three packet number spaces together; no packet number is used twice
    within a space, neither by two queued packets nor by a queued packet and
    one in flight; and any packet in flight can be acknowledged, lost or
    discarded without an underflow. *)
Theorem connection_accounts {B : Type} `{Buf B} (c : Connection) : Driver.reachable (B:=B) c ->
  if_bytes (np_in_flight (path c)) = all_spaces size (spaces c) /\
  if_ack_eliciting (np_in_flight (path c)) = all_spaces eliciting_count (spaces c) /\
  (forall id, in_flight (space_of c id) = total size (sent_packets (space_of c id))) /\
  NoDup (map key_of (queued_packets (path c))) /\
  (forall m, m ∈ queued_packets (path c) ->
    0 <= number m < next_packet_number (space_of c (space_id m)) /\ sent_packets (space_of c (space_id m)) !! number m = None) /\
  (forall id n m, sent_packets (space_of c id) !! n = Some m -> exists p s,
    NetworkPath.remove_in_flight n m (path c) = Ret (p, true) /\ PacketSpace.take n (space_of c id) = Ret (s, Some m)).
Proof.
  intros [Hp Hq Hu _ _ _]%reachable_inv. split_and!.
  - apply Hp.
  - apply Hp.
  - intros id. apply (sp_in_flight _ (pi_spaces _ _ Hp id)).
  - done.
  - intros m Hm. rewrite Forall_forall in Hq. by destruct (Hq m Hm).
  - intros id n m Hn. destruct (remove_spec _ _ id n m Hp Hn) as (p & s & Hr & Ht & _). by exists p, s.
Qed.

(** A round at time [now] with a datagram. *)
Definition sample_round (now : Instant) (data : option (list Z)) : Round (list Z) :=
  mkRound now (fun _ => Some (now + 1)) [] (now + 2) (now + 3) ((fun d => (now + 4, d)) <$> data).

Definition sample_client : Connection :=
  match (let! c := Connection.new 0 Client in Driver.round (sample_round 10 None) c) with
  | Ret c => c
  | Panic => mkConnection Client Drained (mkNetworkPath [] (mkRtt 0 None 0 0) (NewReno.new 0) InFlight.default None)
      (mkSpaces (PacketSpace.new 0) (PacketSpace.new 0) (PacketSpace.new 0)) SpInitial TimerTable_default
      (StreamsState.new Client) false false
  end.

Lemma sample_client_reachable : Driver.reachable (B:=list Z) sample_client.
Proof.
  unfold sample_client. destruct (Connection.new 0 Client) as [c|] eqn:Hc; [|by vm_compute in Hc].
  cbn [obind]. pose proof (Driver.reachable_client (B:=list Z) 0 c Hc) as H0.
  destruct (Driver.round (sample_round 10 None) c) as [c'|] eqn:Hr; [by eapply Driver.reachable_round|].
  exfalso. assert (Hcr : (let! c := Connection.new 0 Client in Driver.round (sample_round 10 None) c) = Panic) by (by rewrite Hc).
  vm_compute in Hcr. discriminate.
Qed.

Lemma connection_accounts_witness : if_bytes (np_in_flight (path sample_client)) = all_spaces size (spaces sample_client) /\
  if_bytes (np_in_flight (path sample_client)) = 54.
Proof.
  split; [exact (proj1 (connection_accounts (B:=list Z) sample_client sample_client_reachable))|].
  vm_compute. reflexivity.
Defined.

(** C10: A connection never goes back.  Over any rounds of the loop, whatever
    datagrams, timeouts and calls of the application they bring, a connection
    that has left the handshake does not return to it, a closed one stays
    closed, and a drained one does not change at all. *)
Theorem connection_never_reopens {B : Type} `{Buf B} (l : list (Round B)) (c c' : Connection) :
  Driver.run_connection l c = Ret c' ->
  (c_state c <> StHandshake -> c_state c' <> StHandshake) /\
  (State.is_closed (c_state c) = true -> State.is_closed (c_state c') = true) /\
  (c_state c = Drained -> c' = c).
Proof.
  intros Hr. pose proof (fw_rank _ _ (run_forward _ _ _ Hr)) as Hk. split; [|split].
  - destruct (c_state c), (c_state c'); cbn in Hk; try done; lia.
  - destruct (c_state c), (c_state c'); cbn in *; try done; lia.
  - intros Hd. clear Hk. revert c Hd Hr. induction l as [|r l IH]; intros c Hd; cbn [Driver.run_connection]; [by intros [= ->]|].
    unfold Driver.round. rewrite Hd. cbn. by apply IH.
Qed.

Lemma connection_never_reopens_witness :
  exists c c', Driver.run_connection [sample_round 30 None] c = Ret c' /\ State.is_closed (c_state c) = true /\
    State.is_closed (c_state c') = true.
Proof.
  set (c := with_state Draining sample_client).
  destruct (Driver.run_connection [sample_round 30 None] c) as [c'|] eqn:Hr.
  - exists c, c'. split; [exact Hr|]. split; [reflexivity|].
    exact (proj1 (proj2 (connection_never_reopens [sample_round 30 None] c c' Hr)) eq_refl).
  - exfalso. vm_compute in Hr. discriminate.
Defined.

(** *** What a call of [poll_transmit] transmits *)

Lemma populate_others {W : Type} `{BufMut W} now id (out out' : W) c c' sent : id <> SpData ->
  Connection.populate_packet now id out c = Ret (c', sent, out') ->
  c_streams c' = c_streams c /\ forall i, i <> id -> space_of c' i = space_of c i.
Proof.
  intros Hid. unfold Connection.populate_packet. intros Ha. apply obind_ret in Ha as ([lg o1] & _ & Ha).
  apply obind_ret in Ha as ([[c1 thin] o2] & H1 & Ha). rewrite (bool_decide_eq_false_2 (id = SpData) Hid) in Ha.
  cbn [andb obind] in Ha. destruct (decide (id = SpData)); [done|]. injection Ha as <- _ _. destruct (hello _); outcome_inv; simplify_eq; [|done].
  split; [done|]. intros i Hi. autorewrite with conn. by rewrite decide_False.
Qed.

(** A packet of an Initial or Handshake space leaves the rest alone. *)
Lemma transmit_others now id el c c' : id <> SpData -> Connection.transmit_space now false id el c = Ret c' ->
  c_streams c' = c_streams c /\ forall i, i <> id -> space_of c' i = space_of c i.
Proof.
  intros Hid. unfold Connection.transmit_space. intros Ha. apply obind_ret in Ha as ([s k] & _ & Ha).
  apply obind_ret in Ha as (pn & _ & Ha). apply obind_ret in Ha as (h & _ & Ha). apply obind_ret in Ha as (out & _ & Ha).
  apply obind_ret in Ha as ([[c1 sent] out1] & [Hs1 H1]%(populate_others _ _ _ _ _ _ _ Hid) & Ha). apply obind_ret in Ha as (len & _ & Ha). injection Ha as <-.
  destruct (sent_largest_acked sent).
  - split; [exact Hs1|]. intros i Hi. rewrite space_of_path, space_of_timers. autorewrite with conn. rewrite decide_False by congruence.
    rewrite (H1 i Hi). autorewrite with conn. by rewrite decide_False by congruence.
  - split; [exact Hs1|]. intros i Hi. rewrite space_of_path, (H1 i Hi). autorewrite with conn. by rewrite decide_False by congruence.
Qed.

Lemma discard_others id c c' : Connection.discard_space id c = Ret c' ->
  c_streams c' = c_streams c /\ forall i, i <> id -> space_of c' i = space_of c i.
Proof.
  intros (p & t & -> & _)%discard_spec. split; [done|]. intros i Hi. autorewrite with conn. by rewrite decide_False by congruence.
Qed.

Lemma can_send_same c c' id : c_streams c' = c_streams c -> space_of c' id = space_of c id ->
  Connection.space_can_send c' id = Connection.space_can_send c id.
Proof. unfold Connection.space_can_send. by intros -> ->. Qed.

(** What a turn for a space leaves to those for the later spaces. *)
Lemma turn_others now id c b c' b' i : SpaceId_as_usize id < SpaceId_as_usize i ->
  Connection.transmit_turn now false false id (c, b) = Ret (c', b') ->
  Connection.space_can_send c' i = Connection.space_can_send c i.
Proof.
  intros Hi. assert (Hid : id <> SpData /\ i <> id /\ i <> SpInitial) by (destruct id, i; cbn in Hi; split_and!; (done || lia)).
  destruct Hid as (Hid & Hne & Hni). unfold Connection.transmit_turn. destruct (_ && _); [by intros [= <- _]|].
  intros Ha. apply obind_ret in Ha as (c1 & H1 & Ha). rewrite andb_false_r in Ha. apply obind_ret in Ha as (c2 & [Hs2 H2]%(transmit_others _ _ _ _ _ Hid) & Ha). injection Ha as <- _.
  rewrite (can_send_same c1 c2) by (by rewrite ?(H2 i Hne)). destruct (_ && _); [|by injection H1 as <-].
  apply discard_others in H1 as [Hs1 H1]. apply can_send_same; [done|by apply H1].
Qed.

(** A space with something to send that has to be acknowledged sends it, if the
    call found room in the window. *)
Lemma turn_sends now id c b c' b' : sf_other (Connection.space_can_send c id) = true ->
  Connection.transmit_turn now false false id (c, b) = Ret (c', b') ->
  exists x, sending_queue (path c') = sending_queue (path c) ++ [x] /\ space_id (meta_info x) = id /\ ack_eliciting (meta_info x) = true.
Proof.
  intros Hs. unfold Connection.transmit_turn. unfold SendableFrames_is_empty. rewrite Hs, andb_false_r. cbn [negb andb orb].
  intros Ha. apply obind_ret in Ha as (c1 & H1 & Ha). cbn [andb] in Ha. apply obind_ret in Ha as (c2 & H2 & Ha). injection Ha as <- _.
  assert (Hq : sending_queue (path c1) = sending_queue (path c)) by (destruct (_ && _); [by apply sends_discard in H1 as [_ H1]|by injection H1 as <-]).
  rewrite <- Hq. apply transmit_space_spec in H2 as (_ & _ & _ & _ & _ & _ & x & Hx & Hk & _ & Hel).
  exists x. split; [done|]. split; [by injection Hk|done].
Qed.

Lemma turn_queue now close blocked id c b c' b' : Connection.transmit_turn now close blocked id (c, b) = Ret (c', b') ->
  sending_queue (path c) `prefix_of` sending_queue (path c').
Proof. intros (_ & _ & l & -> & _)%transmit_turn_spec. by exists l. Qed.

Lemma poll_sends now c c' again id : State.is_closed (c_state c) = false ->
  if_bytes (np_in_flight (path c)) < NewReno.window (congestion (path c)) -> sf_other (Connection.space_can_send c id) = true ->
  Connection.poll_transmit now c = Ret (c', again) ->
  exists x, x ∈ drop (length (sending_queue (path c))) (sending_queue (path c')) /\ space_id (meta_info x) = id /\ ack_eliciting (meta_info x) = true.
Proof.
  intros Hopen Hroom Hs. unfold Connection.poll_transmit.
  assert (Hmode : match c_state c with Drained => None | Draining | Closed _ => if pending_close c then Some true else None | _ => Some false end = Some false)
    by (by destruct (c_state c)).
  rewrite Hmode. destruct (Z.leb_spec (NewReno.window (congestion (path c))) (if_bytes (np_in_flight (path c)))) as [|_]; [lia|].
  intros Ha. apply obind_ret in Ha as ([c3 any] & Ht & Ha). assert (Hq' : path c' = path c3) by (destruct (negb any); by injection Ha as <- _).
  rewrite Hq'. clear Ha Hq' c' Hmode. unfold Connection.transmit_turns in Ht.
  apply obind_ret in Ht as ([c1 b1] & H1 & Ht). apply obind_ret in Ht as ([c2 b2] & H2 & H3).
  assert (Hin : forall q x l, sending_queue (path c) `prefix_of` q -> q ++ [x] `prefix_of` l -> x ∈ drop (length (sending_queue (path c))) l).
  { intros q x l [k ->] [k' ->]. rewrite <- !app_assoc, drop_app_length. set_solver. }
  destruct id.
  - destruct (turn_sends _ _ _ _ _ _ Hs H1) as (x & Hx & Hid & Hel). exists x. split; [|done]. apply turn_queue in H2, H3.
    apply (Hin (sending_queue (path c))); [done|]. rewrite <- Hx. by etrans.
  - rewrite <- (turn_others now SpInitial c false c1 b1 SpHandshake) in Hs by (cbn; done || lia).
    destruct (turn_sends _ _ _ _ _ _ Hs H2) as (x & Hx & Hid & Hel). exists x. split; [|done]. apply turn_queue in H1, H3.
    apply (Hin (sending_queue (path c1))); [done|by rewrite <- Hx].
  - rewrite <- (turn_others now SpInitial c false c1 b1 SpData) in Hs by (cbn; done || lia).
    rewrite <- (turn_others now SpHandshake c1 b1 c2 b2 SpData) in Hs by (cbn; done || lia).
    destruct (turn_sends _ _ _ _ _ _ Hs H3) as (x & Hx & Hid & Hel). exists x. split; [|done]. apply turn_queue in H1, H2.
    apply (Hin (sending_queue (path c2))); [by etrans|by rewrite <- Hx].
Qed.

(** C17: The congestion window is looked at once per call of [poll_transmit], and
    only packets that were already sent count.  When the path of an open
    connection has filled its window, a call queues no packet that has to be
    acknowledged.  When it has not, no call of a burst is blocked, however many
    there are and however much they have queued: in whatever space there is
    something to send that has to be acknowledged, the call queues a packet of
    that space that has to be acknowledged.  Queued packets do not count as in
    flight, so a burst can exceed the window by all that it queues. *)
Theorem congestion_checked_once {B : Type} `{Buf B} (c : Connection) (now : Instant) : Driver.reachable (B:=B) c ->
  (NewReno.window (congestion (path c)) <= if_bytes (np_in_flight (path c)) ->
    forall c' again, Connection.poll_transmit now c = Ret (c', again) ->
    exists l, sending_queue (path c') = sending_queue (path c) ++ l /\
      forall x, x ∈ l -> ack_eliciting (meta_info x) = false) /\
  (if_bytes (np_in_flight (path c)) < NewReno.window (congestion (path c)) -> State.is_closed (c_state c) = false ->
    forall n c1 c2 again id, Driver.burst n now c = Ret c1 -> sf_other (Connection.space_can_send c1 id) = true ->
    Connection.poll_transmit now c1 = Ret (c2, again) ->
    exists x, x ∈ drop (length (sending_queue (path c1))) (sending_queue (path c2)) /\
      space_id (meta_info x) = id /\ ack_eliciting (meta_info x) = true).
Proof.
  intros Hinv%reachable_inv. split.
  - intros Hb c' again Hp. apply conn_poll_spec in Hp as (_ & l & Hq & _ & Hl & _). exists l. split; [done|].
    intros x Hx. rewrite Forall_forall in Hl. specialize (Hl x Hx). destruct (ack_eliciting (meta_info x)); [|done].
    specialize (Hl eq_refl). lia.
  - intros Hb Hopen n c1 c2 again id Hr%burst_sends Hs. pose proof (sn_bytes _ _ Hr Hinv) as Hle.
    apply poll_sends; [by rewrite (sn_state _ _ Hr)|rewrite (sn_window _ _ Hr); lia|done].
Qed.

(** A client that is told that it is connected and writes 1430 bytes to each of
    twelve streams: more than its window, in one burst. *)
Definition server_hello : list Z :=
  [192; 0; 0; 0; 1; 20] ++ FAKE_CID ++ [20] ++ FAKE_CID ++ [0; 1; 0; 6; 0; 1; 0].
Definition twelve_writes : list app_op := seq 0 12 ≫= (fun i => [AppOpen Bi; AppWrite (4 * Z.of_nat i) (replicate 1430 7)]).
Definition busy_rounds : list (Round (list Z)) :=
  [sample_round 30 (Some server_hello); mkRound 40 (fun _ => Some 41) twelve_writes 42 43 None].

(** Before a burst, after eleven of its calls, and after the twelfth. *)
Definition busy : outcome (Connection * Connection * Connection * bool) :=
  let! c := Driver.run_connection busy_rounds sample_client in
  let! c1 := Driver.burst 11 50 c in
  let! '(c2, again) := Connection.poll_transmit 50 c1 in Ret (c, c1, c2, again).

(** The queue is over the window, the path is not, and there is more to send. *)
Definition busy_facts : outcome (bool * bool * bool * bool) :=
  let! '(c, c1, _, _) := busy in
  Ret (NewReno.window (congestion (path c1)) <? foldr (fun x n => size (meta_info x) + n) 0 (sending_queue (path c1)),
       if_bytes (np_in_flight (path c)) <? NewReno.window (congestion (path c)), State.is_closed (c_state c),
       sf_other (Connection.space_can_send c1 SpData)).

Lemma busy_facts_eq : busy_facts = Ret (true, true, false, true).
Proof. vm_compute. reflexivity. Qed.

Lemma run_reachable {B} `{Buf B} (l : list (Round B)) c c' : Driver.reachable (B:=B) c -> Driver.run_connection l c = Ret c' ->
  Driver.reachable (B:=B) c'.
Proof.
  revert c. induction l as [|r l IH]; intros c Hc; cbn [Driver.run_connection]; [by intros [= <-]|].
  intros Hr. apply obind_ret in Hr as (c1 & H1 & Hr). apply (IH c1); [|done]. by eapply Driver.reachable_round.
Qed.

Lemma congestion_checked_once_witness : exists c c1 c2 again, busy = Ret (c, c1, c2, again) /\
  NewReno.window (congestion (path c1)) < foldr (fun x n => size (meta_info x) + n) 0 (sending_queue (path c1)) /\
  exists x, x ∈ drop (length (sending_queue (path c1))) (sending_queue (path c2)) /\
    space_id (meta_info x) = SpData /\ ack_eliciting (meta_info x) = true.
Proof.
  pose proof busy_facts_eq as Hf. unfold busy_facts in Hf. destruct busy as [[[[c c1] c2] again]|] eqn:Hb; [|discriminate Hf].
  exists c, c1, c2, again. split; [reflexivity|]. cbn [obind] in Hf.
  apply (f_equal (fun o => match o with Ret x => x | Panic => (true, true, true, true) end)) in Hf.
  pose proof (f_equal (fun x => x.1.1.1) Hf) as Hover. pose proof (f_equal (fun x => x.1.1.2) Hf) as Hroom.
  pose proof (f_equal (fun x => x.1.2) Hf) as Hopen. pose proof (f_equal (fun x => x.2) Hf) as Hsend. clear Hf.
  cbn beta iota delta [fst snd] in Hover, Hroom, Hopen, Hsend. apply Z.ltb_lt in Hover. apply Z.ltb_lt in Hroom. split; [exact Hover|].
  unfold busy in Hb. apply obind_ret in Hb as (c' & Hr & Hb). apply obind_ret in Hb as (c1' & H1 & Hb). apply obind_ret in Hb as ([c2' again'] & H2 & Hb).
  injection Hb as -> -> -> ->.
  apply (proj2 (congestion_checked_once (B:=list Z) c 50 (run_reachable _ _ _ sample_client_reachable Hr)) Hroom Hopen 11%nat c1 c2 again SpData H1 Hsend H2).
Defined.

Lemma send_loop_mono fuel fuel' io c o : (fuel <= fuel')%nat -> Driver.send_loop fuel io c = Some o ->
  Driver.send_loop fuel' io c = Some o.
Proof.
  revert fuel' io c. induction fuel as [|fuel IH]; intros [|fuel'] io c Hle; cbn [Driver.send_loop]; try done; [lia|].
  destruct (NetworkPath.send_one _ _ _) as [[[p s] [info|]]|]; try done.
  destruct (if psi_ack_eliciting info then _ else _) as [c2|]; [|done]. apply IH. lia.
Qed.

(** Sending the queue comes to an end.  Given as many turns as there are
    queued packets and one more, the loop over [send_one] ends by itself, with
    a result that does not depend on how many more turns it is given: it
    panics, when the socket fails or a counter overflows, or it leaves the
    queue empty and the state of the connection as it was. *)
Theorem sending_empties_queue (io : nat -> option Instant) (c : Connection) (fuel : nat) :
  (length (sending_queue (path c)) < fuel)%nat ->
  Driver.send_loop fuel io c = Some (Driver.send_queued io c) /\
  forall c', Driver.send_queued io c = Ret c' ->
    sending_queue (path c') = [] /\ c_state c' = c_state c /\ (conn_inv c -> conn_inv c').
Proof.
  intros Hf. split.
  - pose proof (send_loop_spec (S (length (sending_queue (path c)))) io c ltac:(lia)) as Hs. unfold Driver.send_queued.
    destruct (Driver.send_loop (S _) io c) as [o|] eqn:Ho; [|done]. cbn [default from_option]. eapply send_loop_mono; [|exact Ho]. lia.
  - intros c' Hr. apply send_queued_spec in Hr as (Hfw & Hs & Hq). split_and!; try done. apply Hfw.
Qed.

Lemma sending_empties_queue_witness :
  Driver.send_loop 1 (fun _ => None) sample_client = Some (Driver.send_queued (fun _ => None) sample_client).
Proof.
  assert (Hlen : (length (sending_queue (path sample_client)) < 1)%nat) by (vm_compute; lia).
  exact (proj1 (sending_empties_queue (fun _ => None) sample_client 1 Hlen)).
Defined.
