(* ===== verification/Quiet.v ===== *)
(** * Quiet: operations that announce nothing

    Most of what a connection does leaves the receive streams alone, keeps the
    send streams as long and as open as they were, opens no stream, does not set
    up the connection, and sends the application neither [Connected] nor
    [EvReadable]: sending, timers, acknowledgements and losses.  Here that is a
    preorder, [quiet], and a lemma for each of them.  A received frame may do
    more: it is [calm], and may announce streams of the peer, or it [greets], and
    announces the connection. *)
From S2P Require Import Prelude Time Buffers Varint Common ArrayRangeSet Packet Frame Timer Space Path Send Recv Streams Connection Accounting Driver.

(** ** Announcements *)

Definition is_connected (e : Event) : bool := match e with Connected => true | _ => false end.
Definition readable_of (e : Event) : option StreamId := match e with EvStream (EvReadable id) => Some id | _ => None end.

(** How often the application is yet to hear that it is connected, and the
    streams it is yet to hear of. *)
Definition greetings (l : list Event) : nat := length (List.filter is_connected l).
Definition readable (l : list Event) : list StreamId := omap readable_of l.

#[global] Arguments greetings : simpl never.
#[global] Arguments readable : simpl never.

Lemma greetings_app l l' : greetings (l ++ l') = (greetings l + greetings l')%nat.
Proof. unfold greetings. by rewrite List.filter_app, length_app. Qed.

Lemma readable_app l l' : readable (l ++ l') = readable l ++ readable l'.
Proof. apply omap_app. Qed.

Definition is_quiet (e : Event) : bool := negb (is_connected e) && bool_decide (readable_of e = None).

(** ** The streams *)

(** The send streams as the application sees them: they are as long as they
    were and as open as they were, and an open one is not forgotten. *)
Record sends_kept (m m' : gmap StreamId Send) : Prop := {
  sk_same : forall id s', m' !! id = Some s' -> exists s, m !! id = Some s /\
    Send.stream_offset s' = Send.stream_offset s /\ (state s' = Ready <-> state s = Ready);
  sk_open : forall id s, m !! id = Some s -> state s = Ready -> is_Some (m' !! id);
}.

#[export] Instance sends_kept_preorder : PreOrder sends_kept.
Proof.
  split; [split; [intros id s Hs; by exists s|intros id s Hs _; by exists s]|].
  intros m1 m2 m3 [Hs1 Ho1] [Hs2 Ho2]. split.
  - intros id s3 H3. destruct (Hs2 _ _ H3) as (s2 & H2 & He2 & Hr2). destruct (Hs1 _ _ H2) as (s1 & H1 & He1 & Hr1).
    exists s1. split_and!; [done|congruence|tauto].
  - intros id s1 H1 Hr1. destruct (Ho1 _ _ H1 Hr1) as [s2 H2]. apply (Ho2 _ _ H2). destruct (Hs1 _ _ H2) as (s & Hs & _ & Hr).
    rewrite H1 in Hs. injection Hs as <-. by apply Hr.
Qed.

(** A stream that changes within these bounds, and one that is forgotten. *)
Lemma sends_kept_insert id s s' m : m !! id = Some s -> Send.stream_offset s' = Send.stream_offset s ->
  (state s' = Ready <-> state s = Ready) -> sends_kept m (<[id := s']> m).
Proof.
  intros Hs He Hr. split; intros i x.
  - intros [[<- <-]|[Hne Hx]]%lookup_insert_Some; [by exists s|by exists x].
  - intros Hx _. destruct (decide (id = i)) as [<-|Hne]; [rewrite lookup_insert_eq|rewrite lookup_insert_ne by done]; by eexists.
Qed.

Lemma sends_kept_delete id s m : m !! id = Some s -> state s <> Ready -> sends_kept m (delete id m).
Proof.
  intros Hs Hr. split; intros i x.
  - intros [Hne Hx]%lookup_delete_Some. by exists x.
  - intros Hx Hst. exists x. apply lookup_delete_Some. split; [|done]. intros ->. congruence.
Qed.

Lemma ack_buffer_offset r b b' : SendBuffer.ack r b = Ret b' -> offset b' = offset b.
Proof.
  unfold SendBuffer.ack. intros Ha. apply obind_ret in Ha as ([? ?] & _ & Ha). apply obind_ret in Ha as (? & _ & Ha).
  apply obind_ret in Ha as ([? ?] & _ & Ha). apply obind_ret in Ha as (? & _ & Ha). apply obind_ret in Ha as (? & _ & Ha). by injection Ha as <-.
Qed.

Lemma poll_buffer_offset n b b' r enc : SendBuffer.poll_transmit n b = Ret (b', r, enc) -> offset b' = offset b.
Proof.
  unfold SendBuffer.poll_transmit. intros Ha. apply obind_ret in Ha as (? & _ & Ha). destruct (RangeSet.pop_min _) as [rest [popped|]].
  - apply obind_ret in Ha as (? & _ & Ha). apply obind_ret in Ha as (? & _ & Ha). apply obind_ret in Ha as ([? ?] & _ & Ha).
    apply obind_ret in Ha as (? & _ & Ha). apply obind_ret in Ha as (? & _ & Ha). by injection Ha as <- _ _.
  - apply obind_ret in Ha as (? & _ & Ha). apply obind_ret in Ha as (? & _ & Ha). apply obind_ret in Ha as ([? ?] & _ & Ha).
    by injection Ha as <- _ _.
Qed.

Record quiet_streams (s s' : StreamsState) : Prop := {
  qs_side : ss_side s' = ss_side s;
  qs_recv : ss_recv s' = ss_recv s;
  qs_next : ss_next s' = ss_next s;
  qs_greetings : greetings (events s') = greetings (events s);
  qs_readable : readable (events s') = readable (events s);
  qs_sends : sends_kept (ss_send s) (ss_send s');
}.

#[export] Instance quiet_streams_preorder : PreOrder quiet_streams.
Proof. split; [done|]. intros s1 s2 s3 [] []. split; try congruence. by etrans. Qed.

Lemma quiet_event e s s' : is_quiet e = true -> ss_side s' = ss_side s -> ss_recv s' = ss_recv s -> ss_next s' = ss_next s ->
  events s' = events s ++ [e] -> sends_kept (ss_send s) (ss_send s') -> quiet_streams s s'.
Proof.
  intros [Hc Hr%bool_decide_eq_true]%andb_true_iff ??? He Hk. split; [done..| | |done]; rewrite He.
  - rewrite greetings_app. unfold greetings. cbn. destruct (is_connected e); [done|]. cbn. lia.
  - rewrite readable_app. unfold readable. cbn. rewrite Hr. apply app_nil_r.
Qed.

Lemma acked_quiet frame s s' : StreamsState.received_ack_of frame s = Ret s' -> quiet_streams s s'.
Proof.
  unfold StreamsState.received_ack_of. destruct (ss_send s !! sm_id frame) as [ss|] eqn:Hs; [|by intros [= <-]].
  destruct (Send.is_reset ss); [by intros [= <-]|]. intros Ha. apply obind_ret in Ha as ([ss' fin] & Hk & Ha).
  unfold Send.ack in Hk. apply obind_ret in Hk as (b & Hb%ack_buffer_offset & Hk).
  assert (Hss : Send.stream_offset ss' = Send.stream_offset ss /\ (state ss' = Ready <-> state ss = Ready) /\ (fin = true -> state ss <> Ready)).
  { unfold Send.stream_offset. destruct (state ss) eqn:Hst; injection Hk as <- <-; cbn; rewrite ?Hst; split_and!; done. }
  destruct Hss as (Ho & Hst & Hfin). destruct fin; injection Ha as <-.
  - apply (quiet_event (EvStream (EvFinished (sm_id frame)))); try done. apply (sends_kept_delete _ ss); auto.
  - split; try done. by apply (sends_kept_insert _ ss).
Qed.

Lemma lost_quiet frame s s' : StreamsState.retransmit frame s = Ret s' -> quiet_streams s s'.
Proof.
  unfold StreamsState.retransmit. destruct (ss_send s !! sm_id frame) as [ss|] eqn:Hs; [|by intros [= <-]].
  destruct (Send.is_reset ss); [by intros [= <-]|]. intros Ha. apply obind_ret in Ha as (b & Hb & Ha).
  assert (Hk : sends_kept (ss_send s) (<[sm_id frame := Send.with_pending b ss]> (ss_send s))).
  { apply (sends_kept_insert _ ss); [done| |done]. unfold SendBuffer.retransmit in Hb. apply obind_ret in Hb as (? & _ & Hb).
    apply obind_ret in Hb as ([? ?] & _ & Hb). by injection Hb as <-. }
  destruct (negb _); [apply obind_ret in Ha as (q & _ & Ha)|]; injection Ha as <-; by split.
Qed.

Lemma for_frames_quiet f l s s' : (forall frame s s', f frame s = Ret s' -> quiet_streams s s') ->
  Connection.for_frames f l s = Ret s' -> quiet_streams s s'.
Proof.
  intros Hf. revert s. induction l as [|x l IH]; intros s; cbn; [by intros [= ->]|].
  intros Ha. apply obind_ret in Ha as (s1 & H1%Hf & Ha). etrans; [exact H1|by apply IH].
Qed.

Lemma stopped_quiet frame s : quiet_streams s (StreamsState.received_stop_sending frame s).1.
Proof.
  unfold StreamsState.received_stop_sending. destruct (if decide _ then _ else _); [done|].
  destruct (ss_send s !! ss_id frame) as [ss|] eqn:Hs; [|by apply (quiet_event (EvStream (EvStopped (ss_id frame) (ss_error_code frame))))].
  assert (Hk : sends_kept (ss_send s) (<[ss_id frame := (Send.try_stop (ss_error_code frame) ss).1]> (ss_send s))).
  { apply (sends_kept_insert _ ss); [done|..]; unfold Send.try_stop; by destruct (stop_reason ss). }
  destruct (Send.try_stop _ ss) as [ss' []]; [|by split].
  by apply (quiet_event (EvStream (EvStopped (ss_id frame) (ss_error_code frame)))).
Qed.

Lemma write_turn_quiet {W : Type} `{BufMut W} fair (t : StreamsState * W * list StreamMeta) r :
  StreamsState.write_turn fair t = Ret r -> quiet_streams t.1.1 match r with inl t' | inr t' => t'.1.1 end.
Proof.
  destruct t as [[s buf] metas]. unfold StreamsState.write_turn. destruct (_ <? _); [by intros [= <-]|].
  destruct (PendingStreamsQueue.pop _) as [q [p|]]; [|by intros [= <-]]. set (s1 := StreamsState.with_pending q s).
  destruct (ss_send s1 !! ps_id p) as [ss|] eqn:Hs; [|by intros [= <-]]. destruct (Send.is_reset ss); [by intros [= <-]|].
  destruct (negb _); [by intros [= <-]|]. intros Ha. apply obind_ret in Ha as ([[[ss' rng] enc] fin] & Ht & Ha).
  assert (Hk : sends_kept (ss_send s) (<[ps_id p := ss']> (ss_send s))).
  { unfold Send.transmit in Ht. apply obind_ret in Ht as ([[b r'] e] & Hb%poll_buffer_offset & Ht). injection Ht as <- _ _ _.
    by apply (sends_kept_insert _ ss). }
  destruct (_ && _); [apply obind_ret in Ha as (q' & _ & Ha); injection Ha as <-; by split|].
  apply obind_ret in Ha as (b1 & _ & Ha). apply obind_ret in Ha as (b2 & _ & Ha).
  destruct (Send.is_pending ss'); [apply obind_ret in Ha as (q' & _ & Ha)|]; injection Ha as <-; by split.
Qed.

Lemma write_stream_frames_quiet {W : Type} `{BufMut W} fair s (buf : W) s' buf' metas :
  StreamsState.write_stream_frames buf fair s = Ret (s', buf', metas) -> quiet_streams s s'.
Proof.
  unfold StreamsState.write_stream_frames. generalize (StreamsState.write_fuel (s, buf, [])) as fuel. intros fuel.
  intros Hw.
  change s with (s, buf, @nil StreamMeta).1.1. change s' with (s', buf', metas).1.1. revert Hw.
  generalize (s, buf, @nil StreamMeta) as t. induction fuel as [|fuel IH]; intros t; cbn; [done|].
  destruct (StreamsState.write_turn fair t) as [[t'|t']|] eqn:Ht; cbn; [| |done].
  - intros Hw%IH. etrans; [exact (write_turn_quiet _ _ _ Ht)|done].
  - intros [= ->]. exact (write_turn_quiet _ _ _ Ht).
Qed.
(** ** Connections *)

Record quiet (c c' : Connection) : Prop := {
  q_streams : quiet_streams (c_streams c) (c_streams c');
  q_state : State.is_handshake (c_state c') = true -> State.is_handshake (c_state c) = true;
}.

#[export] Instance quiet_preorder : PreOrder quiet.
Proof. split; [by split|]. intros c1 c2 c3 [] []. split; [by etrans|auto]. Qed.

Lemma discard_quiet id c c' : Connection.discard_space id c = Ret c' -> quiet c c'.
Proof. by intros (p & t & -> & _)%discard_spec. Qed.

Lemma loss_timer_quiet c c' : Connection.set_loss_detection_timer c = Ret c' -> quiet c c'.
Proof. by intros [t ->]%loss_timer_only. Qed.

Lemma lose_quiet now id k m c c' : Connection.lose_packet now id k m c = Ret c' -> quiet c c'.
Proof.
  unfold Connection.lose_packet. intros Hl. apply obind_ret in Hl as ([p removed] & _ & Hl).
  apply obind_ret in Hl as (ss & Hss & Hl). apply obind_ret in Hl as ([s' taken] & _ & Hl). injection Hl as <-.
  split; [exact (for_frames_quiet _ _ _ _ lost_quiet Hss)|done].
Qed.

Lemma lose_all_quiet now id l c c' : Connection.lose_packets now id l c = Ret c' -> quiet c c'.
Proof.
  revert c. induction l as [|[k m] l IH]; intros c; cbn; [by intros [= ->]|].
  intros Ha. apply obind_ret in Ha as (c1 & H1 & Ha). etrans; [by eapply lose_quiet|]. by apply IH.
Qed.

Lemma detect_quiet now id c c' : Connection.detect_lost_packets now id c = Ret c' -> quiet c c'.
Proof.
  unfold Connection.detect_lost_packets. destruct (largest_acked_packet _) as [largest|]; [|by intros [= <-]].
  intros Hd. apply obind_ret in Hd as (d & _ & Hd). apply obind_ret in Hd as ([lost next] & _ & Hd).
  destruct lost as [|x l]; [by injection Hd as <-|]. apply obind_ret in Hd as (c1 & H1%lose_all_quiet & Hd%loss_timer_quiet).
  etrans; [|exact Hd]. by etrans; [|exact H1].
Qed.

Lemma loss_timeout_quiet now c c' : Connection.on_loss_detection_timeout now c = Ret c' -> quiet c c'.
Proof.
  unfold Connection.on_loss_detection_timeout. intros Ha. apply obind_ret in Ha as (c1 & H1 & Ha%loss_timer_quiet).
  etrans; [|exact Ha]. clear Ha. destruct (Connection.loss_time_and_space c) as [[t id]|]; [by eapply detect_quiet|].
  assert (Hstep : forall id c c2, (if 0 <? in_flight (space_of c id) then Connection.detect_lost_packets now id c else Ret c) = Ret c2 -> quiet c c2).
  { intros id c0 c2. destruct (0 <? _); [apply detect_quiet|by intros [= <-]]. }
  cbn -[Connection.detect_lost_packets] in H1.
  apply obind_ret in H1 as (c3 & H3 & Hs3). apply obind_ret in H3 as (c2 & H2 & Hs2).
  etrans; [exact (Hstep _ _ _ H2)|]. etrans; [exact (Hstep _ _ _ Hs2)|]. exact (Hstep _ _ _ Hs3).
Qed.

Lemma ack_numbers_quiet id l c largest c' largest' : Connection.ack_numbers id l (c, largest) = Ret (c', largest') -> quiet c c'.
Proof.
  revert c largest. induction l as [|k l IH]; intros c largest; cbn -[Connection.ack_number]; [by intros [= <- <-]|].
  intros Ha. apply obind_ret in Ha as ([c1 largest1] & H1 & Ha). etrans; [|by eapply IH]. clear Ha IH.
  unfold Connection.ack_number in H1. apply obind_ret in H1 as ([s [m|]] & _ & H1); [|by injection H1 as <- _].
  apply obind_ret in H1 as (s1 & _ & H1). apply obind_ret in H1 as (ss & Hss & H1).
  apply obind_ret in H1 as ([p removed] & _ & H1). apply obind_ret in H1 as (cong & _ & H1). injection H1 as <- _.
  split; [exact (for_frames_quiet _ _ _ _ acked_quiet Hss)|done].
Qed.

Lemma on_ack_quiet now id ack c c' r : Connection.on_ack_received now id ack c = Ret (c', r) -> quiet c c'.
Proof.
  unfold Connection.on_ack_received. destruct (_ <=? _); [by intros [= <- _]|]. destruct (match _ with Some _ => _ | None => _ end); [by intros [= <- _]|].
  intros Ha. apply obind_ret in Ha as (l & _ & Ha). apply obind_ret in Ha as ([c1 newly] & H1%ack_numbers_quiet & Ha).
  destruct newly as [m|]; [|by injection Ha as <- _]. apply obind_ret in Ha as (rt & _ & Ha).
  apply obind_ret in Ha as (c3 & H3%detect_quiet & Ha). apply obind_ret in Ha as (c4 & H4%loss_timer_quiet & Ha). injection Ha as <- _.
  etrans; [exact H1|]. etrans; [|exact H4]. by etrans; [|exact H3].
Qed.

Lemma authenticated_quiet now id number c c' : Connection.on_packet_authenticated now id number c = Ret c' -> quiet c c'.
Proof.
  unfold Connection.on_packet_authenticated. destruct number as [k|]; [|by intros [= <-]]. intros Ha.
  apply obind_ret in Ha as (c1 & H1 & Ha). transitivity c1; [destruct (_ && _); [by eapply discard_quiet|by injection H1 as <-]|].
  apply obind_ret in Ha as ([a arm] & _ & Ha). case_decide; [destruct arm; [apply obind_ret in Ha as (t & _ & Ha)|]|]; by injection Ha as <-.
Qed.

Lemma error_quiet e st c : State.is_handshake st = false -> quiet c (with_state st (Connection.error e c)).
Proof. intros Hst. split; [by apply (quiet_event (ConnectionLost e))|]. cbn. congruence. Qed.

Lemma kill_quiet e c : quiet c (Connection.kill e c).
Proof. unfold Connection.kill. etrans; [|by apply error_quiet]. by split. Qed.

Lemma conclude_quiet now closed drained res c c' : Connection.conclude now closed drained res c = Ret c' -> quiet c c'.
Proof.
  unfold Connection.conclude. set (c1 := match res with Ok _ => c | Err _ => _ end). assert (H1 : quiet c c1).
  { destruct res as [|[]]; [done|by apply error_quiet..]. }
  clearbody c1. intros Ha. apply obind_ret in Ha as (c2 & H2 & Ha). injection Ha as <-. etrans; [exact H1|].
  transitivity c2; [|by destruct (negb drained && _)].
  destruct (_ && _); [|by injection H2 as <-]. destruct (negb _); [|by injection H2 as <-].
  unfold Connection.set_close_timer in H2. apply obind_ret in H2 as (t & _ & H2). by injection H2 as <-.
Qed.

Lemma populate_quiet {W : Type} `{BufMut W} now id (out out' : W) c c' sent :
  Connection.populate_packet now id out c = Ret (c', sent, out') -> quiet c c'.
Proof.
  unfold Connection.populate_packet. intros Ha. apply obind_ret in Ha as ([lg o1] & _ & Ha).
  apply obind_ret in Ha as ([[c1 thin] o2] & H1 & Ha). apply obind_ret in Ha as ([c2 o3] & H2 & Ha).
  assert (Hc1 : quiet c c1) by (destruct (hello _); [outcome_inv|]; by simplify_eq).
  assert (Hc2 : quiet c1 c2) by (destruct (_ && _); [outcome_inv|]; by simplify_eq).
  etrans; [exact Hc1|]. etrans; [exact Hc2|]. case_decide; [|by simplify_eq].
  apply obind_ret in Ha as ([[o4 pend] thin'] & _ & Ha). apply obind_ret in Ha as ([[ss o5] metas] & Hw%write_stream_frames_quiet & Ha).
  injection Ha as <- _ _. by split.
Qed.

Lemma transmit_quiet now close id el c c' : Connection.transmit_space now close id el c = Ret c' -> quiet c c'.
Proof.
  unfold Connection.transmit_space. intros Ha. apply obind_ret in Ha as ([s k] & _ & Ha).
  apply obind_ret in Ha as (pn & _ & Ha). apply obind_ret in Ha as (h & _ & Ha). apply obind_ret in Ha as (out & _ & Ha).
  apply obind_ret in Ha as ([[c1 sent] out1] & H1 & Ha). apply obind_ret in Ha as (len & _ & Ha). injection Ha as <-.
  assert (Hc1 : quiet c c1).
  { destruct close; [apply obind_ret in H1 as (o & _ & H1); by injection H1 as <- _ _|etrans; [|exact (populate_quiet _ _ _ _ _ _ _ H1)]; done]. }
  etrans; [exact Hc1|]. by destruct (sent_largest_acked sent).
Qed.

Lemma turn_quiet now close blocked id c b c' b' : Connection.transmit_turn now close blocked id (c, b) = Ret (c', b') -> quiet c c'.
Proof.
  unfold Connection.transmit_turn. destruct (_ && _); [by intros [= <- _]|]. intros Ha. apply obind_ret in Ha as (c1 & H1 & Ha).
  transitivity c1; [destruct (_ && _); [by eapply discard_quiet|by injection H1 as <-]|].
  destruct (_ && blocked); [by injection Ha as <- _|]. apply obind_ret in Ha as (c2 & H2%transmit_quiet & Ha). by injection Ha as <- _.
Qed.

Lemma poll_quiet now c c' again : Connection.poll_transmit now c = Ret (c', again) -> quiet c c'.
Proof.
  unfold Connection.poll_transmit. destruct (match c_state c with Drained => None | _ => _ end); [|by intros [= <- _]].
  intros Ha. apply obind_ret in Ha as ([c3 any] & Ht & Ha). unfold Connection.transmit_turns in Ht.
  apply obind_ret in Ht as ([c1 b1] & H1%turn_quiet & Ht). apply obind_ret in Ht as ([c2 b2] & H2%turn_quiet & H3%turn_quiet).
  etrans; [exact H1|]. etrans; [exact H2|]. etrans; [exact H3|]. by destruct (negb any); injection Ha as <- _.
Qed.

Lemma burst_quiet k now c c' : Driver.burst k now c = Ret c' -> quiet c c'.
Proof.
  revert c. induction k as [|k IH]; intros c; cbn [Driver.burst]; [by intros [= ->]|].
  intros Ha. apply obind_ret in Ha as ([c1 again] & H1%poll_quiet & Ha). etrans; [exact H1|].
  destruct again; [by apply IH|by injection Ha as <-].
Qed.

Lemma send_queued_quiet io c c' : Driver.send_queued io c = Ret c' -> quiet c c'.
Proof.
  unfold Driver.send_queued. generalize (S (length (sending_queue (path c)))) as fuel. intros fuel. revert io c.
  induction fuel as [|fuel IH]; intros io c; cbn [Driver.send_loop]; [done|].
  destruct (NetworkPath.send_one _ _ _) as [[[p s] info]|]; [|done]. destruct info as [info|]; [|by intros [= <-]].
  destruct (if psi_ack_eliciting info then _ else _) as [c2|] eqn:H2; [|done]. intros Hl%IH. etrans; [|exact Hl].
  destruct (psi_ack_eliciting info); [apply loss_timer_quiet in H2; by etrans; [|exact H2]|by injection H2 as <-].
Qed.

(** Without an event or a datagram, a round leaves the streams alone. *)
Lemma timeout_quiet timer now c c' : Connection.handle_timeout timer now c = Ret c' -> quiet c c'.
Proof. destruct timer; cbn [Connection.handle_timeout]; try (by intros [= <-]). apply loss_timeout_quiet. Qed.

(** ** Received packets *)

Section Received.
Context {B : Type} `{Buf B} (P : Connection -> Prop).
Context (quiet_P : forall c c', quiet c c' -> P c -> P c').
Context (early_P : forall now id frame c c' r, Connection.early_frame now id frame c = Ret (c', r) -> P c -> P c').
Context (data_P : forall now id len frame c c' r, Connection.data_frame now id len frame c = Ret (c', r) -> P c -> P c').

Lemma process_frames_preserves h (payload : B) c c' r : (forall frame c c' next, h frame c = Ret (c', next) -> P c -> P c') ->
  Connection.process_frames h payload c = Ret (c', r) -> P c -> P c'.
Proof.
  intros Hh. unfold Connection.process_frames. destruct (FrameParser_new payload) as [p|e]; [|by intros [= <- _]].
  generalize (S (length (view payload))) as fuel. intros fuel. revert p c. induction fuel as [|fuel IH]; intros p c; cbn [Connection.frame_loop]; [done|].
  intros Ha Hc. apply obind_ret in Ha as ([p' [[frame|e]|]] & _ & Ha); [|by injection Ha as <- _..].
  apply obind_ret in Ha as ([c1 next] & Hst%Hh & Ha); [|done]. destruct next; [by apply (IH p' c1)|by injection Ha as <- _].
Qed.

Lemma process_packet_preserves now number (packet : Packet B) c c' r : Connection.process_packet now number packet c = Ret (c', r) -> P c -> P c'.
Proof using early_P data_P.
  unfold Connection.process_packet, Connection.process_early_payload, Connection.process_payload.
  destruct (Header.space (header packet)); [| |destruct number; [|by intros [= <- _]]]; intros Ha;
    apply obind_ret in Ha as ([c1 r1] & Ha & Heq); injection Heq as <- _; revert Ha;
    apply process_frames_preserves; intros frame c0 c0' next; eauto.
Qed.

Lemma handle_data_preserves now (d : B) c c' : Connection.handle_data now d c = Ret c' -> P c -> P c'.
Proof using quiet_P early_P data_P.
  unfold Connection.handle_data. intros Ha Hc. apply obind_ret in Ha as (res & _ & Ha). destruct res as [[h p]|]; [|by injection Ha as <-].
  apply obind_ret in Ha as (number & _ & Ha). apply obind_ret in Ha as ([dd dup] & _ & Ha).
  set (c1 := with_space _ _ c) in Ha. assert (Hc1 : P c1) by (by apply (quiet_P c)). clearbody c1.
  destruct dup; [by injection Ha as <-|]. destruct (_ && _); [by injection Ha as <-|].
  unfold Connection.handle_packet in Ha. apply obind_ret in Ha as (c2 & Hst2 & Ha). apply obind_ret in Ha as ([c3 res] & Hst3 & Ha%conclude_quiet).
  apply (quiet_P _ _ Ha), (process_packet_preserves _ _ _ _ _ _ Hst3).
  destruct (negb _); [|by injection Hst2 as <-]. apply authenticated_quiet in Hst2. by apply (quiet_P _ _ Hst2).
Qed.

(** A round without an event. *)
Lemma no_event_preserves (r : Round B) c c' : Driver.take_event c = None -> Driver.select r c = Ret c' -> P c -> P c'.
Proof using quiet_P early_P data_P.
  intros He Hs Hc. unfold Driver.select in Hs. rewrite He in Hs. apply obind_ret in Hs as ([t fired] & _ & Hs).
  assert (Hc1 : P (with_timers t c)) by (by apply (quiet_P c)).
  destruct fired as [timer|]; [apply timeout_quiet in Hs; by apply (quiet_P _ _ Hs)|].
  destruct (r_data r) as [[now d]|]; [by apply (handle_data_preserves _ _ _ _ Hs)|by injection Hs as <-].
Qed.

(** A server that accepts a connection. *)
Lemma first_packet_preserves now (packet : InitialPacket B) c c' r : Connection.handle_first_packet now packet c = Ret (c', r) -> P c -> P c'.
Proof using quiet_P early_P data_P.
  unfold Connection.handle_first_packet. intros Ha Hc. apply obind_ret in Ha as (k & _ & Ha).
  apply obind_ret in Ha as (c1 & Hst%authenticated_quiet & Ha). by apply (process_packet_preserves _ _ _ _ _ _ Ha), (quiet_P _ _ Hst).
Qed.
End Received.

(** ** A connection is announced once *)

(** A server that is not set up has nothing to announce; it announces once that
    it is; and the application has opened no stream until it heard that. *)
Record announced_once (c : Connection) : Prop := {
  ao_side : ss_side (c_streams c) = Server;
  ao_once : (greetings (events (c_streams c)) <= 1)%nat;
  ao_early : State.is_handshake (c_state c) = true -> greetings (events (c_streams c)) = 0%nat;
  ao_next : State.is_handshake (c_state c) = true \/ greetings (events (c_streams c)) = 1%nat ->
    StreamsState.next_of Uni (ss_next (c_streams c)) = 0;
}.

(** Received stream frames may announce streams, but no connection; and they
    are refused for a stream that is to be opened here and was not. *)
Record no_greeting (s s' : StreamsState) : Prop := {
  ng_side : ss_side s' = ss_side s;
  ng_next : ss_next s' = ss_next s;
  ng_greetings : greetings (events s') = greetings (events s);
  ng_sends : sends_kept (ss_send s) (ss_send s');
  ng_unopened : forall id, StreamId.initiator id = ss_side s ->
    StreamsState.next_of (StreamId.dir id) (ss_next s) <= StreamId.index id -> ss_recv s' !! id = ss_recv s !! id;
}.

Lemma no_greeting_refl s : no_greeting s s.
Proof. by split. Qed.
#[export] Hint Resolve no_greeting_refl : core.

(** What a frame does to a connection: it is calm, or sets the connection up,
    which is the one announcement of it. *)
Record calm (c c' : Connection) : Prop := {
  cm_streams : no_greeting (c_streams c) (c_streams c');
  cm_state : State.is_handshake (c_state c') = true -> State.is_handshake (c_state c) = true;
}.

Record greets (c c' : Connection) : Prop := {
  gr_before : State.is_handshake (c_state c) = true;
  gr_after : State.is_handshake (c_state c') = false;
  gr_side : ss_side (c_streams c') = ss_side (c_streams c);
  gr_next : ss_next (c_streams c') = ss_next (c_streams c);
  gr_greetings : greetings (events (c_streams c')) = S (greetings (events (c_streams c)));
  gr_send : ss_send (c_streams c') = ss_send (c_streams c);
  gr_recv : ss_recv (c_streams c') = ss_recv (c_streams c);
}.

Lemma quiet_calm c c' : quiet c c' -> calm c c'.
Proof. intros [[] Hst]. split; [split; congruence|done]. Qed.

Lemma send_event_no_greeting e s s' : no_greeting s s' -> no_greeting s (StreamsState.send_event e s').
Proof. intros []. split; cbn; try done. rewrite greetings_app. unfold greetings in *. cbn. lia. Qed.

(** A frame that passed the check is not for a stream to be opened here. *)
Lemma recv_no_greeting id m s : StreamsState.validate_receive_id id s = Ok tt ->
  (forall i, i <> id -> m !! i = ss_recv s !! i) -> no_greeting s (StreamsState.with_recv m s).
Proof.
  intros Hv Hm. split; try done. intros i Hi Hle. apply Hm. intros ->. unfold StreamsState.validate_receive_id in Hv.
  rewrite decide_True in Hv by done. destruct (StreamId.dir id); [|done].
  destruct (Z.leb_spec (StreamsState.next_of Bi (ss_next s)) (StreamId.index id)); [done|lia].
Qed.

Ltac other_stream := let i := fresh "i" in intros i ?; cbn; by rewrite ?lookup_delete_ne, ?lookup_insert_ne by done.

Lemma received_no_greeting frame len s s' r : StreamsState.received frame len s = Ret (s', r) -> no_greeting s s'.
Proof.
  unfold StreamsState.received. destruct (StreamsState.validate_receive_id _ s) as [[]|] eqn:Hv; [|by intros [= <- _]].
  pose proof (fun m => recv_no_greeting _ m _ Hv) as Hk. clear Hv.
  destruct (match ss_recv s !! st_id frame with Some rs => Some rs | None => _ end) as [rs|]; [|by intros [= <- _]].
  destruct (negb (Recv.is_receiving rs)); [intros [= <- _]; apply Hk; other_stream|].
  intros Ha. apply obind_ret in Ha as ([rs' [[k closed]|e]] & _ & Ha); [|injection Ha as <- _; apply Hk; other_stream].
  destruct (negb (stopped rs')); [destruct (_ || _); [injection Ha as <- _; apply send_event_no_greeting, Hk; other_stream|]|destruct closed];
    injection Ha as <- _; apply Hk; other_stream.
Qed.

Lemma received_reset_no_greeting frame s s' r : StreamsState.received_reset frame s = Ret (s', r) -> no_greeting s s'.
Proof.
  unfold StreamsState.received_reset. destruct (StreamsState.validate_receive_id _ s) as [[]|] eqn:Hv; [|by intros [= <- _]].
  pose proof (fun m => recv_no_greeting _ m _ Hv) as Hk. clear Hv.
  destruct (Recv.reset _ _ _) as [rs [[]|e]]; [|intros [= <- _]; apply Hk; other_stream..].
  destruct (stopped rs); intros [= <- _]; [|apply send_event_no_greeting]; apply Hk; other_stream.
Qed.

Lemma data_frame_calm now id len frame c c' r : Connection.data_frame now id len frame c = Ret (c', r) -> calm c c'.
Proof.
  destruct frame; cbn [Connection.data_frame]; try (by intros [= <- _]; apply quiet_calm).
  - intros Ha. apply obind_ret in Ha as ([c1 res] & Ha%on_ack_quiet & Heq). injection Heq as <- _. by apply quiet_calm.
  - intros Ha. apply obind_ret in Ha as ([ss res] & Ha%received_reset_no_greeting & Heq). injection Heq as <- _. by split.
  - intros [= <- _]. apply quiet_calm. split; [apply stopped_quiet|done].
  - intros Ha. apply obind_ret in Ha as ([ss res] & Ha%received_no_greeting & Heq). injection Heq as <- _. by split.
  - intros [= <- _]. apply quiet_calm, kill_quiet.
Qed.

Lemma early_frame_greets now id frame c c' r : Connection.early_frame now id frame c = Ret (c', r) -> calm c c' \/ greets c c'.
Proof.
  destruct frame; cbn [Connection.early_frame]; try (by intros [= <- _]; left; apply quiet_calm).
  - intros Ha. apply obind_ret in Ha as ([c1 res] & Ha%on_ack_quiet & Heq). injection Heq as <- _. left. by apply quiet_calm.
  - set (c1 := if _ <? _ then _ else _). assert (Hk : c_streams c1 = c_streams c /\ c_state c1 = c_state c) by (unfold c1; by destruct (_ <? _)).
    clearbody c1. destruct Hk as [Hk Hst]. destruct (_ && _) eqn:Hh; intros [= <- _].
    + apply andb_true_iff in Hh as [Hh _]. right. rewrite Hst in Hh. split; cbn; try done; rewrite Hk; try done.
      rewrite greetings_app. unfold greetings. cbn. lia.
    + left. split; [by rewrite Hk|by rewrite Hst].
  - intros [= <- _]. left. apply quiet_calm, kill_quiet.
Qed.

(** *** Rounds and the first packet, from the frames *)
Section Greetings.
Context {B : Type} `{Buf B} (P : Connection -> Prop).
Context (calm_P : forall c c', calm c c' -> P c -> P c').
Context (greets_P : forall c c', greets c c' -> P c -> P c').

Lemma quiet_keeps c c' : quiet c c' -> P c -> P c'.
Proof using calm_P. intros Hq%quiet_calm. by apply calm_P. Qed.

Lemma early_keeps now id frame c c' r : Connection.early_frame now id frame c = Ret (c', r) -> P c -> P c'.
Proof using calm_P greets_P. intros [Hk|Hk]%early_frame_greets; [by apply calm_P|by apply greets_P]. Qed.

Lemma data_keeps now id len frame c c' r : Connection.data_frame now id len frame c = Ret (c', r) -> P c -> P c'.
Proof using calm_P. intros Hk%data_frame_calm. by apply calm_P. Qed.

Lemma no_event_keeps (r : Round B) c c' : Driver.take_event c = None -> Driver.select r c = Ret c' -> P c -> P c'.
Proof using calm_P greets_P. exact (no_event_preserves P quiet_keeps early_keeps data_keeps r c c'). Qed.

Lemma first_packet_keeps now (packet : InitialPacket B) c c' r : Connection.handle_first_packet now packet c = Ret (c', r) -> P c -> P c'.
Proof using calm_P greets_P. exact (first_packet_preserves P quiet_keeps early_keeps data_keeps now packet c c' r). Qed.
End Greetings.

Lemma calm_once c c' : calm c c' -> announced_once c -> announced_once c'.
Proof. intros [[Hs Hn Hg _ _] Hst] [H1 H2 H3 H4]. split; rewrite ?Hs, ?Hn, ?Hg; [done|done|auto|]. intros [?|?]; auto. Qed.

Lemma greets_once c c' : greets c c' -> announced_once c -> announced_once c'.
Proof.
  intros [] [H1 H2 H3 H4]. specialize (H3 gr_before0). split; [congruence|lia|congruence|]. intros _. rewrite gr_next0. by apply H4; left.
Qed.
