(* ===== verification/Typed.v ===== *)
(** * Typed: the state of a connection stays within its types

    What the invariant of the accounts ([conn_inv]) leaves open: the numbers a
    connection keeps are numbers of the wire, its pending acknowledgements are
    sorted ranges, the buffers of its send streams are consistent, and the
    records of what packets carried name ranges and codes that exist.  What
    the application has written, finished and reset is kept beside the
    connection ([Written]): the buffers hold the last of the writes, a pending
    FIN stands for a finish, a queued reset for a reset.  The invariant
    holds for every connection whose application passes values of the types
    that the signatures ask for, and does not write more bytes to streams than
    a QUIC stream can hold. *)
From S2P Require Import Prelude Time Buffers Varint Common ArrayRangeSet RangeSet Packet Frame Timer Space Path Send Recv Streams Connection Accounting Driver.

(** ** The types *)

(** What the application has done to its streams: a bound on the number of
    bytes it has written, the writes that each stream took, the length at which
    it was last finished, and the streams that were reset.  A stream that is
    opened anew under its number, as the code does when the old one is
    forgotten, begins with nothing. *)
Record Written := mkWritten {
  total : Z;
  writes : StreamId -> list (list Z);
  finished_at : StreamId -> option Z;
  was_reset : list StreamId;
}.

Definition wrote (n : Written) (id : StreamId) : list Z := concat (writes n id).

Definition writes_of (n : Written) (id : StreamId) (b : SendBuffer) : list (list Z) := if offset b =? 0 then [] else writes n id.
Definition history (n : Written) (id : StreamId) (b : SendBuffer) : list Z := concat (writes_of n id b).

(** The buffer holds the last of the writes to the stream. *)
Record holds (n : Written) (id : StreamId) (b : SendBuffer) : Prop := {
  ho_total : offset b <= total n;
  ho_offset : offset b = zlen (history n id b);
  ho_segments : exists freed, writes_of n id b = freed ++ unacked_segments b /\ base b = zlen (concat freed);
}.

(** The range of a STREAM frame that was sent. *)
Definition meta_typed (m : StreamMeta) : Prop := 0 <= rstart (sm_offsets m) /\ rend (sm_offsets m) <= U64_MAX.

Definition reset_typed (n : Written) (x : StreamId * Z) : Prop := 0 <= x.1 /\ is_varint x.2 /\ x.1 ∈ was_reset n.
Definition stop_typed (x : StopSending) : Prop := 0 <= ss_id x /\ is_varint (ss_error_code x).

Record retransmits_typed (n : Written) (r : Retransmits) : Prop := {
  rt_resets : Forall (reset_typed n) (reset_stream r);
  rt_stops : Forall stop_typed (stop_sending r);
}.

Definition thin_typed (n : Written) (t : ThinRetransmits) : Prop :=
  match t with Some r => retransmits_typed n r | None => True end.

Record packet_typed (n : Written) (m : SentPacket) : Prop := {
  pt_frames : Forall meta_typed (stream_frames m);
  pt_retransmits : thin_typed n (Space.retransmits m);
}.

Record space_typed (n : Written) (s : PacketSpace) : Prop := {
  st_rx : 0 <= rx_packet s;
  st_ranges : ArrayRangeSet.wf (ranges (pending_acks s));
  st_largest : forall n, largest_acked_packet s = Some n -> 0 <= n;
  st_pending : retransmits_typed n (Space.pending s);
  st_sent : map_Forall (fun _ => packet_typed n) (sent_packets s);
}.

Definition stream_typed (n : Written) (id : StreamId) (ss : Send) : Prop :=
  0 <= id /\ send_inv (pending ss) /\ holds n id (pending ss) /\
  (fin_pending ss = true -> state ss <> Ready /\ finished_at n id = Some (offset (pending ss))).

Definition streams_typed (n : Written) (s : StreamsState) : Prop := map_Forall (stream_typed n) (ss_send s).

Record conn_typed (n : Written) (c : Connection) : Prop := {
  ct_spaces : forall id, space_typed n (space_of c id);
  ct_queue : Forall (packet_typed n) (queued_packets (path c));
  ct_streams : streams_typed n (c_streams c);
}.

(** What the application passes: identifiers are unsigned, error codes are
    varints, and nothing empty is written. *)
Definition op_typed (op : app_op) : Prop :=
  match op with
  | AppWrite id data => 0 <= id /\ data <> []
  | AppReset id code | AppStop id code => 0 <= id /\ is_varint code
  | _ => True
  end.

(** What an operation adds: a write that the stream accepts is one more of its
    writes; a finish notes the length; a reset is noted whatever becomes of it. *)
Definition write_to (id : StreamId) (data : list Z) (closed : bool) (s : StreamsState) (n : Written) : Written :=
  let ss := default Send_default (ss_send s !! id) in
  mkWritten (total n + zlen data)
    (if negb closed && Send.is_writable ss && bool_decide (stop_reason ss = None)
     then fun i => if decide (i = id) then writes_of n id (pending ss) ++ [data] else writes n i
     else writes n)
    (finished_at n) (was_reset n).

Definition finish_of (id : StreamId) (s : StreamsState) (n : Written) : Written :=
  match ss_send s !! id with
  | Some ss =>
      mkWritten (total n) (writes n) (fun i => if decide (i = id) then Some (offset (pending ss)) else finished_at n i) (was_reset n)
  | None => n
  end.

Definition reset_of (id : StreamId) (n : Written) : Written :=
  mkWritten (total n) (writes n) (finished_at n) (id :: was_reset n).

Definition written_by (op : app_op) (c : Connection) (n : Written) : Written :=
  match op with
  | AppWrite id data => write_to id data (State.is_closed (c_state c)) (c_streams c) n
  | AppFinish id => finish_of id (c_streams c) n
  | AppReset id _ => reset_of id n
  | _ => n
  end.

Fixpoint written_by_ops (ops : list app_op) (c : Connection) (n : Written) : Written :=
  match ops with
  | [] => n
  | op :: ops =>
      match run_app op c with
      | Ret c' => written_by_ops ops c' (written_by op c n)
      | Panic => n
      end
  end.

Definition op_bytes (op : app_op) : Z := match op with AppWrite _ data => zlen data | _ => 0 end.
Definition ops_bytes (ops : list app_op) : Z := foldr (fun op n => op_bytes op + n) 0 ops.

Lemma op_bytes_nonneg op : 0 <= op_bytes op.
Proof. destruct op; cbn; try done. apply zlen_nonneg. Qed.

Lemma ops_bytes_nonneg ops : 0 <= ops_bytes ops.
Proof. unfold ops_bytes. induction ops as [|op ops IH]; cbn; [done|]. pose proof (op_bytes_nonneg op). lia. Qed.

(** ** Records of what is to be sent again *)

Section Records.
Context (n : Written).

Lemma retransmits_default_typed : retransmits_typed n Retransmits_default.
Proof. by split; cbn. Qed.

Lemma retransmits_or_typed l r : retransmits_typed n l -> retransmits_typed n r -> retransmits_typed n (Retransmits_or l r).
Proof. intros [] []. split; cbn; by apply Forall_app. Qed.

Lemma thin_create_typed t : thin_typed n t -> retransmits_typed n (Thin_get_or_create t).
Proof. destruct t; cbn; [done|]. intros _. apply retransmits_default_typed. Qed.

Lemma with_hello_typed b r : retransmits_typed n r -> retransmits_typed n (with_hello b r).
Proof. by intros []. Qed.

Lemma thin_push_typed resets stops t : Forall (reset_typed n) resets -> Forall stop_typed stops -> thin_typed n t ->
  thin_typed n (StreamsState.thin_push resets stops t).
Proof.
  intros Hr Hs Ht. assert (Hnew : thin_typed n (Some (mkRetransmits (hello (Thin_get_or_create t))
    (reset_stream (Thin_get_or_create t) ++ resets) (stop_sending (Thin_get_or_create t) ++ stops)
    (ack_frequency (Thin_get_or_create t)) (handshake_done (Thin_get_or_create t))))).
  { destruct (thin_create_typed t Ht). split; cbn; by apply Forall_app. }
  unfold StreamsState.thin_push. by destruct t, resets, stops.
Qed.
End Records.

Create HintDb typed discriminated.
#[export] Hint Resolve retransmits_default_typed retransmits_or_typed thin_create_typed with_hello_typed : typed.

(** More streams were reset. *)
Definition grows (n n' : Written) : Prop := was_reset n ⊆ was_reset n'.

#[export] Instance grows_preorder : PreOrder grows.
Proof. unfold grows. split; [intros n x; auto|]. intros n1 n2 n3 H1 H2 x. auto. Qed.

Lemma retransmits_typed_grows n n' r : grows n n' -> retransmits_typed n r -> retransmits_typed n' r.
Proof. intros Hr [Hs Ht]. split; [|done]. eapply Forall_impl; [exact Hs|]. intros x (? & ? & ?). split_and!; [done..|by apply Hr]. Qed.

Lemma packet_typed_grows n n' m : grows n n' -> packet_typed n m -> packet_typed n' m.
Proof.
  intros Hg [Hf Hr]. split; [done|]. destruct (Space.retransmits m); [|done]. by eapply retransmits_typed_grows.
Qed.

Lemma space_typed_grows n n' s : grows n n' -> space_typed n s -> space_typed n' s.
Proof.
  intros Hg []. split; try done; [by eapply retransmits_typed_grows|].
  eapply map_Forall_impl; [done|]. intros k m. by apply packet_typed_grows.
Qed.

#[export] Hint Resolve retransmits_typed_grows packet_typed_grows space_typed_grows : typed.

(** ** Streams *)

Lemma streams_typed_insert n s s' id ss : streams_typed n s -> stream_typed n id ss ->
  ss_send s' = <[id := ss]> (ss_send s) -> streams_typed n s'.
Proof. unfold streams_typed. intros Hs Hss ->. by apply map_Forall_insert_2. Qed.

Lemma streams_typed_delete n s s' id : streams_typed n s -> ss_send s' = delete id (ss_send s) -> streams_typed n s'.
Proof. unfold streams_typed. intros Hs ->. by apply map_Forall_delete. Qed.

Lemma streams_typed_same n s s' : streams_typed n s -> ss_send s' = ss_send s -> streams_typed n s'.
Proof. unfold streams_typed. by intros Hs ->. Qed.

(** The buffer after an operation that writes nothing new. *)
Lemma holds_same n id b b' : holds n id b -> offset b' = offset b -> base b' = base b ->
  unacked_segments b' = unacked_segments b -> holds n id b'.
Proof. intros [] Ho Hb Hd. split; unfold history, writes_of in *; by rewrite ?Ho, ?Hb, ?Hd. Qed.

(** What is buffered are the last bytes. *)
Lemma holds_bytes n id b : holds n id b -> concat (unacked_segments b) = drop (Z.to_nat (base b)) (history n id b).
Proof.
  intros [_ _ (freed & Hw & ->)]. unfold history, zlen. by rewrite Hw, concat_app, Nat2Z.id, drop_app_length.
Qed.

Lemma holds_acked n id rng b b' dropped : holds n id b -> acked rng b b' dropped -> holds n id b'.
Proof.
  intros [Ht Ho (freed & Hw & Hb)] [Hseg Hbase (Hoff & _) _ _].
  split; unfold history, writes_of in *; rewrite Hoff; [done|done|]. exists (freed ++ dropped).
  rewrite Hw, Hseg, Hbase, Hb, concat_app, zlen_app, app_assoc. done.
Qed.

Lemma streams_typed_new n side : streams_typed n (StreamsState.new side).
Proof. apply map_Forall_empty. Qed.

Section StreamOps.
Context (n : Written) (Hn : 0 <= total n).

Lemma default_typed id : 0 <= id -> stream_typed n id Send_default.
Proof using Hn. intros Hid. split_and!; [done|apply send_inv_default|split; [done..|by exists []]|done]. Qed.

(** A stream that kept its data. *)
Lemma stream_typed_step id ss ss' : stream_typed n id ss -> send_inv (pending ss') -> holds n id (pending ss') ->
  offset (pending ss') = offset (pending ss) -> (state ss' = Ready -> state ss = Ready) ->
  (fin_pending ss' = true -> fin_pending ss = true) -> stream_typed n id ss'.
Proof.
  intros (Hid & _ & _ & Hf) Hi Hh Ho Hst Hfin. split_and!; [done..|]. intros [Hr Hk]%Hfin%Hf. rewrite Ho. split; [|done].
  by intros ?%Hst.
Qed.

Lemma stream_typed_pending id ss ss' : stream_typed n id ss -> pending ss' = pending ss ->
  (state ss' = Ready -> state ss = Ready) -> (fin_pending ss' = true -> fin_pending ss = true) -> stream_typed n id ss'.
Proof. intros Hs Hp. pose proof Hs as (_ & ? & ? & _). by apply stream_typed_step; rewrite ?Hp. Qed.

Lemma open_typed dir s s' id : StreamsState.open dir s = Ret (s', id) -> streams_typed n s -> streams_typed n s'.
Proof using Hn.
  unfold StreamsState.open. intros Ho Hs. outcome_inv. simplify_eq.
  eapply streams_typed_insert; [exact Hs| |done]. apply default_typed. unfold StreamId.new.
  rewrite !Z.lor_nonneg. assert (0 <= as_u64 (Z.shiftl (StreamsState.next_of dir (ss_next s)) 2)) by (by apply Z.mod_pos_bound).
  split; [split; [done|by destruct dir]|by destruct (ss_side s)].
Qed.

Lemma stop_sending_typed frame s s' r : StreamsState.received_stop_sending frame s = (s', r) ->
  streams_typed n s -> streams_typed n s'.
Proof.
  unfold StreamsState.received_stop_sending. intros Hr Hs. destruct (if decide _ then _ else _); [by simplify_eq|].
  destruct (ss_send s !! ss_id frame) as [ss|] eqn:Hss; [|by simplify_eq].
  destruct (Send.try_stop _ ss) as [ss' first] eqn:Ht. assert (Hp : pending ss' = pending ss /\ state ss' = state ss /\ fin_pending ss' = fin_pending ss).
  { unfold Send.try_stop in Ht. by destruct (stop_reason ss); simplify_eq. }
  destruct Hp as (Hp & Hst & Hfin).
  assert (Hs' : streams_typed n (StreamsState.with_send (<[ss_id frame := ss']> (ss_send s)) s)).
  { eapply streams_typed_insert; [exact Hs| |done]. eapply stream_typed_pending; [by apply Hs|done|congruence..]. }
  destruct first; simplify_eq; exact Hs'.
Qed.

Lemma received_ack_typed frame s s' : meta_typed frame -> StreamsState.received_ack_of frame s = Ret s' ->
  streams_typed n s -> streams_typed n s'.
Proof.
  unfold StreamsState.received_ack_of. intros [Hm1 Hm2] Ha Hs.
  destruct (ss_send s !! sm_id frame) as [ss|] eqn:Hss; [|by simplify_eq].
  destruct (Send.is_reset ss); [by simplify_eq|]. apply obind_ret in Ha as ([ss' fin] & Hack & Ha).
  assert (Hss' : stream_typed n (sm_id frame) ss').
  { destruct (Hs _ _ Hss) as (Hid & Hi & Ho & Hf). unfold Send.ack in Hack. apply obind_ret in Hack as (b & Hb & Hack).
    destruct (ack_any (sm_offsets frame) (pending ss) Hi Hm1 Hm2) as (b' & dropped & Hb' & Hi' & Hacked).
    rewrite Hb in Hb'. injection Hb' as <-. pose proof (proj1 (ak_rest _ _ _ _ Hacked)) as Hoff.
    apply (holds_acked n (sm_id frame)) in Hacked; [|done].
    assert (Hss' : pending ss' = b /\ (state ss' = Ready -> state ss = Ready) /\ fin_pending ss' = fin_pending ss).
    { destruct (state ss) eqn:Hst; simplify_eq; split_and!; try done. by rewrite <- Hst. }
    destruct Hss' as (Hp & Hst & Hfin). by apply (stream_typed_step _ ss); rewrite ?Hp, ?Hfin. }
  destruct fin; cbn in Ha; simplify_eq.
  - by eapply streams_typed_delete.
  - by eapply streams_typed_insert.
Qed.

Lemma lost_typed frame s s' : meta_typed frame -> StreamsState.retransmit frame s = Ret s' ->
  streams_typed n s -> streams_typed n s'.
Proof.
  unfold StreamsState.retransmit. intros [Hm _] Ha Hs.
  destruct (ss_send s !! sm_id frame) as [ss|] eqn:Hss; [|by simplify_eq].
  destruct (Send.is_reset ss); [by simplify_eq|]. apply obind_ret in Ha as (b & Hb & Ha).
  destruct (Hs _ _ Hss) as (Hid & Hi & Ho & Hf).
  assert (Hss' : stream_typed n (sm_id frame) (Send.with_pending b ss)).
  { pose proof Hb as Hb0. unfold SendBuffer.retransmit, assert in Hb0.
    destruct (Z.leb_spec (rend (sm_offsets frame)) (unsent (pending ss))); [|done]. clear Hb0.
    destruct (retransmit_spec (sm_offsets frame) (pending ss) Hi Hm) as (b' & Hb' & Hi' & Hseg & Hlen & Ho' & _); [done|].
    rewrite Hb in Hb'. injection Hb' as <-. apply (stream_typed_step _ ss); [by split_and!|done| |done..].
    apply (holds_same n _ (pending ss)); [done..| |done]. unfold base. cbn. congruence. }
  destruct (negb _); [apply obind_ret in Ha as (q & _ & Ha)|]; simplify_eq; by eapply streams_typed_insert.
Qed.

Lemma for_frames_typed f l s s' :
  (forall frame s s', meta_typed frame -> f frame s = Ret s' -> streams_typed n s -> streams_typed n s') ->
  Forall meta_typed l -> Connection.for_frames f l s = Ret s' -> streams_typed n s -> streams_typed n s'.
Proof.
  intros Hf Hl. revert s. induction Hl as [|x l Hx Hl IH]; intros s; cbn; [by intros [= ->]|].
  intros Ha Hs. apply obind_ret in Ha as (s1 & H1 & Ha). apply (IH _ Ha). by eapply Hf.
Qed.

(** Writing: the bytes are added to those of the stream. *)
Lemma holds_more n' id b : holds n id b -> total n <= total n' -> writes n' id = writes n id -> holds n' id b.
Proof. intros [Ht Ho Hd] Hle He. split; [lia|..]; unfold history, writes_of in *; by rewrite He. Qed.

Lemma stream_typed_more n' id ss : stream_typed n id ss -> total n <= total n' -> writes n' id = writes n id ->
  finished_at n' id = finished_at n id -> stream_typed n' id ss.
Proof. intros (? & ? & ? & Hf) Hle He Hfin. rewrite <- Hfin in Hf. split_and!; [done|done|by apply holds_more|done]. Qed.

Lemma streams_typed_more n' s : writes n' = writes n -> finished_at n' = finished_at n ->
  total n <= total n' -> streams_typed n s -> streams_typed n' s.
Proof. intros He Hf Ht Hs id ss Hss. apply stream_typed_more; [by apply Hs|done|by rewrite He|by rewrite Hf]. Qed.

Lemma written_typed id data ss b : data <> [] -> total n + zlen data <= VARINT_MAX ->
  stream_typed n id ss -> SendBuffer.write data (pending ss) = Ret b ->
  send_inv b /\ forall n', total n' = total n + zlen data -> writes n' id = writes_of n id (pending ss) ++ [data] -> holds n' id b.
Proof.
  intros Hne Hmax (_ & Hi & [Ht Ho (freed & Hd & Hbf)] & _) Hb. pose proof (zlen_nonneg data).
  destruct (write_spec data (pending ss)) as (b' & Hb' & Hi' & Hbase & Hbuf & Hoff & _); [done|done|lia|].
  rewrite Hb in Hb'. injection Hb' as <-. split; [done|]. intros n' Htot Hwr. destruct (sb_offset _ Hi) as [Hb0 [Hu Hm]].
  pose proof (sb_unsent _ Hi). assert (0 < zlen data) by (destruct data; [done|rewrite zlen_cons; pose proof (zlen_nonneg data); lia]).
  assert (Hh : writes_of n' id b = writes_of n id (pending ss) ++ [data]).
  { unfold writes_of at 1. rewrite Hoff. destruct (Z.eqb_spec (offset (pending ss) + zlen data) 0); [lia|done]. }
  assert (Hseg : unacked_segments b = unacked_segments (pending ss) ++ [data]).
  { unfold SendBuffer.write in Hb. apply obind_ret in Hb as (? & _ & Hb). apply obind_ret in Hb as (? & _ & Hb). by simplify_eq. }
  split; [lia|unfold history in *; rewrite Hh, concat_app, zlen_app, Hoff, Ho; cbn; by rewrite app_nil_r|].
  exists freed. by rewrite Hh, Hd, Hseg, app_assoc, Hbase.
Qed.

Lemma write_typed id data closed s s' res : 0 <= id -> data <> [] -> total n + zlen data <= VARINT_MAX ->
  SendStream.write id data closed s = Ret (s', res) -> streams_typed n s -> streams_typed (write_to id data closed s n) s'.
Proof using Hn.
  unfold SendStream.write. intros Hid Hne Hmax Hw Hs. pose proof (zlen_nonneg data). unfold write_to.
  set (ss := default Send_default (ss_send s !! id)) in *. set (n' := mkWritten _ _ _ _).
  assert (Hold : stream_typed n id ss).
  { unfold ss. destruct (ss_send s !! id) eqn:Hl; [by apply Hs|by apply default_typed]. }
  destruct closed.
  { simplify_eq. eapply streams_typed_more; [| | |exact Hs]; [done|done|cbn; lia]. }
  cbn [negb andb] in n'. apply obind_ret in Hw as ([ss' r] & Hss & Hw).
  assert (Hnew : forall s'', ss_send s'' = <[id := ss']> (ss_send s) -> streams_typed n' s'').
  { intros s'' Hs''. unfold Send.write in Hss. destruct (Send.is_writable ss) eqn:Hwr; cbn [negb andb] in *.
    2: { simplify_eq. apply (streams_typed_more n'); [done|done|cbn; lia|]. by eapply streams_typed_insert. }
    destruct (stop_reason ss) as [code|] eqn:Hst.
    { simplify_eq. apply (streams_typed_more n'); [done|done|cbn; lia|]. by eapply streams_typed_insert. }
    apply obind_ret in Hss as (b & Hb & Hss). simplify_eq. destruct (written_typed id data ss b) as [Hi' Hh]; [done..|].
    unfold streams_typed. rewrite Hs''. intros i x Hx. destruct (decide (i = id)) as [->|Hi].
    - rewrite lookup_insert_eq in Hx. simplify_eq. split_and!; [done|done|apply Hh; [done|]; cbn; by rewrite decide_True|].
      intros Hf. destruct Hold as (_ & _ & _ & Hfin). destruct (Hfin Hf) as [Hr _].
      unfold Send.is_writable in Hwr. by destruct (state ss).
    - rewrite lookup_insert_ne in Hx by done. apply stream_typed_more; [by apply Hs|cbn; lia|cbn; by rewrite decide_False|done]. }
  destruct r as [[]|]; [destruct (negb _); [apply obind_ret in Hw as (q & _ & Hw)|]|]; simplify_eq; by apply Hnew.
Qed.

Lemma finish_typed id s s' res : SendStream.finish id s = Ret (s', res) -> streams_typed n s -> streams_typed (finish_of id s n) s'.
Proof.
  unfold SendStream.finish, finish_of. intros Hf Hs. destruct (ss_send s !! id) as [ss|] eqn:Hss; [|by simplify_eq].
  set (n' := mkWritten _ _ _ _). destruct (Send.finish ss) as [ss' r] eqn:Hfin.
  assert (Hother : forall i x, ss_send s !! i = Some x -> stream_typed n' i x).
  { intros i x Hx. destruct (Hs i x Hx) as (? & ? & [] & Hk). split_and!; [done|done|by split|]. intros Hp. cbn.
    destruct (Hk Hp). case_decide as Hi; [|done]. subst i. by simplify_eq. }
  assert (Hnew : stream_typed n' id ss').
  { pose proof (Hother _ _ Hss) as (? & ? & ? & Hk). unfold Send.finish in Hfin. destruct (stop_reason ss); [by simplify_eq|].
    case_decide; simplify_eq; [|by split_and!]. split_and!; [done..|]. intros _. split; [done|]. cbn. by rewrite decide_True. }
  assert (Hs' : forall s'', ss_send s'' = <[id := ss']> (ss_send s) -> streams_typed n' s'').
  { intros s''. by apply streams_typed_insert. }
  destruct r as [[]|]; [destruct (negb _); [apply obind_ret in Hf as (q & _ & Hf)|]|]; simplify_eq; by apply Hs'.
Qed.

Lemma reset_typed_step id code p s s' p' res : 0 <= id -> is_varint code -> SendStream.reset id code p s = (s', p', res) ->
  streams_typed n s -> retransmits_typed n p -> streams_typed (reset_of id n) s' /\ retransmits_typed (reset_of id n) p'.
Proof.
  unfold SendStream.reset. intros Hid Hc Hr Hs Hp.
  apply (retransmits_typed_grows n (reset_of id n)) in Hp as [Hp1 Hp2]; [|unfold grows; cbn; set_solver].
  apply (streams_typed_more (reset_of id n)) in Hs; [|done..].
  destruct (ss_send s !! id) as [ss|] eqn:Hss; [|by simplify_eq].
  assert (Hnew : streams_typed (reset_of id n) (StreamsState.with_send (<[id := Send.reset ss]> (ss_send s)) s)).
  { eapply streams_typed_insert; [exact Hs| |done]. destruct (Hs _ _ Hss) as (? & ? & ? & Hk).
    unfold Send.reset. destruct (state ss) eqn:Hst; split_and!; try done; cbn; intros [? Hf]%Hk; by split; [congruence|]. }
  destruct (state ss); simplify_eq; (split; [done|]); split; cbn; try done; apply Forall_app; (split; [done|]);
    apply Forall_singleton; split_and!; try done; cbn; set_solver.
Qed.

Lemma priority_typed id prio s s' res : SendStream.set_priority id prio s = (s', res) -> streams_typed n s -> streams_typed n s'.
Proof.
  unfold SendStream.set_priority. intros Hp Hs. destruct (ss_send s !! id) as [ss|] eqn:Hss; [|by simplify_eq].
  simplify_eq. eapply streams_typed_insert; [exact Hs| |done]. by eapply stream_typed_pending; [by apply Hs|..].
Qed.

Lemma stop_pending_typed id code p s s' p' res : 0 <= id -> is_varint code ->
  RecvStream.stop id code p s = Ret (s', p', res) -> retransmits_typed n p -> retransmits_typed n p'.
Proof.
  unfold RecvStream.stop. intros Hid Hc Hs [Hp1 Hp2]. destruct (ss_recv s !! id) as [rs|]; [|by simplify_eq].
  apply obind_ret in Hs as ([rs' [[x stop]|e]] & _ & Hs); [destruct stop|]; simplify_eq; split; cbn; try done.
  apply Forall_app. by split; [|apply Forall_singleton].
Qed.

(** *** Frames written to a packet *)

Section Write.
Context {W : Type} `{BufMutLaws W}.

Definition turn_typed (t : StreamsState * W * list StreamMeta) : Prop :=
  streams_typed n t.1.1 /\ remaining_mut t.1.2 <= VARINT_MAX /\ Forall meta_typed t.2.

Lemma write_turn_typed fair t r : StreamsState.write_turn fair t = Ret r -> turn_typed t ->
  turn_typed match r with inl t' | inr t' => t' end.
Proof.
  destruct t as [[s buf] metas]. unfold StreamsState.write_turn. intros Hw (Hs & Hb & Hm). cbn [fst snd] in *.
  destruct (Z.ltb_spec (remaining_mut buf) StreamsState.STREAM_SIZE_BOUND) as [|Hroom]; [by simplify_eq|].
  unfold StreamsState.STREAM_SIZE_BOUND in Hroom.
  destruct (PendingStreamsQueue.pop (ss_pending s)) as [q [p|]]; [|by simplify_eq].
  assert (Hq : forall q, streams_typed n (StreamsState.with_pending q s)) by (intros; by eapply streams_typed_same).
  cbn [ss_send StreamsState.with_pending] in Hw.
  destruct (ss_send s !! ps_id p) as [ss|] eqn:Hss; [|simplify_eq; by split_and!].
  destruct (Send.is_reset ss); [simplify_eq; by split_and!|].
  destruct (negb (Send.is_pending ss)); [simplify_eq; by split_and!|].
  apply obind_ret in Hw as ([[[ss' rng] enc] fin] & Ht & Hw). destruct (Hs _ _ Hss) as (Hid & Hi & Ho & Hf).
  unfold transmit in Ht. apply obind_ret in Ht as ([[b r'] e] & Hpoll & Ht). simplify_eq.
  destruct (poll_transmit_spec (remaining_mut buf) (pending ss) Hi) as (b' & r' & e & Hpoll' & Hi' & [(Hd' & Ho' & Hba' & _) Hr' _ _ _ _]); [lia|].
  rewrite Hpoll in Hpoll'. simplify_eq. pose proof (poll_transmit_segments _ _ _ _ _ Hpoll) as Hseg. set (ss' := mkSend _ _ _ _ _) in *.
  assert (Hs' : forall q, streams_typed n (StreamsState.with_pending q (StreamsState.with_send (<[ps_id p := ss']> (ss_send s)) s))).
  { intros q0. eapply streams_typed_insert; [exact Hs| |done].
    apply (stream_typed_step _ ss); [by split_and!|done|by apply (holds_same n _ (pending ss))|done|done|]. cbn. by destruct (_ && _). }
  destruct (range_is_empty r' && _); [apply obind_ret in Hw as (q' & _ & Hw); simplify_eq; by split_and!; [apply Hs'|..]|].
  apply obind_ret in Hw as (buf1 & H1 & Hw). apply obind_ret in Hw as (buf2 & H2 & Hw).
  assert (Hb2 : remaining_mut buf2 <= VARINT_MAX).
  { apply encode_stream_meta_shrinks in H1. destruct (negb _); [|simplify_eq; lia].
    apply obind_ret in H2 as (data & _ & H2). apply put_slice_written in H2 as [_ ->]. pose proof (zlen_nonneg data). lia. }
  assert (Hm' : Forall meta_typed (metas ++ [{| sm_id := ps_id p; sm_offsets := r'; sm_fin := fin_pending ss && (rend r' =? offset b') |}])).
  { apply Forall_app. split; [done|]. apply Forall_singleton. destruct (sb_offset _ Hi'). split; cbn; [lia|]. varint_lia. }
  destruct (Send.is_pending ss'); [apply obind_ret in Hw as (q' & _ & Hw)|]; simplify_eq; split_and!; try done; apply Hs'.
Qed.

Lemma write_stream_frames_typed fair s (buf : W) s' buf' metas : remaining_mut buf <= VARINT_MAX ->
  StreamsState.write_stream_frames buf fair s = Ret (s', buf', metas) -> streams_typed n s ->
  streams_typed n s' /\ Forall meta_typed metas.
Proof.
  intros Hb Hw Hs. assert (Ht : turn_typed (s, buf, [])) by (by split_and!). clear Hb Hs. revert Hw Ht.
  unfold StreamsState.write_stream_frames. generalize (StreamsState.write_fuel (s, buf, [])) as fuel.
  generalize (s, buf, @nil StreamMeta) as t. intros t fuel. revert t. induction fuel as [|fuel IH]; intros t; cbn; [done|].
  destruct (StreamsState.write_turn fair t) as [[t'|t']|] eqn:Hturn; cbn; [| |done].
  - intros Hw Ht. apply (IH t'); [done|]. exact (write_turn_typed _ _ _ Hturn Ht).
  - intros [= ->] Ht. destruct (write_turn_typed _ _ _ Hturn Ht) as (? & _ & ?). done.
Qed.
End Write.
End StreamOps.

(** What the control frames leave in the queue, and what they record. *)
Section Control.
Context (n : Written) {W : Type} `{BufMut W}.

Lemma write_resets_typed queue sent send (buf : W) queue' sent' buf' :
  StreamsState.write_resets queue sent send buf = Ret (queue', sent', buf') ->
  Forall (reset_typed n) queue -> Forall (reset_typed n) sent -> Forall (reset_typed n) queue' /\ Forall (reset_typed n) sent'.
Proof.
  revert sent buf. induction queue as [|[id code] queue IH]; intros sent buf; cbn; destruct (_ <? _); try (by intros; simplify_eq).
  intros Hw [Hx Hq]%Forall_cons Hs. destruct (send !! id); [apply obind_ret in Hw as (buf1 & _ & Hw)|]; eapply IH; try done.
  apply Forall_app. by split; [|apply Forall_singleton].
Qed.

Lemma write_stops_typed queue sent (buf : W) queue' sent' buf' :
  StreamsState.write_stops queue sent buf = Ret (queue', sent', buf') ->
  Forall stop_typed queue -> Forall stop_typed sent -> Forall stop_typed queue' /\ Forall stop_typed sent'.
Proof.
  revert sent buf. induction queue as [|x queue IH]; intros sent buf; cbn; destruct (_ <? _); try (by intros; simplify_eq).
  intros Hw [Hx Hq]%Forall_cons Hs. apply obind_ret in Hw as (buf1 & _ & Hw). eapply IH; try done.
  apply Forall_app. by split; [|apply Forall_singleton].
Qed.

Lemma write_control_typed (buf : W) p t s buf' p' t' :
  StreamsState.write_control_frames buf p t s = Ret (buf', p', t') ->
  retransmits_typed n p -> thin_typed n t -> retransmits_typed n p' /\ thin_typed n t'.
Proof.
  unfold StreamsState.write_control_frames. intros Hw [Hr Hs] Ht.
  apply obind_ret in Hw as ([[q1 s1] b1] & H1 & Hw). apply obind_ret in Hw as ([[q2 s2] b2] & H2 & Hw). simplify_eq.
  apply write_resets_typed in H1 as [Hq1 Hs1]; [|by apply Forall_rev|done].
  apply write_stops_typed in H2 as [Hq2 Hs2]; [|by apply Forall_rev|done].
  split; [split; cbn; by apply Forall_rev|by apply thin_push_typed].
Qed.
End Control.

(** ** Packet number spaces *)

Section Spaces.
Context (n : Written).

(** A space whose typed fields are those of another one. *)
Lemma space_typed_same s s' : space_typed n s -> rx_packet s' = rx_packet s ->
  ranges (pending_acks s') = ranges (pending_acks s) -> largest_acked_packet s' = largest_acked_packet s ->
  Space.pending s' = Space.pending s -> sent_packets s' = sent_packets s -> space_typed n s'.
Proof. intros [] E0 E1 E2 E3 E4. by split; rewrite ?E0, ?E1, ?E2, ?E3, ?E4. Qed.

Lemma space_typed_new now : space_typed n (PacketSpace.new now).
Proof. by split. Qed.

(** Only the packets changed, and none was added. *)
Lemma space_typed_fewer s s' : space_typed n s -> rx_packet s' = rx_packet s ->
  ranges (pending_acks s') = ranges (pending_acks s) -> largest_acked_packet s' = largest_acked_packet s ->
  Space.pending s' = Space.pending s -> sent_packets s' ⊆ sent_packets s -> space_typed n s'.
Proof.
  intros [] E0 E1 E2 E3 E4. split; rewrite ?E0, ?E1, ?E2, ?E3; try done.
  intros k m Hm. rewrite map_subseteq_spec in E4. by eapply st_sent0, E4.
Qed.

Lemma space_typed_pending h r ping s : space_typed n s -> retransmits_typed n r -> space_typed n (space_with_pending h r ping s).
Proof. by intros []. Qed.

Lemma take_typed k s s' r : PacketSpace.take k s = Ret (s', r) -> space_typed n s ->
  space_typed n s' /\ match r with Some m => packet_typed n m | None => True end.
Proof.
  unfold PacketSpace.take. destruct (sent_packets s !! k) as [m|] eqn:Hm; [|by intros [= <- <-]].
  intros Ht Hs. apply obind_ret in Ht as (x & _ & Ht). simplify_eq. split; [|by apply (st_sent _ _ Hs k)].
  eapply space_typed_fewer; try done. apply delete_subseteq.
Qed.

End Spaces.

Lemma subtract_below_typed m a a' : PendingAcks.subtract_below m a = Ret a' ->
  ArrayRangeSet.wf (ranges a) -> ArrayRangeSet.wf (ranges a').
Proof.
  unfold PendingAcks.subtract_below. intros Hs Hwf. apply obind_ret in Hs as (e & _ & Hs). simplify_eq.
  by destruct (array_remove_spec (Range 0 e) (ranges a) Hwf).
Qed.

Lemma packet_received_typed a now k el d a' arm : 0 <= k ->
  PendingAcks.packet_received a now k el d = Ret (a', arm) -> ArrayRangeSet.wf (ranges a) -> ArrayRangeSet.wf (ranges a').
Proof.
  unfold PendingAcks.packet_received. intros Hk Hp Hwf. apply obind_ret in Hp as (a1 & H1 & Hp).
  apply obind_ret in Hp as (a2 & H2 & Hp). apply obind_ret in Hp as (imm & _ & Hp).
  assert (Hwf1 : ArrayRangeSet.wf (ranges a1)).
  { unfold PendingAcks.insert_one, ArrayRangeSet.insert_one in H1. apply obind_ret in H1 as ([r x] & Hr & H1).
    apply obind_ret in Hr as (e & He & Hr). injection H1 as <-.
    destruct (array_insert_spec (Range k e) (ranges a) Hwf Hk) as [Hw _].
    assert (r = fst (ArrayRangeSet.insert (Range k e) (ranges a))) as -> by (injection Hr as Hr; by rewrite Hr).
    cbn [ranges]. destruct (_ <? _); [by apply wf_pop_min|done]. }
  assert (Hr2 : ranges a2 = ranges a1) by (destruct el; apply obind_ret in H2 as (c & _ & H2); by simplify_eq).
  destruct imm; simplify_eq; cbn; by rewrite ?Hr2.
Qed.

(** ** Packet numbers from the wire *)

Definition pn_nonneg (pn : PacketNumber) : Prop := 0 <= PacketNumber.value pn.

Lemma expand_nonneg pn expected k : 0 <= expected -> pn_nonneg pn -> PacketNumber.expand pn expected = Ret k -> 0 <= k.
Proof.
  unfold PacketNumber.expand, pn_nonneg. intros He Hv. set (cand := Z.lor _ _).
  assert (Hcand : 0 <= cand) by (apply Z.lor_nonneg; split; [apply Z.land_nonneg; by left|done]).
  destruct (match checked_sub _ _ with Some _ => _ | None => false end).
  - intros [-> _]%u64_add_ret. assert (0 <= Z.shiftl 1 (PacketNumber.len pn * 8)) by (by apply Z.shiftl_nonneg). lia.
  - intros Ha. apply obind_ret in Ha as (u & _ & Ha). destruct (_ && _); [|by injection Ha as <-].
    by apply u64_sub_ret in Ha as [-> ?]; lia.
Qed.

Section Numbers.
Context {B : Type} `{BufBytes B}.

Lemma decode_number_nonneg (data p : B) h pn len versions :
  Header.decode data len versions = Ret (Ok (h, p)) -> Header.number h = Some pn -> pn_nonneg pn.
Proof. intros Hd Hn. exact (proj1 (header_number_bound _ _ _ _ _ _ Hd Hn)). Qed.
End Numbers.

(** ** What is written *)

(** The headers that a connection writes are well-formed. *)
Lemma pn_new_wf n la pn : PacketNumber.new n la = Ret pn -> pn_wf pn.
Proof.
  unfold PacketNumber.new. intros Hn. apply obind_ret in Hn as (d & _ & Hn). apply obind_ret in Hn as (r & _ & Hn).
  assert (forall m, 0 < m -> 0 <= n mod m < m) as Hm by (intros; by apply Z.mod_pos_bound).
  destruct (r <? _); [injection Hn as <-; apply Hm; done|]. destruct (r <? _); [injection Hn as <-; apply Hm; done|].
  destruct (r <? _); [injection Hn as <-; apply Hm; done|]. destruct (r <? _); [injection Hn as <-; apply Hm; done|done].
Qed.

Definition fake_cid : ConnectionId := mkConnectionId 20 FAKE_CID.

Lemma fake_cid_wf : cid_wf fake_cid.
Proof.
  destruct (cid_new_wf FAKE_CID) as (cid & Hn & Hwf & _); [repeat constructor; done|done|].
  vm_compute in Hn. by injection Hn as <-.
Qed.

Lemma packet_header_wf id pn h : pn_wf pn -> Connection.packet_header id pn = Ret h ->
  header_wf (zlen FAKE_CID) SUPPORTED_VERSIONS h /\ Header.space (header_on_wire h) = id.
Proof.
  intros Hpn. unfold Connection.packet_header. change (ConnectionId.new FAKE_CID) with (Ret fake_cid). cbn [obind unwrap].
  change (SUPPORTED_VERSIONS !! 0%nat) with (Some 1). cbn [obind unwrap]. intros [= <-]. pose proof fake_cid_wf as Hc.
  destruct id; cbn; split_and!; try done; try set_solver; try (unfold is_varint; cbn; lia).
Qed.

(** Writing never makes room. *)
Section Room.
Context {W : Type} `{BufMutLaws W}.

Definition shrinks (f : W -> outcome W) : Prop := forall w w', f w = Ret w' -> remaining_mut w' <= remaining_mut w.

Lemma shrinks_varint v : shrinks (put_varint v).
Proof. intros w w' Hw%put_varint_shrinks. lia. Qed.

Lemma shrinks_u8 v : shrinks (put_u8 v).
Proof. intros w w' Hw. apply (emits_written _ _ _ _ (emits_put_u8 v)) in Hw as [_ ->]. rewrite zlen_be_bytes. lia. Qed.

Lemma shrinks_bind f g : shrinks f -> shrinks g -> shrinks (fun w => let! w := f w in g w).
Proof. intros Hf Hg w w' Hw. apply obind_ret in Hw as (w1 & H1 & Hw). apply Hf in H1. apply Hg in Hw. lia. Qed.

Lemma shrinks_pure {A} (m : outcome A) g : (forall a, shrinks (g a)) -> shrinks (fun w => let! a := m in g a w).
Proof. intros Hg w w' Hw. apply obind_ret in Hw as (a & _ & Hw). by apply Hg in Hw. Qed.

Lemma shrinks_ret : shrinks (fun w => Ret w).
Proof. intros w w' [= <-]. done. Qed.

Lemma shrinks_ack_blocks rest prev : shrinks (encode_ack_blocks rest prev).
Proof.
  revert prev. induction rest as [|r rest IH]; intros prev; cbn; [apply shrinks_ret|].
  repeat first [apply IH|apply shrinks_pure; intros|apply shrinks_bind; [apply shrinks_varint|]].
Qed.

Lemma shrinks_ack delay s : shrinks (encode_ack delay s None).
Proof.
  unfold encode_ack. destruct (rev _) as [|first rest]; [by intros w w'|].
  repeat first [apply shrinks_ret|apply shrinks_pure; intros|apply shrinks_bind; [first [apply shrinks_varint|apply shrinks_ack_blocks]|]].
Qed.

Lemma populate_acks_shrinks now s (w w' : W) lg : Connection.populate_acks now s w = Ret (lg, w') ->
  remaining_mut w' <= remaining_mut w.
Proof.
  unfold Connection.populate_acks. intros Ha. apply obind_ret in Ha as (_ & _ & Ha). apply obind_ret in Ha as (l & _ & Ha).
  apply obind_ret in Ha as (w1 & H1 & Ha). simplify_eq. by apply shrinks_ack in H1.
Qed.

Lemma write_resets_shrinks queue sent send (w w' : W) q s : StreamsState.write_resets queue sent send w = Ret (q, s, w') ->
  remaining_mut w' <= remaining_mut w.
Proof.
  revert sent w. induction queue as [|[id code] queue IH]; intros sent w; cbn; destruct (_ <? _); try (by intros; simplify_eq).
  destruct (send !! id); [|by apply IH]. intros Hw. apply obind_ret in Hw as (w1 & H1 & Hw). apply IH in Hw. revert H1.
  enough (shrinks (encode_reset_stream {| rs_id := id; rs_error_code := code; rs_final_offset := Send.stream_offset s0 |})) as Hs.
  { intros Hr%Hs. lia. }
  repeat first [apply shrinks_varint|apply shrinks_bind].
Qed.

Lemma write_stops_shrinks queue sent (w w' : W) q s : StreamsState.write_stops queue sent w = Ret (q, s, w') ->
  remaining_mut w' <= remaining_mut w.
Proof.
  revert sent w. induction queue as [|x queue IH]; intros sent w; cbn; destruct (_ <? _); try (by intros; simplify_eq).
  intros Hw. apply obind_ret in Hw as (w1 & H1 & Hw). apply IH in Hw. revert H1.
  enough (shrinks (encode_stop_sending x)) as Hs by (intros Hr%Hs; lia).
  repeat first [apply shrinks_varint|apply shrinks_bind].
Qed.

Lemma write_control_shrinks (w w' : W) p t s p' t' : StreamsState.write_control_frames w p t s = Ret (w', p', t') ->
  remaining_mut w' <= remaining_mut w.
Proof.
  unfold StreamsState.write_control_frames. intros Hw. apply obind_ret in Hw as ([[q1 s1] w1] & H1 & Hw).
  apply obind_ret in Hw as ([[q2 s2] w2] & H2 & Hw). simplify_eq. apply write_resets_shrinks in H1. apply write_stops_shrinks in H2. lia.
Qed.
End Room.

(** ** The operations of a connection *)

Section ConnOps.
Context (n : Written) (Hn : 0 <= total n).

Definition keeps_typed (c c' : Connection) : Prop := conn_typed n c -> conn_typed n c'.

#[export] Instance keeps_typed_preorder : PreOrder keeps_typed.
Proof. split; [by intros c Hc|]. intros c1 c2 c3 H1 H2 Hc. auto. Qed.

Lemma typed_intro c c' : (forall id, space_typed n (space_of c id) -> space_typed n (space_of c' id)) ->
  queued_packets (path c') = queued_packets (path c) ->
  (streams_typed n (c_streams c) -> streams_typed n (c_streams c')) -> keeps_typed c c'.
Proof. intros Hs Hq Hst [H1 H2 H3]. split; [auto|by rewrite Hq|auto]. Qed.

Lemma typed_space id s c : (space_typed n (space_of c id) -> space_typed n s) -> keeps_typed c (with_space id s c).
Proof. intros Hs. apply typed_intro; [|done..]. intros i. rewrite space_of_with. case_decide; by subst. Qed.

Lemma typed_quiet id s c : rx_packet s = rx_packet (space_of c id) ->
  ranges (pending_acks s) = ranges (pending_acks (space_of c id)) ->
  largest_acked_packet s = largest_acked_packet (space_of c id) -> Space.pending s = Space.pending (space_of c id) ->
  sent_packets s = sent_packets (space_of c id) -> keeps_typed c (with_space id s c).
Proof. intros. apply typed_space. intros Hs. by eapply space_typed_same. Qed.

Lemma typed_timers t c : keeps_typed c (with_timers t c).
Proof. by apply typed_intro. Qed.

Lemma typed_state x c : keeps_typed c (with_state x c).
Proof. by apply typed_intro. Qed.

Lemma typed_path p c : queued_packets p = queued_packets (path c) -> keeps_typed c (with_path p c).
Proof. intros. by apply typed_intro. Qed.

Lemma typed_streams ss c : (streams_typed n (c_streams c) -> streams_typed n ss) -> keeps_typed c (with_streams ss c).
Proof. intros. by apply typed_intro. Qed.

Lemma typed_event e c : keeps_typed c (Connection.send_event e c).
Proof. apply typed_streams. intros Hs. by eapply streams_typed_same. Qed.

Lemma typed_kill e c : keeps_typed c (Connection.kill e c).
Proof. unfold Connection.kill. etrans; [apply typed_timers|]. etrans; [apply typed_event|]. apply typed_state. Qed.

Lemma typed_loss_timer c c' : Connection.set_loss_detection_timer c = Ret c' -> keeps_typed c c'.
Proof. intros [t ->]%loss_timer_only. apply typed_timers. Qed.

Lemma queue_same p p' : sending_queue p' = sending_queue p -> queued_packets p' = queued_packets p.
Proof. unfold queued_packets. by intros ->. Qed.

Lemma typed_discard id c c' : Connection.discard_space id c = Ret c' -> keeps_typed c c'.
Proof.
  intros (p & t & -> & Hr & _)%discard_spec. destruct (remove_all_fields _ _ _ Hr) as (Hq & _).
  etrans; [|apply typed_timers]. etrans; [|apply typed_path; cbn; by apply queue_same]. apply typed_space.
  intros Hs. eapply space_typed_fewer; try done. apply map_empty_subseteq.
Qed.

(** *** Loss *)

Lemma typed_lose now id k m c c' : packet_typed n m -> Connection.lose_packet now id k m c = Ret c' -> keeps_typed c c'.
Proof.
  intros [Hf Hr]. unfold Connection.lose_packet. intros Hl. apply obind_ret in Hl as ([p removed] & Hrm & Hl).
  apply obind_ret in Hl as (ss & Hss & Hl). apply obind_ret in Hl as ([s' taken] & Ht & Hl). injection Hl as <-.
  destruct (remove_fields _ _ _ _ _ Hrm) as (Hq & _). set (p2 := if removed && _ then _ else p) in *.
  assert (Hq2 : queued_packets p2 = queued_packets (path c)) by (apply queue_same; unfold p2; by destruct (removed && _)).
  etrans; [by apply (typed_path p2)|]. etrans.
  { apply (typed_streams ss). by apply (for_frames_typed n _ _ _ _ (lost_typed n) Hf). }
  apply typed_space. intros Hs. apply (take_typed _ _ _ _ _ Ht).
  destruct (Space.retransmits m); [|done]. apply space_typed_pending; [done|]. apply retransmits_or_typed; [apply Hs|done].
Qed.

Lemma typed_lose_all now id l c c' : Forall (fun x => packet_typed n x.2) l ->
  Connection.lose_packets now id l c = Ret c' -> keeps_typed c c'.
Proof.
  intros Hl. revert c. induction Hl as [|[k m] l Hm Hl IH]; intros c; cbn; [by intros [= ->]|].
  intros Ha. apply obind_ret in Ha as (c1 & H1 & Ha). etrans; [by eapply typed_lose|]. by apply IH.
Qed.

Lemma typed_detect now id c c' : Connection.detect_lost_packets now id c = Ret c' -> keeps_typed c c'.
Proof.
  unfold Connection.detect_lost_packets. intros Hd Hc. pose proof (ct_spaces _ _ Hc id) as Hs. revert Hc.
  change (keeps_typed c c'). assert (Hloss : forall t, keeps_typed c
    (with_space id (space_with_loss (sent_packets (space_of c id)) (in_flight (space_of c id)) t (space_of c id)) c)).
  { intros t. by apply typed_quiet. }
  destruct (largest_acked_packet (space_of c id)) as [largest|]; [|by injection Hd as <-].
  apply obind_ret in Hd as (d & _ & Hd). apply obind_ret in Hd as ([lost next] & Hscan & Hd).
  apply scan_lost_spec in Hscan as (l & -> & Hl & _). cbn [app] in Hd. destruct l as [|x l]; [by injection Hd as <-|].
  apply obind_ret in Hd as (c1 & H1 & Hd). etrans; [apply Hloss|]. etrans; [|by apply typed_loss_timer].
  eapply typed_lose_all; [|exact H1]. apply Forall_forall. intros [k m] Hin. apply (elem_of_sublist _ _ _ Hin) in Hl.
  apply elem_of_btree_iter in Hl. by apply (st_sent _ _ Hs k).
Qed.

Lemma typed_timeout now c c' : Connection.on_loss_detection_timeout now c = Ret c' -> keeps_typed c c'.
Proof.
  unfold Connection.on_loss_detection_timeout. intros Ha. apply obind_ret in Ha as (c1 & H1 & Ha).
  etrans; [|by apply typed_loss_timer]. clear Ha.
  destruct (Connection.loss_time_and_space c) as [[t id]|]; [by eapply typed_detect|].
  assert (Hstep : forall id c c2, (if 0 <? in_flight (space_of c id) then Connection.detect_lost_packets now id c else Ret c) = Ret c2 -> keeps_typed c c2).
  { intros id c0 c2. destruct (0 <? _); [apply typed_detect|by intros [= <-]]. }
  cbn -[Connection.detect_lost_packets] in H1.
  apply obind_ret in H1 as (c3 & H3 & Hs3). apply obind_ret in H3 as (c2 & H2 & Hs2).
  etrans; [exact (Hstep _ _ _ H2)|]. etrans; [exact (Hstep _ _ _ Hs2)|]. exact (Hstep _ _ _ Hs3).
Qed.

(** *** Acknowledgements *)

Lemma typed_ack_number id k c largest c' largest' : Connection.ack_number id k (c, largest) = Ret (c', largest') ->
  keeps_typed c c'.
Proof.
  unfold Connection.ack_number. intros Ha. apply obind_ret in Ha as ([s taken] & Ht & Ha).
  destruct taken as [m|]; [|by simplify_eq]. apply obind_ret in Ha as (s1 & Hs1 & Ha).
  apply obind_ret in Ha as (ss & Hss & Ha). apply obind_ret in Ha as ([p removed] & Hrm & Ha).
  apply obind_ret in Ha as (cong & _ & Ha). simplify_eq. destruct (remove_fields _ _ _ _ _ Hrm) as (Hq & _).
  intros Hc. destruct (take_typed _ _ _ _ _ Ht (ct_spaces _ _ Hc id)) as [Hs [Hf _]]. revert Hc.
  change (keeps_typed c (with_path (mkNetworkPath (sending_queue p) (rtt p) cong (np_in_flight p) (first_packet p))
    (with_streams ss (with_space id s1 c)))).
  etrans; [apply (typed_space id s1)|etrans; [apply (typed_streams ss)|apply typed_path; by apply queue_same]].
  - intros _. destruct (largest_acked m) as [l|]; [|by simplify_eq].
    apply obind_ret in Hs1 as (x & _ & Hs1). apply obind_ret in Hs1 as (a & Ha & Hs1). simplify_eq.
    destruct Hs as [? Hr ? ? ?]. split; try done. by apply (subtract_below_typed _ _ _ Ha).
  - by apply (for_frames_typed n _ _ _ _ (received_ack_typed n) Hf).
Qed.

Lemma typed_ack_numbers id l c largest c' largest' : Connection.ack_numbers id l (c, largest) = Ret (c', largest') ->
  keeps_typed c c'.
Proof.
  revert c largest. induction l as [|k l IH]; intros c largest; cbn -[Connection.ack_number]; [by intros [= <- <-]|].
  intros Ha. apply obind_ret in Ha as ([c1 largest1] & H1 & Ha).
  etrans; [by eapply typed_ack_number|by eapply IH].
Qed.

Lemma typed_on_ack now id ack c c' r : 0 <= ack_largest ack -> Connection.on_ack_received now id ack c = Ret (c', r) ->
  keeps_typed c c'.
Proof.
  unfold Connection.on_ack_received. intros Hl. destruct (next_packet_number _ <=? _); [by intros [= <- <-]|].
  destruct (match largest_acked_packet _ with Some _ => _ | None => false end); [by intros [= <- <-]|].
  intros Ha. apply obind_ret in Ha as (l & _ & Ha). apply obind_ret in Ha as ([c1 newly] & H1 & Ha).
  apply typed_ack_numbers in H1. destruct newly as [m|]; [|by simplify_eq].
  apply obind_ret in Ha as (rt & _ & Ha). apply obind_ret in Ha as (c3 & H3 & Ha). apply obind_ret in Ha as (c4 & H4 & Ha).
  simplify_eq. etrans; [exact H1|]. etrans; [|by apply typed_loss_timer]. etrans; [|by eapply typed_detect].
  etrans; [|by apply typed_path]. apply typed_space. intros [? ? Hla ? ?]. split; try done.
  cbn. intros k [= <-]. destruct (largest_acked_packet (space_of c1 id)) as [prev|]; [specialize (Hla prev eq_refl)|]; lia.
Qed.

(** *** Frames *)

Lemma typed_early_frame now id frame c c' next : frame_wf frame -> Connection.early_frame now id frame c = Ret (c', next) ->
  keeps_typed c c'.
Proof.
  intros Hwf. destruct frame; cbn [Connection.early_frame]; try (by intros [= <- <-]).
  - intros Ha. apply obind_ret in Ha as ([c1 r] & Ha & H1). simplify_eq. destruct Hwf as [[Hl _] _]. by eapply typed_on_ack.
  - set (c1 := with_space id _ c). assert (H1 : keeps_typed c c1).
    { apply typed_space. intros Hs. apply space_typed_pending; [done|]. destruct (negb _); [apply with_hello_typed|]; apply Hs. }
    set (c2 := if _ <? _ then _ else _). assert (H2 : keeps_typed c1 c2) by (unfold c2; destruct (_ <? _); [by apply typed_intro|done]).
    clearbody c2. destruct (_ && _); intros [= <- <-]; [|by etrans].
    etrans; [exact H1|]. etrans; [exact H2|]. etrans; [apply typed_state|apply typed_event].
  - intros [= <- <-]. apply typed_kill.
Qed.

Lemma typed_data_frame now id len frame c c' next : frame_wf frame -> Connection.data_frame now id len frame c = Ret (c', next) ->
  keeps_typed c c'.
Proof.
  intros Hwf. destruct frame; cbn [Connection.data_frame]; try (by intros [= <- <-]).
  - intros Ha. apply obind_ret in Ha as ([c1 r] & Ha & H1). simplify_eq. destruct Hwf as [[Hl _] _]. by eapply typed_on_ack.
  - intros Ha. apply obind_ret in Ha as ([ss res] & Ha & H1). simplify_eq. apply typed_streams. intros Hs.
    apply received_reset_send in Ha as (He & _). by eapply streams_typed_same.
  - intros [= <- <-]. apply typed_streams. destruct (StreamsState.received_stop_sending _ _) as [ss res] eqn:Hr.
    by eapply stop_sending_typed.
  - intros Ha. apply obind_ret in Ha as ([ss res] & Ha & H1). simplify_eq. apply typed_streams. intros Hs.
    apply received_frame_send in Ha as (He & _). by eapply streams_typed_same.
  - intros [= <- <-]. apply typed_kill.
  - intros [= <- <-]. by apply typed_quiet.
Qed.

Lemma typed_authenticated now id number c c' : (forall k, number = Some k -> 0 <= k) ->
  Connection.on_packet_authenticated now id number c = Ret c' -> keeps_typed c c'.
Proof.
  unfold Connection.on_packet_authenticated. destruct number as [k|]; [|by intros _ [= <-]]. intros Hk Ha.
  specialize (Hk k eq_refl). apply obind_ret in Ha as (c1 & H1 & Ha).
  assert (Hc1 : keeps_typed c c1) by (destruct (_ && _); [by eapply typed_discard|by injection H1 as <-]).
  etrans; [exact Hc1|]. clear H1 Hc1. apply obind_ret in Ha as ([a arm] & Hp & Ha).
  set (s := if _ <=? _ then _ else _) in Ha. assert (Hs : space_typed n (space_of c1 id) -> space_typed n s).
  { intros [Hrx Hr ? ? ?]. apply (packet_received_typed _ _ _ _ _ _ _ Hk Hp) in Hr. unfold s. destruct (_ <=? _); by split. }
  clearbody s. case_decide; [destruct arm; [apply obind_ret in Ha as (t & _ & Ha)|]|]; simplify_eq.
  - etrans; [by apply (typed_space SpData s)|apply typed_timers].
  - by apply typed_space.
  - rewrite with_space_twice. apply typed_space. intros []%Hs. by split.
Qed.

(** *** Datagrams *)

Section Received.
Context {B : Type} `{BufBytes B}.

Lemma typed_frame_loop fuel h (p : FrameParser B) c c' r :
  (forall frame c c' next, frame_wf frame -> h frame c = Ret (c', next) -> keeps_typed c c') ->
  Connection.frame_loop fuel h p c = Ret (c', r) -> keeps_typed c c'.
Proof.
  intros Hh. revert p c. induction fuel as [|fuel IH]; intros p c; cbn [Connection.frame_loop]; [done|].
  intros Hl. apply obind_ret in Hl as ([p' x] & Hx & Hl). destruct x as [[frame|e]|]; [|by simplify_eq..].
  apply obind_ret in Hl as ([c1 next] & Hst1 & Hl). assert (Hwf : frame_wf frame).
  { unfold FrameParser_next in Hx. destruct (_ =? 0); [by simplify_eq|].
    destruct (try_next_cases p) as [[_ Hp]|[_ (ty & res & Hp & Hres)]]; rewrite Hp in Hx; [done|].
    destruct res as [[f b]|e]; cbn in Hx; simplify_eq. apply Hres. }
  apply Hh in Hst1; [|done]. destruct next; [etrans; [exact Hst1|by apply (IH p')]|by simplify_eq].
Qed.

Lemma typed_process_packet now number (packet : Packet B) c c' r :
  Connection.process_packet now number packet c = Ret (c', r) -> keeps_typed c c'.
Proof.
  assert (Hf : forall h r0, (forall frame c c' next, frame_wf frame -> h frame c = Ret (c', next) -> keeps_typed c c') ->
    Connection.process_frames h (payload packet) c = Ret r0 -> keeps_typed c r0.1).
  { intros h [c0 r0] Hh. unfold Connection.process_frames. destruct (FrameParser_new _); [by apply typed_frame_loop|].
    by intros [= <- <-]. }
  unfold Connection.process_packet, Connection.process_early_payload, Connection.process_payload.
  destruct (Header.space (header packet)); [| |destruct number; [|by intros [= <- <-]]];
    intros Hp; apply obind_ret in Hp as ([c1 r1] & Hp & Heq); simplify_eq; apply Hf in Hp; try done;
    intros; first [eapply typed_early_frame; eassumption|eapply typed_data_frame; eassumption].
Qed.

Lemma typed_handle_packet now number (packet : Packet B) c c' : (forall k, number = Some k -> 0 <= k) ->
  Connection.handle_packet now number packet c = Ret c' -> keeps_typed c c'.
Proof.
  intros Hk. unfold Connection.handle_packet, Connection.conclude. intros Ha. apply obind_ret in Ha as (c1 & Hst1 & Ha).
  apply obind_ret in Ha as ([c2 res] & Hst2 & Ha). apply obind_ret in Ha as (c4 & Hst4 & Ha). simplify_eq.
  assert (Hc1 : keeps_typed c c1) by (destruct (negb _); [by eapply typed_authenticated|by injection Hst1 as <-]).
  apply typed_process_packet in Hst2. etrans; [exact Hc1|]. etrans; [exact Hst2|]. clear Hst1 Hc1 Hst2.
  set (c3 := match res with Ok _ => c2 | Err e => _ end) in Hst4.
  assert (Hc3 : keeps_typed c2 c3) by (unfold c3; destruct res; [done|etrans; [apply typed_event|apply typed_state]]).
  etrans; [exact Hc3|]. clearbody c3. transitivity c4; [|clear Hst4; destruct (_ && _); [apply typed_timers|done]].
  destruct (_ && _); [|by simplify_eq]. transitivity (Connection.close_common c3); [apply typed_timers|].
  destruct (negb _); [|by simplify_eq]. unfold Connection.set_close_timer in Hst4. apply obind_ret in Hst4 as (t & _ & Hst4).
  simplify_eq. apply typed_timers.
Qed.

Lemma typed_first_packet now (packet : InitialPacket B) c c' r : pn_nonneg (ih_number (ip_header packet)) ->
  Connection.handle_first_packet now packet c = Ret (c', r) -> keeps_typed c c'.
Proof.
  unfold Connection.handle_first_packet. intros Hpn Ha. apply obind_ret in Ha as (k & Hk & Ha).
  apply obind_ret in Ha as (c1 & Hst1 & Ha). etrans; [|by eapply typed_process_packet].
  eapply typed_authenticated; [|exact Hst1]. intros ? [= <-]. eapply expand_nonneg; [|exact Hpn|exact Hk]; done.
Qed.

Lemma typed_handle_data now (data : B) c c' : Connection.handle_data now data c = Ret c' -> keeps_typed c c'.
Proof.
  unfold Connection.handle_data. intros Ha Hc. apply obind_ret in Ha as (r & Hr & Ha).
  destruct r as [[h p]|]; [|by simplify_eq]. apply obind_ret in Ha as (number & Hnum & Ha).
  assert (Hk : forall k, number = Some k -> 0 <= k).
  { intros k ->. destruct (Header.number h) as [pn|] eqn:Hh; [|done]. apply obind_ret in Hnum as (e & He & Hnum).
    apply obind_ret in Hnum as (k' & Hk' & Hnum). injection Hnum as <-. apply u64_add_ret in He as [-> _].
    pose proof (st_rx _ _ (ct_spaces _ _ Hc (Header.space h))). eapply expand_nonneg; [|eapply decode_number_nonneg; eassumption|exact Hk']. lia. }
  apply obind_ret in Ha as ([d dup] & _ & Ha). set (c1 := with_space _ _ c) in Ha.
  assert (Hst1 : keeps_typed c c1) by (by apply typed_quiet). apply Hst1 in Hc. clearbody c1.
  destruct dup; [by simplify_eq|]. destruct (_ && _); [by simplify_eq|]. by apply (typed_handle_packet _ _ _ _ _ Hk Ha).
Qed.
End Received.

(** *** Transmission *)

Lemma typed_populate {W : Type} `{BufMutLaws W} now id (out out' : W) c c' sent : remaining_mut out <= VARINT_MAX ->
  Connection.populate_packet now id out c = Ret (c', sent, out') -> conn_typed n c ->
  conn_typed n c' /\ queued_packets (path c') = queued_packets (path c) /\
  Forall meta_typed (sent_stream_frames sent) /\ thin_typed n (sent_retransmits sent).
Proof.
  unfold Connection.populate_packet. intros Hout Ha Hc. apply obind_ret in Ha as ([lg out1] & Hst1 & Ha).
  apply obind_ret in Ha as ([[c1 thin] out2] & Hst2 & Ha). apply obind_ret in Ha as ([c2 out3] & Hst3 & Ha).
  assert (Hout1 : remaining_mut out1 <= VARINT_MAX).
  { destruct (negb _); [apply populate_acks_shrinks in Hst1; lia|by simplify_eq]. }
  assert (Hc1 : conn_typed n c1 /\ queued_packets (path c1) = queued_packets (path c) /\ thin_typed n thin /\
    remaining_mut out2 <= VARINT_MAX).
  { destruct (hello _); [|by simplify_eq]. apply obind_ret in Hst2 as (w1 & Hw1%shrinks_u8 & Hst2).
    apply obind_ret in Hst2 as (w2 & Hw2%shrinks_u8 & Hst2). apply obind_ret in Hst2 as (w3 & Hw3%shrinks_u8 & Hst2).
    apply obind_ret in Hst2 as (w4 & Hw4%shrinks_u8 & Hst2). simplify_eq. split; [|split_and!; [done|by split; cbn|lia]].
    revert Hc. apply typed_space. intros Hs. apply space_typed_pending; [done|]. apply with_hello_typed, Hs. }
  destruct Hc1 as (Hc1 & Hq1 & Ht & Hout2). clear Hst1 Hst2.
  assert (Hc2 : conn_typed n c2 /\ queued_packets (path c2) = queued_packets (path c) /\ remaining_mut out3 <= VARINT_MAX).
  { destruct (_ && _); [|by simplify_eq]. apply obind_ret in Hst3 as (w1 & Hw1%shrinks_u8 & Hst3). simplify_eq.
    split; [|split; [done|lia]]. revert Hc1. apply typed_space. intros Hs. apply space_typed_pending; [done|apply Hs]. }
  destruct Hc2 as (Hc2 & Hq2 & Hout3). clear Hst3. case_decide; [|by simplify_eq]. subst id.
  apply obind_ret in Ha as ([[out4 pend] thin'] & Hctl & Ha). apply obind_ret in Ha as ([[ss out5] metas] & Hw & Ha). simplify_eq.
  pose proof (write_control_shrinks _ _ _ _ _ _ _ Hctl).
  apply (write_control_typed n) in Hctl as [Hp Ht']; [|apply (ct_spaces _ _ Hc2)|done].
  apply (write_stream_frames_typed n) in Hw as [Hs Hm]; [|lia|apply (ct_streams _ _ Hc2)].
  split; [|done]. eapply typed_streams; [by intros _|]. revert Hc2. apply typed_space. intros Hs0. by apply space_typed_pending.
Qed.

Lemma typed_transmit_space now close id el c c' : Connection.transmit_space now close id el c = Ret c' -> keeps_typed c c'.
Proof.
  unfold Connection.transmit_space. intros Ha Hc. apply obind_ret in Ha as ([s k] & Htx & Ha).
  apply obind_ret in Ha as (pn & Hpn & Ha). apply obind_ret in Ha as (h & Hh & Ha). apply obind_ret in Ha as (out & Hout & Ha).
  apply obind_ret in Ha as ([[c1 sent] out1] & Hst1 & Ha). apply obind_ret in Ha as (len & _ & Ha).
  destruct (packet_header_wf id pn h) as [Hwf _]; [eapply pn_new_wf; eassumption|done|].
  destruct (emits_written _ _ _ _ (emits_header _ _ _ Hwf) Hout) as [_ Hr]. pose proof (zlen_nonneg (header_bytes h)).
  assert (Hroom : remaining_mut out <= VARINT_MAX) by (rewrite Hr; cbn -[header_bytes]; unfold INITIAL_MTU; varint_lia).
  assert (Hs : conn_typed n (with_space id s c)).
  { revert Hc. apply typed_quiet; unfold PacketSpace.get_tx_number in Htx; apply obind_ret in Htx as (? & _ & Htx);
    apply obind_ret in Htx as (? & _ & Htx); by simplify_eq. }
  assert (Hc1 : conn_typed n c1 /\ queued_packets (path c1) = queued_packets (path c) /\
    Forall meta_typed (sent_stream_frames sent) /\ thin_typed n (sent_retransmits sent)).
  { destruct close; [|by apply (typed_populate _ _ _ _ _ _ _ Hroom Hst1)].
    apply obind_ret in Hst1 as (o & _ & Hst1). simplify_eq. split; [by revert Hs; apply typed_intro|done]. }
  destruct Hc1 as (Hc1 & Hq & Hm & Ht). clear Hst1 Hs.
  set (c2 := match sent_largest_acked sent with Some _ => _ | None => c1 end) in Ha.
  assert (Hc2 : conn_typed n c2 /\ queued_packets (path c2) = queued_packets (path c1)).
  { unfold c2. destruct (sent_largest_acked sent); [|done]. split; [|done]. apply typed_timers.
    revert Hc1. by apply typed_quiet. }
  destruct Hc2 as ([Hs2 Hq2 Hst2] & Hq'). clearbody c2. simplify_eq. split; [done| |done].
  unfold queued_packets in *. cbn [path with_path sending_queue]. rewrite map_app. apply Forall_app. split; [done|].
  by apply Forall_singleton.
Qed.

Lemma typed_turn now close blocked id c b c' b' : Connection.transmit_turn now close blocked id (c, b) = Ret (c', b') ->
  keeps_typed c c'.
Proof.
  unfold Connection.transmit_turn. destruct (_ && _); [by intros [= <- <-]|]. intros Ha.
  apply obind_ret in Ha as (c1 & Hst1 & Ha). transitivity c1; [destruct (_ && _); [by eapply typed_discard|by simplify_eq]|].
  destruct (_ && blocked); [simplify_eq; by apply typed_intro|]. apply obind_ret in Ha as (c2 & Hst2 & Ha). simplify_eq.
  by eapply typed_transmit_space.
Qed.

Lemma typed_poll now c c' again : Connection.poll_transmit now c = Ret (c', again) -> keeps_typed c c'.
Proof.
  unfold Connection.poll_transmit. destruct (match c_state c with Drained => None | _ => _ end); [|by intros [= <- <-]].
  intros Ha. apply obind_ret in Ha as ([c3 any] & Ht & Ha). unfold Connection.transmit_turns in Ht.
  apply obind_ret in Ht as ([c1 b1] & Hst1 & Ht). apply obind_ret in Ht as ([c2 b2] & Hst2 & Hst3).
  etrans; [by eapply typed_turn|]. etrans; [by eapply typed_turn|]. etrans; [by eapply typed_turn|].
  destruct (negb any); simplify_eq; [done|by apply typed_intro].
Qed.
End ConnOps.

(** *** Sending *)

Lemma typed_send_one n io c p' s' i : NetworkPath.send_one io (spaces c) (path c) = Ret (p', s', i) ->
  keeps_typed n c (with_spaces s' (with_path p' c)).
Proof.
  intros Ha [Hs Hq Hst]. apply send_one_fields in Ha. unfold queued_packets in *.
  destruct (sending_queue (path c)) as [|x queue] eqn:Hqu.
  { destruct Ha as (-> & -> & _). split; try done. unfold queued_packets. by rewrite <- Hqu in Hq. }
  destruct Ha as (t & f & sp & m & _ & _ & Hm & Hq' & _ & _ & _ & _ & Hsent & -> & _).
  cbn [map] in Hq. apply Forall_cons in Hq as [Hx Hq].
  split; [|unfold queued_packets; cbn [path with_spaces with_path]; by rewrite Hq'|done].
  intros id. unfold space_of. cbn [spaces with_spaces]. rewrite get_set_space. case_decide as Hid; [|apply Hs]. subst id.
  specialize (Hs (space_id m)). unfold space_of in Hs. unfold PacketSpace.sent in Hsent.
  apply obind_ret in Hsent as ([l tl] & _ & Hsent). apply obind_ret in Hsent as (k & _ & Hsent). simplify_eq.
  destruct Hs. split; try done. cbn. apply map_Forall_insert_2; [|done]. by destruct Hx.
Qed.

Lemma typed_send_loop n fuel io c c' : Driver.send_loop fuel io c = Some (Ret c') -> keeps_typed n c c'.
Proof.
  revert io c. induction fuel as [|fuel IH]; intros io c; cbn [Driver.send_loop]; [done|].
  destruct (NetworkPath.send_one _ _ _) as [[[p s] info]|] eqn:Hs; [|done]. apply (typed_send_one n) in Hs.
  destruct info as [info|]; [|by intros [= <-]].
  destruct (if psi_ack_eliciting info then _ else _) as [c2|] eqn:H2; [|done]. intros Hl. apply IH in Hl.
  etrans; [exact Hs|]. etrans; [|exact Hl]. destruct (psi_ack_eliciting info); [by apply typed_loss_timer|by simplify_eq].
Qed.

Lemma typed_send_queued n io c c' : Driver.send_queued io c = Ret c' -> keeps_typed n c c'.
Proof.
  unfold Driver.send_queued. destruct (Driver.send_loop _ _ _) as [[c1|]|] eqn:Hl; cbn; [|done..].
  intros [= <-]. by apply (typed_send_loop n) in Hl.
Qed.

Lemma typed_burst n k now c c' : 0 <= total n -> Driver.burst k now c = Ret c' -> keeps_typed n c c'.
Proof.
  intros Hn. revert c. induction k as [|k IH]; intros c; cbn [Driver.burst]; [by intros [= ->]|].
  intros Ha. apply obind_ret in Ha as ([c1 again] & H1 & Ha). etrans; [by eapply typed_poll|].
  destruct again; [auto|by simplify_eq].
Qed.

(** *** The application *)

Lemma typed_handle n n' ss p c : grows n n' -> conn_typed n c -> streams_typed n' ss -> retransmits_typed n' p ->
  conn_typed n' (Connection.with_handle ss p c).
Proof.
  intros Hg [Hs Hq _] Hss Hp. split; [| |exact Hss].
  - intros id. unfold Connection.with_handle. rewrite space_of_with.
    pose proof (fun i => space_typed_grows n n' _ Hg (Hs i)) as Hs'.
    case_decide; [subst; by apply space_typed_pending|apply Hs'].
  - eapply Forall_impl; [exact Hq|]. intros m. by apply packet_typed_grows.
Qed.

Lemma finish_of_grows id s n : grows n (finish_of id s n).
Proof. unfold finish_of, grows. destruct (ss_send s !! id); [cbn|]; auto. Qed.

Lemma written_by_grows op c n : grows n (written_by op c n).
Proof.
  destruct op; cbn; try exact (fun x Hx => Hx); [apply finish_of_grows|]. unfold grows. cbn. set_solver.
Qed.

Lemma typed_app n op c c' : 0 <= total n -> op_typed op -> total n + op_bytes op <= VARINT_MAX -> run_app op c = Ret c' ->
  conn_typed n c -> conn_typed (written_by op c n) c'.
Proof.
  intros Hn Hop Hmax Hr Hc. pose proof (st_pending _ _ (ct_spaces _ _ Hc SpData)) as Hp. pose proof (ct_streams _ _ Hc) as Hs.
  assert (Hassert : forall (b : bool) A (k : outcome A) r, (let! _ := assert b in k) = Ret r -> k = Ret r) by (by intros []).
  assert (Hrecv : forall ss', ss_send ss' = ss_send (c_streams c) -> conn_typed n (Connection.with_handle ss' (Space.pending (space_of c SpData)) c)).
  { intros ss' He. eapply (typed_handle n n); [done|exact Hc| |exact Hp]. by eapply streams_typed_same. }
  pose proof (written_by_grows op c n) as Hg.
  destruct op as [now code reason|dir|id data|id|id code|id prio|id ordered sizes|id code|id]; cbn [run_app op_bytes written_by] in *;
    unfold Connection.send_stream, Connection.recv_stream in Hr.
  - unfold Connection.close in Hr. destruct (negb _); [|by simplify_eq]. apply obind_ret in Hr as (c1 & H1 & Hr). simplify_eq.
    unfold Connection.set_close_timer in H1. apply obind_ret in H1 as (t & _ & H1). simplify_eq. revert Hc. by apply typed_intro.
  - unfold Connection.open_stream in Hr. destruct (State.is_closed _); [done|]. apply obind_ret in Hr as ([c1 id] & H1 & Hr).
    apply obind_ret in H1 as ([ss id'] & H1 & Ho). simplify_eq. revert Hc. apply typed_streams. by apply (open_typed n Hn _ _ _ _ H1).
  - apply obind_ret in Hr as ([[ss p] closed] & H1 & Hr). apply Hassert in H1. simplify_eq.
    apply obind_ret in Hr as ([ss res] & Hw & Hr). simplify_eq. destruct Hop as [Hid Hne].
    eapply typed_handle; [exact Hg|exact Hc|exact (write_typed n Hn _ _ _ _ _ _ Hid Hne Hmax Hw Hs)|by eapply retransmits_typed_grows].
  - apply obind_ret in Hr as ([[ss p] closed] & H1 & Hr). apply Hassert in H1. simplify_eq.
    apply obind_ret in Hr as ([ss res] & Hw & Hr). simplify_eq. eapply typed_handle; [exact Hg|exact Hc|exact (finish_typed n _ _ _ _ Hw Hs)|by eapply retransmits_typed_grows].
  - apply obind_ret in Hr as ([[ss p] closed] & H1 & Hr). apply Hassert in H1. simplify_eq.
    destruct (SendStream.reset _ _ _ _) as [[ss p] res] eqn:Hreset. simplify_eq. destruct Hop as [Hid Hcode].
    destruct (reset_typed_step n Hn _ _ _ _ _ _ _ Hid Hcode Hreset Hs Hp). by eapply typed_handle; [exact Hg|exact Hc|..].
  - apply obind_ret in Hr as ([[ss p] closed] & H1 & Hr). apply Hassert in H1. simplify_eq.
    destruct (SendStream.set_priority _ _ _) as [ss res] eqn:Hprio. simplify_eq.
    eapply typed_handle; [exact Hg|exact Hc|exact (priority_typed n _ _ _ _ _ Hprio Hs)|exact Hp].
  - apply obind_ret in Hr as ([ss p] & H1 & Hr). apply Hassert in H1. simplify_eq.
    apply obind_ret in Hr as ([ss [chunks|e]] & Hread & Hr).
    all: assert (He : ss_send ss = ss_send (c_streams c)) by (destruct (recv_handles_send (c_streams c) ss) as [? _]; eauto 10).
    + apply obind_ret in Hr as (chunks' & _ & Hr). simplify_eq. apply Hrecv. rewrite <- He.
      destruct (recv_handles_send ss (RecvStream.drop chunks' ss)) as [? _]; eauto 10.
    + simplify_eq. by apply Hrecv.
  - apply obind_ret in Hr as ([ss p] & H1 & Hr). apply Hassert in H1. simplify_eq.
    apply obind_ret in Hr as ([[ss p] res] & Hstop & Hr). simplify_eq. destruct Hop as [Hid Hcode].
    destruct (recv_handles_send (c_streams c) ss) as [He _]; [eauto 12|].
    eapply typed_handle; [exact Hg|exact Hc|by eapply streams_typed_same|exact (stop_pending_typed n _ _ _ _ _ _ _ Hid Hcode Hstop Hp)].
  - apply obind_ret in Hr as ([ss p] & H1 & Hr). apply Hassert in H1. simplify_eq.
    destruct (RecvStream.received_reset _ _) as [ss res] eqn:Hreset. simplify_eq. apply Hrecv.
    destruct (recv_handles_send (c_streams c) ss) as [He _]; [eauto 12|done].
Qed.

Lemma written_by_total op c n : total (written_by op c n) = total n + op_bytes op.
Proof. destruct op as [| | |id| | | | |]; cbn; try lia. unfold finish_of. destruct (ss_send _ !! id); cbn; lia. Qed.

Lemma typed_app_ops n ops c c' : 0 <= total n -> Forall op_typed ops -> total n + ops_bytes ops <= VARINT_MAX ->
  run_app_ops ops c = Ret c' -> conn_typed n c -> conn_typed (written_by_ops ops c n) c'.
Proof.
  intros Hn Hops. revert n c Hn. induction Hops as [|op ops Hop Hops IH]; intros n c Hn Hmax; cbn [run_app_ops written_by_ops].
  { by intros [= ->] Hc. }
  intros Ha Hc. apply obind_ret in Ha as (c1 & H1 & Ha). rewrite H1. change (ops_bytes (op :: ops)) with (op_bytes op + ops_bytes ops) in *.
  pose proof (op_bytes_nonneg op). pose proof (ops_bytes_nonneg ops). pose proof (written_by_total op c n).
  apply (IH _ c1); [lia|lia|done|]. eapply typed_app; [exact Hn|exact Hop|lia|exact H1|exact Hc].
Qed.

Lemma written_by_ops_total ops c n : total n <= total (written_by_ops ops c n).
Proof.
  revert c n. induction ops as [|op ops IH]; intros c n; cbn; [lia|]. destruct (run_app op c) as [c'|]; [|lia].
  pose proof (op_bytes_nonneg op). pose proof (written_by_total op c n). specialize (IH c' (written_by op c n)). lia.
Qed.

(** ** Every connection is typed *)

Section Rounds.
Context {B : Type} `{BufBytes B}.

(** What the application writes when it handles an event in a round. *)
Definition written_in (r : Round B) (c : Connection) (n : Written) : Written :=
  match (let! c := Driver.burst Driver.MAX_SPINS (r_now r) c in Driver.send_queued (r_io r) c) with
  | Panic => n
  | Ret c =>
      match Driver.take_event c with
      | Some (_, c) => written_by_ops (r_ops r) c n
      | None => n
      end
  end.

Lemma typed_no_event n (r : Round B) c c' : Driver.take_event c = None -> Driver.select r c = Ret c' -> keeps_typed n c c'.
Proof.
  unfold Driver.select. intros -> Hr Hc. apply obind_ret in Hr as ([t fired] & _ & Hr). apply (typed_timers n t) in Hc.
  destruct fired as [timer|].
  - destruct timer; cbn in Hr; simplify_eq; try done; [by apply (typed_timeout n _ _ _ Hr)|by apply typed_state|].
    revert Hc. by apply typed_quiet.
  - destruct (r_data r) as [[now data]|]; [|by simplify_eq]. by apply (typed_handle_data n _ _ _ _ Hr).
Qed.

Lemma typed_event_taken n c e c' : Driver.take_event c = Some (e, c') -> keeps_typed n c c'.
Proof.
  unfold Driver.take_event. destruct (events (c_streams c)); [done|]. intros [= _ <-]. apply typed_streams. intros Hs. by eapply streams_typed_same.
Qed.

Lemma typed_select n (r : Round B) c c' : 0 <= total n -> Forall op_typed (r_ops r) -> total n + ops_bytes (r_ops r) <= VARINT_MAX ->
  Driver.select r c = Ret c' -> conn_typed n c ->
  conn_typed (match Driver.take_event c with Some (_, c) => written_by_ops (r_ops r) c n | None => n end) c'.
Proof.
  intros Hn Hops Hmax Hr Hc. destruct (Driver.take_event c) as [[e c1]|] eqn:He; [|by apply (typed_no_event n r c)].
  unfold Driver.select in Hr. rewrite He in Hr. eapply typed_app_ops; [exact Hn|exact Hops|exact Hmax|exact Hr|by apply (typed_event_taken n _ _ _ He)].
Qed.

Lemma typed_round n (r : Round B) c c' : 0 <= total n -> Forall op_typed (r_ops r) -> total n + ops_bytes (r_ops r) <= VARINT_MAX ->
  c_state c <> Drained -> Driver.round r c = Ret c' -> conn_typed n c -> conn_typed (written_in r c n) c'.
Proof.
  intros Hn Hops Hmax Hd. unfold Driver.round, written_in. assert (State.is_drained (c_state c) = false) as -> by (by destruct (c_state c)).
  intros Hr Hc. apply obind_ret in Hr as (c1 & Hb & Hr). apply obind_ret in Hr as (c2 & Hs & Hr). rewrite Hb. cbn [obind]. rewrite Hs.
  eapply typed_select; [exact Hn|exact Hops|exact Hmax|exact Hr|]. apply (typed_send_queued _ _ _ _ Hs). by apply (typed_burst _ _ _ _ _ Hn Hb).
Qed.

Definition nothing_written : Written := mkWritten 0 (fun _ => []) (fun _ => None) [].

(** The connections of clients and servers whose first packet came off the
    wire, after any rounds in which the application did what its types allow,
    with what it wrote. *)
Inductive typed_reachable : Written -> Connection -> Prop :=
| tr_client now c : Connection.new now Client = Ret c -> typed_reachable nothing_written c
| tr_server now now' (data p : B) h c c' : Connection.new now Server = Ret c ->
    Header.decode data (zlen FAKE_CID) SUPPORTED_VERSIONS = Ret (Ok (HInitial h, p)) ->
    Connection.handle_first_packet now' {| ip_header := h; ip_payload := p |} c = Ret (c', Ok tt) -> typed_reachable nothing_written c'
| tr_round n (r : Round B) c c' : typed_reachable n c -> c_state c <> Drained -> Forall op_typed (r_ops r) ->
    total n + ops_bytes (r_ops r) <= VARINT_MAX -> Driver.round r c = Ret c' -> typed_reachable (written_in r c n) c'.

Lemma typed_reachable_reachable n c : typed_reachable n c -> Driver.reachable (B:=B) c.
Proof.
  induction 1; [by eapply Driver.reachable_client|by eapply Driver.reachable_server|by eapply Driver.reachable_round].
Qed.

Lemma conn_typed_new n now side c : Connection.new now side = Ret c -> conn_typed n c.
Proof.
  unfold Connection.new. intros Ha. apply obind_ret in Ha as (p & Hp & Ha).
  assert (Hq : queued_packets p = []).
  { unfold NetworkPath.new in Hp. apply obind_ret in Hp as (? & _ & Hp). by injection Hp as <-. }
  set (c0 := mkConnection _ _ _ _ _ _ _ _ _) in Ha. assert (Hc : conn_typed n c0).
  { split; [intros []; apply space_typed_new|cbn; by rewrite Hq|apply streams_typed_new]. }
  destruct side; simplify_eq; [|done]. revert Hc. apply typed_space. intros Hs. apply space_typed_pending; [done|]. apply with_hello_typed, Hs.
Qed.

Lemma typed_reachable_nonneg n c : typed_reachable n c -> 0 <= total n.
Proof.
  induction 1 as [| |n r c c' _ IH _ _ _ _]; [done..|]. unfold written_in. destruct (obind _ _) as [c1|]; [|done].
  destruct (Driver.take_event c1) as [[e c2]|]; [|done]. pose proof (written_by_ops_total (r_ops r) c2 n). lia.
Qed.

Lemma reachable_typed n c : typed_reachable n c -> conn_typed n c.
Proof.
  induction 1 as [now c Hnew|now now' data p h c c' Hnew Hd Hf|n r c c' Hr IH Hd Hops Hmax Hround].
  - by eapply conn_typed_new.
  - apply (typed_first_packet nothing_written now' _ c c' _) in Hf; [|exact (decode_number_nonneg _ _ _ _ _ _ Hd eq_refl)]. apply Hf. by eapply conn_typed_new.
  - eapply typed_round; [by eapply typed_reachable_nonneg|exact Hops|exact Hmax|exact Hd|exact Hround|exact IH].
Qed.
End Rounds.

(** C6: Every connection is well-typed.  Over any rounds, with any datagrams and
    timeouts, as long as the application hands over stream identifiers and
    error codes of their types, writes that are not empty, and no more bytes
    than an offset can count: the
    sets of ranges are sorted and disjoint, packet numbers are not negative,
    the queued resets and stops hold codes that a varint can carry, and name
    streams that the application reset; what is recorded of packets lies within
    64 bits; the books of every send buffer balance, its offset counts the
    bytes that the application wrote to the stream, and what it holds are the
    last of its writes, none of them cut; and a FIN is pending only where the
    application finished the stream at its present length. *)
Theorem connections_are_typed {B : Type} `{BufBytes B} (n : Written) (c : Connection) :
  typed_reachable (B:=B) n c -> conn_typed n c.
Proof. apply reachable_typed. Qed.

(** A packet of a server: CRYPTO in an Initial packet. *)
Definition initial_datagram : list Z :=
  [192; 0; 0; 0; 1; 20] ++ FAKE_CID ++ [20] ++ FAKE_CID ++ [0; 1; 0; 6; 0; 1; 0].

Definition memory_round (now : Instant) (ops : list app_op) (data : option in_memory) : Round in_memory :=
  mkRound now (fun _ => Some (now + 1)) ops (now + 2) (now + 3) ((fun d => (now + 4, d)) <$> data).

(** A client whose application wrote two bytes once it was connected. *)
Definition writing_client : outcome Connection :=
  let! c := Connection.new 0 Client in
  let! c := Driver.round (memory_round 10 [] (Some (InMemory initial_datagram eq_refl))) c in
  Driver.round (memory_round 20 [AppOpen Bi; AppWrite 0 [104; 105]] None) c.

Lemma writing_client_reachable c : writing_client = Ret c ->
  exists n, typed_reachable (B:=in_memory) n c /\ wrote n 0 = [104; 105].
Proof.
  unfold writing_client. intros Ha. apply obind_ret in Ha as (c0 & H0 & Ha). apply obind_ret in Ha as (c1 & H1 & Ha).
  assert (Hr : typed_reachable (B:=in_memory) nothing_written c1 /\ c_state c1 = Established).
  { split; [|vm_compute in H0; injection H0 as <-; vm_compute in H1; injection H1 as <-; reflexivity].
    apply (tr_round nothing_written _ c0 c1 (tr_client 0 c0 H0)) in H1; [|vm_compute in H0; by injection H0 as <-|by constructor|done].
    replace (written_in _ c0 nothing_written) with nothing_written in H1; [exact H1|].
    vm_compute in H0. injection H0 as <-. vm_compute. reflexivity. }
  destruct Hr as [Hr Hst]. pose proof Ha as Hround. apply (tr_round _ _ c1 c Hr) in Ha; [|by rewrite Hst|by repeat constructor|done].
  eexists. split; [exact Ha|]. vm_compute in H0. injection H0 as <-. vm_compute in H1. injection H1 as <-. vm_compute. reflexivity.
Qed.

Lemma connections_are_typed_witness : exists c n, writing_client = Ret c /\ conn_typed n c /\ wrote n 0 = [104; 105].
Proof.
  destruct writing_client as [c|] eqn:Hc; [|exfalso; vm_compute in Hc; discriminate].
  destruct (writing_client_reachable c Hc) as (n & Hr & Hn).
  exists c, n. split; [reflexivity|]. exact (conj (connections_are_typed (B:=in_memory) n c Hr) Hn).
Defined.
