(* ===== verification/Wire.v ===== *)
(** * Wire: what a connection writes, its peer reads

    The packets that a connection queues, seen from the other end: the header
    decodes to the space and the number of the packet, the payload parses
    without an error, and its frames are the ones that the record of the
    packet speaks of, which is what the sender will go by when the packet is
    acknowledged or lost. *)
From S2P Require Import Prelude Time Buffers Varint Common ArrayRangeSet RangeSet Packet Frame Timer Space Path Send Recv Streams Connection Accounting Driver Typed.

(** ** Frames in a payload *)

Section Frames.
Context {B : Type} `{BufBytes B}.

(** The bytes are those of the frames, one after the other. *)
Inductive carries : list Z -> list Frame -> Prop :=
| carries_nil : carries [] []
| carries_cons bs f bss fs : parses (B:=B) bs f -> carries bss fs -> carries (bs ++ bss) (f :: fs).

Lemma carries_app b1 f1 b2 f2 : carries b1 f1 -> carries b2 f2 -> carries (b1 ++ b2) (f1 ++ f2).
Proof. induction 1 as [|bs f bss fs Hp _ IH]; [done|]. intros H2. rewrite <- app_assoc. cbn. constructor; auto. Qed.

Lemma carries_one bs f : parses (B:=B) bs f -> carries bs [f].
Proof. intros Hp. rewrite <- (app_nil_r bs). by constructor; [|constructor]. Qed.

Lemma parse_carried fuel bs fs : carries bs fs -> forall p : FrameParser B,
  view (fp_bytes p) = bs -> (length bs < fuel)%nat -> parse_all fuel p = Ret (map Ok fs).
Proof.
  intros Hc. revert fuel. induction Hc as [|bs f bss fs Hp Hc IH]; intros [|fuel] p Hv Hf; try lia; cbn [parse_all].
  - unfold FrameParser_next. by rewrite remaining_view, Hv.
  - destruct (Hp p bss Hv) as (ty & b' & Ht & Hb'). unfold FrameParser_next at 1. rewrite remaining_view, Hv.
    destruct (try_next_cases p) as [[_ Hpanic]|[_ (ty' & r & Ht' & Hr)]]; [congruence|].
    rewrite Ht in Ht'. injection Ht' as <- <-. destruct Hr as (_ & pre & Hpre & Hsplit).
    rewrite Hv, Hb' in Hsplit. apply app_inv_tail in Hsplit. subst pre.
    assert ((zlen (bs ++ bss) =? 0) = false) as ->.
    { apply Z.eqb_neq. rewrite zlen_app. pose proof (zlen_nonneg bss). unfold zlen at 1. lia. }
    rewrite Ht. cbn [obind]. rewrite (IH fuel); [done|done|]. rewrite length_app in Hf. lia.
Qed.

Lemma parse_payload_carried bs fs (payload : B) : carries bs fs -> fs <> [] -> view payload = bs ->
  parse_payload payload = Ret (Ok (map Ok fs)).
Proof.
  intros Hc Hne Hv. unfold parse_payload, FrameParser_new. rewrite remaining_view, Hv.
  pose proof (parse_carried (S (length bs)) bs fs Hc {| fp_bytes := payload; fp_last_ty := None |} Hv ltac:(lia)) as Hp.
  destruct (Z.eqb_spec (zlen bs) 0) as [Hz|_]; [|by rewrite Hp].
  apply zlen_0 in Hz. rewrite Hz in Hv. destruct fs; [done|]. cbn [parse_all] in Hp. unfold FrameParser_next in Hp.
  cbn [fp_bytes] in Hp. by rewrite remaining_view, Hv in Hp.
Qed.

(** The first range of an ACK frame ends at its largest number. *)
Lemma ack_ranges_head a lo hi rs : ack_ranges a = Ret ((lo, hi) :: rs) -> hi = ack_largest a.
Proof.
  unfold ack_ranges. destruct (S (length (ack_additional a))) as [|fuel]; [done|]. cbn [AckIter_collect]. intros Ha.
  apply obind_ret in Ha as ([it x] & Hx & Ha). destruct x as [x|]; [|done]. apply obind_ret in Ha as (rest & _ & Ha).
  injection Ha as -> _. unfold AckIter_next in Hx. destruct (_ =? 0); [done|]. apply obind_ret in Hx as (r & _ & Hx).
  destruct r as [[block data]|]; [|done]. apply obind_ret in Hx as (r2 & _ & Hx). apply obind_ret in Hx as (it2 & _ & Hx).
  apply obind_ret in Hx as (lo2 & _ & Hx). by injection Hx as _ _ <-.
Qed.

(** ** Writers of frames *)

Section Writers.
Context {W : Type} `{BufMutLaws W}.

(** From [w] to [w'] exactly the frames were written. *)
Definition appends (w w' : W) (fs : list Frame) : Prop :=
  exists bs, written w' = written w ++ bs /\ remaining_mut w' = remaining_mut w - zlen bs /\ carries bs fs.

Lemma appends_nil w : appends w w [].
Proof. exists []. rewrite app_nil_r, zlen_nil, Z.sub_0_r. split_and!; [done..|constructor]. Qed.

Lemma appends_trans w1 w2 w3 f1 f2 : appends w1 w2 f1 -> appends w2 w3 f2 -> appends w1 w3 (f1 ++ f2).
Proof.
  intros (b1 & Hw1 & Hr1 & Hc1) (b2 & Hw2 & Hr2 & Hc2). exists (b1 ++ b2).
  rewrite Hw2, Hw1, Hr2, Hr1, zlen_app, app_assoc. split_and!; [done|lia|by apply carries_app].
Qed.

Lemma appends_room w w' fs : appends w w' fs -> remaining_mut w' <= remaining_mut w.
Proof. intros (bs & _ & -> & _). pose proof (zlen_nonneg bs). lia. Qed.

Lemma encodes_appends enc f w w' : encodes (B:=B) enc f -> enc w = Ret w' -> appends w w' [f].
Proof.
  intros (bs & He & Hp) Hw. destruct (emits_written _ _ _ _ He Hw) as [Hw' Hr]. exists bs.
  split_and!; [done..|by apply carries_one].
Qed.

Lemma put_varint_ret v (w w' : W) : put_varint v w = Ret w' -> v <= VARINT_MAX.
Proof. intros Hw. destruct (Z.le_gt_cases v VARINT_MAX); [done|]. by rewrite put_varint_panic in Hw by lia. Qed.

(** A reset of a stream that wrote to its end. *)
Lemma reset_appends x (w w' : W) : 0 <= rs_id x -> is_varint (rs_error_code x) -> 0 <= rs_final_offset x ->
  encode_reset_stream x w = Ret w' -> appends w w' [FResetStream x].
Proof.
  intros Hid Hc Ho Hw. assert (Hmax : rs_id x <= VARINT_MAX /\ rs_final_offset x <= VARINT_MAX).
  { pose proof Hw as Hr. unfold encode_reset_stream in Hr. apply obind_ret in Hr as (w1 & _ & Hr).
    apply obind_ret in Hr as (w2 & Hput & Hr). apply obind_ret in Hr as (w3 & _ & Hr).
    by apply put_varint_ret in Hput, Hr. }
  eapply encodes_appends; [|exact Hw]. apply encodes_reset_stream; [split; [done|apply Hmax]|done|split; [done|apply Hmax]].
Qed.

Lemma stop_appends x (w w' : W) : stop_typed x -> encode_stop_sending x w = Ret w' -> appends w w' [FStopSending x].
Proof.
  intros [Hid Hc] Hw. assert (Hmax : ss_id x <= VARINT_MAX).
  { pose proof Hw as Hr. unfold encode_stop_sending in Hr. apply obind_ret in Hr as (w1 & _ & Hr).
    apply obind_ret in Hr as (w2 & Hput & _). by apply put_varint_ret in Hput. }
  eapply encodes_appends; [|exact Hw]. by apply encodes_stop_sending.
Qed.

(** *** Control frames *)

Definition reset_frame (send : gmap StreamId Send) (x : StreamId * Z) : Frame :=
  FResetStream {| rs_id := x.1; rs_error_code := x.2;
                  rs_final_offset := match send !! x.1 with Some ss => Send.stream_offset ss | None => 0 end |}.

Lemma resets_append n queue sent send (w w' : W) queue' sent' :
  StreamsState.write_resets queue sent send w = Ret (queue', sent', w') -> Forall (reset_typed n) queue ->
  map_Forall (fun _ ss => 0 <= Send.stream_offset ss) send ->
  exists l, sent' = sent ++ l /\ appends w w' (map (reset_frame send) l).
Proof.
  intros Hw Hq Hs. revert sent sent' w Hw. induction Hq as [|[id code] queue (Hid & Hcode & _) Hq IH]; intros sent sent' w; cbn; destruct (_ <? _).
  all: try (intros [= <- <- <-]; exists []; rewrite app_nil_r; split; [done|apply appends_nil]).
  destruct (send !! id) as [ss|] eqn:Hss; [|by apply IH]. intros Hw. apply obind_ret in Hw as (w1 & Hst1 & Hw).
  apply IH in Hw as (l & -> & Hl). exists ((id, code) :: l). rewrite <- app_assoc. split; [done|].
  cbn [map]. change (?f :: ?l) with ([f] ++ l). eapply appends_trans; [|exact Hl].
  unfold reset_frame. cbn. rewrite Hss. eapply reset_appends; [exact Hid|exact Hcode|by apply (Hs _ _ Hss)|exact Hst1].
Qed.

Lemma stops_append queue sent (w w' : W) queue' sent' :
  StreamsState.write_stops queue sent w = Ret (queue', sent', w') -> Forall stop_typed queue ->
  exists l, sent' = sent ++ l /\ appends w w' (map FStopSending l).
Proof.
  intros Hw Hq. revert sent sent' w Hw. induction Hq as [|x queue Hx Hq IH]; intros sent sent' w; cbn; destruct (_ <? _).
  all: try (intros [= <- <- <-]; exists []; rewrite app_nil_r; split; [done|apply appends_nil]).
  intros Hw. apply obind_ret in Hw as (w1 & Hst1 & Hw). apply IH in Hw as (l & -> & Hl).
  exists (x :: l). rewrite <- app_assoc. split; [done|]. cbn [map]. change (?f :: ?l) with ([f] ++ l).
  eapply appends_trans; [|exact Hl]. by apply stop_appends.
Qed.

(** *** STREAM frames *)

(** The frame that a record of stream data stands for, given the streams at
    the time the packet was written. *)
Definition stream_frame (s : StreamsState) (m : StreamMeta) (f : Frame) : Prop :=
  let r := sm_offsets m in
  exists ss, ss_send s !! sm_id m = Some ss /\ 0 <= rstart r <= rend r /\
    (rstart r < rend r -> base (pending ss) <= rstart r) /\ rend r <= offset (pending ss) /\
    (sm_fin m = true -> fin_pending ss = true /\ rend r = offset (pending ss)) /\
    (rstart r < rend r \/ sm_fin m = true) /\
    f = FStream {| st_id := sm_id m; st_offset := rstart r; st_fin := sm_fin m; st_data := stream_slice (pending ss) r |}.

(** No stream holds the data of two writes. *)
Definition whole_writes (s : StreamsState) : Prop :=
  map_Forall (fun _ ss => (length (unacked_segments (pending ss)) <= 1)%nat) (ss_send s).

(** The same streams with the same data; what was sent may differ. *)
Definition same_data (s s' : StreamsState) : Prop :=
  forall id, option_Forall2 (fun ss ss' => unacked_segments (pending ss') = unacked_segments (pending ss) /\
    base (pending ss') = base (pending ss) /\ offset (pending ss') = offset (pending ss) /\
    (fin_pending ss' = true -> fin_pending ss = true)) (ss_send s !! id) (ss_send s' !! id).

Lemma same_data_refl s : same_data s s.
Proof. intros id. by destruct (ss_send s !! id); constructor. Qed.

Lemma same_data_trans s1 s2 s3 : same_data s1 s2 -> same_data s2 s3 -> same_data s1 s3.
Proof.
  intros H1' H2' id. specialize (H1' id). specialize (H2' id). destruct H1' as [ss1 ss2 (E1 & E2 & E3 & E4)|]; inversion H2' as [? ss3 (E5 & E6 & E7 & E8)|]; subst.
  - constructor. split_and!; [congruence..|auto].
  - constructor.
Qed.

Lemma same_data_whole s s' : same_data s s' -> whole_writes s -> whole_writes s'.
Proof.
  intros Hd Hw id ss' Hss'. specialize (Hd id). rewrite Hss' in Hd. inversion Hd as [ss ? (E & _) Hss|]; subst.
  cbn. rewrite E. by apply (Hw id ss).
Qed.

Lemma same_data_frame s s' m f : same_data s s' -> stream_frame s' m f -> stream_frame s m f.
Proof.
  intros Hd (ss' & Hss' & Hr & Hin & Hmax & Hfin & Hsome & ->). specialize (Hd (sm_id m)). rewrite Hss' in Hd.
  inversion Hd as [ss ? (E1 & E2 & E3 & E4) Hss|]; subst. rewrite E2 in Hin. rewrite E3 in Hmax, Hfin.
  exists ss. split; [done|]. split; [done|]. split; [done|]. split; [done|]. split; [intros Hm; destruct (Hfin Hm); auto|]. split; [done|]. by rewrite (stream_slice_ext (pending ss) (pending ss') _ E1 E2).
Qed.

(** A STREAM frame of one stream. *)
Lemma stream_frame_appends ss rng enc fin id data (w w1 w2 : W) : send_inv (pending ss) -> 0 <= id ->
  0 <= rstart rng <= rend rng -> rend rng <= VARINT_MAX -> zlen data = rend rng - rstart rng ->
  (enc = false -> rend rng - rstart rng + reserved (rstart rng) false = remaining_mut w) ->
  let m := {| sm_id := id; sm_offsets := rng; sm_fin := fin |} in
  encode_stream_meta m enc w = Ret w1 -> (if negb (range_is_empty rng) then put_slice data w1 else Ret w1) = Ret w2 ->
  appends w w2 [FStream {| st_id := id; st_offset := rstart rng; st_fin := fin; st_data := data |}].
Proof.
  intros Hi Hid Hr Hmax Hlen Hfull m Hw1 Hw2.
  assert (Hidv : is_varint id).
  { split; [done|]. pose proof Hw1 as Ha. unfold encode_stream_meta in Ha. apply obind_ret in Ha as (a & _ & Ha).
    apply obind_ret in Ha as (b & Hput & _). by apply put_varint_ret in Hput. }
  assert (Hh : emits (W:=W) (encode_stream_meta m enc) (stream_header m enc)) by (apply emits_stream_header; cbn; [done|split; lia..]).
  destruct (emits_written _ _ _ _ Hh Hw1) as [Hwr1 Hr1].
  assert (Hput : put_slice data w1 = Ret w2 \/ data = [] /\ w2 = w1).
  { unfold range_is_empty in Hw2. destruct (Z.ltb_spec (rstart rng) (rend rng)); cbn in Hw2; [by left|].
    right. injection Hw2 as <-. split; [|done]. apply zlen_0. lia. }
  destruct enc; cycle 1.
  { exfalso. specialize (Hfull eq_refl). pose proof (stream_header_length m false) as Hlh. cbn [sm_id sm_offsets m] in Hlh.
    pose proof (varint_bytes_length id Hidv). assert (Hover : remaining_mut w1 < zlen data) by lia.
    destruct Hput as [Hput|[-> _]]; [by rewrite put_slice_panic in Hput|].
    rewrite zlen_nil in Hover. pose proof (remaining_mut_nonneg w1). lia. }
  destruct (encodes_stream (B:=B) (W:=W) m data Hidv) as (bs & Hbs & Hparse); [split; cbn; lia|cbn; lia|split; lia|].
  assert (Hw2' : exists w2', put_slice data w1 = Ret w2' /\ written w2' = written w2 /\ remaining_mut w2' = remaining_mut w2).
  { destruct Hput as [Hput|[-> ->]]; [by exists w2|]. destruct (put_slice_ok [] w1) as (w2' & Hp & Hwr & Hrm); [apply remaining_mut_nonneg|].
    exists w2'. rewrite Hwr, Hrm, app_nil_r, zlen_nil, Z.sub_0_r. done. }
  destruct Hw2' as (w2' & Hp & Hwr & Hrm). exists bs. rewrite <- Hwr.
  assert (Hboth : encode_stream m data w = Ret w2') by (unfold encode_stream; by rewrite Hw1).
  destruct (emits_written _ _ _ _ Hbs Hboth) as [Hall Hrem]. split_and!; [done|lia|by apply carries_one].
Qed.

Definition turn_state (t : StreamsState * W * list StreamMeta) : StreamsState := t.1.1.

(** Handing out data changes what is unsent, and no data. *)
Lemma transmitted_same_data s id ss ss' q : ss_send s !! id = Some ss ->
  unacked_segments (pending ss') = unacked_segments (pending ss) -> base (pending ss') = base (pending ss) ->
  offset (pending ss') = offset (pending ss) -> (fin_pending ss' = true -> fin_pending ss = true) ->
  same_data s (StreamsState.with_pending q (StreamsState.with_send (<[id := ss']> (ss_send s)) s)).
Proof.
  intros Hss Hseg Hbase Hoff Hfin i. cbn. destruct (decide (i = id)) as [->|Hne].
  - rewrite lookup_insert_eq, Hss. by constructor.
  - rewrite lookup_insert_ne by done. apply same_data_refl.
Qed.

(** The data of a range that was handed out is put into the packet whole. *)
Lemma put_transmitted b b' r (w w' : W) : send_inv b' -> unacked_segments b' = unacked_segments b -> base b' = base b ->
  (length (unacked_segments b) <= 1)%nat -> 0 <= rstart r <= rend r -> rend r <= offset b' ->
  (if negb (range_is_empty r) then let! data := SendBuffer.get r b' in put_slice data w else Ret w) = Ret w' ->
  (if negb (range_is_empty r) then put_slice (stream_slice b r) w else Ret w) = Ret w' /\
  zlen (stream_slice b r) = rend r - rstart r /\ (rstart r < rend r -> base b <= rstart r).
Proof.
  intros Hi Hseg Hbase Hone Hr Hend. unfold range_is_empty. destruct (Z.ltb_spec (rstart r) (rend r)); cbn [negb]; cycle 1.
  { intros ->. split; [done|]. unfold stream_slice. replace (rend r - rstart r) with 0 by lia. split; [done|]. lia. }
  intros Ha. apply obind_ret in Ha as (data & Hget & Ha). pose proof (get_from_base _ _ _ Hget) as Hlow.
  apply get_one_segment in Hget as [-> Hlen]; [|done|by rewrite Hseg|lia..].
  rewrite (stream_slice_ext b b' _ Hseg Hbase) in Ha, Hlen. split_and!; [done..|lia].
Qed.

(** One turn of the loop over the streams: the data is that of before, and
    what was written is the frame of the record that was added, if any. *)
Lemma write_turn_appends n fair t r : streams_typed n (turn_state t) -> whole_writes (turn_state t) ->
  remaining_mut t.1.2 <= VARINT_MAX -> StreamsState.write_turn fair t = Ret r ->
  let t' := match r with inl t' | inr t' => t' end in
  same_data (turn_state t) (turn_state t') /\
  exists ms fs, t'.2 = t.2 ++ ms /\ appends t.1.2 t'.1.2 fs /\ Forall2 (stream_frame (turn_state t)) ms fs.
Proof.
  destruct t as [[s buf] metas]. unfold turn_state. cbn [fst snd]. intros Hs Hwhole Hb Hw.
  assert (Hnone : forall s', ss_send s' = ss_send s -> same_data s s' /\
    exists ms fs, metas = metas ++ ms /\ appends buf buf fs /\ Forall2 (stream_frame s) ms fs).
  { intros s' E. split; [|exists [], []; rewrite app_nil_r; split_and!; [done|apply appends_nil|done]].
    intros id. rewrite E. apply same_data_refl. }
  unfold StreamsState.write_turn in Hw.
  destruct (Z.ltb_spec (remaining_mut buf) StreamsState.STREAM_SIZE_BOUND) as [|Hroom]; [simplify_eq; by apply Hnone|].
  unfold StreamsState.STREAM_SIZE_BOUND in Hroom.
  destruct (PendingStreamsQueue.pop (ss_pending s)) as [q [p|]]; [|simplify_eq; by apply Hnone].
  cbn [ss_send StreamsState.with_pending] in Hw.
  destruct (ss_send s !! ps_id p) as [ss|] eqn:Hss; [|simplify_eq; by apply Hnone].
  destruct (Send.is_reset ss); [simplify_eq; by apply Hnone|].
  destruct (negb (Send.is_pending ss)); [simplify_eq; by apply Hnone|].
  apply obind_ret in Hw as ([[[ss' rng] enc] fin] & Ht & Hw). destruct (Hs _ _ Hss) as (Hid & Hi & _ & _).
  unfold transmit in Ht. apply obind_ret in Ht as ([[b r'] e] & Hpoll & Ht). injection Ht as <- <- <- <-.
  destruct (poll_transmit_spec (remaining_mut buf) (pending ss) Hi) as (b0 & r0 & e0 & Hpoll' & Hi' & [(_ & Ho' & Hbase & _) [Hr1 Hr2] _ _ _ _]); [lia|].
  rewrite Hpoll in Hpoll'. injection Hpoll' as <- <- <-. pose proof (poll_transmit_segments _ _ _ _ _ Hpoll) as Hseg.
  set (ss' := mkSend _ _ _ _ _) in *.
  assert (Hsame : forall q, same_data s (StreamsState.with_pending q (StreamsState.with_send (<[ps_id p := ss']> (ss_send s)) s))).
  { intros q0. apply (transmitted_same_data s _ ss ss'); [done..|]. cbn. by destruct (_ && _). }
  destruct (range_is_empty r' && _) eqn:Hempty.
  { apply obind_ret in Hw as (q' & _ & Hw). simplify_eq. split; [apply Hsame|apply (Hnone s eq_refl)]. }
  apply obind_ret in Hw as (buf1 & Hst1 & Hw). apply obind_ret in Hw as (buf2 & Hst2 & Hw).
  destruct (sb_offset _ Hi') as [Hb0 [Hun Hmax]].
  destruct (put_transmitted (pending ss) b r' buf1 buf2 Hi' Hseg Hbase) as (Hput & Hlen & Hin); [by apply (Hwhole _ _ Hss)|done|lia|exact Hst2|].
  set (fin := fin_pending ss && _) in *.
  assert (Happ : appends buf buf2 [FStream {| st_id := ps_id p; st_offset := rstart r'; st_fin := fin; st_data := stream_slice (pending ss) r' |}]).
  { eapply (stream_frame_appends ss r' e fin (ps_id p)); [done|done|lia|lia|done| |exact Hst1|exact Hput].
    intros ->. eapply poll_transmit_full; [exact Hi|lia|exact Hpoll]. }
  assert (Hres : exists ms fs, metas ++ [{| sm_id := ps_id p; sm_offsets := r'; sm_fin := fin |}] = metas ++ ms /\
    appends buf buf2 fs /\ Forall2 (stream_frame s) ms fs).
  { eexists [_], [_]. split; [done|]. split; [exact Happ|]. constructor; [|constructor]. exists ss. cbn.
    split_and!; [done|lia|lia|done|lia| | |done]; [intros [? ?%Z.eqb_eq]%andb_true_iff; split; [done|lia]|].
    apply andb_false_iff in Hempty as [Hempty|Hempty]; [left; unfold range_is_empty in Hempty; lia|right; by apply negb_false_iff]. }
  destruct (Send.is_pending ss'); [apply obind_ret in Hw as (q' & _ & Hw)|]; simplify_eq; split; try done; apply Hsame.
Qed.

Lemma write_turns_append n fuel fair t t' : turn_typed n t -> whole_writes (turn_state t) ->
  StreamsState.write_turns fuel fair t = Some (Ret t') ->
  same_data (turn_state t) (turn_state t') /\
  exists ms fs, t'.2 = t.2 ++ ms /\ appends t.1.2 t'.1.2 fs /\ Forall2 (stream_frame (turn_state t)) ms fs.
Proof.
  revert t. induction fuel as [|fuel IH]; intros t Ht Hwh; cbn; [done|].
  destruct (StreamsState.write_turn fair t) as [r|] eqn:Hturn; [|done].
  pose proof (write_turn_typed n _ _ _ Hturn Ht) as Ht1. pose proof Ht as (Hs & Hb & _).
  destruct (write_turn_appends n fair t r Hs Hwh Hb Hturn) as (Hd & ms & fs & Hms & Happ & Hf).
  destruct r as [t1|t1]; [|intros [= <-]; split; [done|by exists ms, fs]].
  intros Hw. destruct (IH t1 Ht1 (same_data_whole _ _ Hd Hwh) Hw) as (Hd' & ms' & fs' & Hms' & Happ' & Hf').
  split; [by eapply same_data_trans|]. exists (ms ++ ms'), (fs ++ fs'). rewrite Hms', Hms, app_assoc.
  split; [done|]. split; [by eapply appends_trans|]. apply Forall2_app; [done|].
  eapply Forall2_impl; [exact Hf'|]. intros m f. by apply same_data_frame.
Qed.

Lemma streams_append n fair s (buf : W) s' buf' metas : streams_typed n s -> whole_writes s -> remaining_mut buf <= VARINT_MAX ->
  StreamsState.write_stream_frames buf fair s = Ret (s', buf', metas) ->
  same_data s s' /\ exists fs, appends buf buf' fs /\ Forall2 (stream_frame s) metas fs.
Proof.
  intros Hs Hwh Hb Hw. unfold StreamsState.write_stream_frames in Hw.
  destruct (StreamsState.write_turns _ fair (s, buf, [])) as [o|] eqn:Ht; cbn in Hw; [|done]. subst o.
  destruct (write_turns_append n (StreamsState.write_fuel (s, buf, [])) fair (s, buf, []) (s', buf', metas)) as (Hd & ms & fs & Hms & Happ & Hf); [by split_and!|done|exact Ht|].
  split; [done|]. exists fs. cbn in Hms. by rewrite Hms.
Qed.

(** *** Acknowledgements *)

Lemma encode_ack_ok delay s (w w' : W) : ArrayRangeSet.wf s -> s <> [] -> is_varint delay ->
  encode_ack delay s None w = Ret w' -> ack_ok delay s None.
Proof.
  intros Hwf Hne Hd He. assert (Hmax : forall r, r ∈ s -> rend r <= VARINT_MAX + 1).
  { unfold encode_ack, ArrayRangeSet.iter in He. destruct (rev s) as [|x rest] eqn:Hrev; [done|].
    apply obind_ret in He as (lg & Hlg & He). apply u64_sub_ret in Hlg as [-> _]. apply obind_ret in He as (size & _ & He).
    apply obind_ret in He as (w1 & _ & He). apply obind_ret in He as (w2 & Hput & _). apply put_varint_ret in Hput.
    assert (Hlast : last s = Some x) by (rewrite <- (rev_involutive s), Hrev; cbn; apply last_snoc).
    destruct (last_wf_from _ _ _ Hwf Hlast) as (_ & Hle & _). intros r Hr. pose proof (wf_range _ _ Hwf Hr).
    assert (rend r - 1 <= rend x - 1); [|lia]. apply Hle. exists r. split; [done|]. unfold in_range. lia. }
  split; try done. pose proof (wf_from_length (-1) s (VARINT_MAX + 1) Hwf Hmax ltac:(varint_lia)). varint_lia.
Qed.

Lemma delay_varint d : is_varint (Z.shiftr (as_u64 d) ACK_DELAY_EXP).
Proof.
  rewrite Z.shiftr_div_pow2 by done. unfold as_u64, ACK_DELAY_EXP, is_varint.
  pose proof (Z.mod_pos_bound d U64 eq_refl) as Hm. unfold U64 in *.
  split; [apply Z.div_pos; lia|]. apply Z.lt_succ_r, Z.div_lt_upper_bound; [done|]. unfold VARINT_MAX, VARINT_MAX_8. lia.
Qed.

(** The ACK frame for what a space has to acknowledge. *)
Definition acks_of_space (now : Instant) (s : PacketSpace) (a : Ack) : Prop :=
  ack_ranges a = Ret (map inclusive (rev (ranges (pending_acks s)))) /\
  ack_delay a = Z.shiftr (as_u64 (as_micros (PendingAcks.ack_delay (pending_acks s) now))) ACK_DELAY_EXP.

Lemma acks_append now s (w w' : W) lg : ArrayRangeSet.wf (ranges (pending_acks s)) ->
  Connection.populate_acks now s w = Ret (lg, w') ->
  exists a, appends w w' [FAck a] /\ acks_of_space now s a /\ lg = Some (ack_largest a).
Proof.
  intros Hwf. unfold Connection.populate_acks, assert. set (a := pending_acks s) in *.
  destruct (ArrayRangeSet.is_empty (ranges a)) eqn:He; [done|]. cbn [negb obind].
  intros Ha. apply obind_ret in Ha as (lg' & Hlg & Ha). apply obind_ret in Ha as (w1 & Hw & Ha). injection Ha as -> ->.
  assert (Hne : ranges a <> []) by (intros Hr; by rewrite Hr in He).
  pose proof (encode_ack_ok _ _ _ _ Hwf Hne (delay_varint _) Hw) as Hok.
  destruct (encodes_ack (B:=B) (W:=W) _ _ None Hok) as (f & Henc & Hdel & _ & Hr).
  exists f. split; [by eapply encodes_appends|]. split; [done|].
  destruct (last (ranges a)) as [x|] eqn:Hlast; [|by apply last_None in Hlast].
  unfold ArrayRangeSet.max, ArrayRangeSet.iter in Hlg. rewrite Hlast in Hlg.
  apply obind_ret in Hlg as (m & Hm & Hlg). apply u64_sub_ret in Hm as [-> _]. injection Hlg as <-. f_equal.
  apply last_Some in Hlast as [l Hl]. rewrite Hl, rev_app_distr in Hr. cbn in Hr. by apply ack_ranges_head in Hr.
Qed.

(** *** A packet *)

Definition hello_frame : Frame := FCrypto {| crypto_offset := 0; crypto_data := [0] |}.

(** What a packet of a space carries, and what is recorded of it: the pending
    acknowledgements, the hello, a PING, resets, stops, and stream data. *)
Definition packet_frames (now : Instant) (id : SpaceId) (c : Connection) (sent : SentFrames) (fs : list Frame) : Prop :=
  let s := space_of c id in
  exists acks resets stops streams,
    fs = acks ++ (if hello (Space.pending s) then [hello_frame] else []) ++
      (if bool_decide (id = SpData) && ping_pending s then [Ping] else []) ++
      (map (reset_frame (ss_send (c_streams c))) resets ++ map FStopSending stops) ++ streams /\
    (if ArrayRangeSet.is_empty (ranges (pending_acks s)) then acks = [] /\ sent_largest_acked sent = None
     else exists a, acks = [FAck a] /\ acks_of_space now s a /\ sent_largest_acked sent = Some (ack_largest a)) /\
    sent_retransmits sent = StreamsState.thin_push resets stops
      (if hello (Space.pending s) then Some (with_hello true Retransmits_default) else None) /\
    Forall2 (stream_frame (c_streams c)) (sent_stream_frames sent) streams /\
    (id <> SpData -> resets = [] /\ stops = [] /\ streams = []).

Lemma hello_appends (w w' : W) : (let! w := put_u8 6 w in let! w := put_u8 0 w in let! w := put_u8 1 w in put_u8 0 w) = Ret w' ->
  appends w w' [hello_frame].
Proof.
  intros Hw. set (x := {| crypto_offset := 0; crypto_data := [0] |}).
  assert (Hp : parses (B:=B) [6; 0; 1; 0] (FCrypto x)).
  { destruct (encodes_crypto (B:=B) (W:=slice_buf) x) as (bs & He & Hp); [split; vm_compute; discriminate..|].
    destruct (emits_written _ _ (SliceBuf [] 9) (SliceBuf [6; 0; 1; 0] 5) He) as [Hbs _]; [vm_compute; reflexivity|].
    cbn in Hbs. by rewrite Hbs. }
  assert (Hbytes : emits (W:=W) (fun w => let! w := put_u8 6 w in let! w := put_u8 0 w in let! w := put_u8 1 w in put_u8 0 w) [6; 0; 1; 0]).
  { change [6; 0; 1; 0] with (be_bytes 1 6 ++ be_bytes 1 0 ++ be_bytes 1 1 ++ be_bytes 1 0).
    repeat first [apply emits_put_u8|apply emits_bind]. }
  destruct (emits_written _ _ _ _ Hbytes Hw) as [Hwr Hr]. exists [6; 0; 1; 0].
  split_and!; [done..|by apply carries_one].
Qed.

Lemma ping_appends (w w' : W) : put_u8 1 w = Ret w' -> appends w w' [Ping].
Proof.
  intros Hw. destruct (emits_written _ _ _ _ (emits_put_u8 1) Hw) as [Hwr Hr]. exists (be_bytes 1 1).
  split_and!; [done..|]. apply carries_one. change (be_bytes 1 1) with (varint_bytes FrameType.PING ++ []).
  apply parses_body; [split; vm_compute; discriminate|]. apply reads_ret.
Qed.

Lemma control_append n (w w' : W) p t s p' t' : StreamsState.write_control_frames w p t s = Ret (w', p', t') ->
  retransmits_typed n p -> map_Forall (fun _ ss => 0 <= Send.stream_offset ss) (ss_send s) ->
  exists resets stops, appends w w' (map (reset_frame (ss_send s)) resets ++ map FStopSending stops) /\
    t' = StreamsState.thin_push resets stops t.
Proof.
  unfold StreamsState.write_control_frames. intros Hw [Hr Hs] Ho.
  apply obind_ret in Hw as ([[q1 s1] w1] & Hst1 & Hw). apply obind_ret in Hw as ([[q2 s2] w2] & Hst2 & Hw). simplify_eq.
  apply (resets_append n) in Hst1 as (l1 & -> & Hl1); [|by apply Forall_rev|done].
  apply stops_append in Hst2 as (l2 & -> & Hl2); [|by apply Forall_rev].
  exists l1, l2. split; [by eapply appends_trans|done].
Qed.

Lemma packet_appends n now id (w w' : W) c c' sent : remaining_mut w <= VARINT_MAX -> conn_typed n c ->
  whole_writes (c_streams c) -> Connection.populate_packet now id w c = Ret (c', sent, w') ->
  same_data (c_streams c) (c_streams c') /\ exists fs, appends w w' fs /\ packet_frames now id c sent fs.
Proof.
  unfold Connection.populate_packet. intros Hroom Hc Hwh Ha. set (s := space_of c id) in *.
  apply obind_ret in Ha as ([lg w1] & Hst1 & Ha). apply obind_ret in Ha as ([[c1 thin] w2] & Hst2 & Ha).
  apply obind_ret in Ha as ([c2 w3] & Hst3 & Ha).
  assert (Hacks : exists acks, appends w w1 acks /\ if ArrayRangeSet.is_empty (ranges (pending_acks s)) then acks = [] /\ lg = None
    else exists a, acks = [FAck a] /\ acks_of_space now s a /\ lg = Some (ack_largest a)).
  { destruct (ArrayRangeSet.is_empty _); cbn [negb] in Hst1; [simplify_eq; exists []; split; [apply appends_nil|done]|].
    apply acks_append in Hst1 as (a & Happ & Hac & Hlg); [|apply (ct_spaces _ _ Hc)]. exists [FAck a]. split; [done|]. by exists a. }
  assert (Hhello : appends w1 w2 (if hello (Space.pending s) then [hello_frame] else []) /\
    thin = (if hello (Space.pending s) then Some (with_hello true Retransmits_default) else None) /\
    c_streams c1 = c_streams c /\ ping_pending (space_of c1 id) = ping_pending s /\
    retransmits_typed n (Space.pending (space_of c1 id))).
  { pose proof (st_pending _ _ (ct_spaces _ _ Hc id)) as Hp.
    destruct (hello (Space.pending s)); [|simplify_eq; split_and!; [apply appends_nil|done..]].
    apply obind_ret in Hst2 as (a1 & Ha1 & Hst2). apply obind_ret in Hst2 as (a2 & Ha2 & Hst2).
    apply obind_ret in Hst2 as (a3 & Ha3 & Hst2). apply obind_ret in Hst2 as (a4 & Ha4 & Hst2). simplify_eq. rewrite space_of_with, decide_True by done.
    split; [|by split_and!; try apply with_hello_typed].
    apply hello_appends. rewrite Ha1. cbn. rewrite Ha2. cbn. by rewrite Ha3. }
  destruct Hacks as (acks & Hw1 & Hacks). destruct Hhello as (Hw2 & -> & Hss1 & Hping1 & Hp1). clear Hst1 Hst2.
  assert (Hping : appends w2 w3 (if bool_decide (id = SpData) && ping_pending s then [Ping] else []) /\
    c_streams c2 = c_streams c /\ retransmits_typed n (Space.pending (space_of c2 id))).
  { rewrite <- Hping1. destruct (_ && _); [|simplify_eq; split_and!; [apply appends_nil|done..]].
    apply obind_ret in Hst3 as (a1 & Ha1 & Hst3). simplify_eq. rewrite space_of_with, decide_True by done.
    split; [by apply ping_appends|done]. }
  destruct Hping as (Hw3 & Hss2 & Hp2). clear Hst3 Hping1 Hp1.
  pose proof (appends_trans _ _ _ _ _ Hw1 (appends_trans _ _ _ _ _ Hw2 Hw3)) as Hw. pose proof (appends_room _ _ _ Hw) as Hroom3.
  case_decide as Hid.
  2: { simplify_eq. rewrite Hss2. split; [apply same_data_refl|]. eexists. split; [exact Hw|].
    exists acks, [], [], []. cbn [map app]. rewrite !app_nil_r. split_and!; try done. by destruct (hello _). }
  subst id. apply obind_ret in Ha as ([[w4 pend] thin'] & Hctl & Ha).
  apply obind_ret in Ha as ([[ss w5] metas] & Hwr & Ha). simplify_eq.
  change (StreamsState.write_stream_frames w4 true (c_streams c2) = Ret (ss, w', metas)) in Hwr. rewrite Hss2 in Hctl, Hwr.
  apply (control_append n) in Hctl as (resets & stops & Hw4 & ->); [|done|].
  2: { intros i x Hx. apply (ct_streams _ _ Hc) in Hx as (_ & [_ [_ [Ho1 Ho2]] Ho3 _ _ _ _] & _). unfold Send.stream_offset. lia. }
  pose proof (appends_room _ _ _ Hw4). apply (streams_append n) in Hwr as (Hd & streams & Hw5 & Hf); [|apply Hc|done|lia].
  split; [exact Hd|]. eexists. split; [exact (appends_trans _ _ _ _ _ Hw (appends_trans _ _ _ _ _ Hw4 Hw5))|].
  exists acks, resets, stops, streams. rewrite <- !app_assoc. by split_and!.
Qed.

(** What writing a packet of a space leaves alone. *)
Lemma populate_other now id (w w' : W) c c' sent : Connection.populate_packet now id w c = Ret (c', sent, w') ->
  (forall i, i <> id -> space_of c' i = space_of c i) /\ (id <> SpData -> c_streams c' = c_streams c) /\
  sending_queue (path c') = sending_queue (path c).
Proof.
  unfold Connection.populate_packet. intros Ha. apply obind_ret in Ha as ([lg w1] & _ & Ha).
  apply obind_ret in Ha as ([[c1 thin] w2] & Hst1 & Ha). apply obind_ret in Ha as ([c2 w3] & Hst2 & Ha).
  set (other := fun c c' : Connection => (forall i, i <> id -> space_of c' i = space_of c i) /\ c_streams c' = c_streams c /\ path c' = path c).
  assert (Hsp : forall x c, other c (with_space id x c)).
  { intros x c0. split; [|done]. intros i Hi. by rewrite space_of_with, decide_False. }
  assert (Hc1 : other c c1) by (destruct (hello _); [outcome_inv; simplify_eq; apply Hsp|by simplify_eq]).
  assert (Hc2 : other c1 c2) by (destruct (_ && _); [outcome_inv; simplify_eq; apply Hsp|by simplify_eq]).
  clear Hst1 Hst2. destruct Hc1 as (Hs1 & Hd1 & Hp1), Hc2 as (Hs2 & Hd2 & Hp2).
  case_decide as Hid; [|simplify_eq; rewrite Hp2, Hp1; split_and!; [intros i Hi; by rewrite Hs2, Hs1|congruence|done]].
  apply obind_ret in Ha as ([[w4 pend] thin'] & _ & Ha). apply obind_ret in Ha as ([[ss w5] metas] & _ & Ha). simplify_eq.
  split_and!; [|done|cbn; by rewrite Hp2, Hp1]. intros i Hi. autorewrite with conn. rewrite decide_False by done. by rewrite Hs2, Hs1.
Qed.
End Writers.

(** ** Packets on the wire *)

(** The decoded number is [n] for a receiver that has seen what the sender
    knows to be acknowledged, and fewer than 128 later packets. *)
Definition number_of (pn : PacketNumber) (n la : Z) : Prop :=
  forall expected, la <= expected < n + 128 -> expected < 2 ^ 62 -> PacketNumber.expand pn expected = Ret n.

Lemma pn_new_expands n la pn : PacketNumber.new n la = Ret pn -> 0 <= la -> n < 2 ^ 62 -> number_of (pn_wire pn) n la.
Proof.
  intros Hpn Hla Hn expected He Hmax. pose proof Hpn as Ha. unfold PacketNumber.new in Ha.
  apply obind_ret in Ha as (d & Hd & Ha). apply u64_sub_ret in Hd as [-> Hle].
  apply obind_ret in Ha as (r & Hr & Ha). apply u64_mul_ret in Hr as [-> _].
  assert (Hdist : n - la < 2 ^ 31).
  { change (Z.shiftl 1 8) with (2 ^ 8) in Ha. change (Z.shiftl 1 16) with (2 ^ 16) in Ha.
    change (Z.shiftl 1 24) with (2 ^ 24) in Ha. change (Z.shiftl 1 32) with (2 ^ 32) in Ha. clear Hpn. repeat case_match; done || lia. }
  destruct (pn_new_spec n la) as (pn' & Hnew & _ & Hval & Hwin); [lia..|]. rewrite Hpn in Hnew. injection Hnew as <-.
  pose proof (pn_len_bound pn) as Hl. assert (Hlen : PacketNumber.len (pn_wire pn) = PacketNumber.len pn) by (by destruct pn).
  assert (Hhalf : 2 ^ (8 * PacketNumber.len pn) / 2 = 2 ^ (8 * PacketNumber.len pn - 1)).
  { replace (8 * PacketNumber.len pn) with (Z.succ (8 * PacketNumber.len pn - 1)) at 1 by lia.
    rewrite Z.pow_succ_r by lia. rewrite Z.mul_comm. by rewrite Z.div_mul. }
  assert (2 ^ 7 <= 2 ^ (8 * PacketNumber.len pn - 1)) by (apply Z.pow_le_mono_r; lia).
  apply expand_spec; rewrite ?Hlen, ?Hhalf; [done|lia..].
Qed.

(** What parsing a payload with the frames gives. *)
Definition payload_result (fs : list Frame) : result (list (result Frame TransportError)) TransportError :=
  match fs with
  | [] => Err (transport_error TransportErrorCode.PROTOCOL_VIOLATION "packet payload is empty")
  | _ => Ok (map Ok fs)
  end.

Lemma parse_payload_all bs fs (payload : B) : carries bs fs -> view payload = bs -> parse_payload payload = Ret (payload_result fs).
Proof.
  intros Hc Hv. destruct fs as [|f fs]; [|by apply (parse_payload_carried bs)].
  unfold parse_payload, FrameParser_new. rewrite remaining_view, Hv. by inversion Hc.
Qed.

(** Whatever buffer holds the datagram: it decodes to a packet of the space,
    under the number, with a payload of the length that parses to exactly the
    frames. *)
Definition understood (datagram : list Z) (id : SpaceId) (n la len : Z) (fs : list Frame) : Prop :=
  forall d : B, view d = datagram -> exists h pn p,
    Header.decode d (zlen FAKE_CID) SUPPORTED_VERSIONS = Ret (Ok (h, p)) /\
    Header.space h = id /\ Header.is_short h = bool_decide (id = SpData) /\
    Header.number h = Some pn /\ number_of pn n la /\
    remaining p = len /\ parse_payload p = Ret (payload_result fs) /\ len <= zlen datagram.

(** What is noted of a packet when it is queued. *)
Definition record_of (m : SentPacket) : SentFrames := mkSentFrames (Space.retransmits m) (largest_acked m) (stream_frames m).

Lemma packet_frames_same now id c c' sent fs : pending_acks (space_of c' id) = pending_acks (space_of c id) ->
  Space.pending (space_of c' id) = Space.pending (space_of c id) -> ping_pending (space_of c' id) = ping_pending (space_of c id) ->
  c_streams c' = c_streams c -> packet_frames now id c' sent fs -> packet_frames now id c sent fs.
Proof. unfold packet_frames, acks_of_space. by intros -> -> -> ->. Qed.

Lemma transmit_understood n now id el c c' : Connection.transmit_space now false id el c = Ret c' ->
  conn_typed n c -> whole_writes (c_streams c) ->
  (forall i, i <> id -> space_of c' i = space_of c i) /\ (id <> SpData -> c_streams c' = c_streams c) /\
  exists x len fs, sending_queue (path c') = sending_queue (path c) ++ [x] /\ space_id (meta_info x) = id /\
    packet_frames now id c (record_of (meta_info x)) fs /\
    understood (sch_packet x) id (number (meta_info x)) (default 0 (largest_acked_packet (space_of c id))) len fs.
Proof.
  unfold Connection.transmit_space. intros Ha Hc Hwh. apply obind_ret in Ha as ([s k] & Htx & Ha).
  apply obind_ret in Ha as (pn & Hpn & Ha). apply obind_ret in Ha as (h & Hh & Ha). apply obind_ret in Ha as (out & Hout & Ha).
  apply obind_ret in Ha as ([[c1 sent] out1] & Hst1 & Ha). apply obind_ret in Ha as (len & Hlen & Ha).
  assert (Hs : k < 2 ^ 62 /\ pending_acks s = pending_acks (space_of c id) /\ Space.pending s = Space.pending (space_of c id) /\
    ping_pending s = ping_pending (space_of c id) /\ largest_acked_packet s = largest_acked_packet (space_of c id)).
  { unfold PacketSpace.get_tx_number, assert in Htx. destruct (Z.ltb_spec (next_packet_number (space_of c id)) (2 ^ 62)); [|done].
    cbn [obind] in Htx. apply obind_ret in Htx as (k' & _ & Htx). by simplify_eq. }
  destruct Hs as (Hk & Hacks & Hpend & Hping & Hla). rewrite Hla in Hpn. set (c0 := with_space id s c) in *.
  assert (Hc0 : conn_typed n c0).
  { revert Hc. apply typed_quiet; unfold PacketSpace.get_tx_number in Htx; apply obind_ret in Htx as (? & _ & Htx);
    apply obind_ret in Htx as (? & _ & Htx); by simplify_eq. }
  destruct (packet_header_wf id pn h (pn_new_wf _ _ _ Hpn) Hh) as [Hwf Hid].
  destruct (emits_written _ _ _ _ (emits_header _ _ _ Hwf) Hout) as [Hw Hr]. pose proof (zlen_nonneg (header_bytes h)).
  assert (Hroom : remaining_mut out <= VARINT_MAX) by (rewrite Hr; cbn -[header_bytes]; unfold INITIAL_MTU; varint_lia).
  destruct (populate_other _ _ _ _ _ _ _ Hst1) as (Hoth & Hstr & Hq).
  destruct (packet_appends n now id out out1 c0 c1 sent Hroom Hc0 Hwh Hst1) as (_ & fs & (bs & Hw1 & Hr1 & Hcar) & Hfr).
  set (c2 := match sent_largest_acked sent with Some _ => _ | None => c1 end) in Ha.
  assert (Hc2 : (forall i, i <> id -> space_of c2 i = space_of c1 i) /\ c_streams c2 = c_streams c1 /\ path c2 = path c1).
  { unfold c2. destruct (sent_largest_acked sent); [|done]. split; [|done]. intros i Hi. autorewrite with conn. by rewrite decide_False. }
  destruct Hc2 as (Hoth2 & Hstr2 & Hp2). clearbody c2. injection Ha as <-. autorewrite with conn. cbn [path with_path sending_queue].
  split; [|split; [intros Hne; cbn; rewrite Hstr2, Hstr; done|]].
  { intros i Hi. rewrite space_of_path, Hoth2, Hoth by done. unfold c0. rewrite space_of_with. by rewrite decide_False. }
  set (x := {| sch_packet := _; meta_info := _ |}). exists x, (zlen bs), fs. rewrite Hp2, Hq. split; [done|]. split; [done|]. split.
  - assert (record_of (meta_info x) = sent) as -> by (by destruct sent).
    eapply packet_frames_same; [..|exact Hfr]; unfold c0; rewrite ?space_of_with, ?decide_True; done.
  - change (sb_bytes out1) with (written out1) in x. unfold x. cbn [sch_packet meta_info number]. rewrite Hw1, Hw.
    change (written _ ++ header_bytes h) with (header_bytes h). assert (Hl : len = zlen (header_bytes h ++ bs)).
    { apply u64_sub_ret in Hlen as [-> _]. rewrite Hr1, Hr, zlen_app. cbn. unfold INITIAL_MTU. lia. }
    subst len. intros d Hd. unfold zlen in Hd. rewrite Nat2Z.id, take_ge in Hd by lia.
    destruct (reads_header _ _ _ Hwf d bs Hd) as (p & Hdec & Hp). exists (header_on_wire h), (pn_wire pn), p.
    assert (Hfields : Header.is_short (header_on_wire h) = bool_decide (id = SpData) /\ Header.number (header_on_wire h) = Some (pn_wire pn)).
    { clear -Hh. unfold Connection.packet_header in Hh. change (ConnectionId.new FAKE_CID) with (Ret fake_cid) in Hh.
      destruct id; cbn in Hh; by simplify_eq. }
    destruct Hfields as [Hshort Hnum]. split_and!; [exact Hdec|exact Hid|exact Hshort|exact Hnum| |by rewrite remaining_view, Hp|by apply (parse_payload_all bs)|].
    2: { unfold zlen. rewrite Nat2Z.id, take_ge, length_app by lia. lia. }
    eapply pn_new_expands; [exact Hpn| |exact Hk]. pose proof (st_largest _ _ (ct_spaces _ _ Hc id)) as Hlarge.
    destruct (largest_acked_packet (space_of c id)); [by apply Hlarge|done].
Qed.

(** A queued packet that says what is recorded of it. *)
Definition speaks_true (now : Instant) (c : Connection) (x : ScheduledPacket) : Prop :=
  let m := meta_info x in exists len fs, packet_frames now (space_id m) c (record_of m) fs /\
    understood (sch_packet x) (space_id m) (number m) (default 0 (largest_acked_packet (space_of c (space_id m)))) len fs.

Lemma speaks_true_same now c c' x : space_of c' (space_id (meta_info x)) = space_of c (space_id (meta_info x)) ->
  c_streams c' = c_streams c -> speaks_true now c' x -> speaks_true now c x.
Proof. unfold speaks_true, packet_frames. by intros -> ->. Qed.

Lemma turn_understood n now blocked id c b c' b' : 0 <= total n ->
  Connection.transmit_turn now false blocked id (c, b) = Ret (c', b') -> conn_typed n c -> whole_writes (c_streams c) ->
  (forall i, i <> id -> i <> SpInitial -> space_of c' i = space_of c i) /\ (id <> SpData -> c_streams c' = c_streams c) /\
  exists l, sending_queue (path c') = sending_queue (path c) ++ l /\
    Forall (fun x => space_id (meta_info x) = id /\ speaks_true now c x) l.
Proof.
  unfold Connection.transmit_turn. intros Hn Ht Hc Hwh.
  destruct (_ && _); [simplify_eq; split_and!; [done..|exists []; by rewrite app_nil_r]|].
  apply obind_ret in Ht as (c1 & Hst1 & Ht).
  assert (Hc1 : conn_typed n c1 /\ c_streams c1 = c_streams c /\ sending_queue (path c1) = sending_queue (path c) /\
    (forall i, i <> SpInitial -> space_of c1 i = space_of c i) /\ space_of c1 id = space_of c id).
  { destruct (_ && _) eqn:Hd; [|by simplify_eq]. apply andb_true_iff in Hd as [[_ Hd]%andb_true_iff _].
    apply bool_decide_eq_true in Hd. subst id. split; [by revert Hc; apply (typed_discard n _ _ _ Hst1)|].
    apply discard_spec in Hst1 as (p & t & -> & Hr & _). destruct (remove_all_fields _ _ _ Hr) as (Hq & _).
    split; [done|]. split; [done|]. split; [|done]. intros i Hi. autorewrite with conn. by rewrite decide_False. }
  clear Hst1. destruct Hc1 as (Hc1 & Hstr & Hq & Hoth & Hown).
  destruct (_ && blocked); [simplify_eq; split_and!; [by intros i _ Hi; apply Hoth|done|exists []; by rewrite app_nil_r]|].
  apply obind_ret in Ht as (c2 & Hst2 & Ht). injection Ht as <- <-.
  destruct (transmit_understood n _ _ _ _ _ Hst2 Hc1) as (Hoth2 & Hstr2 & x & len & fs & Hq2 & Hid & Hfr & Hund); [by rewrite Hstr|].
  split_and!; [|intros Hne; by rewrite Hstr2|].
  - intros i Hi Hin. by rewrite Hoth2, Hoth.
  - exists [x]. rewrite Hq2, Hq. split; [done|]. apply Forall_singleton. split; [done|].
    apply (speaks_true_same now c c1); [by rewrite Hid|done|]. exists len, fs. by rewrite Hid.
Qed.

Lemma poll_understood n now c c' again : 0 <= total n -> conn_typed n c -> whole_writes (c_streams c) ->
  State.is_closed (c_state c) = false -> Connection.poll_transmit now c = Ret (c', again) ->
  exists l, sending_queue (path c') = sending_queue (path c) ++ l /\ Forall (speaks_true now c) l.
Proof.
  intros Hn Hc Hwh Hcl. unfold Connection.poll_transmit.
  assert (match c_state c with Drained => None | Draining | Closed _ => if pending_close c then Some true else None | _ => Some false end
    = Some false) as -> by (by destruct (c_state c)).
  intros Ha. apply obind_ret in Ha as ([c3 any] & Ht & Ha). unfold Connection.transmit_turns in Ht.
  apply obind_ret in Ht as ([c1 b1] & Hst1 & Ht). apply obind_ret in Ht as ([c2 b2] & Hst2 & Hst3).
  assert (Hq : sending_queue (path c') = sending_queue (path c3)) by (destruct (negb any); by injection Ha as <- _).
  pose proof (typed_turn n _ _ _ _ _ _ _ _ Hst1 Hc) as Hc1. pose proof (typed_turn n _ _ _ _ _ _ _ _ Hst2 Hc1) as Hc2.
  apply (turn_understood n) in Hst1 as (Ho1 & Hd1 & l1 & Hq1 & Hl1); [|done..]. specialize (Hd1 ltac:(done)).
  apply (turn_understood n) in Hst2 as (Ho2 & Hd2 & l2 & Hq2 & Hl2); [|by rewrite ?Hd1..]. specialize (Hd2 ltac:(done)).
  apply (turn_understood n) in Hst3 as (_ & _ & l3 & Hq3 & Hl3); [|by rewrite ?Hd2, ?Hd1..].
  exists (l1 ++ l2 ++ l3). rewrite Hq, Hq3, Hq2, Hq1, !app_assoc. split; [done|]. rewrite !Forall_app. split_and!.
  - eapply Forall_impl; [exact Hl1|]. by intros x [_ Hx].
  - eapply Forall_impl; [exact Hl2|]. intros x [Hid Hx]. by apply (speaks_true_same now c c1); [rewrite Hid, Ho1|..].
  - eapply Forall_impl; [exact Hl3|]. intros x [Hid Hx].
    apply (speaks_true_same now c c2); [rewrite Hid, Ho2, Ho1 by done; done|congruence|done].
Qed.

(** The data of a STREAM frame is what the application wrote at its offset. *)
Lemma stream_frame_written n c m f : conn_typed n c -> stream_frame (c_streams c) m (FStream f) ->
  exists ss, ss_send (c_streams c) !! st_id f = Some ss /\
    st_data f = take (length (st_data f)) (drop (Z.to_nat (st_offset f)) (history n (st_id f) (pending ss))).
Proof.
  intros Hc (ss & Hss & Hr & Hin & Hhi & _ & _ & Hf). injection Hf as ->. exists ss. split; [done|]. cbn [st_id st_offset st_data].
  set (r := sm_offsets m) in *. destruct (ct_streams _ _ Hc _ _ Hss) as (_ & Hi & Hh & _).
  destruct (Z.eq_dec (rstart r) (rend r)) as [Heq|Hne].
  { unfold stream_slice. by rewrite Heq, Z.sub_diag. }
  pose proof (Hin ltac:(lia)) as Hlo. destruct (sb_offset _ Hi) as [Hb0 _].
  pose proof (stream_slice_length (pending ss) r Hi ltac:(lia) Hhi) as Hlen. unfold zlen in Hlen.
  assert (length (stream_slice (pending ss) r) = Z.to_nat (rend r - rstart r)) as -> by lia.
  unfold stream_slice, Send.buffered. rewrite (holds_bytes _ _ _ Hh), drop_drop. do 2 f_equal. lia.
Qed.

Lemma packet_stream_frames now id c sent fs f : packet_frames now id c sent fs -> FStream f ∈ fs ->
  exists m, m ∈ sent_stream_frames sent /\ stream_frame (c_streams c) m (FStream f).
Proof.
  intros (acks & resets & stops & streams & -> & Ha & _ & Hs & _) Hf. rewrite !elem_of_app in Hf.
  destruct Hf as [Hf|[Hf|[Hf|[[Hf|Hf]|Hf]]]].
  - destruct (ArrayRangeSet.is_empty _); [destruct Ha as [-> _]|destruct Ha as (a & -> & _)]; set_solver.
  - destruct (hello _); set_solver.
  - destruct (_ && _); set_solver.
  - apply list_elem_of_fmap in Hf as (y & Hy & _). done.
  - apply list_elem_of_fmap in Hf as (y & Hy & _). done.
  - apply list_elem_of_lookup in Hf as [i Hi]. destruct (Forall2_lookup_r _ _ _ _ _ Hs Hi) as (m & Hm & Hfr).
    exists m. split; [by eapply list_elem_of_lookup_2|done].
Qed.
End Frames.
Arguments carries B {_}.
Arguments speaks_true B {_}.
Arguments appends B {_ _ _}.
Arguments understood B {_}.
