(* ===== verification/Acks.v ===== *)
(** * Acks: acknowledgements and loss detection ([core/src/connection/mod.rs])

    What an ACK frame does to the packets in flight, which packets loss
    detection gives up, and what the loss timer achieves. *)
From S2P Require Import Prelude Time Buffers Common ArrayRangeSet Packet Frame Timer Space Path Send Recv Streams Connection Accounting.

(** ** The scan of the sent packets *)

#[export] Instance key_le_total : Total key_le.
Proof. intros a b. unfold key_le. lia. Qed.

#[export] Instance key_le_trans : Transitive key_le.
Proof. intros a b c. unfold key_le. lia. Qed.

Lemma btree_iter_sorted m : StronglySorted key_le (btree_iter m).
Proof.
  apply Sorted_StronglySorted; [exact key_le_trans|]. apply (Sorted_merge_sort _).
Qed.

Definition due (delay : Duration) (next : option Instant) (x : Z * SentPacket) : Prop :=
  exists t, next = Some t /\ t <= time_sent x.2 + delay.

Lemma scan_lost_exact l largest delay before acc next lost next' : StronglySorted key_le l ->
  Connection.scan_lost l largest delay before acc next = Ret (lost, next') ->
  (forall x, x ∈ lost <-> x ∈ acc \/ (x ∈ l /\ is_lost largest before x)) /\
  (forall t, next = Some t -> exists t', next' = Some t' /\ t' <= t) /\
  (forall x, x ∈ l -> x.1 <= largest -> ~ is_lost largest before x -> due delay next' x).
Proof.
  revert acc next. induction l as [|[pn packet] l IH]; intros acc next Hsort; cbn.
  { intros [= <- <-]. split; [set_solver|]. split; [intros t ->; exists t; split; [done|lia]|]. intros x ?%elem_of_nil. done. }
  apply StronglySorted_inv in Hsort as [Hsort Hle]. rewrite Forall_forall in Hle.
  destruct (Z.ltb_spec largest pn) as [Hgt|Hpn].
  { assert (Hnone : forall x, x ∈ (pn, packet) :: l -> largest < x.1).
    { intros x [->|Hx]%elem_of_cons; [done|]. specialize (Hle x Hx). unfold key_le in Hle. cbn in Hle. lia. }
    intros [= <- <-]. split; [|split].
    - intros x. split; [by left|]. intros [?|[Hx [Hl _]]]; [done|]. specialize (Hnone x Hx). lia.
    - intros t ->. exists t. split; [done|lia].
    - intros x Hx Hl. specialize (Hnone x Hx). lia. }
  destruct (Z.leb_spec (time_sent packet) before) as [Ht|Ht].
  - intros (Hlost & Hn & Hd)%IH; [|done]. split; [|split; [done|]].
    + intros x. rewrite Hlost, elem_of_app, list_elem_of_singleton, elem_of_cons. split; [|naive_solver].
      intros [[?| ->]|?]; [by left| |naive_solver]. right. split; [by left|by split].
    + intros x [->|Hx]%elem_of_cons Hl Hnl; [by destruct Hnl|]. by apply Hd.
  - intros Ha. apply obind_ret in Ha as (cand & Hc & Ha). unfold inst_add in Hc.
    destruct (time_sent packet + delay <? INSTANT_END); [|done]. injection Hc as <-.
    apply IH in Ha as (Hlost & Hn & Hd); [|done]. split; [|split].
    + intros x. rewrite Hlost, elem_of_cons. split; [naive_solver|]. intros [?|[[->|?] Hl]]; [by left| |by right].
      destruct Hl as [_ Hl]. cbn in Hl. lia.
    + intros t ->. destruct (Hn _ eq_refl) as (t' & -> & Hle'). exists t'. split; [done|lia].
    + intros x [->|Hx]%elem_of_cons Hl Hnl; [|by apply Hd]. unfold due. cbn.
      destruct next as [t|]; destruct (Hn _ eq_refl) as (t' & -> & Hle'); exists t'; (split; [done|lia]).
Qed.

(** ** Properties *)

(** The moment before which an unacknowledged packet has to have been sent to
    count as lost: 9/8 of the round-trip time ago, and a millisecond at least. *)
Definition lost_before (now : Instant) (d : Duration) : Instant :=
  default now (inst_checked_sub now (Z.max d TIMER_GRANULARITY)).

Lemma lose_packets_loss_time now id l c c' : Connection.lose_packets now id l c = Ret c' ->
  loss_time (space_of c' id) = loss_time (space_of c id).
Proof.
  revert c. induction l as [|[pn packet] l IH]; intros c; cbn [Connection.lose_packets]; [by intros [= ->]|].
  intros Ha. apply obind_ret in Ha as (c1 & H1 & Ha). rewrite (IH c1 Ha). clear IH Ha. unfold Connection.lose_packet in H1.
  apply obind_ret in H1 as ([p b] & _ & H1). apply obind_ret in H1 as (ss & _ & H1). apply obind_ret in H1 as ([s r] & Ht & H1).
  injection H1 as <-. autorewrite with conn. rewrite decide_True by done.
  assert (Hl : loss_time s = loss_time (space_of c id)); [|done].
  unfold PacketSpace.take in Ht. autorewrite with conn in Ht.
  destruct (Space.retransmits packet); destruct (_ !! pn); outcome_inv; by simplify_eq.
Qed.

(** A pass over a space: what it gives up, and what it remembers. *)
Lemma detect_exact (now : Instant) (id : SpaceId) (c c' : Connection) (largest : Z) (d : Duration) :
  largest_acked_packet (space_of c id) = Some largest -> Connection.loss_delay (rtt (path c)) = Ret d ->
  Connection.detect_lost_packets now id c = Ret c' ->
  forall n p, sent_packets (space_of c id) !! n = Some p ->
    (sent_packets (space_of c' id) !! n = None <-> n <= largest /\ time_sent p <= lost_before now d) /\
    (sent_packets (space_of c' id) !! n = Some p -> n <= largest ->
      exists t, loss_time (space_of c' id) = Some t /\ t <= time_sent p + Z.max d TIMER_GRANULARITY).
Proof.
  intros Hlg Hdl. unfold Connection.detect_lost_packets. rewrite Hlg, Hdl. cbn [obind]. fold (lost_before now d).
  intros Ha. apply obind_ret in Ha as ([lost next] & Hscan & Ha).
  destruct (scan_lost_exact _ _ _ _ _ _ _ _ (btree_iter_sorted _) Hscan) as (Hlost & _ & Hdue).
  destruct (scan_lost_spec _ _ _ _ _ _ _ _ Hscan) as (l' & Hl' & Hsub & _). cbn in Hl'. subst l'.
  set (c1 := with_space id _ c) in Ha.
  assert (Hs1 : sent_packets (space_of c1 id) = sent_packets (space_of c id) /\ loss_time (space_of c1 id) = next).
  { unfold c1. autorewrite with conn. by rewrite decide_True. }
  destruct Hs1 as [Hs1 Hl1]. clearbody c1.
  assert (Hfin : loss_time (space_of c' id) = next /\
    forall n, sent_packets (space_of c' id) !! n = if decide (n ∈ lost.*1) then None else sent_packets (space_of c id) !! n).
  { destruct lost as [|x lost].
    - injection Ha as <-. split; [done|]. intros n. by rewrite decide_False, Hs1 by apply not_elem_of_nil.
    - apply obind_ret in Ha as (c2 & H2 & Ha). apply loss_timer_only in Ha as [t ->]. autorewrite with conn.
      rewrite (lose_packets_loss_time _ _ _ _ _ H2). split; [done|]. rewrite <- Hs1.
      apply (keeps_lose_all now id (x :: lost) c1 c2); [|intros pn packet Hin|done].
      + eapply sublist_NoDup; [apply NoDup_btree_iter|apply fmap_sublist, Hsub].
      + rewrite Hs1. apply elem_of_btree_iter. by apply (elem_of_sublist _ _ _ Hin). }
  destruct Hfin as [Hlt Hsent]. intros n p Hn.
  assert (Hin : n ∈ lost.*1 <-> is_lost largest (lost_before now d) (n, p)).
  { rewrite list_elem_of_fmap. split.
    - intros ([n' p'] & -> & [?%elem_of_nil|[Hb Hx]]%Hlost); [done|]. apply elem_of_btree_iter in Hb. cbn in *. by simplify_eq.
    - intros Hx. exists (n, p). split; [done|]. apply Hlost. right. split; [by apply elem_of_btree_iter|done]. }
  split.
  - rewrite Hsent, Hn. destruct (decide (n ∈ lost.*1)) as [H1|H1]; [by apply Hin in H1|]. split; [done|]. intros H2. by apply Hin in H2.
  - rewrite Hsent, Hn, Hlt. destruct (decide (n ∈ lost.*1)) as [H1|H1]; [done|]. intros _ Hle.
    apply (Hdue (n, p)); [by apply elem_of_btree_iter|done|]. by rewrite <- Hin.
Qed.

(** The earliest of the loss times of the spaces. *)
Lemma loss_time_earliest c id t : loss_time (space_of c id) = Some t ->
  exists t' id', Connection.loss_time_and_space c = Some (t', id') /\ t' <= t.
Proof.
  intros Ht. assert (Hall : forall i, loss_time (space_of c i) = loss_time (space_of c i)) by done. unfold Connection.loss_time_and_space.
  cbn [fold_left SpaceId_VARIANTS].
  destruct (loss_time (space_of c SpInitial)) as [t1|] eqn:H1, (loss_time (space_of c SpHandshake)) as [t2|] eqn:H2,
    (loss_time (space_of c SpData)) as [t3|] eqn:H3;
    repeat match goal with |- context [?a <? ?b] => destruct (Z.ltb_spec a b) end;
    destruct id; rewrite Ht in *; simplify_eq; eexists _, _; (split; [done|lia]).
Qed.

Lemma loss_timer_armed c c' id t : timers_wf (timers c) -> State.is_closed (c_state c) = false -> loss_time (space_of c id) = Some t ->
  Connection.set_loss_detection_timer c = Ret c' -> exists t', TimerTable.get LossDetection (timers c') = Some t' /\ t' <= t.
Proof.
  intros Hw Hopen (t' & id' & Heq & Hle)%loss_time_earliest. unfold Connection.set_loss_detection_timer. rewrite Hopen, Heq.
  intros [= <-]. exists t'. split; [|done]. cbn [timers with_timers]. unfold TimerTable.set. rewrite get_insert by done. by rewrite decide_True.
Qed.

Lemma detect_keeps now id c c' : Connection.detect_lost_packets now id c = Ret c' ->
  c_state c' = c_state c /\ (timers_wf (timers c) -> timers_wf (timers c')).
Proof.
  unfold Connection.detect_lost_packets. destruct (largest_acked_packet _) as [l|]; [|by intros [= <-]].
  intros Ha. apply obind_ret in Ha as (d & _ & Ha). apply obind_ret in Ha as ([lost next] & _ & Ha).
  destruct lost as [|x lost]; [by injection Ha as <-|]. apply obind_ret in Ha as (c1 & Hl & Ha).
  assert (Hc1 : c_state c1 = c_state c /\ timers c1 = timers c).
  { revert Hl. generalize (x :: lost) as xs. intros xs. set (c0 := with_space id _ c). change (c_state c) with (c_state c0). change (timers c) with (timers c0).
    clearbody c0. revert c0. induction xs as [|[n m] xs IH]; intros c0; cbn [Connection.lose_packets]; [by intros [= ->]|].
    intros Hl. apply obind_ret in Hl as (c2 & Hst2 & Hl). apply IH in Hl as [-> ->]. unfold Connection.lose_packet in Hst2.
    apply obind_ret in Hst2 as ([p b] & _ & Hst2). apply obind_ret in Hst2 as (ss & _ & Hst2). apply obind_ret in Hst2 as ([s r] & _ & Hst2).
    by injection Hst2 as <-. }
  destruct Hc1 as [<- <-]. unfold Connection.set_loss_detection_timer in Ha. destruct (State.is_closed _); [by injection Ha as <-|].
  destruct (Connection.loss_time_and_space c1) as [[t i]|]; [injection Ha as <-; split; [done|intros; by apply timers_wf_insert]|].
  destruct (Connection.has_in_flight c1); [|injection Ha as <-; split; [done|intros; by apply timers_wf_insert]].
  apply obind_ret in Ha as (p1 & _ & Ha). apply obind_ret in Ha as (p2 & _ & Ha).
  destruct (Connection.earliest_sent c1); [apply obind_ret in Ha as (t & _ & Ha)|]; injection Ha as <-; (split; [done|intros; by apply timers_wf_insert]).
Qed.

(** C8: What time-threshold loss detection does.  Once some packet of the space
    was acknowledged, a pass over the space forgets those packets up to the
    largest acknowledged one that were sent 9/8 of the round-trip time ago (a
    millisecond at least) or earlier, and no other.  When the loss timer of an
    open connection fires for the space, that is what happens to it; and if an
    earlier packet is still in flight afterwards, the timer is armed again, no
    later than the moment at which that packet will be lost.  (The packet
    threshold of the handout is not implemented.) *)
Theorem loss_detection_exact (now : Instant) (id : SpaceId) (c : Connection) (largest : Z) (d : Duration) :
  largest_acked_packet (space_of c id) = Some largest -> Connection.loss_delay (rtt (path c)) = Ret d ->
  let lost n p := n <= largest /\ time_sent p <= lost_before now d in
  (forall c', Connection.detect_lost_packets now id c = Ret c' -> forall n p, sent_packets (space_of c id) !! n = Some p ->
    (sent_packets (space_of c' id) !! n = None <-> lost n p)) /\
  (forall t c', timers_wf (timers c) -> State.is_closed (c_state c) = false -> Connection.loss_time_and_space c = Some (t, id) ->
    Connection.handle_timeout LossDetection now c = Ret c' -> forall n p, sent_packets (space_of c id) !! n = Some p ->
    (sent_packets (space_of c' id) !! n = None <-> lost n p) /\
    (n <= largest -> ~ lost n p ->
      exists t', TimerTable.get LossDetection (timers c') = Some t' /\ t' <= time_sent p + Z.max d TIMER_GRANULARITY)).
Proof.
  intros Hlg Hdl lost. split.
  - intros c' Hd n p Hn. exact (proj1 (detect_exact now id c c' largest d Hlg Hdl Hd n p Hn)).
  - intros t c' Hw Hopen Hlt. cbn [Connection.handle_timeout]. unfold Connection.on_loss_detection_timeout. rewrite Hlt.
    intros Ha n p Hn. apply obind_ret in Ha as (c1 & Hd & Hset). destruct (detect_exact now id c c1 largest d Hlg Hdl Hd n p Hn) as [Hlost Hdue].
    destruct (detect_keeps _ _ _ _ Hd) as [Hs1 Hw1]. pose proof (loss_timer_only _ _ Hset) as [t1 Hc']. split.
    + rewrite Hc', space_of_timers. exact Hlost.
    + intros Hle Hnl. assert (Hp : sent_packets (space_of c1 id) !! n = Some p).
      { destruct (sent_packets (space_of c1 id) !! n) as [q|] eqn:Hq; [|by destruct Hnl; apply Hlost].
        pose proof (proj1 (proj2 (keeps_detect _ _ _ _ Hd))) as Hsub. rewrite map_subseteq_spec in Hsub. apply Hsub in Hq. by simplify_eq. }
      destruct (Hdue Hp Hle) as (t2 & Ht2 & Hb). destruct (loss_timer_armed c1 c' id t2 (Hw1 Hw)) as (t3 & Ht3 & Hle3); [by rewrite Hs1|done|done|].
      exists t3. split; [done|lia].
Qed.

(** A connection with two packets in flight, of which the second is acknowledged. *)
Definition two_in_flight : Connection :=
  let m n t := mkSentPacket t 1200 true None None [] n SpData in
  let s := PacketSpace.new 0 in
  mkConnection Client Established
    (mkNetworkPath [] (mkRtt (from_millis 40) (Some (from_millis 40)) 1000 (from_millis 30)) (NewReno.new 0) (mkInFlight 2400 2) (Some 0))
    (mkSpaces s s (mkPacketSpace false Dedup_new 0 Retransmits_default PendingAcks.new 2 (Some 1) 0 1 0
      {[ 0 := m 0 (from_millis 10); 1 := m 1 (from_millis 60) ]} None false false 2400))
    SpData TimerTable_default (StreamsState.new Client) false false.

(** The same, with the first packet due to be lost. *)
Definition loss_timer_due : Connection :=
  let c := two_in_flight in
  with_space SpData (space_with_loss (<[0 := mkSentPacket (from_millis 10) 1200 true None None [] 0 SpData]>
    {[ 1 := mkSentPacket (from_millis 60) 1200 true None None [] 1 SpData ]}) 2400 (Some (from_millis 55)) (space_of c SpData)) c.

Lemma loss_detection_exact_witness : exists c', Connection.handle_timeout LossDetection (from_millis 70) loss_timer_due = Ret c' /\
  (sent_packets (space_of c' SpData) !! 0 = None <-> 0 <= 1 /\ from_millis 10 <= lost_before (from_millis 70) (from_millis 45)) /\
  exists t', TimerTable.get LossDetection (timers c') = Some t' /\ t' <= from_millis 60 + Z.max (from_millis 45) TIMER_GRANULARITY.
Proof.
  destruct (Connection.handle_timeout LossDetection (from_millis 70) loss_timer_due) as [c'|] eqn:Hd; [|exfalso; vm_compute in Hd; discriminate].
  exists c'. split; [reflexivity|].
  destruct (loss_detection_exact (from_millis 70) SpData loss_timer_due 1 (from_millis 45) eq_refl eq_refl) as [_ Ht].
  split.
  - exact (proj1 (Ht (from_millis 55) c' eq_refl eq_refl eq_refl Hd 0 (mkSentPacket (from_millis 10) 1200 true None None [] 0 SpData) eq_refl)).
  - apply (proj2 (Ht (from_millis 55) c' eq_refl eq_refl eq_refl Hd 1 (mkSentPacket (from_millis 60) 1200 true None None [] 1 SpData) eq_refl)).
    + lia.
    + intros [_ Hl]. vm_compute in Hl. by apply Hl.
Defined.

Lemma ack_numbers_none id l c : (forall n, n ∈ l -> sent_packets (space_of c id) !! n = None) ->
  Connection.ack_numbers id l (c, None) = Ret (c, None).
Proof.
  induction l as [|n l IH]; intros Hl; cbn [Connection.ack_numbers]; [done|]. unfold Connection.ack_number, PacketSpace.take at 1.
  rewrite Hl by set_solver. cbn [obind]. apply IH. intros n' Hn'. apply Hl. set_solver.
Qed.

(** C9: What an ACK frame does.  A frame that acknowledges a packet not yet
    sent, or whose largest number is below one acknowledged before (as happens
    when two ACK frames are reordered), is a protocol violation and changes
    nothing.  A frame whose packets are all accounted for already changes
    nothing either.  Any other frame, if it is handled without a panic, is
    accepted: none of the packets it acknowledges is in flight afterwards, no packet appears, the books stay
    balanced, and the state of the connection is the same. *)
Theorem ack_received_correct (now : Instant) (id : SpaceId) (ack : Ack) (c : Connection) :
  let prev := largest_acked_packet (space_of c id) in
  (next_packet_number (space_of c id) <= ack_largest ack ->
    Connection.on_ack_received now id ack c = Ret (c, Err (Connection.protocol_violation "ACK for unsent packet"))) /\
  (ack_largest ack < next_packet_number (space_of c id) -> (exists p, prev = Some p /\ ack_largest ack < p) ->
    Connection.on_ack_received now id ack c = Ret (c, Err (Connection.protocol_violation "ACK regressed largest acknowledged packet"))) /\
  (ack_largest ack < next_packet_number (space_of c id) -> (forall p, prev = Some p -> p <= ack_largest ack) ->
    (forall l, ack_ranges ack = Ret l -> (forall n, n ∈ Connection.acked_numbers l -> sent_packets (space_of c id) !! n = None) ->
      Connection.on_ack_received now id ack c = Ret (c, Ok tt)) /\
    (forall c' r, Connection.on_ack_received now id ack c = Ret (c', r) ->
      r = Ok tt /\ (conn_inv c -> conn_inv c') /\ c_state c' = c_state c /\
      sent_packets (space_of c' id) ⊆ sent_packets (space_of c id) /\
      exists l, ack_ranges ack = Ret l /\ forall lo hi n, (lo, hi) ∈ l -> lo <= n <= hi -> sent_packets (space_of c' id) !! n = None)).
Proof.
  intros prev. split; [|split].
  - intros Hn. unfold Connection.on_ack_received. by destruct (Z.leb_spec (next_packet_number (space_of c id)) (ack_largest ack)); [|lia].
  - intros Hn (p & Hp & Hlt). unfold Connection.on_ack_received. destruct (Z.leb_spec (next_packet_number (space_of c id)) (ack_largest ack)); [lia|].
    fold prev. rewrite Hp. by destruct (Z.ltb_spec (ack_largest ack) p); [|lia].
  - intros Hn Hp.
    assert (Hc : forall A (x y : A), (if match prev with Some p => ack_largest ack <? p | None => false end then x else y) = y).
    { intros A x y. destruct prev as [p|]; [|done]. by destruct (Z.ltb_spec (ack_largest ack) p); [specialize (Hp p eq_refl); lia|]. }
    split.
    + intros l Hl Hnone. unfold Connection.on_ack_received. fold prev. rewrite Hc.
      destruct (Z.leb_spec (next_packet_number (space_of c id)) (ack_largest ack)); [lia|]. rewrite Hl. cbn [obind].
      by rewrite ack_numbers_none.
    + intros c' r Ha. pose proof (keeps_on_ack _ _ _ _ _ _ Ha) as (Hk & Hs & Hr).
      assert (r = Ok tt) as ->.
      { revert Ha. unfold Connection.on_ack_received. fold prev. rewrite Hc.
        destruct (Z.leb_spec (next_packet_number (space_of c id)) (ack_largest ack)); [lia|]. intros Ha. outcome_inv.
        destruct v0 as [c1 [p|]]; outcome_inv; by simplify_eq. }
      destruct Hr as (l & Hl & _ & Hsub & Hgone). split_and!; try done; [by apply Hk|]. exists l. split; [done|].
      intros lo hi n Hin Hbn. apply Hgone, elem_of_acked_numbers. by exists lo, hi.
Qed.

Definition ack_of (largest : Z) : Ack := {| ack_largest := largest; Frame.ack_delay := 0; ack_additional := [0]; ack_ecn := None |}.

Lemma ack_received_correct_witness :
  Connection.on_ack_received 5 SpData (ack_of 2) two_in_flight =
    Ret (two_in_flight, Err (Connection.protocol_violation "ACK for unsent packet")) /\
  Connection.on_ack_received 5 SpData (ack_of 0) two_in_flight =
    Ret (two_in_flight, Err (Connection.protocol_violation "ACK regressed largest acknowledged packet")) /\
  exists c', Connection.on_ack_received (from_millis 70) SpData (ack_of 1) two_in_flight = Ret (c', Ok tt) /\
    sent_packets (space_of c' SpData) !! 1 = None.
Proof.
  split; [apply (ack_received_correct 5 SpData (ack_of 2) two_in_flight); vm_compute; discriminate|].
  split; [apply (ack_received_correct 5 SpData (ack_of 0) two_in_flight); [reflexivity|exists 1; split; reflexivity]|].
  destruct (Connection.on_ack_received (from_millis 70) SpData (ack_of 1) two_in_flight) as [[c' r]|] eqn:Ha; [|exfalso; vm_compute in Ha; discriminate].
  destruct (proj2 (proj2 (ack_received_correct (from_millis 70) SpData (ack_of 1) two_in_flight))) as [_ Hok].
  - reflexivity.
  - intros p Hp. vm_compute in Hp. injection Hp as <-. vm_compute. discriminate.
  - destruct (Hok c' r Ha) as (-> & _ & _ & _ & l & Hl & Hgone). exists c'. split; [reflexivity|].
    vm_compute in Hl. injection Hl as <-. apply (Hgone 1 1); [by apply elem_of_cons; left|lia].
Defined.

(** ** The probe timeout *)

Lemma detect_nothing_acked now id c : largest_acked_packet (space_of c id) = None -> loss_time (space_of c id) = None ->
  Connection.detect_lost_packets now id c = Ret c.
Proof.
  intros Hl Ht. unfold Connection.detect_lost_packets. rewrite Hl.
  transitivity (Ret (with_space id (space_of c id) c)); [|by rewrite with_space_same]. do 2 f_equal.
  destruct (space_of c id); cbn in *. by subst.
Qed.

Lemma GRANULARITY_small : TIMER_GRANULARITY < RTT_END.
Proof. reflexivity. Qed.

(** C15: The probe timeout never probes.  As long as nothing was acknowledged in
    any space, which is when the very first packets of a handshake get lost,
    the loss timer that fires retransmits nothing and queues nothing, although
    packets are in flight: all it does is to arm itself again for the same
    instant, three round-trip times after the earliest packet was sent.  That
    instant has passed, so that the next poll, if no other timer is armed, fires
    the timer again. *)
Theorem pto_never_retransmits (now : Instant) (c : Connection) (sent : Instant) :
  State.is_closed (c_state c) = false -> (forall id, loss_time (space_of c id) = None) ->
  (forall id, largest_acked_packet (space_of c id) = None) ->
  Connection.has_in_flight c = true -> Connection.earliest_sent c = Some sent ->
  rtt_inv (rtt (path c)) -> sent + 4 * RTT_END < INSTANT_END ->
  let deadline := sent + (RttEstimator.conservative (rtt (path c)) * 3 + TIMER_GRANULARITY) in
  let c' := with_timers (TimerTable.set LossDetection deadline (timers c)) c in
  Connection.handle_timeout LossDetection now c = Ret c' /\
  (timers_wf (timers c) -> deadline <= now -> (forall timer, timer <> LossDetection -> TimerTable.get timer (timers c) = None) ->
    exists t, TimerTable.poll now (timers c') = Ret (t, Some LossDetection)).
Proof.
  intros Hcl Hlt Hla Hfl Hsent Hrtt Hend deadline c'.
  assert (Hc : RttEstimator.conservative (rtt (path c)) < RTT_END /\ 0 <= RttEstimator.conservative (rtt (path c))).
  { unfold RttEstimator.conservative, RttEstimator.get. pose proof (ri_latest _ Hrtt).
    destruct (smoothed (rtt (path c))) as [s|] eqn:Hs; cbn; [pose proof (ri_smoothed _ Hrtt s Hs)|]; lia. }
  assert (Hnone : Connection.loss_time_and_space c = None) by (unfold Connection.loss_time_and_space; cbn [fold_left SpaceId_VARIANTS]; by rewrite !Hlt).
  assert (Hfin : sent + (RttEstimator.conservative (rtt (path c)) * 3 + TIMER_GRANULARITY) < INSTANT_END).
  { pose proof GRANULARITY_small. lia. }
  split.
  - cbn [Connection.handle_timeout]. unfold Connection.on_loss_detection_timeout. rewrite Hnone.
    assert (Hd : forall id, (if 0 <? in_flight (space_of c id) then Connection.detect_lost_packets now id c else Ret c) = Ret c).
    { intros id. destruct (0 <? _); [by apply detect_nothing_acked|done]. }
    cbn [fold_left SpaceId_VARIANTS obind]. rewrite !Hd. cbn [obind]. rewrite !Hd. cbn [obind]. rewrite Hd. cbn [obind].
    unfold Connection.set_loss_detection_timer. rewrite Hcl, Hnone, Hfl, Hsent.
    rewrite dur_mul_ok by (pose proof RTT_END_16; lia). cbn [obind].
    rewrite dur_add_ok by (pose proof RTT_END_16; pose proof GRANULARITY_small; lia).
    cbn [obind]. rewrite inst_add_ok by done. done.
  - intros Hwf Hnow Hother. 
    assert (Hget : forall timer, TimerTable.get timer (timers c') = if decide (LossDetection = timer) then Some deadline else None).
    { intros timer. unfold c'. cbn [timers with_timers]. unfold TimerTable.set. rewrite get_insert by done.
      destruct (decide (LossDetection = timer)); [done|]. apply Hother. congruence. }
    destruct (poll_spec now (timers c')) as (t & r & Hp & _ & Hr); [by apply timers_wf_insert|]. exists t. rewrite Hp.
    destruct r as [timer|].
    + destruct Hr as (time & Ht & _). rewrite Hget in Ht. by destruct (decide (LossDetection = timer)) as [<-|].
    + destruct Hr as [_ Hr]. specialize (Hr LossDetection deadline). rewrite Hget, decide_True in Hr by done. specialize (Hr eq_refl). lia.
Qed.

(** A client whose first packet is in flight. *)
Definition first_in_flight : Connection :=
  let s := PacketSpace.new 0 in
  mkConnection Client StHandshake
    (mkNetworkPath [] (mkRtt MIN_RTT None (MIN_RTT / 2) MIN_RTT) (NewReno.new 0) (mkInFlight 54 1) (Some 0))
    (mkSpaces (mkPacketSpace true Dedup_new 0 Retransmits_default PendingAcks.new 1 None 0 0 0
      {[ 0 := mkSentPacket 7 54 true None (Some (with_hello true Retransmits_default)) [] 0 SpInitial ]} None false false 54) s s)
    SpInitial TimerTable_default (StreamsState.new Client) false false.

Lemma pto_never_retransmits_witness :
  Connection.handle_timeout LossDetection (from_secs 2) first_in_flight =
    Ret (with_timers (TimerTable.set LossDetection (7 + (MIN_RTT * 3 + TIMER_GRANULARITY)) TimerTable_default) first_in_flight).
Proof.
  refine (proj1 (pto_never_retransmits (from_secs 2) first_in_flight 7 eq_refl _ _ eq_refl eq_refl _ _)).
  - by intros [].
  - by intros [].
  - split; cbn [latest min smoothed var rtt path first_in_flight]; [|intros s [=]|]; repeat split; vm_compute; done.
  - reflexivity.
Defined.
