(* ===== verification/Datagrams.v ===== *)
(** * Datagrams: how a connection handles what it receives ([core/src/connection/mod.rs])

    The loops over the frames of a payload as a fold over the parsed frames,
    and the filter of duplicates: a datagram that arrives again, at any later
    time, is not handled again. *)
From S2P Require Import Prelude Time Buffers Varint Common Packet Frame Timer Space Path Send Recv Streams Connection Accounting Driver Typed.

(** ** The frames of a packet *)

(** The specification of the loops over the frames of a payload: the frames
    that the parser yields are handled one after the other, until one of them
    ends the packet or is malformed. *)
Fixpoint handle_frames (h : Frame -> Connection -> outcome (Connection * Connection.next_frame))
    (l : list (result Frame TransportError)) (c : Connection) : outcome (Connection * result unit TransportError) :=
  match l with
  | [] => Ret (c, Ok tt)
  | Err e :: _ => Ret (c, Err e)
  | Ok frame :: l =>
      let! '(c, next) := h frame c in
      match next with
      | Connection.GoOn => handle_frames h l c
      | Connection.Return r => Ret (c, r)
      end
  end.

Section Frames.
Context {B : Type} `{Buf B}.

Lemma frame_loop_fold fuel h (p : FrameParser B) l c : parse_all fuel p = Ret l ->
  Connection.frame_loop fuel h p c = handle_frames h l c.
Proof.
  revert p l c. induction fuel as [|fuel IH]; intros p l c; cbn [parse_all Connection.frame_loop]; [done|].
  intros Hp. apply obind_ret in Hp as ([p' x] & -> & Hp). cbn [obind]. destruct x as [x|]; [|by injection Hp as <-].
  apply obind_ret in Hp as (rest & Hrest & Hp). injection Hp as <-. destruct x as [frame|e]; [|done].
  cbn [handle_frames]. destruct (h frame c) as [[c1 [|r]]|]; cbn [obind]; [by apply IH|done|done].
Qed.

Lemma process_frames_fold h (payload : B) c :
  match parse_payload payload with
  | Panic => True
  | Ret (Err e) => Connection.process_frames h payload c = Ret (c, Err e)
  | Ret (Ok l) => Connection.process_frames h payload c = handle_frames h l c
  end.
Proof.
  unfold parse_payload, Connection.process_frames. destruct (FrameParser_new payload) as [p|e]; [|done].
  destruct (parse_all _ p) as [l|] eqn:Hp; cbn [obind]; [|done]. by apply frame_loop_fold.
Qed.
End Frames.

(** ** Duplicates *)

(** A number that the filter has seen, or that is too old for it. *)
Definition known (d : Dedup) (n : Z) : Prop :=
  n < next d /\ (n + WINDOW_SIZE <= next d - 1 \/ n = next d - 1 \/ Z.testbit (Space.window d) (next d - 2 - n) = true).

(** The filter takes a number that it knows for a duplicate, and stays as it is. *)
Lemma known_duplicate d n : 0 <= n -> known d n -> Dedup_insert d n = Ret (d, true).
Proof.
  intros Hn [Hlt Hk]. unfold Dedup_insert. rewrite (proj2 (checked_sub_none n (next d))) by lia. unfold highest.
  rewrite u64_sub_ok by lia. cbn [obind]. rewrite u64_sub_ok by lia. cbn [obind]. unfold WINDOW_SIZE in *.
  destruct (Z.ltb_spec (next d - 1 - n) (1 + 16 * 8)); [|done]. unfold checked_sub.
  destruct (Z.leb_spec 1 (next d - 1 - n)); [|done]. destruct Hk as [|[|Hbit]]; [lia..|].
  replace (next d - 1 - n - 1) with (next d - 2 - n) by lia. rewrite land_mask, Hbit by lia.
  do 3 f_equal. destruct d as [w nx]; cbn in *. f_equal. apply Z.bits_inj'. intros k Hk.
  rewrite Z.lor_spec, testbit_mask by lia. destruct (Z.eqb_spec k (nx - 2 - n)) as [->|]; [by rewrite Hbit|by rewrite orb_false_r].
Qed.

(** What the filter knows, it knows for ever. *)
Lemma known_insert d n m d' dup : 0 <= n -> known d n -> Dedup_insert d m = Ret (d', dup) ->
  known d' n.
Proof.
  intros Hn Hk. pose proof Hk as [Hlt Hor]. unfold Dedup_insert, known, WINDOW_SIZE in *.
  destruct (checked_sub m (next d)) as [diff|] eqn:Hd.
  - apply checked_sub_some in Hd as [-> Hd]. intros Ha. apply obind_ret in Ha as (k & [-> _]%u64_add_ret & Ha). injection Ha as <- _.
    cbn [next Space.window]. split; [lia|]. destruct (Z.le_gt_cases (n + (1 + 16 * 8)) m) as [|Hin]; [left; lia|].
    right; right. rewrite shifted_bits by lia. apply orb_true_iff.
    destruct (Z.eq_dec n (next d - 1)) as [->|Hne]; [left; apply Z.eqb_eq; lia|right].
    destruct Hor as [|[|Hbit]]; [lia..|]. apply andb_true_iff. split; [apply Z.ltb_lt; lia|]. rewrite <- Hbit. f_equal. lia.
  - intros Ha. apply obind_ret in Ha as (h & _ & Ha). apply obind_ret in Ha as (back & _ & Ha).
    destruct (back <? _); [|by injection Ha as <- _]. destruct (checked_sub back 1) as [bit|]; [|by injection Ha as <- _].
    injection Ha as <- _. cbn [next Space.window]. split; [done|]. destruct Hor as [|[|Hbit]]; [by left|by right; left|].
    right; right. by rewrite Z.lor_spec, Hbit.
Qed.

(** A number that goes through the filter is known afterwards. *)
Lemma inserted_known d n d' dup : 0 <= n -> Dedup_insert d n = Ret (d', dup) -> known d' n.
Proof.
  intros Hn. unfold Dedup_insert, known, WINDOW_SIZE. destruct (checked_sub n (next d)) as [diff|] eqn:Hd.
  - intros Ha. apply obind_ret in Ha as (k & [-> _]%u64_add_ret & Ha). injection Ha as <- _. cbn [next Space.window]. split; [lia|].
    right; left. lia.
  - apply checked_sub_none in Hd. intros Ha. apply obind_ret in Ha as (h & Hh & Ha). apply u64_sub_ret in Hh as [-> Hh].
    apply obind_ret in Ha as (back & Hb & Ha). apply u64_sub_ret in Hb as [-> Hb].
    destruct (Z.ltb_spec (next d - 1 - n) (1 + 16 * 8)); [|injection Ha as <- _; split; [lia|left; lia]].
    destruct (checked_sub (next d - 1 - n) 1) as [bit|] eqn:Hbit.
    2: { injection Ha as <- _. apply checked_sub_none in Hbit. split; [lia|]. right; left. lia. }
    apply checked_sub_some in Hbit as [-> Hbit]. injection Ha as <- _. cbn [next Space.window]. split; [lia|]. right; right.
    rewrite Z.lor_spec, testbit_mask by lia. apply orb_true_iff. right. apply Z.eqb_eq. lia.
Qed.

Lemma expand_value pn expected n : 0 <= PacketNumber.value pn < 2 ^ (8 * PacketNumber.len pn) -> 0 <= expected < 2 ^ 61 ->
  PacketNumber.expand pn expected = Ret n ->
  n mod 2 ^ (8 * PacketNumber.len pn) = PacketNumber.value pn /\ 0 <= n < 2 ^ 62 - 1.
Proof.
  intros Hv He Hn. pose proof (pn_len_bound pn) as Hlen. unfold PacketNumber.expand in Hn.
  rewrite (Z.mul_comm (PacketNumber.len pn) 8) in Hn. rewrite pn_candidate in Hn by lia. rewrite Z.shiftl_1_l in Hn.
  set (w := 2 ^ (8 * PacketNumber.len pn)) in *.
  assert (Hwb : 2 ^ 8 <= w <= 2 ^ 32) by (subst w; split; apply Z.pow_le_mono_r; lia).
  assert (Hmod : forall k, (expected - expected mod w + PacketNumber.value pn + k * w) mod w = PacketNumber.value pn).
  { intros k. rewrite Z.mod_add by lia. pose proof (Z.div_mod expected w ltac:(lia)) as Hde.
    replace (expected - expected mod w + PacketNumber.value pn) with (PacketNumber.value pn + (expected / w) * w) by lia.
    rewrite Z.mod_add by lia. by apply Z.mod_small. }
  pose proof (Z.mod_pos_bound expected w ltac:(lia)) as Hme. pose proof (Z.div_mod expected w ltac:(lia)) as Hde.
  assert (0 <= w * (expected / w)) by (apply Z.mul_nonneg_nonneg; [lia|apply Z.div_pos; lia]).
  clearbody w. destruct (match checked_sub expected (w / 2) with Some _ => _ | None => false end).
  - outcome_inv. subst n. split; [etrans; [|apply (Hmod 1)]; f_equal; lia|lia].
  - apply obind_ret in Hn as (u & _ & Hn). destruct (_ && _) eqn:Hb; outcome_inv; subst n.
    + apply andb_prop in Hb as [_ Hb%Z.ltb_lt]. split; [etrans; [|apply (Hmod (-1))]; f_equal; lia|lia].
    + split; [etrans; [|apply (Hmod 0)]; f_equal; lia|lia].
Qed.

(** What an encoded number stands for does not change while the receiver stays
    within half of the range of the encoding behind it. *)
Lemma expand_stays pn e e' n : 0 <= PacketNumber.value pn < 2 ^ (8 * PacketNumber.len pn) -> 0 <= e <= e' -> e' < 2 ^ 61 ->
  e' - 2 ^ (8 * PacketNumber.len pn) / 2 < n -> PacketNumber.expand pn e = Ret n -> PacketNumber.expand pn e' = Ret n.
Proof.
  intros Hv He He' Hlow Hn. destruct (expand_value pn e n Hv ltac:(lia) Hn) as [Hm Hb].
  destruct (Z.le_gt_cases n (e' + 2 ^ (8 * PacketNumber.len pn) / 2)) as [Hup|Hup].
  { apply expand_spec; [by rewrite Hm|lia..]. }
  pose proof (pn_len_bound pn) as Hlen. unfold PacketNumber.expand in *. rewrite (Z.mul_comm (PacketNumber.len pn) 8) in *.
  rewrite pn_candidate in Hn |- * by lia. rewrite Z.shiftl_1_l in *. set (w := 2 ^ (8 * PacketNumber.len pn)) in *.
  assert (Hwb : 2 ^ 8 <= w <= 2 ^ 32) by (subst w; split; apply Z.pow_le_mono_r; lia).
  pose proof (Z.mod_pos_bound e w ltac:(lia)) as Hme. pose proof (Z.div_mod e w ltac:(lia)) as Hde.
  assert (Hw2 : w = 2 * (w / 2)).
  { subst w. replace (8 * PacketNumber.len pn) with (Z.succ (8 * PacketNumber.len pn - 1)) by lia.
    rewrite Z.pow_succ_r by lia. rewrite (Z.mul_comm 2) at 2. rewrite Z.div_mul by lia. lia. }
  assert (0 <= w * (e / w)) by (apply Z.mul_nonneg_nonneg; [lia|apply Z.div_pos; lia]). clearbody w.
  assert (Hc : n = PacketNumber.value pn /\ e' < w / 2).
  { unfold checked_sub in Hn. destruct (Z.leb_spec (w / 2) e); [destruct (Z.leb_spec (e - e mod w + PacketNumber.value pn) (e - w / 2))|].
    - apply u64_add_ret in Hn as [-> _]. lia.
    - apply obind_ret in Hn as (u & [-> _]%u64_add_ret & Hn). destruct (_ && _) eqn:Hc; [apply u64_sub_ret in Hn as [-> _]; lia|].
      injection Hn as <-. apply andb_false_iff in Hc as [Hc%Z.ltb_ge|Hc%Z.ltb_ge]; lia.
    - rewrite (Z.mod_small e w) in Hn by lia. apply obind_ret in Hn as (u & [-> _]%u64_add_ret & Hn). destruct (_ && _) eqn:Hc; [apply u64_sub_ret in Hn as [-> _]; lia|].
      injection Hn as <-. apply andb_false_iff in Hc as [Hc%Z.ltb_ge|Hc%Z.ltb_ge]; lia. }
  destruct Hc as [-> Hsmall]. rewrite (Z.mod_small e' w), Z.sub_diag, Z.add_0_l by lia.
  unfold checked_sub. destruct (Z.leb_spec (w / 2) e'); [lia|]. rewrite u64_add_ok by (unfold U64; lia). cbn [obind].
  destruct (Z.ltb_spec w (PacketNumber.value pn)); [lia|]. by rewrite andb_false_r.
Qed.

(** ** What a connection has heard *)

(** The filters and the largest received numbers are untouched. *)
Definition same_ears (c c' : Connection) : Prop := forall id,
  dedup (space_of c' id) = dedup (space_of c id) /\ rx_packet (space_of c' id) = rx_packet (space_of c id).

#[export] Instance same_ears_preorder : PreOrder same_ears.
Proof. split; [by split|]. intros c1 c2 c3 Hs1 Hs2 id. destruct (Hs1 id), (Hs2 id). split; congruence. Qed.

(** The filters know all that they knew, and the received numbers do not go back. *)
Record hears (c c' : Connection) : Prop := {
  he_known : forall id n, 0 <= n -> known (dedup (space_of c id)) n -> known (dedup (space_of c' id)) n;
  he_rx : forall id, rx_packet (space_of c id) <= rx_packet (space_of c' id);
}.

#[export] Instance hears_preorder : PreOrder hears.
Proof. split; [by split|]. intros c1 c2 c3 [Hk1 Hr1] [Hk2 Hr2]. split; [auto|]. intros id. by transitivity (rx_packet (space_of c2 id)). Qed.

Lemma hears_same c c' : same_ears c c' -> hears c c'.
Proof. intros Hs. split; intros id; destruct (Hs id) as [Hd Hr]; [by rewrite Hd|by rewrite Hr]. Qed.

Lemma same_keeps c c' : keeps c c' -> same_ears c c'.
Proof. intros Hk id. split; apply Hk. Qed.

Lemma same_mild c c' : mild c c' -> same_ears c c'.
Proof. intros Hm. intros id. by destruct (md_spaces _ _ Hm id) as (_ & ? & ?). Qed.

Lemma same_transmit now close id el c c' : Connection.transmit_space now close id el c = Ret c' -> same_ears c c'.
Proof.
  unfold Connection.transmit_space. intros Ha. apply obind_ret in Ha as ([s n] & Htx & Ha).
  apply obind_ret in Ha as (pn & _ & Ha). apply obind_ret in Ha as (h & _ & Ha). apply obind_ret in Ha as (out & _ & Ha).
  apply obind_ret in Ha as ([[c1 sent] out1] & Hst1 & Ha). apply obind_ret in Ha as (len & _ & Ha). injection Ha as <-.
  transitivity (with_space id s c).
  { intros i. autorewrite with conn. destruct (decide (id = i)) as [<-|]; [|done].
    unfold PacketSpace.get_tx_number in Htx. outcome_inv. by simplify_eq. }
  transitivity c1.
  { destruct close; [apply obind_ret in Hst1 as (o & _ & Hst1); by injection Hst1 as <- _ _|]. by apply populate_mild, same_mild in Hst1. }
  intros i. destruct (sent_largest_acked sent); [|done]. rewrite space_of_path, space_of_timers. autorewrite with conn.
  by destruct (decide (id = i)) as [<-|].
Qed.

Lemma same_turn now close blocked id c b c' b' : Connection.transmit_turn now close blocked id (c, b) = Ret (c', b') -> same_ears c c'.
Proof.
  unfold Connection.transmit_turn. destruct (_ && _); [by intros [= <- _]|]. intros Ha. apply obind_ret in Ha as (c1 & Hst1 & Ha).
  transitivity c1; [destruct (_ && _); [by apply same_keeps, (keeps_discard SpInitial)|by injection Hst1 as <-]|].
  destruct (_ && blocked); [by injection Ha as <- _|]. apply obind_ret in Ha as (c2 & Hst2%same_transmit & Ha). by injection Ha as <- _.
Qed.

Lemma same_burst k now c c' : Driver.burst k now c = Ret c' -> same_ears c c'.
Proof.
  revert c. induction k as [|k IH]; intros c; cbn [Driver.burst]; [by intros [= ->]|].
  intros Ha. apply obind_ret in Ha as ([c1 again] & Hst1 & Ha). transitivity c1.
  - clear Ha. unfold Connection.poll_transmit in Hst1. destruct (match c_state c with Drained => None | _ => _ end); [|by injection Hst1 as <- _].
    apply obind_ret in Hst1 as ([c4 any] & Ht & Ha). unfold Connection.transmit_turns in Ht.
    apply obind_ret in Ht as ([c2 b2] & Ht2%same_turn & Ht). apply obind_ret in Ht as ([c3 b3] & Ht3%same_turn & Ht4%same_turn).
    etrans; [exact Ht2|]. etrans; [exact Ht3|]. etrans; [exact Ht4|]. by destruct (negb any); injection Ha as <- _.
  - destruct again; [by apply IH|by injection Ha as <-].
Qed.

Lemma same_send_queued io c c' : Driver.send_queued io c = Ret c' -> same_ears c c'.
Proof.
  unfold Driver.send_queued. generalize (S (length (sending_queue (path c)))) as fuel. intros fuel. revert io c.
  induction fuel as [|fuel IH]; intros io c; cbn [Driver.send_loop]; [done|].
  destruct (NetworkPath.send_one _ _ _) as [[[p s] info]|] eqn:Hs; [|done].
  assert (Hst1 : same_ears c (with_spaces s (with_path p c))).
  { apply send_one_fields in Hs. destruct (sending_queue (path c)); [by destruct Hs as (_ & -> & _)|].
    destruct Hs as (t & f & sp & m & _ & _ & _ & _ & _ & _ & _ & _ & Hsp & -> & _). intros i. unfold space_of. cbn [spaces with_spaces].
    rewrite get_set_space. destruct (decide _) as [<-|]; [|done]. unfold PacketSpace.sent in Hsp.
    apply obind_ret in Hsp as ([? ?] & _ & Hsp). outcome_inv. by simplify_eq. }
  destruct info as [info|]; [|by intros [= <-]]. destruct (if psi_ack_eliciting info then _ else _) as [c2|] eqn:Hl; [|done].
  intros Ha%IH. etrans; [exact Hst1|]. etrans; [|exact Ha].
  destruct (psi_ack_eliciting info); [by apply same_keeps, keeps_loss_timer|by injection Hl as <-].
Qed.

Section Heard.
Context {B : Type} `{BufBytes B}.

Lemma hears_data now (data : B) c c' : Connection.handle_data now data c = Ret c' -> hears c c'.
Proof.
  unfold Connection.handle_data. intros Ha. apply obind_ret in Ha as (r & _ & Ha). destruct r as [[h p]|e]; [|by injection Ha as <-].
  apply obind_ret in Ha as (number & _ & Ha). apply obind_ret in Ha as ([d dup] & Hd & Ha). set (c1 := with_space _ _ c) in Ha.
  transitivity c1.
  - split; intros id; unfold c1; autorewrite with conn; destruct (decide _) as [<-|]; try done. intros n Hn Hk.
    destruct number as [m|]; [exact (known_insert _ _ _ _ _ Hn Hk Hd)|]. by injection Hd as <- _.
  - clearbody c1. destruct dup; [by injection Ha as <-|]. destruct (_ && _); [by injection Ha as <-|].
    apply handle_packet_spec in Ha as (_ & _ & Hdd & Hr). split; intros id; [by rewrite Hdd|]. rewrite Hr.
    destruct number; [|done]. destruct (decide _); lia.
Qed.

(** What a round does before it looks at a datagram. *)
Lemma hears_timers t c : hears c (with_timers t c).
Proof. by apply hears_same. Qed.

Lemma hears_round (r : Round B) c c' : Driver.round r c = Ret c' -> hears c c'.
Proof.
  unfold Driver.round. destruct (State.is_drained (c_state c)); [by intros [= <-]|]. intros Ha.
  apply obind_ret in Ha as (c1 & Hst1%same_burst%hears_same & Ha). apply obind_ret in Ha as (c2 & Hst2%same_send_queued%hears_same & Ha).
  etrans; [exact Hst1|]. etrans; [exact Hst2|]. unfold Driver.select, Driver.take_event in Ha. destruct (events (c_streams c2)).
  - apply obind_ret in Ha as ([t fired] & _ & Ha). etrans; [apply hears_timers|]. destruct fired as [timer|].
    + destruct timer; cbn [Connection.handle_timeout] in Ha; try (by injection Ha as <-); [by apply hears_same, same_keeps, (keeps_timeout (r_timeout r))|].
      injection Ha as <-. apply hears_same. intros i. autorewrite with conn. by destruct (decide _) as [<-|].
    + destruct (r_data r) as [[now d]|]; [by apply hears_data in Ha|by injection Ha as <-].
  - apply run_app_ops_keeps, same_keeps, hears_same in Ha. etrans; [|exact Ha]. by apply hears_same.
Qed.

Lemma hears_run (l : list (Round B)) c c' : Driver.run_connection l c = Ret c' -> hears c c'.
Proof.
  revert c. induction l as [|r l IH]; intros c; cbn [Driver.run_connection]; [by intros [= ->]|].
  intros Ha. apply obind_ret in Ha as (c1 & Hst1%hears_round & Ha). etrans; [exact Hst1|by apply IH].
Qed.

(** The number of a datagram that was received is known. *)
Lemma number_known now (datagram rest : B) h pn n c c1 : Header.decode datagram (zlen FAKE_CID) SUPPORTED_VERSIONS = Ret (Ok (h, rest)) ->
  Header.number h = Some pn -> 0 <= n -> PacketNumber.expand pn (rx_packet (space_of c (Header.space h)) + 1) = Ret n ->
  Connection.handle_data now datagram c = Ret c1 -> known (dedup (space_of c1 (Header.space h))) n.
Proof.
  intros Hdec Hnum Hn Hx. unfold Connection.handle_data. rewrite Hdec. cbn [obind]. rewrite Hnum. set (id := Header.space h) in *. intros Ha.
  apply obind_ret in Ha as (number & Hm & Ha). apply obind_ret in Hm as (e & [-> _]%u64_add_ret & Hm). rewrite Hx in Hm. cbn [obind] in Hm.
  injection Hm as <-. apply obind_ret in Ha as ([d dup] & Hd%inserted_known & Ha); [|done]. set (c0 := with_space id _ c) in Ha.
  assert (Hc0 : dedup (space_of c0 id) = d) by (unfold c0; autorewrite with conn; by rewrite decide_True).
  clearbody c0. rewrite <- Hc0 in Hd. destruct dup; [by injection Ha as <-|]. destruct (_ && _); [by injection Ha as <-|].
  apply handle_packet_spec in Ha as (_ & _ & Hdd & _). by rewrite Hdd.
Qed.

(** A datagram whose number is known changes nothing. *)
Lemma known_ignored now (datagram rest : B) h pn n c : Header.decode datagram (zlen FAKE_CID) SUPPORTED_VERSIONS = Ret (Ok (h, rest)) ->
  Header.number h = Some pn -> 0 <= n -> PacketNumber.expand pn (rx_packet (space_of c (Header.space h)) + 1) = Ret n ->
  rx_packet (space_of c (Header.space h)) < U64_MAX -> known (dedup (space_of c (Header.space h))) n ->
  Connection.handle_data now datagram c = Ret c.
Proof.
  intros Hdec Hnum Hn Hx Hrx Hk. unfold Connection.handle_data. rewrite Hdec. cbn [obind]. rewrite Hnum. set (id := Header.space h) in *.
  rewrite u64_add_ok by u64_lia. cbn [obind]. rewrite Hx. cbn [obind]. rewrite (known_duplicate _ _ Hn Hk). cbn [obind].
  transitivity (Ret (with_space id (space_of c id) c)); [|by rewrite with_space_same]. do 2 f_equal. by destruct (space_of c id).
Qed.
End Heard.

(** ** Properties *)

(** C7: A datagram that arrives again is not handled again.  Let a datagram with
    a packet number go through the filter of its space, whatever it does there
    (it is processed, dropped, or closes the connection), and let any rounds
    of the loop follow, with other datagrams, timeouts and calls of the
    application.  As long as the largest number received is less than half of
    the range of the encoded number ahead of it, the same bytes change nothing
    when they come again: the connection stays as it is, and a round that brings
    them does what it does without them.  (Farther ahead the encoded number
    stands for another packet; and the packet with which a server accepts a
    connection, which [handle_first_packet] takes, never goes through the
    filter.) *)
Theorem duplicate_datagram_ignored {B : Type} `{BufBytes B} (now now' : Instant) (datagram rest : B) (h : Header) (pn : PacketNumber)
    (n : Z) (l : list (Round B)) (c c1 c2 : Connection) :
  let id := Header.space h in
  Header.decode datagram (zlen FAKE_CID) SUPPORTED_VERSIONS = Ret (Ok (h, rest)) -> Header.number h = Some pn ->
  PacketNumber.expand pn (rx_packet (space_of c id) + 1) = Ret n ->
  Connection.handle_data now datagram c = Ret c1 -> Driver.run_connection l c1 = Ret c2 ->
  0 <= rx_packet (space_of c id) -> rx_packet (space_of c2 id) < 2 ^ 61 - 1 ->
  rx_packet (space_of c2 id) + 1 < n + 2 ^ (8 * PacketNumber.len pn) / 2 ->
  Connection.handle_data now' datagram c2 = Ret c2 /\
  forall r : Round B, r_data r = Some (now', datagram) ->
    Driver.round r c2 = Driver.round (mkRound (r_now r) (r_io r) (r_ops r) (r_poll r) (r_timeout r) None) c2.
Proof.
  intros id Hdec Hnum Hn Hst1 Hrun Hrx Hrx2 Hwin. pose proof (hears_data _ _ _ _ Hst1) as Hh1. pose proof (hears_run _ _ _ Hrun) as Hh2.
  pose proof (he_rx _ _ Hh1 id). pose proof (he_rx _ _ Hh2 id). pose proof (header_number_bound _ _ _ _ _ _ Hdec Hnum) as Hv.
  destruct (expand_value pn (rx_packet (space_of c id) + 1) n Hv ltac:(lia) Hn) as [_ Hb].
  assert (Hx : PacketNumber.expand pn (rx_packet (space_of c2 id) + 1) = Ret n)
    by (apply (expand_stays pn (rx_packet (space_of c id) + 1)); [done|lia|lia|lia|done]).
  pose proof (number_known now datagram rest h pn n c c1 Hdec Hnum ltac:(lia) Hn Hst1) as Hk. apply (he_known _ _ Hh2 _ n ltac:(lia)) in Hk.
  assert (Hagain : forall c3, same_ears c2 c3 -> Connection.handle_data now' datagram c3 = Ret c3).
  { intros c3 Hs. destruct (Hs id) as [Hd Hr]. apply (known_ignored now' datagram rest h pn n); try done; [lia|..]; fold id; [by rewrite Hr|rewrite Hr; unfold U64_MAX, U64; lia|by rewrite Hd]. }
  split; [by apply Hagain|]. intros r Hr. unfold Driver.round. destruct (State.is_drained (c_state c2)); [done|]. cbn [r_now r_io].
  destruct (Driver.burst _ _ c2) as [c3|] eqn:Hbu; cbn [obind]; [|done]. destruct (Driver.send_queued _ c3) as [c4|] eqn:Hse; cbn [obind]; [|done].
  unfold Driver.select. destruct (Driver.take_event c4) as [[e c5]|]; [done|].
  cbn [r_poll r_timeout r_data]. destruct (TimerTable.poll _ _) as [[t fired]|]; cbn [obind]; [|done]. destruct fired; [done|].
  rewrite Hr. apply Hagain. etrans; [by eapply same_burst|]. etrans; [by eapply same_send_queued|]. done.
Qed.

(** A client in the middle of the handshake. *)
Definition client_in_handshake : Connection :=
  let s := PacketSpace.new 0 in
  mkConnection Client StHandshake
    (mkNetworkPath [] (mkRtt MIN_RTT None (MIN_RTT / 2) MIN_RTT) (NewReno.new 0) InFlight.default None)
    (mkSpaces s s s) SpInitial TimerTable_default (StreamsState.new Client) false false.

(** The hello of a server, and a round in which its event is handled. *)
Definition hello_memory : in_memory := InMemory initial_datagram eq_refl.
Definition quiet_round : Round in_memory := mkRound 6 (fun _ => Some 7) [] 8 8 None.

Definition after_hello : outcome (Connection * Connection) :=
  let! c1 := Connection.handle_data 5 hello_memory client_in_handshake in
  let! c2 := Driver.run_connection [quiet_round; quiet_round] c1 in Ret (c1, c2).

Lemma duplicate_datagram_ignored_witness : exists c1 c2, Connection.handle_data 5 hello_memory client_in_handshake = Ret c1 /\
  c_state c1 = Established /\ Driver.run_connection [quiet_round; quiet_round] c1 = Ret c2 /\
  Connection.handle_data 9 hello_memory c2 = Ret c2.
Proof.
  destruct after_hello as [[c1 c2]|] eqn:Ha; [|exfalso; vm_compute in Ha; discriminate]. exists c1, c2.
  assert (Hs : c_state c1 = Established) by (vm_compute in Ha; injection Ha as <- _; reflexivity).
  assert (Hrx : rx_packet (space_of c2 SpInitial) = 0) by (vm_compute in Ha; injection Ha as _ <-; reflexivity).
  unfold after_hello in Ha. apply obind_ret in Ha as (c1' & H1 & Ha). apply obind_ret in Ha as (c2' & H2 & Ha). injection Ha as -> ->.
  split; [exact H1|]. split; [exact Hs|]. split; [exact H2|].
  destruct (Header.decode hello_memory (zlen FAKE_CID) SUPPORTED_VERSIONS) as [[[h rest]|e]|] eqn:Hd; [|exfalso; vm_compute in Hd; discriminate..].
  assert (Hh : Header.space h = SpInitial /\ Header.number h = Some (PnU8 0)).
  { clear - Hd. vm_compute in Hd. injection Hd as <- _. split; reflexivity. }
  destruct Hh as [Hid Hpn]. pose proof (duplicate_datagram_ignored 5 9 hello_memory rest h (PnU8 0) 0 [quiet_round; quiet_round]
    client_in_handshake c1 c2) as Ht. cbv zeta in Ht. rewrite Hid, Hrx in Ht.
  apply (Ht Hd Hpn); [vm_compute; reflexivity|exact H1|exact H2|vm_compute; discriminate|vm_compute; reflexivity|vm_compute; reflexivity].
Defined.
