(* ===== verification/Offences.v ===== *)
(** * Offences: which packets end a connection ([core/src/connection/mod.rs])

    What each frame of a packet may do, what the first frame that ends the
    packet does to the connection, and that nothing else closes it. *)
From S2P Require Import Prelude Time Buffers Varint Common Packet Frame Timer Space Path Send Recv Streams Connection Accounting Driver Quiet Typed Datagrams.

(** ** Frames *)




(** What the frames of a packet leave as it is. *)
Record same_rules (c c' : Connection) : Prop := {
  sr_side : ss_side (c_streams c') = ss_side (c_streams c);
  sr_next : ss_next (c_streams c') = ss_next (c_streams c);
  sr_number : forall id, next_packet_number (space_of c' id) = next_packet_number (space_of c id);
  sr_closed : State.is_closed (c_state c') = State.is_closed (c_state c);
}.

#[export] Instance same_rules_preorder : PreOrder same_rules.
Proof. split; [by split|]. intros c1 c2 c3 [Hs1 Hn1 Hk1 Hc1] [Hs2 Hn2 Hk2 Hc2]. split; congruence. Qed.











(** ** Packets *)









Section Packets.
Context {B : Type} `{Buf B}.


End Packets.

(** ** Properties *)



