(* ===== verification/Peers.v ===== *)
(** * Peers: two connections, one after the other

    What one connection queues, the other handles frame by frame, so that for
    a pair of connections the bytes between them can be left out: the
    abstract peer takes a space, a number and frames. *)
From S2P Require Import Prelude Time Buffers Varint Common ArrayRangeSet RangeSet Packet Frame Timer Space Path Send Recv Streams Connection Accounting Driver Typed Wire Datagrams.

(** ** The abstract peer *)

(** How the frames of a packet of a space are handled. *)
Definition frame_handler (now : Instant) (id : SpaceId) (len : Z) : Frame -> Connection -> outcome (Connection * Connection.next_frame) :=
  match id with
  | SpData => Connection.data_frame now id len
  | _ => Connection.early_frame now id
  end.

(** The frames of a packet, one after the other; a packet without frames is refused. *)
Definition handle_payload (now : Instant) (id : SpaceId) (len : Z) (fs : list Frame) (c : Connection)
    : outcome (Connection * result unit TransportError) :=
  match payload_result fs with
  | Err e => Ret (c, Err e)
  | Ok l => handle_frames (frame_handler now id len) l c
  end.

Definition transport_result (r : result unit TransportError) : result unit ConnectionError :=
  match r with Ok _ => Ok tt | Err e => Err (ETransportError e) end.

(** A packet of the space [id], with the number [n] and the frames [fs], is
    delivered: it goes through the filter of duplicates, it is noted for
    acknowledgement, its frames are handled, and a failure closes the
    connection. *)
Definition deliver (now : Instant) (id : SpaceId) (n len : Z) (fs : list Frame) (c : Connection) : outcome Connection :=
  let s := space_of c id in
  let! '(d, is_duplicate) := Dedup_insert (dedup s) n in
  let c := with_space id (space_with_rx d (rx_packet s) s) c in
  if is_duplicate || (State.is_handshake (c_state c) && bool_decide (id = SpData)) then Ret c
  else
    let closed := State.is_closed (c_state c) in
    let drained := State.is_drained (c_state c) in
    let! c := if negb closed then Connection.on_packet_authenticated now id (Some n) c else Ret c in
    let! '(c, res) := handle_payload now id len fs c in
    Connection.conclude now closed drained (transport_result res) c.

Section Peers.
Context {B : Type} `{BufBytes B}.

Lemma process_frames_payload h (payload : B) fs c : parse_payload payload = Ret (payload_result fs) ->
  Connection.process_frames h payload c =
    match payload_result fs with Err e => Ret (c, Err e) | Ok l => handle_frames h l c end.
Proof. intros Hp. pose proof (process_frames_fold h payload c) as Hf. rewrite Hp in Hf. by destruct (payload_result fs). Qed.

Lemma process_packet_payload now n (packet : Packet B) fs c : parse_payload (payload packet) = Ret (payload_result fs) ->
  Connection.process_packet now (Some n) packet c =
    let! '(c, res) := handle_payload now (Header.space (header packet)) (remaining (payload packet)) fs c in
    Ret (c, transport_result res).
Proof.
  intros Hp. unfold Connection.process_packet, Connection.process_early_payload, Connection.process_payload, handle_payload, frame_handler.
  destruct (Header.space (header packet)); rewrite (process_frames_payload _ _ fs) by done;
    destruct (payload_result fs); cbn [obind]; try done; destruct (handle_frames _ _ _) as [[]|]; done.
Qed.

(** The receiver is where the sender believes it to be: it has seen the packets
    that the sender knows to be acknowledged, and not 128 later ones. *)
Definition in_window (n la : Z) (s : PacketSpace) : Prop := la <= rx_packet s + 1 < n + 128 /\ rx_packet s + 1 < 2 ^ 62.

Lemma understood_delivers datagram id n la len fs now (d : B) c : understood B datagram id n la len fs -> view d = datagram ->
  in_window n la (space_of c id) -> Connection.handle_data now d c = deliver now id n len fs c.
Proof.
  intros Hu Hd [Hwin Hmax]. destruct (Hu d Hd) as (h & pn & p & Hdec & <- & Hshort & Hnum & Hn & Hlen & Hp & _). unfold Connection.handle_data.
  rewrite Hdec. cbn [obind]. rewrite Hnum. rewrite u64_add_ok by u64_lia. cbn [obind].
  rewrite (Hn _ Hwin Hmax). cbn [obind]. unfold deliver. destruct (Dedup_insert _ n) as [[dd dup]|]; [|done]. cbn [obind].
  set (c1 := with_space _ _ c). rewrite Hshort. destruct dup; [done|]. cbn [orb].
  destruct (State.is_handshake (c_state c1) && _); [done|]. unfold Connection.handle_packet. cbn [header].
  destruct (if negb _ then _ else _) as [c2|]; [|done]. cbn [obind].
  rewrite (process_packet_payload now n _ fs) by done. cbn [header payload]. rewrite Hlen.
  by destruct (handle_payload _ _ _ _ _) as [[c3 res]|].
Qed.
End Peers.

(** ** The sender's record is what the peer handles *)

(** C2: What a connection records is what its peer handles.  An open
    connection whose streams hold at most one write each queues packets; of
    every packet it remembers which acknowledgements, resets, stops and stream
    data it carried, and by this record it acts when the packet is acknowledged
    or lost.  A peer that is in the packet's window and receives its bytes
    does exactly what the abstract peer does with the space, the number and
    the frames of that record: it decodes to the same space and number, no
    frame is missing, invented, reordered or changed, and every STREAM frame
    holds the bytes that the application wrote to the stream at its offset. *)
Theorem peers_agree_on_packets {B : Type} `{BufBytes B} (n : Written) (now : Instant) (c c' : Connection) (again : bool) :
  typed_reachable (B:=B) n c -> whole_writes (c_streams c) -> State.is_closed (c_state c) = false ->
  Connection.poll_transmit now c = Ret (c', again) ->
  exists l, sending_queue (path c') = sending_queue (path c) ++ l /\ forall x, x ∈ l ->
    let m := meta_info x in
    exists len fs, packet_frames now (space_id m) c (record_of m) fs /\
      (forall f, FStream f ∈ fs -> exists ss, ss_send (c_streams c) !! st_id f = Some ss /\
        st_data f = take (length (st_data f)) (drop (Z.to_nat (st_offset f)) (history n (st_id f) (pending ss)))) /\
      forall (d : B) peer now', view d = sch_packet x ->
        in_window (number m) (default 0 (largest_acked_packet (space_of c (space_id m)))) (space_of peer (space_id m)) ->
        Connection.handle_data now' d peer = deliver now' (space_id m) (number m) len fs peer.
Proof.
  intros Hr Hw Hcl Hp. pose proof (reachable_typed _ _ Hr) as Hc.
  destruct (poll_understood (B:=B) n now c c' again (typed_reachable_nonneg _ _ Hr) Hc Hw Hcl Hp) as (l & Hq & Hl).
  exists l. split; [done|]. intros x Hx m. rewrite Forall_forall in Hl. destruct (Hl x Hx) as (len & fs & Hfr & Hu).
  exists len, fs. split; [done|]. split; [|intros d peer now' Hd Hwin; by apply (understood_delivers _ _ _ _ _ _ _ _ _ Hu Hd)].
  intros f Hf. destruct (packet_stream_frames _ _ _ _ _ _ Hfr Hf) as (y & _ & Hy). by eapply stream_frame_written.
Qed.

(** An established server that has received nothing. *)
Definition listening_server : Connection :=
  let s := PacketSpace.new 0 in
  mkConnection Server Established
    (mkNetworkPath [] (mkRtt MIN_RTT None (MIN_RTT / 2) MIN_RTT) (NewReno.new 0) InFlight.default None)
    (mkSpaces s s s) SpInitial TimerTable_default (StreamsState.new Server) false false.

Lemma peers_agree_on_packets_witness : exists c c' x len fs, writing_client = Ret c /\
  Connection.poll_transmit 30 c = Ret (c', false) /\ sending_queue (path c') = [x] /\
  packet_frames 30 SpData c (record_of (meta_info x)) fs /\
  forall (d : in_memory) now', view d = sch_packet x ->
    Connection.handle_data now' d listening_server = deliver now' SpData 0 len fs listening_server.
Proof.
  destruct writing_client as [c|] eqn:Hc; [|exfalso; vm_compute in Hc; discriminate].
  destruct (Connection.poll_transmit 30 c) as [[c' again]|] eqn:Hp;
    [|exfalso; vm_compute in Hc; injection Hc as <-; vm_compute in Hp; discriminate].
  destruct (writing_client_reachable c Hc) as (n & Hr & Hn).
  destruct (peers_agree_on_packets (B:=in_memory) n 30 c c' again Hr) as (l & Hq & Hl).
  - apply (bool_decide_unpack _). vm_compute in Hc. injection Hc as <-. vm_compute. exact I.
  - vm_compute in Hc. injection Hc as <-. reflexivity.
  - exact Hp.
  - assert (Hx : exists x, sending_queue (path c') = [x] /\ l = [x] /\ space_id (meta_info x) = SpData /\
      number (meta_info x) = 0 /\ largest_acked_packet (space_of c SpData) = None /\ again = false).
    { clear Hr Hn. vm_compute in Hc. injection Hc as <-. vm_compute in Hp. injection Hp as <- <-. vm_compute in Hq. subst l.
      eexists. repeat split. }
    destruct Hx as (x & Hqx & -> & Hid & Hnum & Hla & ->).
    destruct (Hl x (proj2 (list_elem_of_singleton x x) eq_refl)) as (len & fs & Hfr & _ & Hd). rewrite Hid, Hnum, Hla in Hd. rewrite Hid in Hfr.
    exists c, c', x, len, fs. split; [reflexivity|]. split; [exact Hp|]. split; [exact Hqx|]. split; [exact Hfr|].
    intros d now' Hv. apply Hd; [exact Hv|]. split; [split|]; vm_compute; congruence.
Defined.

(** ** Why a stream must not hold two writes *)

Section TwoWrites.
Context {B W : Type} `{BufBytes B} `{BufMutLaws W}.

(** A STREAM frame that announces more than follows is refused. *)
Lemma short_stream_refused m data (fp : FrameParser B) : is_varint (sm_id m) -> is_varint (rstart (sm_offsets m)) ->
  is_varint (rend (sm_offsets m) - rstart (sm_offsets m)) -> zlen data < rend (sm_offsets m) - rstart (sm_offsets m) ->
  view (fp_bytes fp) = stream_header m true ++ data ->
  exists ty e, try_next fp = Ret (Some ty, Err (UnexpectedEnd e)).
Proof.
  destruct m as [id [a e] fin]. cbn [sm_id sm_offsets rstart rend]. intros Hid Ha Hlen Hshort Hv. unfold stream_header in Hv.
  cbn [sm_id sm_offsets rstart rend] in Hv. set (ty := stream_ty _ _) in Hv. exists ty.
  assert (Hty : is_varint ty) by (unfold ty, stream_ty; cbn; destruct (a =? 0), fin; auto with codec).
  rewrite <- !app_assoc in Hv. unfold try_next. destruct (reads_varint ty Hty _ _ Hv) as (b1 & -> & Hb1). cbn [obind].
  assert (Hbody : exists e, parse_body ty b1 = Ret (Err (UnexpectedEnd e))); [|destruct Hbody as [x ->]; by exists x].
  assert (Hread : forall b, view b = varint_bytes (e - a) ++ data -> exists x, try_get_bytes_with_varint_length b = Ret (Err x)).
  { intros b Hb. unfold try_get_bytes_with_varint_length. destruct (reads_varint (e - a) Hlen _ _ Hb) as (b' & -> & Hb'). cbn [rbind obind].
    rewrite remaining_view, Hb'. destruct (Z.ltb_spec (zlen data) (e - a)); [by eexists|lia]. }
  destruct (reads_varint id Hid _ _ Hb1) as (b2 & Hr2 & Hb2). unfold ty, stream_ty. cbn [sm_offsets rstart sm_fin].
  destruct (Z.eqb_spec a 0) as [->|Hne], fin; cbn [negb]; unfold parse_body; decide_types; decide_flags; rewrite Hr2; cbn [rbind obind].
  1, 2: destruct (Hread _ Hb2) as [x Hx]; rewrite Hx; by eexists.
  1, 2: destruct (reads_varint a Ha _ _ Hb2) as (b3 & Hr3 & Hb3); rewrite Hr3; cbn [rbind obind]; destruct (Hread _ Hb3) as [x Hx]; rewrite Hx; by eexists.
Qed.

(** [get] returns the first segment only. *)
Lemma get_first_segment b d1 d2 rest : send_inv b -> unacked_segments b = d1 :: d2 :: rest ->
  SendBuffer.get (Range (base b) (offset b)) b = Ret d1 /\ zlen d1 < offset b - base b.
Proof.
  intros Hi Hsegs. destruct (sb_offset b Hi) as [Hb0 [_ Hmax]]. pose proof (sb_len b Hi) as Hl.
  assert (Hne : forall d, d ∈ unacked_segments b -> 0 < zlen d).
  { intros d Hd. apply (sb_segments b Hi) in Hd. destruct d; [done|]. rewrite zlen_cons. pose proof (zlen_nonneg d). lia. }
  pose proof (Hne d1) as H1'. pose proof (Hne d2) as H2'. rewrite Hsegs in H1', H2'. specialize (H1' ltac:(set_solver)). specialize (H2' ltac:(set_solver)).
  unfold Send.buffered in Hl. rewrite Hsegs in Hl. cbn [concat] in Hl. rewrite !zlen_app in Hl. pose proof (zlen_nonneg (concat rest)).
  assert (Hshort : zlen d1 < offset b - base b) by (unfold base; lia). split; [|done].
  unfold SendBuffer.get. cbn [rstart rend]. rewrite u64_sub_ok by (unfold base in *; lia). cbn [obind]. fold (base b).
  rewrite u64_sub_ok by lia. cbn [obind]. rewrite u64_sub_ok by lia. cbn [obind]. rewrite Hsegs. cbn [SendBuffer.get_loop].
  rewrite Z.sub_diag, u64_add_ok by (varint_lia || u64_lia). cbn [obind]. destruct (Z.ltb_spec 0 (0 + zlen d1)); [|lia].
  rewrite (u64_sub_ok 0 0) by lia. cbn [obind]. rewrite u64_sub_ok by lia. cbn [obind]. rewrite u64_sub_ok by lia. cbn [obind].
  f_equal. rewrite Z.sub_diag. cbn [Z.to_nat drop]. rewrite Z.min_r by lia. apply take_ge. unfold zlen. lia.
Qed.
End TwoWrites.

(** C19: Two writes make a packet that the peer cannot read.  When a stream with
    two writes that were not sent yet is taken from the queue, and they fit the
    packet, [write_stream_frames] announces a frame with the bytes of both,
    records that both were sent, and writes the bytes of the first only.  Where
    nothing follows in the packet, the peer runs out of bytes in the middle of
    the frame: its parser fails with FRAME_ENCODING_ERROR, which closes the
    connection, and drops what is left of the packet. *)
Theorem two_writes_corrupt_packet {B W : Type} `{BufBytes B} `{BufMutLaws W} (fair : bool) (s : StreamsState) (buf : W)
    (metas : list StreamMeta) (q : PendingStreamsQueue) (p : PendingStream) (ss : Send) (d1 d2 : list Z) (rest : list (list Z)) :
  PendingStreamsQueue.pop (ss_pending s) = (q, Some p) -> ss_send s !! ps_id p = Some ss ->
  Send.is_reset ss = false -> 0 <= ps_id p <= VARINT_MAX_4 ->
  send_inv (pending ss) -> unacked_segments (pending ss) = d1 :: d2 :: rest -> retransmits (pending ss) = ∅ ->
  unsent (pending ss) = base (pending ss) ->
  StreamsState.STREAM_SIZE_BOUND <= remaining_mut buf <= VARINT_MAX_2 ->
  offset (pending ss) - base (pending ss) + reserved (base (pending ss)) true <= remaining_mut buf ->
  let m := {| sm_id := ps_id p; sm_offsets := Range (base (pending ss)) (offset (pending ss)); sm_fin := fin_pending ss |} in
  exists s' buf', StreamsState.write_turn fair (s, buf, metas) = Ret (inl (s', buf', metas ++ [m])) /\
    written buf' = written buf ++ stream_header m true ++ d1 /\
    forall fp : FrameParser B, view (fp_bytes fp) = stream_header m true ++ d1 ->
      exists fp' e, FrameParser_next fp = Ret (fp', Some (Err e)) /\
        te_code e = TransportErrorCode.FRAME_ENCODING_ERROR /\ remaining (fp_bytes fp') = 0.
Proof.
  intros Hpop Hss Hr Hid Hi Hsegs Hre Hun Hroom Hfit m. set (b := pending ss) in *.
  destruct (sb_offset b Hi) as [Hb0 [_ Hmax]]. pose proof (proj1 Hroom) as Hbound. unfold StreamsState.STREAM_SIZE_BOUND in Hroom.
  destruct (get_first_segment b d1 d2 rest Hi Hsegs) as [Hget Hshort]. pose proof (zlen_nonneg d1).
  assert (Hrm : 16 <= remaining_mut buf <= VARINT_MAX) by varint_lia.
  pose proof (transmit_rest (remaining_mut buf) ss Hi Hrm Hre) as Htr. cbv zeta in Htr. fold b in Htr. rewrite Hun in Htr.
  specialize (Htr Hfit). set (b' := mkSendBuffer _ _ _ _ _ _) in *. set (ss' := mkSend _ b' _ _ _) in *.
  assert (Hp : Send.is_pending ss = true).
  { unfold Send.is_pending, SendBuffer.has_unsent_data. fold b. by destruct (Z.eqb_spec (unsent b) (offset b)); [lia|]. }
  rewrite (write_turn_chosen fair s buf metas q p ss ss' _ true (fin_pending ss) Hbound Hpop Hss Hr Hp Htr)
    by (cbn; lia). cbv zeta. fold m.
  assert (Hlen : is_varint (rend (sm_offsets m) - rstart (sm_offsets m))) by (cbn; varint_lia).
  assert (Hh : emits (W:=W) (encode_stream_meta m true) (stream_header m true)) by (apply emits_stream_header; [cbn; varint_lia|cbn; varint_lia|done]).
  assert (Hpos : 0 <= rend (sm_offsets m) - rstart (sm_offsets m)) by apply Hlen.
  pose proof (header_fits m (remaining_mut buf) Hid (proj2 Hroom) Hpos Hfit) as Hroom'. cbn [sm_offsets rstart rend m] in Hroom'.
  destruct (emits_fits _ _ buf Hh) as (w1 & Hw1 & Hwr1 & Hr1); [lia|]. rewrite Hw1. cbn [obind].
  assert (Hget' : SendBuffer.get (Range (base b) (offset b)) (pending ss') = Ret d1) by exact Hget. rewrite Hget'. cbn [obind].
  destruct (emits_fits _ _ w1 (emits_put_slice d1)) as (w2 & Hw2 & Hwr2 & _); [lia|]. rewrite Hw2. cbn [obind].
  assert (Hdone : Send.is_pending ss' = false).
  { unfold Send.is_pending, SendBuffer.has_unsent_data. cbn. by rewrite Z.eqb_refl, Hre. }
  rewrite Hdone. eexists _, w2. split; [done|]. split; [by rewrite Hwr2, Hwr1, app_assoc|].
  intros fp Hv. destruct (short_stream_refused m d1 fp) as (ty & e & Ht); [cbn; varint_lia|cbn; varint_lia|done|cbn; lia|done|].
  unfold FrameParser_next. rewrite remaining_view, Hv. assert ((zlen (stream_header m true ++ d1) =? 0) = false) as ->.
  { apply Z.eqb_neq. rewrite zlen_app, stream_header_length. pose proof (varint_bytes_length (sm_id m) ltac:(cbn; varint_lia)).
    pose proof (reserved_nonneg (rstart (sm_offsets m)) false). pose proof (varint_bytes_length _ Hlen). cbn -[varint_bytes] in *. lia. }
  rewrite Ht. cbn [obind]. eexists _, _. split; [done|]. split; [done|]. cbn [fp_bytes]. by rewrite remaining_view, view_clear.
Qed.

(** A stream to which "hi" and "there" were written. *)
Definition written_twice : Send :=
  mkSend Ready (mkSendBuffer [[104; 105]; [116; 104; 101; 114; 101]] 7 7 0 ∅ ∅) 0 false None.

Lemma two_writes_corrupt_packet_witness : exists s' buf' metas',
  StreamsState.write_turn true (mkStreams Client {[ 0 := written_twice ]} ∅ (1, 0) (mkQueue [mkPendingStream 0 7 0] None 7) [],
    SliceBuf [] 100, []) = Ret (inl (s', buf', metas')) /\ written buf' = [10; 0; 7; 104; 105] /\
  exists fp' e, FrameParser_next {| fp_bytes := InMemory [10; 0; 7; 104; 105] eq_refl; fp_last_ty := None |} = Ret (fp', Some (Err e)) /\
    te_code e = TransportErrorCode.FRAME_ENCODING_ERROR /\ remaining (fp_bytes fp') = 0.
Proof.
  destruct (two_writes_corrupt_packet (B:=in_memory) true
    (mkStreams Client {[ 0 := written_twice ]} ∅ (1, 0) (mkQueue [mkPendingStream 0 7 0] None 7) []) (SliceBuf [] 100) []
    (mkQueue [] None 7) (mkPendingStream 0 7 0) written_twice [104; 105] [116; 104; 101; 114; 101] []) as (s' & buf' & Ht & Hw & Hp).
  - reflexivity.
  - reflexivity.
  - reflexivity.
  - vm_compute; split; discriminate.
  - split; cbn; try done; try set_solver; try apply RangeSet.wf_empty. intros y (a & e & Ha & _). by simplify_map_eq.
  - reflexivity.
  - reflexivity.
  - reflexivity.
  - vm_compute; split; discriminate.
  - vm_compute. discriminate.
  - exists s', buf', ([] ++ [{| sm_id := 0; sm_offsets := Range 0 7; sm_fin := false |}]). split; [exact Ht|]. split; [rewrite Hw; reflexivity|].
    apply Hp. reflexivity.
Defined.
