(* ===== verification/Handshake.v ===== *)
(** * Handshake: a client and a server connect

    The two packets of a handshake in which nothing is lost, at any times: the
    hello of the client, and the answer of the server with its hello and its
    acknowledgement.  Where a packet holds a delay that depends on the times,
    [Wire] says how it is read. *)
From S2P Require Import Prelude Time Buffers Varint Common ArrayRangeSet RangeSet Packet Frame Timer Space Path Send Recv Streams Connection Accounting Driver Typed Wire Datagrams Peers.

(** ** The states of a handshake *)

Definition initial_rtt : RttEstimator := mkRtt MIN_RTT None (MIN_RTT / 2) MIN_RTT.

(** A packet whose only frame that is acknowledged is the hello. *)
Definition hello_packet (t size : Z) (largest : option Z) : SentPacket :=
  mkSentPacket t size true largest (Some (with_hello true Retransmits_default)) [] 0 SpInitial.

(** The Initial space of a client that has written its hello. *)
Definition client_initial (t0 : Instant) (sent : gmap Z SentPacket) (n : Z) : PacketSpace :=
  mkPacketSpace true Dedup_new 0 Retransmits_default PendingAcks.new 1 None t0 0 0 sent None false false n.

(** The client with its first packet in the queue, and when the packet was sent. *)
Definition client_ready (t0 t1 : Instant) (x : list Z) : Connection :=
  mkConnection Client StHandshake
    (mkNetworkPath [{| sch_packet := x; meta_info := hello_packet t1 54 None |}] initial_rtt (NewReno.new t0) InFlight.default None)
    (mkSpaces (client_initial t0 ∅ 0) (PacketSpace.new t0) (PacketSpace.new t0)) SpInitial TimerTable_default (StreamsState.new Client) false true.

Definition client_waiting (t0 t2 : Instant) : Connection :=
  mkConnection Client StHandshake
    (mkNetworkPath [] initial_rtt (NewReno.new t0) (mkInFlight 54 1) (Some 0))
    (mkSpaces (client_initial t0 {[ 0 := hello_packet t2 54 None ]} 54) (PacketSpace.new t0) (PacketSpace.new t0)) SpInitial
    (TimerTable.set LossDetection (t2 + (MIN_RTT * 3 + TIMER_GRANULARITY)) TimerTable_default) (StreamsState.new Client) false true.

(** What a space notes of a packet numbered 0 that came at [t]. *)
Definition first_received (t : Instant) : PendingAcks :=
  mkPendingAcks true 1 0 1 1 (Some t) [Range 0 1] (Some (0, t)) (Some 0) None.

(** The server when it has read the hello of the client. *)
Definition server_greeted (t3 t4 : Instant) : Connection :=
  mkConnection Server Established (mkNetworkPath [] initial_rtt (NewReno.new t3) InFlight.default None)
    (mkSpaces (mkPacketSpace true Dedup_new 0 (with_hello true Retransmits_default) (first_received t4) 0 None t3 0 0 ∅ None false false 0)
      (PacketSpace.new t3) (PacketSpace.new t3)) SpInitial TimerTable_default
    (mkStreams Server ∅ ∅ (0, 0) (ss_pending (StreamsState.new Server)) [Connected]) false false.

(** ** The client speaks *)

Lemma client_starts t0 t1 : exists c0 x, Connection.new t0 Client = Ret c0 /\
  Connection.poll_transmit t1 c0 = Ret (client_ready t0 t1 x, false) /\
  Driver.burst Driver.MAX_SPINS t1 c0 = Ret (client_ready t0 t1 x).
Proof.
  destruct (Connection.new t0 Client) as [c0|] eqn:H0; [|by vm_compute in H0].
  destruct (Connection.poll_transmit t1 c0) as [[c1 again]|] eqn:H1; [|vm_compute in H0; injection H0 as <-; by vm_compute in H1].
  exists c0. assert (Hc1 : exists x, c1 = client_ready t0 t1 x /\ again = false).
  { vm_compute in H0. injection H0 as <-. vm_compute in H1. injection H1 as <- <-. eexists. by split. }
  destruct Hc1 as (x & -> & ->). exists x. split; [done|]. split; [exact H1|]. unfold Driver.MAX_SPINS. cbn [Driver.burst]. by rewrite H1.
Qed.

Lemma client_sends t0 t1 t2 x : t2 + 10 ^ 9 < INSTANT_END ->
  Driver.send_queued (fun _ => Some t2) (client_ready t0 t1 x) = Ret (client_waiting t0 t2).
Proof.
  intros Ht. unfold Driver.send_queued. change (S (length _)) with 2%nat. cbn [Driver.send_loop].
  assert (exists p s, NetworkPath.send_one (Some t2) (spaces (client_ready t0 t1 x)) (path (client_ready t0 t1 x)) =
    Ret (p, s, Some {| psi_ack_eliciting := true; psi_send_time := t2 |}) /\
    p = path (client_waiting t0 t2) /\ s = spaces (client_waiting t0 t2)) as (p & s & Hs & -> & ->).
  { eexists _, _. split; [vm_compute; reflexivity|]. split; vm_compute; reflexivity. }
  rewrite Hs. cbn [psi_ack_eliciting]. set (c := with_spaces _ _).
  assert (Hloss : Connection.set_loss_detection_timer c = Ret (client_waiting t0 t2)).
  { unfold Connection.set_loss_detection_timer. change (State.is_closed (c_state c)) with false. cbn iota.
    change (Connection.loss_time_and_space c) with (@None (Instant * SpaceId)). cbn iota.
    change (Connection.has_in_flight c) with true. cbn iota. change (RttEstimator.conservative (rtt (path c))) with MIN_RTT.
    rewrite dur_mul_ok by reflexivity. cbn [obind]. rewrite dur_add_ok by reflexivity. cbn [obind].
    change (Connection.earliest_sent c) with (Some t2). cbn iota. rewrite inst_add_ok; [done|].
    replace (MIN_RTT * 3 + TIMER_GRANULARITY) with (10 ^ 9) by reflexivity. exact Ht. }
  rewrite Hloss. done.
Qed.

(** ** The server answers *)

Section Packets.
Context {B : Type} `{BufBytes B}.

(** The frames of an Initial packet with the hello. *)
Lemma initial_frames now c sent fs : packet_frames now SpInitial c sent fs -> hello (Space.pending (space_of c SpInitial)) = true ->
  exists acks, fs = acks ++ [hello_frame] /\
    if ArrayRangeSet.is_empty (ranges (pending_acks (space_of c SpInitial))) then acks = [] /\ sent_largest_acked sent = None
    else exists a, acks = [FAck a] /\ acks_of_space now (space_of c SpInitial) a /\ sent_largest_acked sent = Some (ack_largest a).
Proof.
  intros (acks & resets & stops & streams & -> & Ha & _ & _ & Hnone) Hh. rewrite Hh. destruct (Hnone ltac:(done)) as (-> & -> & ->).
  exists acks. by split.
Qed.

(** What is understood of the one Initial packet that a connection queues. *)
Lemma first_understood t c c' x m again : conn_typed nothing_written c -> State.is_closed (c_state c) = false ->
  ss_send (c_streams c) = ∅ -> sending_queue (path c) = [] -> largest_acked_packet (space_of c SpInitial) = None ->
  Connection.poll_transmit t c = Ret (c', again) -> sending_queue (path c') = [{| sch_packet := x; meta_info := m |}] ->
  space_id m = SpInitial -> number m = 0 ->
  exists len fs, packet_frames t SpInitial c (record_of m) fs /\ understood B x SpInitial 0 0 len fs.
Proof.
  intros Hc Hcl Hs Hq Hla Hp Hq' Hid Hn.
  destruct (poll_understood (B:=B) nothing_written t c c' again) as (l & Hl & Hall); [done|done| |done|done|].
  { intros id ss Hss. by rewrite Hs, lookup_empty in Hss. }
  rewrite Hq, Hq' in Hl. cbn in Hl. subst l. apply Forall_singleton in Hall as (len & fs & Hfr & Hu).
  cbn [meta_info sch_packet] in *. rewrite Hid in *. rewrite Hla, Hn in Hu. by exists len, fs.
Qed.

Lemma client_understood t0 t1 c0 x : Connection.new t0 Client = Ret c0 ->
  Connection.poll_transmit t1 c0 = Ret (client_ready t0 t1 x, false) -> exists len, understood B x SpInitial 0 0 len [hello_frame].
Proof.
  intros Hnew H1'. pose proof (conn_typed_new nothing_written _ _ _ Hnew) as Hc.
  assert (Hf : State.is_closed (c_state c0) = false /\ ss_send (c_streams c0) = ∅ /\ sending_queue (path c0) = [] /\
    largest_acked_packet (space_of c0 SpInitial) = None /\ hello (Space.pending (space_of c0 SpInitial)) = true /\
    ranges (pending_acks (space_of c0 SpInitial)) = []) by (vm_compute in Hnew; injection Hnew as <-; repeat split; reflexivity).
  destruct Hf as (Hcl & Hs & Hq & Hla & Hh & Hr).
  destruct (first_understood t1 c0 _ x (hello_packet t1 54 None) false Hc Hcl Hs Hq Hla H1') as (len & fs & Hfr & Hu); [done..|].
  apply initial_frames in Hfr as (acks & -> & Ha); [|done]. rewrite Hr in Ha. destruct Ha as [-> _]. by exists len.
Qed.

Lemma understood_initial x len fs (d : B) : understood B x SpInitial 0 0 len fs -> view d = x ->
  exists h p, Header.decode d (zlen FAKE_CID) SUPPORTED_VERSIONS = Ret (Ok (HInitial h, p)) /\
    number_of (ih_number h) 0 0 /\ remaining p = len /\ parse_payload p = Ret (payload_result fs).
Proof.
  intros Hu Hd. destruct (Hu d Hd) as (h & pn & p & Hdec & Hid & _ & Hpn & Hn & Hl & Hp & _).
  destruct h as [h|[] ? ? ? ?|? ? ?|? ? ? ?|? ? ?]; try discriminate. injection Hpn as <-. by exists h, p.
Qed.

Lemma server_greets t3 t4 s0 h (p : B) : Connection.new t3 Server = Ret s0 -> number_of (ih_number h) 0 0 ->
  parse_payload p = Ret (Ok [Ok hello_frame]) ->
  Connection.handle_first_packet t4 {| ip_header := h; ip_payload := p |} s0 = Ret (server_greeted t3 t4, Ok tt).
Proof.
  intros Hs Hn Hp. unfold Connection.handle_first_packet. cbn [ip_header].
  rewrite (Hn 0) by (cbn; lia). cbn [obind].
  destruct (Connection.on_packet_authenticated t4 SpInitial (Some 0) s0) as [s1|] eqn:H1'; [|vm_compute in Hs; injection Hs as <-; by vm_compute in H1'].
  cbn [obind]. rewrite (process_packet_payload t4 0 _ [hello_frame]) by exact Hp.
  change (Header.space (header _)) with SpInitial. unfold handle_payload. cbn [payload_result map frame_handler].
  assert (Hf : handle_frames (Connection.early_frame t4 SpInitial) [Ok hello_frame] s1 = Ret (server_greeted t3 t4, Ok tt)).
  { vm_compute in Hs. injection Hs as <-. vm_compute in H1'. injection H1' as <-. vm_compute. reflexivity. }
  by rewrite Hf.
Qed.
End Packets.

(** The server when its answer is in the queue. *)
Definition server_answered (t3 t4 t5 size : Z) (y : list Z) (limited : bool) : Connection :=
  mkConnection Server Established
    (mkNetworkPath [{| sch_packet := y; meta_info := hello_packet t5 size (Some 0) |}] initial_rtt (NewReno.new t3) InFlight.default None)
    (mkSpaces (mkPacketSpace true Dedup_new 0 Retransmits_default (PendingAcks.acks_sent (first_received t4)) 1 None t3 0 0 ∅ None false false 0)
      (PacketSpace.new t3) (PacketSpace.new t3)) SpInitial TimerTable_default
    (mkStreams Server ∅ ∅ (0, 0) (ss_pending (StreamsState.new Server)) [Connected]) false limited.

Lemma first_received_ok t delay : is_varint delay -> ack_ok delay (ranges (first_received t)) None /\
  zlen (varint_bytes (ack_ty None) ++ ack_bytes delay (ranges (first_received t)) None) <= ACK_FRAME_MAX.
Proof.
  intros Hd. assert (Hi : acks_inv (first_received t)).
  { split; cbn; unfold ArrayRangeSet.wf, len, MAX_ACK_BLOCKS; cbn; try done; try lia.
    - intros y (r & Hr & Hy). apply list_elem_of_singleton in Hr as ->. unfold in_range in Hy; cbn in Hy. varint_lia.
    - intros y (r & Hr & Hy). apply list_elem_of_singleton in Hr as ->. unfold in_range in Hy; cbn in Hy. exists 0, t. split; [done|lia].
    - intros a [= <-]. varint_lia. }
  split; [by apply acks_inv_ok|by apply ack_frame_length].
Qed.

Lemma hello_bytes_fit {W : Type} `{BufMutLaws W} (w : W) : 4 <= remaining_mut w ->
  exists w', (let! w := put_u8 6 w in let! w := put_u8 0 w in let! w := put_u8 1 w in put_u8 0 w) = Ret w' /\
    remaining_mut w' = remaining_mut w - 4.
Proof.
  intros Hw. assert (Hb : emits (W:=W) (fun w => let! w := put_u8 6 w in let! w := put_u8 0 w in let! w := put_u8 1 w in put_u8 0 w)
    (be_bytes 1 6 ++ be_bytes 1 0 ++ be_bytes 1 1 ++ be_bytes 1 0)).
  { repeat first [apply emits_put_u8|apply emits_bind]. }
  destruct (emits_fits _ _ w Hb) as (w' & Hw' & _ & Hr); [exact Hw|]. exists w'. split; [exact Hw'|exact Hr].
Qed.

(** The server with the number of its answer taken. *)
Definition server_writing (t3 t4 : Instant) (r : Retransmits) : Connection :=
  mkConnection Server Established (mkNetworkPath [] initial_rtt (NewReno.new t3) InFlight.default None)
    (mkSpaces (mkPacketSpace true Dedup_new 0 r (first_received t4) 1 None t3 0 0 ∅ None false false 0)
      (PacketSpace.new t3) (PacketSpace.new t3)) SpInitial TimerTable_default
    (mkStreams Server ∅ ∅ (0, 0) (ss_pending (StreamsState.new Server)) [Connected]) false false.

(** The acknowledgement and the hello fit the packet. *)
Lemma answer_fits t3 t4 t5 (out : slice_buf) : ACK_FRAME_MAX + 4 <= remaining_mut out ->
  exists w, Connection.populate_packet t5 SpInitial out (server_writing t3 t4 (with_hello true Retransmits_default)) =
    Ret (server_writing t3 t4 Retransmits_default, mkSentFrames (Some (with_hello true Retransmits_default)) (Some 0) [], w) /\
    remaining_mut w <= remaining_mut out.
Proof.
  intros Hroom. set (delay := Z.shiftr (as_u64 (as_micros (PendingAcks.ack_delay (first_received t4) t5))) ACK_DELAY_EXP).
  destruct (first_received_ok t4 delay (delay_varint _)) as [Hok Hlen].
  destruct (emits_fits _ _ out (emits_ack delay _ None Hok)) as (w1 & Hw1 & _ & Hr1); [lia|].
  set (bs := varint_bytes _ ++ _) in *. pose proof (zlen_nonneg bs).
  assert (Hacks : Connection.populate_acks t5 (space_of (server_writing t3 t4 (with_hello true Retransmits_default)) SpInitial) out = Ret (Some 0, w1)).
  { unfold Connection.populate_acks.
    change (pending_acks (space_of (server_writing t3 t4 (with_hello true Retransmits_default)) SpInitial)) with (first_received t4).
    fold delay. rewrite Hw1. reflexivity. }
  destruct (hello_bytes_fit w1) as (w2 & Hw2 & Hr2); [lia|]. exists w2. split; [|lia].
  unfold Connection.populate_packet. rewrite Hacks. cbn -[put_u8].
  apply obind_ret in Hw2 as (a1 & Ha1 & Hw2). apply obind_ret in Hw2 as (a2 & Ha2 & Hw2). apply obind_ret in Hw2 as (a3 & Ha3 & Hw2).
  rewrite Ha1. cbn -[put_u8]. rewrite Ha2. cbn -[put_u8]. rewrite Ha3. cbn -[put_u8]. rewrite Hw2. reflexivity.
Qed.

Lemma server_writes t3 t4 t5 : exists size y, 0 < size <= INITIAL_MTU /\
  Connection.transmit_space t5 false SpInitial true (server_greeted t3 t4) = Ret (server_answered t3 t4 t5 size y false).
Proof.
  unfold Connection.transmit_space.
  assert (exists s, PacketSpace.get_tx_number (space_of (server_greeted t3 t4) SpInitial) = Ret (s, 0) /\
    s = space_of (server_writing t3 t4 (with_hello true Retransmits_default)) SpInitial) as (s & Htx & ->).
  { eexists. split; reflexivity. }
  rewrite Htx. cbn [obind].
  change (with_space SpInitial _ (server_greeted t3 t4)) with (server_writing t3 t4 (with_hello true Retransmits_default)).
  change (PacketNumber.new 0 _) with (Ret (PnU8 0)). cbn [obind].
  destruct (Connection.packet_header SpInitial (PnU8 0)) as [h|] eqn:Hh; [|by vm_compute in Hh]. cbn [obind].
  destruct (Header.encode h (SliceBuf [] (Z.to_nat INITIAL_MTU))) as [out|] eqn:Hout; [|vm_compute in Hh; injection Hh as <-; by vm_compute in Hout].
  cbn [obind]. assert (Hroom : ACK_FRAME_MAX + 4 <= remaining_mut out < INITIAL_MTU).
  { vm_compute in Hh. injection Hh as <-. vm_compute in Hout. injection Hout as <-. vm_compute. by split. }
  destruct (answer_fits t3 t4 t5 out) as (w & Hw & Hr); [apply Hroom|]. rewrite Hw. cbn [obind]. clear Hh Hw.
  cbn [sent_largest_acked sent_retransmits sent_stream_frames]. pose proof (remaining_mut_nonneg w).
  rewrite u64_sub_ok by (unfold INITIAL_MTU in *; lia). cbn [obind]. eexists _, _. split; [|reflexivity].
  unfold as_u16, INITIAL_MTU, U16 in *. rewrite Z.mod_small by lia. lia.
Qed.

Lemma server_answers t3 t4 t5 : exists size y, 0 < size <= INITIAL_MTU /\
  Connection.poll_transmit t5 (server_greeted t3 t4) = Ret (server_answered t3 t4 t5 size y true, false) /\
  Driver.burst Driver.MAX_SPINS t5 (server_greeted t3 t4) = Ret (server_answered t3 t4 t5 size y true).
Proof.
  destruct (server_writes t3 t4 t5) as (size & y & Hsize & Hw). exists size, y. split; [exact Hsize|].
  assert (Hp : Connection.poll_transmit t5 (server_greeted t3 t4) = Ret (server_answered t3 t4 t5 size y true, false)).
  { unfold Connection.poll_transmit. cbn [c_state server_greeted].
    change (NewReno.window (congestion (path (server_greeted t3 t4))) <=? if_bytes (np_in_flight (path (server_greeted t3 t4)))) with false.
    assert (Hturn : Connection.transmit_turn t5 false false SpInitial (server_greeted t3 t4, false) = Ret (server_answered t3 t4 t5 size y false, true)).
    { unfold Connection.transmit_turn. change (SendableFrames_is_empty (Connection.space_can_send (server_greeted t3 t4) SpInitial)) with false.
      change (bool_decide (side (server_greeted t3 t4) = Client)) with false. cbn [andb obind].
      change (sf_other (Connection.space_can_send (server_greeted t3 t4) SpInitial)) with true. cbn [orb andb]. by rewrite Hw. }
    unfold Connection.transmit_turns. rewrite Hturn. vm_compute. reflexivity. }
  split; [exact Hp|]. unfold Driver.MAX_SPINS. cbn [Driver.burst]. by rewrite Hp.
Qed.

(** ** The client connects *)

(** The client from the moment it reads the answer. *)
Definition client_hearing (t0 : Instant) (st : State) (r : RttEstimator) (f : InFlight) (s : PacketSpace) (t : TimerTable)
    (l : list Event) : Connection :=
  mkConnection Client st (mkNetworkPath [] r (NewReno.new t0) f (Some 0)) (mkSpaces s (PacketSpace.new t0) (PacketSpace.new t0)) SpInitial t
    (mkStreams Client ∅ ∅ (0, 0) (ss_pending (StreamsState.new Client)) l) false true.

(** Its Initial space then. *)
Definition answered_initial (t0 t6 : Instant) (la : option Z) (sent : gmap Z SentPacket) (n : Z) : PacketSpace :=
  mkPacketSpace true (mkDedup 1 1) 0 Retransmits_default (first_received t6) 1 la (match la with Some _ => t6 | None => t0 end) 0 0
    sent None false false n.

Lemma initial_rtt_inv : rtt_inv initial_rtt.
Proof. split; cbn; [|by intros s [=]|]; repeat split; vm_compute; done. Qed.

Lemma conservative_bound r : rtt_inv r -> RttEstimator.conservative r < RTT_END.
Proof.
  intros [[_ Hl] Hs _]. unfold RttEstimator.conservative, RttEstimator.get.
  destruct (smoothed r) as [s|]; cbn; [specialize (Hs s eq_refl)|]; unfold id; lia.
Qed.

Lemma ack_delay_bound d : 0 <= from_micros (as_u64 d) < RTT_END.
Proof.
  unfold from_micros, as_u64. pose proof (Z.mod_pos_bound d U64 eq_refl) as Hm.
  assert (U64 * 1000 < RTT_END) by (vm_compute; reflexivity). lia.
Qed.

Lemma client_acks t0 t2 t6 t a : ack_ranges a = Ret [(0, 0)] -> ack_largest a = 0 -> t6 - t2 < RTT_END ->
  exists r t', Connection.on_ack_received t6 SpInitial a
      (client_hearing t0 StHandshake initial_rtt (mkInFlight 54 1) (answered_initial t0 t6 None {[ 0 := hello_packet t2 54 None ]} 54) t []) =
    Ret (client_hearing t0 StHandshake r (mkInFlight 0 0) (answered_initial t0 t6 (Some 0) ∅ 0) t' [], Ok tt).
Proof.
  intros Hr Hl Ht. set (c := client_hearing _ _ _ _ _ _ _). unfold Connection.on_ack_received. rewrite Hl, Hr.
  change (next_packet_number (space_of c SpInitial) <=? 0) with false. change (largest_acked_packet (space_of c SpInitial)) with (@None Z).
  cbn [obind]. set (c1 := client_hearing t0 StHandshake initial_rtt (mkInFlight 0 0) (answered_initial t0 t6 None ∅ 0) t []).
  assert (Hack : Connection.ack_numbers SpInitial (Connection.acked_numbers [(0, 0)]) (c, None) = Ret (c1, Some (hello_packet t2 54 None))).
  { vm_compute. reflexivity. }
  rewrite Hack. cbn [obind]. change (largest_acked_packet (space_of c1 SpInitial)) with (@None Z). cbn iota.
  destruct (update_spec (from_micros (as_u64 (Z.shiftl (Frame.ack_delay a) ACK_DELAY_EXP))) (inst_sub t6 t2) initial_rtt initial_rtt_inv)
    as (r & Hu & Hinv & _); [apply ack_delay_bound|unfold inst_sub; split; [lia|]; assert (0 < RTT_END) by reflexivity; lia|].
  change (time_sent (hello_packet t2 54 None)) with t2.
  match goal with |- context [RttEstimator.update ?x ?y ?z] => change z with initial_rtt end. rewrite Hu. cbn [obind].
  set (c2 := with_path _ _). assert (Hd : Connection.detect_lost_packets t6 SpInitial c2 = Ret c2).
  { unfold Connection.detect_lost_packets. change (largest_acked_packet (space_of c2 SpInitial)) with (Some 0). cbn iota.
    change (rtt (path c2)) with r. pose proof (conservative_bound r Hinv). assert (0 < RTT_END) by reflexivity.
    unfold Connection.loss_delay. rewrite dur_mul_ok by (pose proof RTT_END_16; lia). cbn [obind]. rewrite dur_div_ok by done. cbn [obind].
    reflexivity. }
  rewrite Hd. cbn [obind]. exists r, (TimerTable.stop LossDetection t). reflexivity.
Qed.

Lemma client_connects t0 t2 t6 len a : ack_ranges a = Ret [(0, 0)] -> ack_largest a = 0 -> t6 - t2 < RTT_END ->
  exists r t', deliver t6 SpInitial 0 len [FAck a; hello_frame] (client_waiting t0 t2) =
    Ret (client_hearing t0 Established r (mkInFlight 0 0) (answered_initial t0 t6 (Some 0) ∅ 0) t' [Connected]).
Proof.
  intros Hr Hl Ht. set (t := TimerTable.set LossDetection (t2 + (MIN_RTT * 3 + TIMER_GRANULARITY)) TimerTable_default).
  destruct (client_acks t0 t2 t6 t a Hr Hl Ht) as (r & t' & Ha). exists r, t'. unfold deliver.
  change (Dedup_insert (dedup (space_of (client_waiting t0 t2) SpInitial)) 0) with (Ret (mkDedup 1 1, false)). cbn [obind orb].
  set (c := with_space SpInitial _ _). change (State.is_handshake (c_state c) && bool_decide (SpInitial = SpData)) with false. cbn iota.
  change (State.is_closed (c_state c)) with false. cbn [negb].
  assert (Hauth : Connection.on_packet_authenticated t6 SpInitial (Some 0) c =
    Ret (client_hearing t0 StHandshake initial_rtt (mkInFlight 54 1) (answered_initial t0 t6 None {[ 0 := hello_packet t2 54 None ]} 54) t [])).
  { vm_compute. reflexivity. }
  rewrite Hauth. cbn [obind]. unfold handle_payload. cbn [payload_result map frame_handler handle_frames].
  cbn [Connection.early_frame]. rewrite Ha. reflexivity.
Qed.

(** ** The handshake *)

Lemma server_greeted_typed t3 t4 : conn_typed nothing_written (server_greeted t3 t4).
Proof.
  split; [|by constructor|apply map_Forall_empty].
  intros []; [|apply space_typed_new..]. split; cbn; try done.
Qed.

Lemma answer_understood {B : Type} `{BufBytes B} t3 t4 t5 size y :
  Connection.poll_transmit t5 (server_greeted t3 t4) = Ret (server_answered t3 t4 t5 size y true, false) ->
  exists len a, understood B y SpInitial 0 0 len [FAck a; hello_frame] /\ ack_ranges a = Ret [(0, 0)] /\ ack_largest a = 0.
Proof.
  intros Hp. destruct (first_understood (B:=B) t5 (server_greeted t3 t4) _ y (hello_packet t5 size (Some 0)) false
    (server_greeted_typed t3 t4) eq_refl eq_refl eq_refl eq_refl Hp eq_refl eq_refl eq_refl) as (len & fs & Hfr & Hu).
  apply initial_frames in Hfr as (acks & -> & Ha); [|done].
  change (ArrayRangeSet.is_empty _) with false in Ha. cbn iota in Ha. destruct Ha as (a & -> & [Hr _] & Hl).
  exists len, a. split; [exact Hu|]. split; [exact Hr|]. by injection Hl as <-.
Qed.

(** C5: A client and a server connect.  Whatever the times, as long as they do
    not exceed the range of the clock, and when neither packet is lost: the
    client queues one packet; the server to which it is delivered, in whatever
    buffer, is connected and queues one packet, with its hello and the
    acknowledgement of the client's; the client to which this is delivered is
    connected too, and has nothing in flight.  Each side announces it to its
    application once. *)
Theorem handshake_completes {B : Type} `{BufBytes B} (t0 t1 t2 t3 t4 t5 t6 : Instant) :
  t2 + 10 ^ 9 < INSTANT_END -> t6 - t2 < RTT_END ->
  exists (c0 c1 c : Connection) (x y : list Z),
    Connection.new t0 Client = Ret c0 /\ Driver.burst Driver.MAX_SPINS t1 c0 = Ret c1 /\
    map sch_packet (sending_queue (path c1)) = [x] /\ Driver.send_queued (fun _ => Some t2) c1 = Ret c /\
    (forall d : B, view d = x -> exists h p s0 s1 s,
      Header.decode d (zlen FAKE_CID) SUPPORTED_VERSIONS = Ret (Ok (HInitial h, p)) /\
      Connection.new t3 Server = Ret s0 /\
      Connection.handle_first_packet t4 {| ip_header := h; ip_payload := p |} s0 = Ret (s1, Ok tt) /\
      c_state s1 = Established /\ events (c_streams s1) = [Connected] /\
      Driver.burst Driver.MAX_SPINS t5 s1 = Ret s /\ map sch_packet (sending_queue (path s)) = [y]) /\
    (forall d : B, view d = y -> exists c',
      Connection.handle_data t6 d c = Ret c' /\ c_state c' = Established /\
      events (c_streams c') = [Connected] /\ Connection.has_in_flight c' = false).
Proof.
  intros Ht2 Ht6. destruct (client_starts t0 t1) as (c0 & x & Hnew & Hpoll & Hburst).
  destruct (server_answers t3 t4 t5) as (size & y & _ & Hanswer & Hspins).
  destruct (client_understood (B:=B) t0 t1 c0 x Hnew Hpoll) as [len Hux].
  destruct (answer_understood (B:=B) t3 t4 t5 size y Hanswer) as (len' & a & Huy & Hr & Hl).
  exists c0, (client_ready t0 t1 x), (client_waiting t0 t2), x, y.
  split; [exact Hnew|]. split; [exact Hburst|]. split; [reflexivity|]. split; [by apply client_sends|]. split.
  - intros d Hd. destruct (understood_initial x len _ d Hux Hd) as (h & p & Hdec & Hn & _ & Hp).
    destruct (Connection.new t3 Server) as [s0|] eqn:Hs0; [|by vm_compute in Hs0].
    exists h, p, s0, (server_greeted t3 t4), (server_answered t3 t4 t5 size y true).
    split; [exact Hdec|]. split; [reflexivity|]. split; [by apply server_greets|]. repeat (split; [reflexivity|]). split; [exact Hspins|reflexivity].
  - intros d Hd. destruct (client_connects t0 t2 t6 len' a Hr Hl Ht6) as (r & t' & Hc).
    exists (client_hearing t0 Established r (mkInFlight 0 0) (answered_initial t0 t6 (Some 0) ∅ 0) t' [Connected]).
    split; [|split; [reflexivity|split; reflexivity]]. rewrite <- Hc. apply (understood_delivers y _ _ 0 _ _ _ _ _ Huy Hd).
    split; cbn; lia.
Qed.

Definition hello_datagram : list Z := [192; 0; 0; 0; 1; 20] ++ FAKE_CID ++ [20] ++ FAKE_CID ++ [0; 1; 0; 6; 0; 1; 0].

(** The acknowledgement speaks of a delay of 4000 microseconds, in units of 8. *)
Definition answer_datagram : list Z :=
  [192; 0; 0; 0; 1; 20] ++ FAKE_CID ++ [20] ++ FAKE_CID ++ [0; 1; 0; 2; 0; 65; 244; 0; 0; 6; 0; 1; 0].

Lemma handshake_completes_witness : exists c c',
  Driver.send_queued (fun _ => Some 12) (client_ready 10 11 hello_datagram) = Ret c /\
  Connection.handle_data 4000025 (InMemory answer_datagram eq_refl) c = Ret c' /\ c_state c' = Established /\
  events (c_streams c') = [Connected].
Proof.
  destruct (handshake_completes (B:=in_memory) 10 11 12 13 14 4000014 4000025) as (c0 & c1 & c & x & y & Hnew & Hburst & Hx & Hsend & Hserver & Hclient).
  - vm_compute. reflexivity.
  - vm_compute. reflexivity.
  - vm_compute in Hnew. injection Hnew as <-. vm_compute in Hburst. injection Hburst as <-. vm_compute in Hx. injection Hx as <-.
    destruct (Hserver (InMemory hello_datagram eq_refl) eq_refl) as (h & p & s0 & s1 & s & Hdec & Hs0 & Hfirst & _ & _ & Hs & Hy).
    vm_compute in Hdec. injection Hdec as <- <-. vm_compute in Hs0. injection Hs0 as <-. vm_compute in Hfirst. injection Hfirst as <-.
    vm_compute in Hs. injection Hs as <-. vm_compute in Hy. injection Hy as <-.
    destruct (Hclient (InMemory answer_datagram eq_refl) eq_refl) as (c' & Hc' & Hst & Hev & _).
    exists c, c'. split; [exact Hsend|]. split; [exact Hc'|]. split; [exact Hst|exact Hev].
Defined.
