(* ===== verification/Closing.v ===== *)
(** * Closing: what a closing connection sends ([core/src/connection/mod.rs])

    The acknowledgements a closing connection still writes, and what becomes
    of its CONNECTION_CLOSE. *)
From S2P Require Import Prelude Time Buffers Varint Common ArrayRangeSet Packet Frame Timer Space Path Send Recv Streams Connection Accounting Driver Typed Wire.

(** ** The packets of a closing connection *)

Section ClosingPackets.
Context {B : Type} `{BufBytes B}.

(** A datagram that says nothing but which packets were received. *)
Definition acks_only (datagram : list Z) : Prop :=
  forall d : B, view d = datagram -> exists h rest,
    Header.decode d (zlen FAKE_CID) SUPPORTED_VERSIONS = Ret (Ok (h, rest)) /\
    (view rest = [] \/ exists a, parse_payload rest = Ret (Ok [Ok (FAck a)])).

(** What there is to acknowledge are sorted ranges, as in every typed connection. *)
Definition sorted_acks (c : Connection) : Prop := forall id, ArrayRangeSet.wf (ranges (pending_acks (space_of c id))).

Lemma sorted_acks_same c c' : (forall id, pending_acks (space_of c' id) = pending_acks (space_of c id)) ->
  sorted_acks c -> sorted_acks c'.
Proof. intros Hs Ha id. rewrite Hs. apply Ha. Qed.

Lemma discard_acks id c c' : Connection.discard_space id c = Ret c' ->
  forall i, pending_acks (space_of c' i) = pending_acks (space_of c i).
Proof.
  intros (p & t & -> & _)%discard_spec i. autorewrite with conn. by destruct (decide (id = i)) as [<-|].
Qed.

Lemma transmit_closing now id el c c' : Connection.transmit_space now true id el c = Ret c' -> sorted_acks c ->
  sorted_acks c' /\ pending_close c' = false /\ c_state c' = c_state c /\
  exists x, sending_queue (path c') = sending_queue (path c) ++ [x] /\ acks_only (sch_packet x).
Proof.
  unfold Connection.transmit_space. intros Ha Hacks. apply obind_ret in Ha as ([s n] & Htx & Ha).
  apply obind_ret in Ha as (pn & Hpn & Ha). apply obind_ret in Ha as (h & Hh & Ha). apply obind_ret in Ha as (out & Hout & Ha).
  apply obind_ret in Ha as ([[c1 sent] out1] & Hst1 & Ha). apply obind_ret in Hst1 as (out2 & Hst1 & Heq). injection Heq as <- <- <-.
  cbn [sent_largest_acked SentFrames_default] in Ha. apply obind_ret in Ha as (len & Hlen & Ha). injection Ha as <-.
  assert (Hs : pending_acks s = pending_acks (space_of c id)).
  { unfold PacketSpace.get_tx_number in Htx. outcome_inv. by simplify_eq. }
  set (c0 := with_space id s c) in *.
  assert (Hc0 : forall i, pending_acks (space_of c0 i) = pending_acks (space_of c i)).
  { intros i. unfold c0. autorewrite with conn. by destruct (decide (id = i)) as [<-|]. }
  split; [|split; [done|split; [done|]]].
  { apply (sorted_acks_same c); [|done]. intros i. rewrite <- Hc0. done. }
  eexists. split; [done|]. cbn [sch_packet]. apply pn_new_wf in Hpn. destruct (packet_header_wf _ _ _ Hpn Hh) as [Hwf _].
  destruct (emits_written _ _ _ _ (emits_header _ _ _ Hwf) Hout) as [Hw Hr].
  assert (Hbody : exists body, written out2 = written out ++ body /\ remaining_mut out2 = remaining_mut out - zlen body /\
    (body = [] \/ exists a, carries B body [FAck a])).
  { destruct (negb _).
    - apply obind_ret in Hst1 as ([lg o] & Hst1 & Heq). injection Heq as ->.
      destruct (acks_append (B:=B) now (space_of c0 id) out out2 lg) as (a & (body & ? & ? & ?) & _); [rewrite Hc0; apply Hacks|done|].
      exists body. split_and!; [done|done|right; by exists a].
    - injection Hst1 as ->. exists []. rewrite app_nil_r, zlen_nil. split_and!; [done|lia|by left]. }
  destruct Hbody as (body & Hw2 & Hr2 & Hbody). change (sb_bytes out2) with (written out2). rewrite Hw2, Hw.
  change (written _ ++ header_bytes h) with (header_bytes h).
  assert (Hl : len = zlen (header_bytes h ++ body)).
  { apply u64_sub_ret in Hlen as [-> _]. rewrite Hr2, Hr, zlen_app. cbn. unfold INITIAL_MTU. lia. }
  subst len. intros d Hd. unfold zlen in Hd at 1. rewrite Nat2Z.id, take_ge in Hd by lia.
  destruct (reads_header _ _ _ Hwf d body Hd) as (rest & Hdec & Hrest). exists (header_on_wire h), rest. split; [exact Hdec|].
  destruct Hbody as [->|[a Hp]]; [by left|]. right. exists a. by apply (parse_payload_carried body [FAck a]).
Qed.

Lemma turn_closing now blocked id c b c' b' : Connection.transmit_turn now true blocked id (c, b) = Ret (c', b') -> sorted_acks c ->
  sorted_acks c' /\ c_state c' = c_state c /\ exists l, sending_queue (path c') = sending_queue (path c) ++ l /\
    Forall (fun x => acks_only (sch_packet x)) l /\ (l <> [] -> pending_close c' = false) /\ (l = [] -> pending_close c' = pending_close c).
Proof.
  unfold Connection.transmit_turn. intros Ht Hacks.
  assert (Hnone : forall c2, (forall i, pending_acks (space_of c2 i) = pending_acks (space_of c i)) -> c_state c2 = c_state c ->
    sending_queue (path c2) = sending_queue (path c) -> pending_close c2 = pending_close c ->
    sorted_acks c2 /\ c_state c2 = c_state c /\ exists l, sending_queue (path c2) = sending_queue (path c) ++ l /\
    Forall (fun x => acks_only (sch_packet x)) l /\ (l <> [] -> pending_close c2 = false) /\ (l = [] -> pending_close c2 = pending_close c)).
  { intros c2 Ha Hs Hq Hp. split; [by apply (sorted_acks_same c)|]. split; [done|]. exists []. rewrite app_nil_r. by split_and!. }
  destruct (_ && _); [simplify_eq; by apply Hnone|]. apply obind_ret in Ht as (c1 & Hst1 & Ht).
  assert (Hc1 : (forall i, pending_acks (space_of c1 i) = pending_acks (space_of c i)) /\ c_state c1 = c_state c /\
    sending_queue (path c1) = sending_queue (path c) /\ pending_close c1 = pending_close c).
  { destruct (_ && _); [|by injection Hst1 as <-]. split; [by eapply discard_acks|].
    apply discard_spec in Hst1 as (p & t & -> & Hr & _). destruct (remove_all_fields _ _ _ Hr) as (Hq & _). done. }
  clear Hst1. destruct Hc1 as (Ha1 & Hs1 & Hq1 & Hp1). destruct (_ && blocked); [simplify_eq; by apply Hnone|].
  apply obind_ret in Ht as (c2 & Hst2 & Ht). injection Ht as <- <-.
  destruct (transmit_closing _ _ _ _ _ Hst2) as (Ha2 & Hp2 & Hs2 & x & Hq2 & Hx); [by apply (sorted_acks_same c)|].
  split; [done|]. split; [congruence|]. exists [x]. rewrite Hq2, Hq1. split_and!; try done. by apply Forall_singleton.
Qed.

Lemma poll_closing now c c' again : State.is_closed (c_state c) = true -> sorted_acks c ->
  Connection.poll_transmit now c = Ret (c', again) ->
  c_state c' = c_state c /\ exists l, sending_queue (path c') = sending_queue (path c) ++ l /\
    Forall (fun x => acks_only (sch_packet x)) l /\ (l <> [] -> pending_close c' = false).
Proof.
  unfold Connection.poll_transmit. intros Hcl Hacks Ht. assert (Hnone : forall c2, c2 = c -> c_state c2 = c_state c /\
    exists l, sending_queue (path c2) = sending_queue (path c) ++ l /\ Forall (fun x => acks_only (sch_packet x)) l /\ (l <> [] -> pending_close c2 = false)).
  { intros c2 ->. split; [done|]. exists []. rewrite app_nil_r. by split_and!. }
  destruct (pending_close c) eqn:Hp0; cycle 1.
  { destruct (c_state c); simplify_eq; by apply Hnone. }
  destruct (match c_state c with Drained => None | _ => _ end) as [close|] eqn:Hclose; [|simplify_eq; by apply Hnone].
  assert (close = true) as -> by (by destruct (c_state c); simplify_eq). clear Hclose Hnone.
  apply obind_ret in Ht as ([c3 any] & Ht & Hfin). unfold Connection.transmit_turns in Ht.
  apply obind_ret in Ht as ([ca b1] & Hst1 & Ht). apply obind_ret in Ht as ([cb b2] & Hst2 & Hst3).
  destruct (turn_closing _ _ _ _ _ _ _ Hst1 Hacks) as (Haa & Hsa & la & Hqa & Hxa & Hpa & Hna).
  destruct (turn_closing _ _ _ _ _ _ _ Hst2 Haa) as (Hab & Hsb & lb & Hqb & Hxb & Hpb & Hnb).
  destruct (turn_closing _ _ _ _ _ _ _ Hst3 Hab) as (Hac & Hsc & lc & Hqc & Hxc & Hpc & Hnc).
  assert (Hc2 : sending_queue (path c') = sending_queue (path c3) /\ c_state c' = c_state c3 /\ pending_close c' = pending_close c3).
  { destruct (negb any); by injection Hfin as <- <-. }
  destruct Hc2 as (Hq2 & Hs2 & Hp2). split; [congruence|]. exists (la ++ lb ++ lc). split_and!.
  - by rewrite Hq2, Hqc, Hqb, Hqa, !app_assoc.
  - by repeat apply Forall_app_2.
  - intros Hne. rewrite Hp2. destruct lc as [|x lc]; [|by apply Hpc]. rewrite Hnc by done. destruct lb as [|x lb]; [|by apply Hpb].
    rewrite Hnb by done. apply Hpa. by intros ->.
Qed.
End ClosingPackets.

(** C16: A close is never announced.  When the application closes a connection,
    the packets that go out for it hold a header and at most an ACK frame:
    none carries a CONNECTION_CLOSE, so the peer does not learn of the error
    code and the reason; where nothing is left to acknowledge the payload is
    even empty, which a peer refuses as a protocol violation.  Once such
    packets were queued, the connection sends nothing any more. *)
Theorem close_is_never_announced {B : Type} `{BufBytes B} (n : Written) (now now' : Instant) (code : Z) (reason : list Z)
    (c c1 c2 : Connection) (again : bool) :
  typed_reachable (B:=B) n c -> State.is_closed (c_state c) = false ->
  Connection.close now code reason c = Ret c1 -> Connection.poll_transmit now' c1 = Ret (c2, again) ->
  exists l, sending_queue (path c2) = sending_queue (path c) ++ l /\
    (forall x, x ∈ l -> forall d : B, view d = sch_packet x -> exists h rest,
      Header.decode d (zlen FAKE_CID) SUPPORTED_VERSIONS = Ret (Ok (h, rest)) /\
      (view rest = [] \/ exists a, parse_payload rest = Ret (Ok [Ok (FAck a)]))) /\
    (l <> [] -> forall t, Connection.poll_transmit t c2 = Ret (c2, false)).
Proof.
  intros Hr Hcl. assert (Hacks : sorted_acks c) by (intros id; apply (ct_spaces _ _ (reachable_typed _ _ Hr))). clear Hr.
  unfold Connection.close. rewrite Hcl. cbn [negb]. intros Hc. apply obind_ret in Hc as (c0 & Hst0 & Hc).
  injection Hc as <-. apply obind_ret in Hst0 as (t0 & _ & Hst0). injection Hst0 as <-. set (c1 := with_state _ _).
  assert (Ha1 : sorted_acks c1) by (by apply (sorted_acks_same c)). assert (Hs1 : exists r, c_state c1 = Closed r) by (by eexists).
  assert (Hq1 : sending_queue (path c1) = sending_queue (path c)) by done. clearbody c1. destruct Hs1 as [r Hs1]. rewrite <- Hq1.
  intros Ht. apply (poll_closing (B:=B)) in Ht as (Hs2 & l & Hq2 & Hl & Hp2); [|by rewrite Hs1|done].
  exists l. rewrite Forall_forall in Hl. split_and!; [done|exact Hl|]. intros Hne t. unfold Connection.poll_transmit.
  by rewrite Hs2, Hs1, Hp2.
Qed.

Lemma close_is_never_announced_witness : exists c c1 c2 x y, writing_client = Ret c /\
  Connection.close 25 7 [1; 2] c = Ret c1 /\ Connection.poll_transmit 26 c1 = Ret (c2, true) /\
  sending_queue (path c2) = [x; y] /\ (forall t, Connection.poll_transmit t c2 = Ret (c2, false)).
Proof.
  destruct writing_client as [c|] eqn:H0; [|exfalso; vm_compute in H0; discriminate].
  destruct (Connection.close 25 7 [1; 2] c) as [c1|] eqn:H1; [|exfalso; vm_compute in H0; injection H0 as <-; vm_compute in H1; discriminate].
  destruct (Connection.poll_transmit 26 c1) as [[c2 again]|] eqn:H2;
    [|exfalso; vm_compute in H0; injection H0 as <-; vm_compute in H1; injection H1 as <-; vm_compute in H2; discriminate].
  destruct (writing_client_reachable c H0) as (n & Hr & _).
  assert (Hq : State.is_closed (c_state c) = false /\ sending_queue (path c) = [] /\ exists x y, sending_queue (path c2) = [x; y] /\ again = true).
  { clear Hr. vm_compute in H0. injection H0 as <-. vm_compute in H1. injection H1 as <-. vm_compute in H2. injection H2 as <- <-.
    split; [reflexivity|]. split; [reflexivity|]. do 2 eexists. split; reflexivity. }
  destruct Hq as (Hcl & Hq0 & x & y & Hq & ->).
  destruct (close_is_never_announced (B:=in_memory) n 25 26 7 [1; 2] c c1 c2 true Hr Hcl H1 H2) as (l & Hl & _ & Hstop).
  exists c, c1, c2, x, y. split; [reflexivity|]. split; [exact H1|]. split; [exact H2|]. split; [exact Hq|].
  apply Hstop. intros ->. rewrite Hq, Hq0 in Hl. discriminate Hl.
Defined.
