(* ===== verification/Endpoint.v ===== *)
(** * Endpoint: the connections behind one socket ([core/src/endpoint.rs])

    The table of connection tasks, the routes from peer addresses to them, and
    the loop that hands out datagrams and sweeps finished connections.  The
    slab that numbers the tasks is a library: it is a finite map with the
    parameter [vacant], the key it hands out next, of which the theorems assume
    that it is not in use.  Addresses are any countable type; resolving and
    binding them is left to the operating system. *)
From S2P Require Import Prelude Time Buffers Common Packet Frame Timer Space Path Send Recv Streams Connection Accounting Driver.

Section Endpoint.
Context {B : Type} `{Buf B} {A : Type} `{Countable A}.

(** [mod.rs:39-44] with the connection the task owns, the datagrams sent
    through [data_tx] and not received yet, and whether the task has ended *)
Record ConnectionTask := mkTask {
  ct_connection : Connection;
  ct_data : list (Instant * B);
  ct_finished : bool;
  ct_handle : Z;
  ct_remote : A;
}.

(** [endpoint.rs:19-26] *)
Record Endpoint := mkEndpoint {
  connections : gmap Z ConnectionTask;
  routes : gmap A Z;
}.

(** [mod.rs:58-72] *)
Definition with_connection (c : Connection) (handle : Z) (remote : A) : ConnectionTask :=
  mkTask c [] false handle remote.

(** [mod.rs:47-56] *)
Definition task_new (now : Instant) (handle : Z) (remote : A) (side : Side) : outcome ConnectionTask :=
  let! c := Connection.new now side in Ret (with_connection c handle remote).

(** [mod.rs:82-84] *)
Definition is_alive (t : ConnectionTask) : bool := negb (ct_finished t).

(** The task of [run_connection] during one round: it ends when the connection
    is drained, and when the round panics. *)
Definition takes_data (r : Round B) (c : Connection) : bool :=
  match Driver.take_event c with
  | Some _ => false
  | None => match TimerTable.poll (r_poll r) (timers c) with Ret (_, None) => true | _ => false end
  end.

Definition task_round (r : Round B) (t : ConnectionTask) : ConnectionTask :=
  let r := mkRound (r_now r) (r_io r) (r_ops r) (r_poll r) (r_timeout r) (head (ct_data t)) in
  let ended := mkTask (ct_connection t) (ct_data t) true (ct_handle t) (ct_remote t) in
  if ct_finished t || State.is_drained (c_state (ct_connection t)) then ended
  else
    match (let! c := Driver.burst Driver.MAX_SPINS (r_now r) (ct_connection t) in Driver.send_queued (r_io r) c) with
    | Panic => ended
    | Ret c =>
        match Driver.select r c with
        | Panic => ended
        | Ret c' =>
            mkTask c' (if takes_data r c then tail (ct_data t) else ct_data t) (State.is_drained (c_state c'))
              (ct_handle t) (ct_remote t)
        end
    end.

Section Slab.
Context (vacant : gmap Z ConnectionTask -> Z).

(** [endpoint.rs:64-76] *)
Definition start_connection (now : Instant) (addr : A) (e : Endpoint) : outcome Endpoint :=
  let key := vacant (connections e) in
  let! conn := task_new now key addr Client in
  Ret (mkEndpoint (<[key := conn]> (connections e)) (<[addr := ct_handle conn]> (routes e))).

(** [endpoint.rs:53-62] *)
Definition connect (now : Instant) (addr : A) (e : Endpoint) : outcome Endpoint :=
  match routes e !! addr with
  | Some _ => Ret e
  | None => start_connection now addr e
  end.

(** [endpoint.rs:78-121] *)
Definition accept_connection (addr : A) (first_packet : B) (now : Instant) (e : Endpoint) : outcome Endpoint :=
  let! r := Header.decode first_packet 0 SUPPORTED_VERSIONS in
  match r with
  | Ok (HInitial h, rest) =>
      let packet := {| ip_header := h; ip_payload := rest |} in
      let! conn := Connection.new now Server in
      let! '(conn, res) := Connection.handle_first_packet now packet conn in
      match res with
      | Err _ => Ret e
      | Ok _ =>
          let key := vacant (connections e) in
          let conn := with_connection conn key addr in
          Ret (mkEndpoint (<[key := conn]> (connections e)) (<[addr := ct_handle conn]> (routes e)))
      end
  | _ => Ret e
  end.

(** [endpoint.rs:123-128] *)
Definition remove_connection (ch : Z) (e : Endpoint) : Endpoint :=
  match connections e !! ch with
  | Some conn => mkEndpoint (delete ch (connections e)) (delete (ct_remote conn) (routes e))
  | None => e
  end.

(** [conn.data_tx.send(..).ok()]: nothing happens when the task has ended. *)
Definition push_data (now : Instant) (data : B) (t : ConnectionTask) : ConnectionTask :=
  if ct_finished t then t
  else mkTask (ct_connection t) (ct_data t ++ [(now, data)]) (ct_finished t) (ct_handle t) (ct_remote t).

(** [endpoint.rs:130-148] *)
Definition dispatch_datagram (data : B) (addr : A) (now : Instant) (e : Endpoint) : outcome Endpoint :=
  match routes e !! addr with
  | Some ch =>
      let! conn := unwrap (connections e !! ch) in
      Ret (mkEndpoint (<[ch := push_data now data conn]> (connections e)) (routes e))
  | None => accept_connection addr data now e
  end.

(** [endpoint.rs:170-179] *)
Definition check_close (e : Endpoint) : Endpoint :=
  let removed := (map_to_list (filter (fun x => is_alive x.2 = false) (connections e))).*1 in
  let e := mkEndpoint (filter (fun x => is_alive x.2 = true) (connections e)) (routes e) in
  fold_left (fun e id => remove_connection id e) removed e.

(** What [tokio::select!] in [run] wakes up with: a datagram, an error of the
    socket, or the tick of every second.  Between two turns of the loop the
    tasks of the connections run. *)
Inductive Turn :=
| NewPacket (data : B) (addr : A) (now : Instant)
| ReceiveError
| CheckClose
| TaskRuns (ch : Z) (r : Round B).

(** [endpoint.rs:157-184] one turn of the loop, and whether it breaks *)
Definition loop_turn (exit : bool) (turn : Turn) (e : Endpoint) : outcome (Endpoint * bool) :=
  match turn with
  | NewPacket data addr now => let! e := dispatch_datagram data addr now e in Ret (e, false)
  | ReceiveError => Ret (e, false)
  | CheckClose =>
      let e := check_close e in
      Ret (e, exit && bool_decide (connections e = ∅))
  | TaskRuns ch r =>
      match connections e !! ch with
      | Some t => Ret (mkEndpoint (<[ch := task_round r t]> (connections e)) (routes e), false)
      | None => Ret (e, false)
      end
  end.

(** [endpoint.rs:150-188] the loop over the turns that happen, and whether it
    is over after them *)
Fixpoint run (exit : bool) (turns : list Turn) (e : Endpoint) : outcome (Endpoint * bool) :=
  match turns with
  | [] => Ret (e, false)
  | turn :: turns =>
      let! '(e, break) := loop_turn exit turn e in
      if break : bool then Ret (e, true) else run exit turns e
  end.

(** ** Steps of an endpoint and its connection tasks *)

(** What can happen: the socket yields a datagram, the application connects,
    the task of a connection runs a round, and the sweep of every second. *)
Inductive endpoint_step : Endpoint -> Endpoint -> Prop :=
| step_connect now addr e e' : connect now addr e = Ret e' -> endpoint_step e e'
| step_datagram data addr now e e' : dispatch_datagram data addr now e = Ret e' -> endpoint_step e e'
| step_task ch r t e : connections e !! ch = Some t ->
    endpoint_step e (mkEndpoint (<[ch := task_round r t]> (connections e)) (routes e)).

Definition sweep_step (e e' : Endpoint) : Prop := e' = check_close e.

(** ** Invariants *)

(** The tasks know their keys, and are reached from their addresses. *)
Definition tasks_routed (e : Endpoint) : Prop :=
  forall ch t, connections e !! ch = Some t -> ct_handle t = ch /\ routes e !! ct_remote t = Some ch.

(** Every route leads to the task of its address. *)
Definition routes_lead (e : Endpoint) : Prop :=
  forall addr ch, routes e !! addr = Some ch -> exists t, connections e !! ch = Some t /\ ct_remote t = addr.
End Slab.
End Endpoint.

(** [endpoint.rs:37-51] what [Endpoint::new] returns once the socket is bound *)
Definition empty_endpoint {B A : Type} `{Countable A} : @Endpoint B A _ _ := mkEndpoint ∅ ∅.

(** [client.rs:347-349] and [server.rs:232-237] the endpoints of the two programs *)
Definition client_main {B A : Type} `{Buf B} `{Countable A} (vacant : gmap Z (@ConnectionTask B A) -> Z) (now : Instant) (address : A)
    (turns : list Turn) : outcome (@Endpoint B A _ _ * bool) :=
  let! e := connect vacant now address empty_endpoint in run vacant true turns e.

Definition server_main {B A : Type} `{Buf B} `{Countable A} (vacant : gmap Z (@ConnectionTask B A) -> Z)
    (turns : list Turn) : outcome (@Endpoint B A _ _ * bool) :=
  run vacant false turns empty_endpoint.

(** What the turns mean to a connection task with the key [ch]. *)
Definition task_turn {B A : Type} `{Buf B} (ch : Z) (t : @ConnectionTask B A) (turn : @Turn B A) : ConnectionTask :=
  match turn with
  | NewPacket data _ now => push_data now data t
  | TaskRuns ch' r => if ch' =? ch then task_round r t else t
  | _ => t
  end.

Definition task_after {B A : Type} `{Buf B} (ch : Z) (turns : list (@Turn B A)) (t : @ConnectionTask B A) : ConnectionTask :=
  fold_left (task_turn ch) turns t.

Definition from_peer {B A : Type} (addr : A) (turn : @Turn B A) : Prop :=
  match turn with NewPacket _ a _ => a = addr | _ => True end.

Section Sweep.
Context {B : Type} `{Buf B} {A : Type} `{Countable A}.

Lemma remove_gone l (e : @Endpoint B A _ _) : (forall ch, ch ∈ l -> connections e !! ch = None) -> fold_left (fun e id => remove_connection id e) l e = e.
Proof.
  induction l as [|ch l IH]; intros Hl; cbn; [done|]. unfold remove_connection at 2. rewrite Hl by set_solver. apply IH. set_solver.
Qed.

(** The sweep never gets to the routes: it looks a removed task up after it
    dropped it. *)
Lemma check_close_eq (e : @Endpoint B A _ _) : check_close e = mkEndpoint (filter (fun x => is_alive x.2 = true) (connections e)) (routes e).
Proof.
  unfold check_close. apply remove_gone. intros ch Hch. apply list_elem_of_fmap in Hch as ([ch' t] & -> & Hin). cbn.
  apply elem_of_map_to_list, map_lookup_filter_Some in Hin as [Hl Hd]. cbn in Hd.
  apply map_lookup_filter_None. right. intros t' Ht'. cbn. rewrite Hl in Ht'. injection Ht' as <-. by rewrite Hd.
Qed.

Lemma check_close_alive (e : @Endpoint B A _ _) : (forall ch t, connections e !! ch = Some t -> ct_finished t = false) -> check_close e = e.
Proof.
  intros Ha. rewrite check_close_eq. destruct e as [m r]. cbn in *. f_equal. apply map_filter_id. intros ch t Ht. cbn.
  unfold is_alive. by rewrite (Ha ch t Ht).
Qed.
End Sweep.

Section Proofs.
Context {B : Type} `{Buf B} {A : Type} `{Countable A}.
Context (vacant : gmap Z (@ConnectionTask B A) -> Z).
(** [Slab::vacant_entry]: "the entry's key is not associated with a value". *)
Hypothesis vacant_fresh : forall m, m !! vacant m = None.

Definition exact_routes (e : @Endpoint B A _ _) : Prop := tasks_routed e /\ routes_lead e.

Lemma exact_new ch t addr e : exact_routes e -> routes e !! addr = None -> connections e !! ch = None -> ct_handle t = ch -> ct_remote t = addr ->
  exact_routes (mkEndpoint (<[ch := t]> (connections e)) (<[addr := ct_handle t]> (routes e))).
Proof.
  intros [Ht Hr] Hnone Hfree Hh Hrem. split.
  - intros ch' t'. cbn. intros [[<- <-]|[Hne Hl]]%lookup_insert_Some; [rewrite Hrem, Hh; by simplify_map_eq|].
    destruct (Ht ch' t' Hl) as [? Hl']. split; [done|]. rewrite lookup_insert_ne; [done|]. congruence.
  - intros addr' ch'. cbn. intros [[<- <-]|[Hne Hl]]%lookup_insert_Some; [rewrite Hh; exists t; by simplify_map_eq|].
    destruct (Hr addr' ch' Hl) as (t' & Hl' & ?). exists t'. split; [|done]. rewrite lookup_insert_ne; [done|]. congruence.
Qed.

(** Replacing a task by one with the same key and address. *)
Lemma exact_update ch t t' e : exact_routes e -> connections e !! ch = Some t -> ct_handle t' = ct_handle t -> ct_remote t' = ct_remote t ->
  exact_routes (mkEndpoint (<[ch := t']> (connections e)) (routes e)).
Proof.
  intros [Ht Hr] Hch Hh Hrem. split.
  - intros i ti. cbn. intros [[<- <-]|[Hne Hl]]%lookup_insert_Some; [|by apply Ht]. rewrite Hh, Hrem. by apply Ht.
  - intros addr i Hi. destruct (Hr addr i Hi) as (ti & Hl & Ha). cbn. destruct (decide (i = ch)) as [->|Hne].
    + exists t'. simplify_map_eq. done.
    + exists ti. by rewrite lookup_insert_ne.
Qed.

Lemma connect_exact now addr e e' : exact_routes e -> connect vacant now addr e = Ret e' -> exact_routes e'.
Proof.
  intros He. unfold connect. destruct (routes e !! addr) eqn:Hr; [by intros [= <-]|]. unfold start_connection, task_new.
  intros Hc. apply obind_ret in Hc as (t & Ht & Hc). apply obind_ret in Ht as (c & _ & Ht). injection Ht as <-. injection Hc as <-.
  by apply exact_new.
Qed.

Lemma accept_exact addr data now e e' : exact_routes e -> routes e !! addr = None -> accept_connection vacant addr data now e = Ret e' -> exact_routes e'.
Proof.
  intros He Hr. unfold accept_connection. intros Hc. apply obind_ret in Hc as (r & _ & Hc).
  destruct r as [[[h| | | |] rest]|]; try (by injection Hc as <-). apply obind_ret in Hc as (c & _ & Hc).
  apply obind_ret in Hc as ([c1 [|]] & _ & Hc); injection Hc as <-; [|done]. by apply exact_new.
Qed.

Lemma push_data_same now (data : B) (t : @ConnectionTask B A) : ct_handle (push_data now data t) = ct_handle t /\
  ct_remote (push_data now data t) = ct_remote t.
Proof. unfold push_data. by destruct (ct_finished t). Qed.

Lemma task_round_same (r : Round B) (t : @ConnectionTask B A) : ct_handle (task_round r t) = ct_handle t /\
  ct_remote (task_round r t) = ct_remote t.
Proof.
  unfold task_round. destruct (_ || _); [done|]. destruct (obind _ _) as [c|]; [|done]. by destruct (Driver.select _ c).
Qed.

Lemma step_exact e e' : exact_routes e -> endpoint_step vacant e e' -> exact_routes e'.
Proof.
  intros He Hs. destruct Hs as [now addr e e' Hc|data addr now e e' Hd|ch r t e Hch].
  - by eapply connect_exact.
  - unfold dispatch_datagram in Hd. destruct (routes e !! addr) as [ch|] eqn:Hr; [|by eapply accept_exact].
    apply obind_ret in Hd as (t & Ht & Hd). destruct (connections e !! ch) as [t'|] eqn:Hch; [|done]. injection Ht as ->. injection Hd as <-.
    by eapply exact_update; [done|exact Hch|apply push_data_same..].
  - by eapply exact_update; [done|exact Hch|apply task_round_same..].
Qed.

End Proofs.

(** ** The loop *)

Section Loop.
Context {B : Type} `{Buf B} {A : Type} `{Countable A} (vacant : gmap Z (@ConnectionTask B A) -> Z).

Lemma finished_stays ch turns (t : @ConnectionTask B A) : ct_finished t = true -> ct_finished (task_after ch turns t) = true.
Proof.
  unfold task_after. revert t. induction turns as [|turn turns IH]; intros t Ht; [done|]. cbn. apply IH. destruct turn as [data a now| | |ch' r]; cbn; try done.
  - unfold push_data. by rewrite Ht.
  - destruct (ch' =? ch); [|done]. unfold task_round. by rewrite Ht.
Qed.

(** A task whose connection is drained ends with its next round. *)
Lemma drained_ends r (t : @ConnectionTask B A) : State.is_drained (c_state (ct_connection t)) = true -> ct_finished (task_round r t) = true.
Proof. intros Hd. unfold task_round. by rewrite Hd, orb_true_r. Qed.

(** The endpoint that holds the single task [t]. *)
Definition single (ch : Z) (addr : A) (t : ConnectionTask) : @Endpoint B A _ _ := mkEndpoint {[ ch := t ]} {[ addr := ch ]}.

Lemma single_sweep ch addr t : check_close (single ch addr t) = if ct_finished t then mkEndpoint ∅ {[ addr := ch ]} else single ch addr t.
Proof.
  rewrite check_close_eq. unfold single. cbn. rewrite map_filter_singleton. unfold is_alive. cbn. by destruct (ct_finished t).
Qed.

(** What one turn makes of it. *)
Lemma single_turn exit ch addr t turn : from_peer addr turn -> loop_turn vacant exit turn (single ch addr t) =
  match turn with
  | CheckClose => if ct_finished t then Ret (mkEndpoint ∅ {[ addr := ch ]}, exit) else Ret (single ch addr t, false)
  | _ => Ret (single ch addr (task_turn ch t turn), false)
  end.
Proof.
  destruct turn as [data a now| | |ch' r]; intros Hp; cbn in Hp; cbn [loop_turn task_turn]; [subst a|done| |].
  - unfold dispatch_datagram, single. cbn. rewrite lookup_singleton_eq. cbn.
    rewrite lookup_singleton_eq. cbn. by rewrite insert_singleton_eq.
  - rewrite single_sweep. destruct (ct_finished t); cbn.
    + by rewrite bool_decide_true, andb_true_r.
    + by rewrite bool_decide_false, andb_false_r by apply map_non_empty_singleton.
  - unfold single. cbn. destruct (Z.eqb_spec ch' ch) as [->|Hne]; [by rewrite lookup_singleton_eq, insert_singleton_eq|].
    by rewrite lookup_singleton_ne.
Qed.

(** Unless a check finds the task finished, the loop goes on. *)
Lemma single_runs exit ch addr turns t : Forall (from_peer addr) turns ->
  (forall l1 l2, turns = l1 ++ CheckClose :: l2 -> ct_finished (task_after ch l1 t) = false) ->
  run vacant exit turns (single ch addr t) = Ret (single ch addr (task_after ch turns t), false).
Proof.
  revert t. induction turns as [|turn turns IH]; intros t Hp Hc; [done|]. apply Forall_cons in Hp as [Hp Hps]. cbn [run].
  rewrite single_turn by done. assert (IH' := IH (task_turn ch t turn) Hps (fun l1 l2 Hl => Hc (turn :: l1) l2 (f_equal (cons turn) Hl))).
  destruct turn as [data a now| | |ch' r]; cbn [obind]; try exact IH'. assert (ct_finished t = false) as -> by exact (Hc [] turns eq_refl).
  exact IH'.
Qed.

(** The first check after the task finished ends it. *)
Lemma single_exits ch addr l1 l2 t : Forall (from_peer addr) l1 -> ct_finished (task_after ch l1 t) = true ->
  run vacant true (l1 ++ CheckClose :: l2) (single ch addr t) = Ret (mkEndpoint ∅ {[ addr := ch ]}, true).
Proof.
  revert t. induction l1 as [|turn l1 IH]; intros t Hp Hf; cbn [app run].
  - rewrite single_turn by done. cbn in Hf. by rewrite Hf.
  - apply Forall_cons in Hp as [Hp Hps]. rewrite single_turn by done. cbn in Hf. specialize (IH _ Hps Hf).
    destruct turn as [data a now| | |ch' r]; cbn [obind]; try exact IH. destruct (ct_finished t); [done|exact IH].
Qed.

(** A server runs until it panics. *)
Lemma server_never_exits turns (e e' : @Endpoint B A _ _) b : run vacant false turns e = Ret (e', b) -> b = false.
Proof.
  revert e. induction turns as [|turn turns IH]; intros e; cbn [run]; [by intros [= _ <-]|]. intros Hr.
  apply obind_ret in Hr as ([e1 b1] & Ht & Hr). assert (b1 = false) as ->; [|by eapply IH].
  destruct turn as [data a now| | |ch' r]; cbn in Ht.
  - by apply obind_ret in Ht as (e2 & _ & [= _ <-]).
  - by injection Ht as _ <-.
  - by injection Ht as _ <-.
  - destruct (connections e !! ch'); by injection Ht as _ <-.
Qed.
End Loop.

(** ** Properties *)

(** C11: Until a connection ends, datagrams go to the right connection.  From
    the empty endpoint on, whatever datagrams arrive, connections are opened
    and rounds their tasks run, and with sweeps that find every task alive,
    the routes and the tasks correspond to each other: a task is reached from
    the address of its peer and from no other.  So a datagram from an address
    with a route is put, without a panic, into the queue of the task for that
    address, and no other task is touched. *)
Theorem datagrams_reach_their_connection {B A : Type} `{Buf B} `{Countable A} (vacant : gmap Z (@ConnectionTask B A) -> Z)
    (vacant_fresh : forall m, m !! vacant m = None) (e : @Endpoint B A _ _) :
  rtc (fun e e' => endpoint_step vacant e e' \/
    ((forall ch t, connections e !! ch = Some t -> ct_finished t = false) /\ sweep_step e e')) empty_endpoint e ->
  (forall ch t, connections e !! ch = Some t -> ct_handle t = ch /\ routes e !! ct_remote t = Some ch) /\
  forall addr ch data now, routes e !! addr = Some ch ->
    exists t, connections e !! ch = Some t /\ ct_remote t = addr /\
      dispatch_datagram vacant data addr now e = Ret (mkEndpoint (<[ch := push_data now data t]> (connections e)) (routes e)).
Proof.
  intros Hr. assert (Hex : exact_routes e).
  { assert (He : exact_routes (empty_endpoint : @Endpoint B A _ _)) by (split; [intros ch t Ht|intros addr ch Ht]; by cbn in Ht).
    revert He. clear -Hr vacant_fresh. induction Hr as [|e1 e2 e3 Hs _ IH]; [done|]. intros He. apply IH.
    destruct Hs as [Hs|[Ha ->]]; [by apply (step_exact vacant vacant_fresh e1)|]. by rewrite check_close_alive. }
  split; [apply Hex|]. intros addr ch data now Hl. destruct (proj2 Hex addr ch Hl) as (t & Hch & Hrem). exists t. split_and!; try done.
  unfold dispatch_datagram. by rewrite Hl, Hch.
Qed.

Definition next_key (m : gmap Z (@ConnectionTask (list Z) Z)) : Z := fresh (dom m : gset Z).

Lemma next_key_fresh m : m !! next_key m = None.
Proof. apply (not_elem_of_dom (D := gset Z)). unfold next_key. apply is_fresh. Qed.

Lemma datagrams_reach_their_connection_witness : exists e, connect next_key 5 443 empty_endpoint = Ret e /\
  exists t e', dispatch_datagram next_key [1; 2] 443 6 e = Ret e' /\ connections e' !! 0 = Some t /\ ct_data t = [(6, [1; 2])].
Proof.
  destruct (connect next_key 5 443 empty_endpoint) as [e|] eqn:He; [|exfalso; vm_compute in He; discriminate].
  exists e. split; [reflexivity|].
  destruct (datagrams_reach_their_connection next_key next_key_fresh e) as [_ Hd].
  - apply rtc_once. left. by eapply step_connect.
  - assert (Hr : routes e !! 443 = Some 0) by (vm_compute in He; injection He as <-; reflexivity).
    destruct (Hd 443 0 [1; 2] 6 Hr) as (t & Ht & _ & Heq). eexists _, _. split; [exact Heq|].
    cbn [connections]. split; [apply lookup_insert_eq|]. vm_compute in He. injection He as <-. vm_compute in Ht. injection Ht as <-.
    reflexivity.
Defined.

(** C12: A connection that ended leaves a route to nowhere.  When the sweep finds
    the task of a connection finished, it drops the task but not the route from
    the address of its peer.  From then on the next datagram from that address
    panics the endpoint, and with it all other connections; a new connection to
    the address is refused as if it still existed; and if the key is given to a
    connection with another peer in the meantime, the datagrams of the old peer
    are delivered to that connection.  So the loop of a server, and of a client
    with another connection, that checks and then receives from that peer
    panics. *)
Theorem ended_connection_leaves_route {B A : Type} `{Buf B} `{Countable A} (vacant : gmap Z (@ConnectionTask B A) -> Z)
    (e : @Endpoint B A _ _) (ch : Z) (t : ConnectionTask) :
  tasks_routed e -> connections e !! ch = Some t -> ct_finished t = true ->
  let e' := check_close e in
  connections e' !! ch = None /\ routes e' !! ct_remote t = Some ch /\
  (forall data now, dispatch_datagram vacant data (ct_remote t) now e' = Panic) /\
  (forall now, connect vacant now (ct_remote t) e' = Ret e') /\
  (forall now addr e2, routes e' !! addr = None -> vacant (connections e') = ch -> connect vacant now addr e' = Ret e2 ->
    forall data now', exists t2, ct_remote t2 = addr /\ addr <> ct_remote t /\ connections e2 !! ch = Some t2 /\
      dispatch_datagram vacant data (ct_remote t) now' e2 = Ret (mkEndpoint (<[ch := push_data now' data t2]> (connections e2)) (routes e2))) /\
  (forall exit data now, exit = false \/ connections e' <> ∅ ->
    run vacant exit [CheckClose; NewPacket data (ct_remote t) now] e = Panic).
Proof.
  intros Ht Hch Hfin e'. destruct (Ht ch t Hch) as [Hh Hr].
  assert (He' : connections e' !! ch = None /\ routes e' = routes e).
  { unfold e'. rewrite check_close_eq. cbn. split; [|done]. apply map_lookup_filter_None. right. intros t' Ht'. cbn.
    rewrite Hch in Ht'. injection Ht' as <-. unfold is_alive. by rewrite Hfin. }
  destruct He' as [Hnone Hroutes]. rewrite <- Hroutes in Hr.
  assert (Hp : forall data now, dispatch_datagram vacant data (ct_remote t) now e' = Panic) by (intros; unfold dispatch_datagram; by rewrite Hr, Hnone).
  split_and!; [done|done|done| | |].
  - intros now. unfold connect. by rewrite Hr.
  - intros now addr e2 Hfree Hv. unfold connect. rewrite Hfree. unfold start_connection, task_new. rewrite Hv. intros Hc.
    apply obind_ret in Hc as (t2 & Ht2 & Hc). apply obind_ret in Ht2 as (c & _ & Ht2). injection Ht2 as <-. injection Hc as <-.
    intros data now'. assert (Hne : addr <> ct_remote t) by congruence. exists (with_connection c ch addr). cbn [connections routes].
    rewrite lookup_insert_eq. split_and!; try done. unfold dispatch_datagram. cbn [connections routes].
    rewrite lookup_insert_ne by congruence. rewrite Hr. cbn [connections]. by rewrite lookup_insert_eq.
  - intros exit data now Hgo. cbn [run loop_turn obind]. fold e'.
    assert (exit && bool_decide (connections e' = ∅) = false) as ->.
    { destruct Hgo as [->|Hne]; [done|]. by rewrite bool_decide_false, andb_false_r. }
    by rewrite Hp.
Qed.

(** An endpoint with one connection, whose task has ended. *)
Definition ended_task : @ConnectionTask (list Z) Z := mkTask (with_state Drained sample_client) [] true 0 443.
Definition after_the_end : @Endpoint (list Z) Z _ _ := mkEndpoint {[ 0 := ended_task ]} {[ 443 := 0 ]}.

Lemma ended_connection_leaves_route_witness :
  dispatch_datagram next_key [1; 2] 443 6 (check_close after_the_end) = Panic.
Proof.
  assert (Ht : tasks_routed after_the_end).
  { intros ch t. cbn. intros [<- <-]%lookup_singleton_Some. split; reflexivity. }
  destruct (ended_connection_leaves_route next_key after_the_end 0 ended_task Ht eq_refl eq_refl) as (_ & _ & Hp & _).
  exact (Hp [1; 2] 6).
Defined.

(** C14: The client's endpoint does what its connection does, and ends with it.
    As long as datagrams come from the address it connected to only, whatever
    the order of datagrams, socket errors, ticks and rounds of the connection's
    task: the endpoint never panics; it stays in its loop, with the datagrams
    handed to the task in the order of their arrival, until a tick finds the
    task finished; that tick ends it with no connection left, and the turns
    after it do not matter.  A task that is finished stays so, and a task whose
    connection is drained is finished by its next round, so the tick after
    that round ends the program.  (The server's loop, with the same turns, is
    over only by a panic.) *)
Theorem client_runs_until_closed {B A : Type} `{Buf B} `{Countable A} (vacant : gmap Z (@ConnectionTask B A) -> Z)
    (now : Instant) (addr : A) (turns : list (@Turn B A)) :
  Forall (from_peer addr) turns ->
  let ch := vacant ∅ in
  exists t, task_new now ch addr Client = Ret t /\
  ((forall l1 l2, turns = l1 ++ CheckClose :: l2 -> ct_finished (task_after ch l1 t) = false) ->
    client_main vacant now addr turns = Ret (single ch addr (task_after ch turns t), false)) /\
  (forall l1 l2, turns = l1 ++ CheckClose :: l2 -> ct_finished (task_after ch l1 t) = true ->
    client_main vacant now addr turns = Ret (mkEndpoint ∅ {[ addr := ch ]}, true)) /\
  (forall l1 l2 l3 r, turns = l1 ++ TaskRuns ch r :: l2 ++ CheckClose :: l3 ->
    State.is_drained (c_state (ct_connection (task_after ch l1 t))) = true ->
    client_main vacant now addr turns = Ret (mkEndpoint ∅ {[ addr := ch ]}, true)) /\
  (forall e b, server_main vacant turns = Ret (e, b) -> b = false).
Proof.
  intros Hp ch. unfold task_new. destruct (Connection.new now Client) as [c|] eqn:Hc; [|by vm_compute in Hc].
  cbn [obind]. eexists. split; [done|]. set (t := with_connection c ch addr).
  assert (Hm : client_main vacant now addr turns = run vacant true turns (single ch addr t)).
  { unfold client_main, connect, start_connection, task_new. cbn [routes empty_endpoint]. rewrite lookup_empty, Hc. cbn [obind].
    unfold single. cbn [connections routes]. by rewrite !insert_empty. }
  assert (Hexit : forall l1 l2, turns = l1 ++ CheckClose :: l2 -> ct_finished (task_after ch l1 t) = true ->
    client_main vacant now addr turns = Ret (mkEndpoint ∅ {[ addr := ch ]}, true)).
  { intros l1 l2 -> Hf. rewrite Hm. apply Forall_app in Hp as [Hp _]. by apply single_exits. }
  split; [intros Hn; rewrite Hm; by apply single_runs|]. split; [exact Hexit|]. split.
  - intros l1 l2 l3 r Hl Hd. apply (Hexit (l1 ++ TaskRuns ch r :: l2) l3); [by rewrite Hl, <-app_assoc|].
    unfold task_after. rewrite fold_left_app. cbn. rewrite Z.eqb_refl. apply finished_stays. by apply drained_ends.
  - intros e b. apply server_never_exits.
Qed.

(** A client is sent a packet its task panics on: a connection identifier longer than 20 bytes. *)
Definition fatal_turns : list (@Turn (list Z) Z) :=
  [CheckClose; TaskRuns 0 (sample_round 10 None); NewPacket ([192; 0; 0; 0; 1; 21] ++ replicate 30 7) 443 20; TaskRuns 0 (sample_round 30 None); CheckClose; ReceiveError].

Lemma client_runs_until_closed_witness : client_main next_key 5 443 fatal_turns = Ret (mkEndpoint ∅ {[ 443 := next_key ∅ ]}, true).
Proof.
  assert (Hp : Forall (from_peer 443) fatal_turns) by (repeat constructor).
  destruct (client_runs_until_closed next_key 5 443 fatal_turns Hp) as (t & Ht & _ & Hexit & _).
  apply (Hexit (take 4 fatal_turns) [ReceiveError] eq_refl). clear Hexit. vm_compute in Ht. injection Ht as <-. vm_compute. reflexivity.
Defined.
