(* ===== verification/Marker.v ===== *)
(** * Marker: how a client waits for its server ([src/file_notice_macos.rs])

    A server and a client that are started together agree on a file: the server
    creates it once it listens, the client connects once it exists.  A path is
    the list of its components; a file system is the set of paths that exist;
    whether the operating system refuses an operation is an argument. *)
From S2P Require Import Prelude.

(** [std::path] *)
Definition PathBuf : Type := list string.

Definition parent (path : PathBuf) : option PathBuf :=
  match path with [] => None | _ => Some (removelast path) end.

(** [io::Error] *)
Inductive IoError := OsError (code : Z).

(** ** The file system *)

Definition Files : Type := gset PathBuf.

(** [Path::exists], which is also false when the operating system does not show
    the file ([hidden]). *)
Definition exists_in (hidden : bool) (path : PathBuf) (fs : Files) : bool := negb hidden && bool_decide (path ∈ fs).

(** The paths from the first component on. *)
Definition prefixes (path : PathBuf) : list PathBuf := (fun k => take k path) <$> seq 1 (length path).

(** [fs::create_dir_all], [fs::write] and [fs::remove_file], and what the
    operating system says to it *)
Definition create_dir_all (refused : option IoError) (path : PathBuf) (fs : Files) : Files * result unit IoError :=
  match refused with
  | Some e => (fs, Err e)
  | None => (list_to_set (prefixes path) ∪ fs, Ok tt)
  end.

Definition write_file (refused : option IoError) (path : PathBuf) (fs : Files) : Files * result unit IoError :=
  match refused with
  | Some e => (fs, Err e)
  | None => ({[ path ]} ∪ fs, Ok tt)
  end.

Definition remove_file (refused : option IoError) (path : PathBuf) (fs : Files) : Files :=
  match refused with Some _ => fs | None => fs ∖ {[ path ]} end.

(** ** The marker and the waiter *)

(** [file_notice_macos.rs:9-15] *)
Inductive FileWaitError := AlreadyExists | Io (e : IoError).

(** [file_notice_macos.rs:17-19] *)
Record FileMarker := mkMarker { marker_path : PathBuf }.

Module FileMarker.
(** [file_notice_macos.rs:22-29] *)
Definition new (mkdir write : option IoError) (path : PathBuf) (fs : Files) : Files * result FileMarker IoError :=
  let '(fs, r) := match parent path with Some parent => create_dir_all mkdir parent fs | None => (fs, Ok tt) end in
  match r with
  | Err e => (fs, Err e)
  | Ok _ =>
      let '(fs, r) := write_file write path fs in
      match r with
      | Err e => (fs, Err e)
      | Ok _ => (fs, Ok (mkMarker path))
      end
  end.

(** [file_notice_macos.rs:33-35] *)
Definition drop (refused : option IoError) (m : FileMarker) (fs : Files) : Files := remove_file refused (marker_path m) fs.
End FileMarker.

(** [file_notice_macos.rs:38-40] *)
Record AsyncFileWaiter := mkWaiter { waiter_path : PathBuf }.

Module AsyncFileWaiter.
(** [file_notice_macos.rs:43-49] *)
Definition new (hidden : bool) (path : PathBuf) (fs : Files) : result AsyncFileWaiter FileWaitError :=
  if exists_in hidden path fs then Err AlreadyExists else Ok (mkWaiter path).

(** [file_notice_macos.rs:51-58] a turn of the loop: whether it returns *)
Definition poll (hidden : bool) (w : AsyncFileWaiter) (fs : Files) : bool := exists_in hidden (waiter_path w) fs.
End AsyncFileWaiter.

(** ** The two programs *)

(** The server: not listening yet; listening; past the marker, which it holds
    if it could create it; gone. *)
Inductive ServerStage :=
| Starting
| Listening
| Serving (m : option FileMarker)
| Gone.

(** The client: before the lock; waiting; past the lock. *)
Inductive ClientStage :=
| Beginning
| Waiting (w : AsyncFileWaiter)
| Connecting.

Record System := mkSystem { server : ServerStage; client : ClientStage; files : Files }.

Section Startup.
Context (lock : PathBuf).

(** [server.rs:239-243] the marker of the server, a failure is logged only *)
Definition create_marker (mkdir write : option IoError) (fs : Files) : Files * option FileMarker :=
  let '(fs, r) := FileMarker.new mkdir write lock fs in
  (fs, match r with Ok m => Some m | Err _ => None end).

(** [client.rs:332-345] what the client does about the lock *)
Definition await_marker (hidden : bool) (fs : Files) : ClientStage :=
  match AsyncFileWaiter.new hidden lock fs with
  | Ok waiter => Waiting waiter
  | Err AlreadyExists => Connecting
  | Err _ => Connecting
  end.

(** [server.rs:245-252] A step of one of them: the server ends when its
    endpoint does or it is interrupted, and drops its marker.  Others leave the
    lock alone. *)
Inductive step : System -> System -> Prop :=
| server_binds c fs : step (mkSystem Starting c fs) (mkSystem Listening c fs)
| server_marks mkdir write c fs :
    let r := create_marker mkdir write fs in step (mkSystem Listening c fs) (mkSystem (Serving r.2) c r.1)
| server_ends refused m c fs :
    step (mkSystem (Serving m) c fs) (mkSystem Gone c (match m with Some m => FileMarker.drop refused m fs | None => fs end))
| client_begins hidden s fs : step (mkSystem s Beginning fs) (mkSystem s (await_marker hidden fs) fs)
| client_polls hidden s w fs : step (mkSystem s (Waiting w) fs) (mkSystem s (if AsyncFileWaiter.poll hidden w fs then Connecting else Waiting w) fs)
| others s c fs fs' : (lock ∈ fs' <-> lock ∈ fs) -> step (mkSystem s c fs) (mkSystem s c fs').

End Startup.

(** ** The order of the start *)

Lemma prefix_length path p : p ∈ prefixes path -> (length p <= length path)%nat.
Proof. unfold prefixes. intros (k & -> & _)%list_elem_of_fmap. rewrite length_take. lia. Qed.

Lemma marker_new mkdir write path fs fs' r : FileMarker.new mkdir write path fs = (fs', r) ->
  match r with
  | Ok m => marker_path m = path /\ path ∈ fs'
  | Err _ => path ∈ fs' <-> path ∈ fs
  end.
Proof.
  unfold FileMarker.new. assert (Hdir : forall fs1 r1, match parent path with Some parent => create_dir_all mkdir parent fs | None => (fs, Ok tt) end = (fs1, r1) ->
    path ∈ fs1 <-> path ∈ fs).
  { intros fs1 r1. destruct path as [|x path]; cbn [parent]; [by intros [= <- _]|]. unfold create_dir_all. destruct mkdir; intros [= <- _]; [done|].
    rewrite elem_of_union, elem_of_list_to_set. split; [|by right]. intros [Hp|?]; [exfalso|done].
    apply prefix_length in Hp.
    assert (Hl : length (removelast (x :: path)) = length path) by (rewrite removelast_firstn_len, length_take; cbn; lia).
    cbn in Hl, Hp. lia. }
  destruct (match parent path with Some _ => _ | None => _ end) as [fs1 [u|e]] eqn:Hd; specialize (Hdir _ _ eq_refl).
  - unfold write_file. destruct write; intros [= <- <-]; [done|]. split; [done|]. set_solver.
  - by intros [= <- <-].
Qed.

Section Order.
Context (lock : PathBuf).

(** Before the server has made its marker there is no lock, and the client has
    not passed. *)
Definition orderly (s : System) : Prop :=
  match server s with
  | Starting | Listening | Serving None => (lock ∉ files s) /\ client s <> Connecting
  | Serving (Some m) => marker_path m = lock /\ lock ∈ files s
  | Gone => True
  end /\ forall w, client s = Waiting w -> waiter_path w = lock.

Lemma await_without hidden fs : lock ∉ fs -> await_marker lock hidden fs = Waiting (mkWaiter lock).
Proof. intros Hl. unfold await_marker, AsyncFileWaiter.new, exists_in. by rewrite bool_decide_false, andb_false_r. Qed.

Lemma poll_lock hidden w fs : waiter_path w = lock -> AsyncFileWaiter.poll hidden w fs = negb hidden && bool_decide (lock ∈ fs).
Proof. unfold AsyncFileWaiter.poll, exists_in. by intros ->. Qed.

Lemma await_waiter hidden fs w : await_marker lock hidden fs = Waiting w -> waiter_path w = lock.
Proof. unfold await_marker, AsyncFileWaiter.new. destruct (exists_in hidden lock fs); [done|]. by intros [= <-]. Qed.

Lemma step_orderly s s' : step lock s s' -> orderly s -> orderly s'.
Proof.
  intros Hs [Ho Hw]. destruct Hs as [c fs|mkdir write c fs r|refused m c fs|hidden sv fs|hidden sv w fs|sv c fs fs' Hiff]; cbn in Ho, Hw.
  - by split.
  - split; [|done]. destruct Ho as [Hl Hc]. unfold r, create_marker. destruct (FileMarker.new mkdir write lock fs) as [fs1 r1] eqn:Hn.
    apply marker_new in Hn. destruct r1 as [m|e]; cbn; [done|]. by rewrite Hn.
  - by split.
  - split; [|cbn; intros w; apply await_waiter]. cbn. destruct sv as [| |[m|]|]; try done; destruct Ho as [Hl _]; by rewrite await_without.
  - specialize (Hw w eq_refl). rewrite (poll_lock hidden w fs Hw). split; cbn.
    + destruct sv as [| |[m|]|]; try done; destruct Ho as [Hl _]; by rewrite bool_decide_false, andb_false_r.
    + destruct (_ && _); [done|]. by intros w' [= <-].
  - split; [|done]. cbn. destruct sv as [| |[m|]|]; try done; by rewrite Hiff.
Qed.

(** Without a lock, and with a server that makes none any more, the client waits. *)
Definition abandoned (s : System) : Prop :=
  (server s = Serving None \/ server s = Gone) /\ (lock ∉ files s) /\ client s <> Connecting /\
  forall w, client s = Waiting w -> waiter_path w = lock.

Lemma step_abandoned s s' : step lock s s' -> abandoned s -> abandoned s'.
Proof.
  intros Hs (Ho & Hl & Hc & Hw). destruct Hs as [c fs|mkdir write c fs r|refused m c fs|hidden sv fs|hidden sv w fs|sv c fs fs' Hiff]; cbn in Ho, Hl, Hc, Hw.
  - by destruct Ho.
  - by destruct Ho.
  - destruct Ho as [[= ->]|]; [|done]. split_and!; try done. by right.
  - split_and!; try done; cbn; [by rewrite await_without|]. intros w. apply await_waiter.
  - specialize (Hw w eq_refl). rewrite (poll_lock hidden w fs Hw), bool_decide_false, andb_false_r by done. split_and!; try done. by intros w' [= <-].
  - split_and!; try done. cbn. by rewrite Hiff.
Qed.
End Order.

(** ** Property *)

(** C25: The client starts after the server.  A server and a client are started
    with the same lock, which does not exist yet and which nobody else makes;
    whatever the order of their steps, and whatever the operating system
    refuses: a client that goes on to connect finds that the server listens, or
    has come to its end; while the server holds its marker, a waiting client
    that is shown the file goes on with its next turn.  But when the server cannot create the marker,
    which it only logs, or it has come to its end and removed it, the client
    waits for ever; and a lock that is left over from an earlier server lets
    the client go on before the new one listens. *)
Theorem client_starts_after_server (lock : PathBuf) (fs : Files) (s : System) :
  lock ∉ fs -> rtc (step lock) (mkSystem Starting Beginning fs) s ->
  (client s = Connecting -> (exists m, server s = Serving (Some m)) \/ server s = Gone) /\
  (forall m w, server s = Serving (Some m) -> client s = Waiting w -> step lock s (mkSystem (server s) Connecting (files s))) /\
  (server s = Serving None \/ server s = Gone /\ (lock ∉ files s) /\ client s <> Connecting ->
    forall s', rtc (step lock) s s' -> client s' <> Connecting) /\
  (forall fs', lock ∈ fs' -> step lock (mkSystem Starting Beginning fs') (mkSystem Starting Connecting fs')).
Proof.
  intros Hl Hr. assert (Ho : orderly lock s).
  { assert (Ho : orderly lock (mkSystem Starting Beginning fs)) by (by split). revert Ho. clear Hl.
    induction Hr as [|s1 s2 s3 Hs _ IH]; [done|]. intros Ho. by apply IH, (step_orderly lock s1). }
  clear Hl Hr fs. destruct Ho as [Ho Hw]. split_and!.
  - intros Hc. destruct (server s) as [| |[m|]|]; [by destruct Ho..|left; by exists m|by destruct Ho|by right].
  - intros m w Hs Hc. rewrite Hs in Ho. destruct Ho as [_ Hl]. specialize (Hw w Hc). destruct s as [sv c fs]. cbn in *. subst sv c.
    pose proof (client_polls lock false (Serving (Some m)) w fs) as Hst. by rewrite (poll_lock lock false w fs Hw), bool_decide_true in Hst.
  - intros Hs s' Hr. assert (Ha : abandoned lock s).
    { split; [naive_solver|]. destruct Hs as [Hs|(Hs & ? & ?)]; [rewrite Hs in Ho; naive_solver|done]. }
    clear Ho Hw Hs. enough (abandoned lock s') as (_ & _ & Hc & _) by done. revert Ha. induction Hr as [|s1 s2 s3 Hs _ IH]; [done|].
    intros Ha. by apply IH, (step_abandoned lock s1).
  - intros fs' Hl. pose proof (client_begins lock false Starting fs') as Hst. unfold await_marker, AsyncFileWaiter.new, exists_in in Hst.
    by rewrite bool_decide_true in Hst.
Qed.

(** A client that is started first, and the lock of the instructions. *)
Definition sample_lock : PathBuf := ["xxx.lock"%string].
Definition sample_files : Files := (create_marker sample_lock None None ∅).1.

Lemma client_starts_after_server_witness :
  let s := mkSystem (Serving (Some (mkMarker sample_lock))) (Waiting (mkWaiter sample_lock)) sample_files in
  rtc (step sample_lock) (mkSystem Starting Beginning ∅) s /\ step sample_lock s (mkSystem (server s) Connecting sample_files).
Proof.
  intros s. assert (Hr : rtc (step sample_lock) (mkSystem Starting Beginning ∅) s).
  { eapply rtc_l; [exact (client_begins sample_lock false Starting ∅)|]. change (await_marker sample_lock false ∅) with (Waiting (mkWaiter sample_lock)).
    eapply rtc_l; [exact (server_binds sample_lock _ ∅)|]. apply rtc_once. exact (server_marks sample_lock None None _ ∅). }
  split; [exact Hr|].
  destruct (client_starts_after_server sample_lock ∅ s (not_elem_of_empty _) Hr) as (_ & Hgo & _). exact (Hgo _ _ eq_refl eq_refl).
Defined.
