(* ===== verification/Admission.v ===== *)
(** * Admission: what a datagram of an unknown peer does to an endpoint

    The first datagram of a peer is not handled by the task of a connection but
    in the loop of the endpoint ([accept_connection] in [core/src/endpoint.rs]),
    where a panic would end all connections. *)
From S2P Require Import Prelude Time Buffers Varint Common ArrayRangeSet Packet Frame Timer Space Path Send Recv Streams Connection Accounting Driver Datagrams Endpoint.

Section Admission.
Context {B : Type} `{BufBytes B}.

(** A number of an Initial packet, expanded by a server that has received nothing. *)
Lemma first_number pn : 0 <= PacketNumber.value pn < 2 ^ (8 * PacketNumber.len pn) ->
  exists k, PacketNumber.expand pn 0 = Ret k /\ 0 <= k <= VARINT_MAX.
Proof.
  intros Hv. pose proof (pn_len_bound pn) as Hlen. unfold PacketNumber.expand. rewrite Z.land_0_l, Z.lor_0_l.
  rewrite Z.shiftl_1_l. replace (PacketNumber.len pn * 8) with (8 * PacketNumber.len pn) by lia.
  set (win := 2 ^ (8 * PacketNumber.len pn)) in *.
  assert (Hw : 2 ^ 8 <= win <= 2 ^ 32) by (split; apply Z.pow_le_mono_r; lia).
  assert (128 <= win / 2 <= 2 ^ 32) by (split; [apply Z.div_le_lower_bound; lia|apply Z.div_le_upper_bound; lia]).
  rewrite (proj2 (checked_sub_none _ _)) by lia. rewrite u64_add_ok by u64_lia. cbn [obind].
  destruct (Z.ltb_spec win (PacketNumber.value pn)); [lia|]. rewrite andb_false_r. exists (PacketNumber.value pn). split; [done|varint_lia].
Qed.

(** A server that has sent nothing handles any frame of an Initial packet: it
    takes any acknowledgement for a violation of the protocol. *)
Definition sent_nothing (c : Connection) : Prop := next_packet_number (space_of c SpInitial) = 0.

Lemma early_frame_first now frame c : frame_wf frame -> sent_nothing c ->
  exists c' next, Connection.early_frame now SpInitial frame c = Ret (c', next) /\ (next = Connection.GoOn -> sent_nothing c').
Proof.
  intros Hwf Hc. destruct frame; cbn [Connection.early_frame]; try (by eexists _, _).
  - unfold Connection.on_ack_received. rewrite Hc. destruct Hwf as [Hl _]. cbn in Hl.
    destruct (Z.leb_spec 0 (ack_largest a)); [|varint_lia]. by eexists _, _.
  - destruct (_ <? _); destruct (_ && _); eexists _, _; (split; [done|]); intros _; exact Hc.
Qed.

Lemma early_frames_first now fs err c : Forall frame_wf fs -> (err = [] \/ exists e, err = [Err e]) -> sent_nothing c ->
  exists c' r, handle_frames (Connection.early_frame now SpInitial) (map Ok fs ++ err) c = Ret (c', r).
Proof.
  intros Hfs Herr. revert c. induction Hfs as [|f fs Hf Hfs IH]; intros c Hc.
  - destruct Herr as [-> | [e ->]]; by eexists _, _.
  - cbn. destruct (early_frame_first now f c Hf Hc) as (c' & next & -> & Hn). cbn. destruct next; [by apply IH, Hn|by eexists _, _].
Qed.

Lemma first_authenticated now k c : Connection.new now Server = Ret c -> 0 <= k <= VARINT_MAX -> forall now',
  exists c', Connection.on_packet_authenticated now' SpInitial (Some k) c = Ret c' /\ sent_nothing c'.
Proof.
  intros Hnew Hk now'. unfold Connection.new in Hnew. apply obind_ret in Hnew as (p & _ & Hnew). injection Hnew as <-.
  unfold Connection.on_packet_authenticated. rewrite (bool_decide_eq_false_2 (SpInitial = SpHandshake)) by done.
  rewrite andb_false_r. cbn [obind].
  destruct (packet_received_spec PendingAcks.new now' k true Dedup_new ∅ acks_inv_new dedup_inv_new Hk) as (a & arm & Ha & _); [cbn; u64_lia..|].
  unfold space_of. cbn -[PendingAcks.packet_received]. rewrite Ha. cbn [obind].
  destruct (decide (SpInitial = SpData)); [done|]. eexists. split; [done|]. unfold sent_nothing, space_of. cbn. by destruct (_ <=? _).
Qed.

(** Accepting a connection never fails, except on one malformed frame. *)
Lemma first_packet_total now now' c (packet : InitialPacket B) : Connection.new now Server = Ret c ->
  0 <= PacketNumber.value (ih_number (ip_header packet)) < 2 ^ (8 * PacketNumber.len (ih_number (ip_header packet))) ->
  (forall pre l, view (ip_payload packet) = pre ++ l -> ~ oversized_new_cid l) ->
  exists r, Connection.handle_first_packet now' packet c = Ret r.
Proof.
  intros Hnew Hn Hp. unfold Connection.handle_first_packet. destruct (first_number _ Hn) as (k & -> & Hk). cbn [obind].
  destruct (first_authenticated now k c Hnew Hk now') as (c1 & -> & Hc1). cbn [obind].
  unfold Connection.process_packet. change (Header.space (header (Packet_from_initial packet))) with SpInitial. cbn iota.
  unfold Connection.process_early_payload. change (Header.space (header (Packet_from_initial packet))) with SpInitial.
  pose proof (process_frames_fold (Connection.early_frame now' SpInitial) (ip_payload packet) c1) as Hf.
  unfold parse_payload, FrameParser_new in Hf. rewrite remaining_view in Hf. change (payload (Packet_from_initial packet)) with (ip_payload packet).
  destruct (_ =? 0); [rewrite Hf; by eexists|].
  destruct (parse_all_cases (S (length (view (ip_payload packet)))) {| fp_bytes := ip_payload packet; fp_last_ty := None |})
    as (fs & err & Hall & Hfs & Herr & _); cbn [fp_bytes]; [lia|done|]. rewrite Hall in Hf. cbn [obind] in Hf. rewrite Hf.
  destruct (early_frames_first now' fs err c1 Hfs Herr Hc1) as (c' & r & ->). by eexists.
Qed.
End Admission.

(** ** Property *)

(** C13: What an unknown peer can do.  A datagram from an address without a
    connection panics the endpoint, and with it all connections, when its
    header announces a connection identifier of more than 20 bytes.  Any other
    datagram does not, unless it is an Initial packet in whose payload some
    bytes could be read as a NEW_CONNECTION_ID frame that announces such an
    identifier: either it leaves the endpoint as
    it was, or it adds a connection that is reached from this address, in a
    state that an accepted connection can have, and touches no other. *)
Theorem unknown_peer_admitted {B A : Type} `{BufBytes B} `{Countable A} (vacant : gmap Z (@ConnectionTask B A) -> Z)
    (e : @Endpoint B A _ _) (addr : A) (data : B) (now : Instant) :
  routes e !! addr = None ->
  (oversized_cid (view data) = true -> dispatch_datagram vacant data addr now e = Panic) /\
  (oversized_cid (view data) = false ->
    (forall h rest, Header.decode data 0 SUPPORTED_VERSIONS = Ret (Ok (HInitial h, rest)) ->
      forall pre l, view rest = pre ++ l -> ~ oversized_new_cid l) ->
    dispatch_datagram vacant data addr now e = Ret e \/
    exists c, Driver.reachable (B:=B) c /\ let key := vacant (connections e) in
      dispatch_datagram vacant data addr now e =
      Ret (mkEndpoint (<[key := with_connection c key addr]> (connections e)) (<[addr := key]> (routes e)))).
Proof.
  intros Hr. unfold dispatch_datagram. rewrite Hr. unfold accept_connection.
  pose proof (header_decode_cases data 0 SUPPORTED_VERSIONS ltac:(unfold MAX_CID_SIZE; lia)) as Hd.
  destruct (oversized_cid (view data)); [split; [intros _; by rewrite Hd|done]|]. split; [done|]. intros _ Hno.
  destruct Hd as [r Hdec]. rewrite Hdec in *. cbn [obind]. destruct r as [[[h| | | |] rest]|]; try (by left).
  destruct (Connection.new now Server) as [c|] eqn:Hnew; [|by vm_compute in Hnew]. cbn [obind].
  destruct (first_packet_total now now c {| ip_header := h; ip_payload := rest |} Hnew) as [[c' res] Hf]; cbn [ip_header ip_payload].
  { by apply (header_number_bound data rest 0 SUPPORTED_VERSIONS (HInitial h)). }
  { by apply (Hno h). }
  rewrite Hf. cbn [obind]. destruct res as [[]|]; [right|by left]. exists c'. split; [|done].
  by eapply Driver.reachable_server.
Qed.

(** An Initial packet with a CRYPTO frame. *)
Definition hello_datagram : in_memory := InMemory [192; 0; 0; 0; 1; 0; 0; 0; 5; 0; 6; 0; 1; 0] eq_refl.

Lemma small_bytes_no_cid l : Forall (fun x => x <= MAX_CID_SIZE) l -> forall pre l', l = pre ++ l' -> ~ oversized_new_cid l'.
Proof.
  intros Hl pre l' -> (u1 & u2 & u3 & seq & retire & n & rest & -> & _ & _ & _ & _ & Hn).
  rewrite Forall_forall in Hl. specialize (Hl n). assert (n <= MAX_CID_SIZE); [apply Hl; set_solver|lia].
Qed.

Lemma unknown_peer_admitted_witness :
  let e : @Endpoint in_memory Z _ _ := empty_endpoint in
  dispatch_datagram (fun _ => 0) oversized_packet 443 5 e = Panic /\
  exists c, Driver.reachable (B:=in_memory) c /\
    dispatch_datagram (fun _ => 0) hello_datagram 443 5 e = Ret (mkEndpoint {[ 0 := with_connection c 0 443 ]} {[ 443 := 0 ]}).
Proof.
  intros e. assert (Hsmall : oversized_cid (view hello_datagram) = false) by (vm_compute; reflexivity).
  split; [exact (proj1 (unknown_peer_admitted (fun _ => 0) e 443 oversized_packet 5 eq_refl) eq_refl)|].
  destruct (proj2 (unknown_peer_admitted (fun _ => 0) e 443 hello_datagram 5 eq_refl) Hsmall) as [He|(c & Hc & He)].
  - intros h rest Hd. vm_compute in Hd. injection Hd as _ <-. apply small_bytes_no_cid. repeat constructor; vm_compute; discriminate.
  - exfalso. revert He. vm_compute. discriminate.
  - exists c. split; [exact Hc|exact He].
Defined.
