(* ===== verification/Display.v ===== *)
(** * Display: what the library prints

    The texts of the error types, stream and connection identifiers, frame
    types and close reasons ([Display] and [Debug] in [proto/src/error.rs],
    [proto/src/common.rs], [proto/src/frame.rs] and the errors of
    [core/src/connection]).  A text is the string of its UTF-8 bytes; the
    reasons that come from the peer are decoded the way [from_utf8_lossy]
    does.  Formatters with flags (widths, [{:#?}]) are not modelled beyond the
    [{:02x}] the code uses. *)
From stdpp Require Import pretty.
From Stdlib Require Import HexadecimalString HexadecimalN.
From S2P Require Import Prelude Buffers Varint Common ArrayRangeSet Packet Frame Space Path Send Recv Streams Connection.

#[local] Open Scope string_scope.
#[local] Open Scope Z_scope.
#[local] Open Scope list_scope.

(** The trait [fmt::Display]. *)
Class Display (T : Type) := display : T -> string.

(** ** Numbers and bytes *)

(** [{}] of an integer *)
#[export] Instance Z_display : Display Z := fun n => pretty n.

(** [{:x}] *)
Definition hex (n : Z) : string := NilZero.string_of_uint (N.to_hex_uint (Z.to_N n)).

(** [{:02x}] *)
Definition hex2 (n : Z) : string := if (String.length (hex n) <? 2)%nat then "0" +:+ hex n else hex n.

(** The string that has these bytes. *)
Definition string_of_bytes (l : list Z) : string :=
  String.string_of_list_ascii (map (fun b => Ascii.ascii_of_N (Z.to_N b)) l).

(** ** [String::from_utf8_lossy] *)

Definition between (lo hi x : Z) : bool := (lo <=? x) && (x <=? hi).

(** What may follow the first byte of a character of several bytes: the range
    of the second byte, and how many bytes come after it. *)
Definition second_byte (a : Z) : option (Z * Z * nat) :=
  if between 0xC2 0xDF a then Some (0x80, 0xBF, 0%nat)
  else if a =? 0xE0 then Some (0xA0, 0xBF, 1%nat)
  else if between 0xE1 0xEC a || between 0xEE 0xEF a then Some (0x80, 0xBF, 1%nat)
  else if a =? 0xED then Some (0x80, 0x9F, 1%nat)
  else if a =? 0xF0 then Some (0x90, 0xBF, 2%nat)
  else if between 0xF1 0xF3 a then Some (0x80, 0xBF, 2%nat)
  else if a =? 0xF4 then Some (0x80, 0x8F, 2%nat)
  else None.

(** Whether [n] continuation bytes follow; and how many bytes were read, [k] of them before. *)
Fixpoint continuation (n k : nat) (l : list Z) : bool * nat :=
  match n, l with
  | O, _ => (true, k)
  | S n, c :: l => if between 0x80 0xBF c then continuation n (S k) l else (false, k)
  | S _, [] => (false, k)
  end.

(** Whether a character comes first, and its length; or the length of the
    longest start of one, at least one byte. *)
Definition utf8_head (l : list Z) : bool * nat :=
  match l with
  | [] => (true, 0%nat)
  | a :: l =>
      if a <? 0x80 then (true, 1%nat)
      else
        match second_byte a, l with
        | Some (lo, hi, n), b :: l => if between lo hi b then continuation n 2 l else (false, 1%nat)
        | _, _ => (false, 1%nat)
        end
  end.

(** The bytes of U+FFFD *)
Definition REPLACEMENT : list Z := [0xEF; 0xBF; 0xBD].

Fixpoint lossy (fuel : nat) (l : list Z) : list Z :=
  match fuel, l with
  | S fuel, _ :: _ =>
      let '(ok, k) := utf8_head l in
      (if ok : bool then take k l else REPLACEMENT) ++ lossy fuel (drop k l)
  | _, _ => []
  end.

(** Every step reads a byte. *)
Definition from_utf8_lossy (l : list Z) : list Z := lossy (length l) l.

(** ** Identifiers *)

(** The derived [Display] of [Side] and [Dir] *)
#[export] Instance Side_display : Display Side := fun s => match s with Client => "client" | Server => "server" end.
#[export] Instance Dir_display : Display Dir := fun d => match d with Bi => "bidirectional" | Uni => "unidirectional" end.

(** [common.rs:46-56] *)
Definition StreamId_fmt (id : StreamId) : string :=
  display (StreamId.initiator id) +:+ " " +:+ display (StreamId.dir id) +:+ " stream " +:+ display (StreamId.index id).

Definition hex_bytes (l : list Z) : string := String.concat EmptyString (map hex2 l).

(** [common.rs:162-169] *)
Definition ConnectionId_fmt (cid : ConnectionId) : outcome string :=
  let! bytes := ConnectionId.deref cid in Ret (hex_bytes bytes).

(** [common.rs:239-246] *)
Definition ResetToken_fmt (token : ResetToken) : string := hex_bytes token.

(** ** Tables of names *)

Definition named (table : list (Z * string)) (code : Z) : option string :=
  (fun x => x.2.2) <$> list_find (fun x => x.1 = code) table.

(** [error.rs:98-116] the names and the descriptions of the codes *)
Definition error_names : list (Z * string) := [
  (TransportErrorCode.NO_ERROR, "NO_ERROR");
  (TransportErrorCode.INTERNAL_ERROR, "INTERNAL_ERROR");
  (TransportErrorCode.CONNECTION_REFUSED, "CONNECTION_REFUSED");
  (TransportErrorCode.FLOW_CONTROL_ERROR, "FLOW_CONTROL_ERROR");
  (TransportErrorCode.STREAM_LIMIT_ERROR, "STREAM_LIMIT_ERROR");
  (TransportErrorCode.STREAM_STATE_ERROR, "STREAM_STATE_ERROR");
  (TransportErrorCode.FINAL_SIZE_ERROR, "FINAL_SIZE_ERROR");
  (TransportErrorCode.FRAME_ENCODING_ERROR, "FRAME_ENCODING_ERROR");
  (TransportErrorCode.TRANSPORT_PARAMETER_ERROR, "TRANSPORT_PARAMETER_ERROR");
  (TransportErrorCode.CONNECTION_ID_LIMIT_ERROR, "CONNECTION_ID_LIMIT_ERROR");
  (TransportErrorCode.PROTOCOL_VIOLATION, "PROTOCOL_VIOLATION");
  (TransportErrorCode.INVALID_TOKEN, "INVALID_TOKEN");
  (TransportErrorCode.APPLICATION_ERROR, "APPLICATION_ERROR");
  (TransportErrorCode.CRYPTO_BUFFER_EXCEEDED, "CRYPTO_BUFFER_EXCEEDED");
  (TransportErrorCode.KEY_UPDATE_ERROR, "KEY_UPDATE_ERROR");
  (TransportErrorCode.AEAD_LIMIT_REACHED, "AEAD_LIMIT_REACHED");
  (TransportErrorCode.NO_VIABLE_PATH, "NO_VIABLE_PATH")].

Definition error_descriptions : list (Z * string) := [
  (TransportErrorCode.NO_ERROR, "the connection is being closed abruptly in the absence of any error");
  (TransportErrorCode.INTERNAL_ERROR, "the endpoint encountered an internal error and cannot continue with the connection");
  (TransportErrorCode.CONNECTION_REFUSED, "the server refused to accept a new connection");
  (TransportErrorCode.FLOW_CONTROL_ERROR, "received more data than permitted in advertised data limits");
  (TransportErrorCode.STREAM_LIMIT_ERROR, "received a frame for a stream identifier that exceeded advertised the stream limit for the corresponding stream type");
  (TransportErrorCode.STREAM_STATE_ERROR, "received a frame for a stream that was not in a state that permitted that frame");
  (TransportErrorCode.FINAL_SIZE_ERROR, "received a STREAM frame or a RESET_STREAM frame containing a different final size to the one already established");
  (TransportErrorCode.FRAME_ENCODING_ERROR, "received a frame that was badly formatted");
  (TransportErrorCode.TRANSPORT_PARAMETER_ERROR, "received transport parameters that were badly formatted, included an invalid value, was absent even though it is mandatory, was present though it is forbidden, or is otherwise in error");
  (TransportErrorCode.CONNECTION_ID_LIMIT_ERROR, "the number of connection IDs provided by the peer exceeds the advertised active_connection_id_limit");
  (TransportErrorCode.PROTOCOL_VIOLATION, "detected an error with protocol compliance that was not covered by more specific error codes");
  (TransportErrorCode.INVALID_TOKEN, "received an invalid Retry Token in a client Initial");
  (TransportErrorCode.APPLICATION_ERROR, "the application or application protocol caused the connection to be closed during the handshake");
  (TransportErrorCode.CRYPTO_BUFFER_EXCEEDED, "received more data in CRYPTO frames than can be buffered");
  (TransportErrorCode.KEY_UPDATE_ERROR, "key update error");
  (TransportErrorCode.AEAD_LIMIT_REACHED, "the endpoint has reached the confidentiality or integrity limit for the AEAD algorithm");
  (TransportErrorCode.NO_VIABLE_PATH, "no viable network path exists")].

(** [frame.rs:98-127] the names of the frame types *)
Definition frame_names : list (Z * string) := [
  (FrameType.PADDING, "PADDING");
  (FrameType.PING, "PING");
  (FrameType.ACK, "ACK");
  (FrameType.ACK_ECN, "ACK_ECN");
  (FrameType.RESET_STREAM, "RESET_STREAM");
  (FrameType.STOP_SENDING, "STOP_SENDING");
  (FrameType.CRYPTO, "CRYPTO");
  (FrameType.NEW_TOKEN, "NEW_TOKEN");
  (FrameType.MAX_DATA, "MAX_DATA");
  (FrameType.MAX_STREAM_DATA, "MAX_STREAM_DATA");
  (FrameType.MAX_STREAMS_BIDI, "MAX_STREAMS_BIDI");
  (FrameType.MAX_STREAMS_UNI, "MAX_STREAMS_UNI");
  (FrameType.DATA_BLOCKED, "DATA_BLOCKED");
  (FrameType.STREAM_DATA_BLOCKED, "STREAM_DATA_BLOCKED");
  (FrameType.STREAMS_BLOCKED_BIDI, "STREAMS_BLOCKED_BIDI");
  (FrameType.STREAMS_BLOCKED_UNI, "STREAMS_BLOCKED_UNI");
  (FrameType.NEW_CONNECTION_ID, "NEW_CONNECTION_ID");
  (FrameType.RETIRE_CONNECTION_ID, "RETIRE_CONNECTION_ID");
  (FrameType.PATH_CHALLENGE, "PATH_CHALLENGE");
  (FrameType.PATH_RESPONSE, "PATH_RESPONSE");
  (FrameType.TRANSPORT_CLOSE, "TRANSPORT_CLOSE");
  (FrameType.APPLICATION_CLOSE, "APPLICATION_CLOSE");
  (FrameType.HANDSHAKE_DONE, "HANDSHAKE_DONE");
  (FrameType.ACK_FREQUENCY, "ACK_FREQUENCY");
  (FrameType.IMMEDIATE_ACK, "IMMEDIATE_ACK")].

(** ** Error codes and frame types *)

(** [error.rs:75-83] [Debug] *)
Definition TransportErrorCode_debug (code : TransportErrorCode) : string :=
  match named error_names code with
  | Some name => name
  | None => if (0x100 <=? code) && (code <? 0x200) then "Code::crypto(" +:+ hex2 (as_u8 code) +:+ ")" else "Code(" +:+ hex code +:+ ")"
  end.

(** [error.rs:85-94] *)
Definition TransportErrorCode_fmt (code : TransportErrorCode) : string :=
  match named error_descriptions code with
  | Some description => description
  | None =>
      if (0x100 <=? code) && (code <? 0x200)
      then "the cryptographic handshake failed: error " +:+ display (Z.land code 0xFF)
      else "unknown error"
  end.

(** [frame.rs:50-57] [Debug] *)
Definition FrameType_debug (ty : FrameType) : string :=
  match named frame_names ty with
  | Some name => name
  | None => "Type(" +:+ hex2 ty +:+ ")"
  end.

(** [frame.rs:59-68] *)
Definition FrameType_fmt (ty : FrameType) : string :=
  match named frame_names ty with
  | Some name => name
  | None =>
      if ty_in STREAM_TYS ty then "STREAM"
      else if ty_in DATAGRAM_TYS ty then "DATAGRAM"
      else "<unknown " +:+ hex2 ty +:+ ">"
  end.

(** ** Close reasons and errors *)

(** [error.rs:18-29] *)
#[export] Instance TransportError_display : Display TransportError := fun e =>
  TransportErrorCode_fmt (te_code e) +:+
  match te_frame e with Some frame => " in " +:+ FrameType_fmt frame | None => EmptyString end +:+
  (if bool_decide (te_reason e = EmptyString) then EmptyString else ": " +:+ te_reason e).

(** [frame.rs:511-520] *)
#[export] Instance TransportClose_display : Display TransportClose := fun c =>
  TransportErrorCode_fmt (tc_error_code c) +:+
  match tc_reason c with [] => EmptyString | reason => ": " +:+ string_of_bytes (from_utf8_lossy reason) end.

(** [frame.rs:555-567] *)
#[export] Instance ApplicationClose_display : Display ApplicationClose := fun c =>
  match ac_reason c with
  | [] => display (ac_error_code c)
  | reason => string_of_bytes (from_utf8_lossy reason) +:+ " (code " +:+ display (ac_error_code c) +:+ ")"
  end.

(** [mod.rs:1158-1178] *)
#[export] Instance ConnectionError_display : Display ConnectionError := fun e =>
  match e with
  | VersionMismatch => "peer doesn't implement any supported version"
  | ETransportError e => display e
  | TransportClosed c => "aborted by peer: " +:+ display c
  | ApplicationClosed c => "closed by peer: " +:+ display c
  | Reset => "reset by peer"
  end.

(** [packet.rs:9-31] *)
#[export] Instance PacketDecodeError_display : Display PacketDecodeError := fun e =>
  match e with
  | UnsupportedVersion _ _ version => "unsupported version " +:+ hex version
  | UnexpectedEndOfHeader e =>
      "unexpected end of packet header (requested " +:+ display (requested e) +:+ " but only " +:+
      display (available e) +:+ " available)"
  | ReservedBitsSet => "reserved bits set"
  | FixedBitUnset => "fixed bit unset"
  end.

(** [recv.rs:538-552] *)
#[export] Instance ReadError_display : Display ReadError := fun e =>
  match e with
  | ReadBlocked => "blocked"
  | ReadReset code => "reset by peer: code " +:+ display code
  end.

(** [recv.rs:554-568] *)
#[export] Instance ReadableError_display : Display ReadableError := fun e =>
  match e with
  | ReadableClosedStream => "closed stream"
  | ReadableIllegalOrderedRead => "ordered read after unordered read"
  end.

(** [send.rs:319-344] *)
#[export] Instance WriteError_display : Display WriteError := fun e =>
  match e with
  | WriteBlocked => "unable to accept further writes"
  | WriteStopped code => "stopped by peer: code " +:+ display code
  | WriteClosedStream => "closed stream"
  end.

(** [send.rs:346-360] *)
#[export] Instance FinishError_display : Display FinishError := fun e =>
  match e with
  | FinishStopped code => "stopped by peer: code " +:+ display code
  | FinishClosedStream => "closed stream"
  end.

(** ** The ranges of an ACK frame *)

Definition quote (s : string) : string :=
  let q := String (Ascii.ascii_of_nat 34) EmptyString in q +:+ s +:+ q.

(** The derived [Debug] of [Option<EcnCounts>] *)
Definition ecn_debug (e : option EcnCounts) : string :=
  match e with
  | None => "None"
  | Some e =>
      "Some(EcnCounts { ect0: " +:+ display (ect0 e) +:+ ", ect1: " +:+ display (ect1 e) +:+ ", ce: " +:+ display (ce e) +:+ " })"
  end.

(** The loop over the ranges, each after a comma but the first *)
Fixpoint ranges_debug (first : bool) (l : list (Z * Z)) : string :=
  match l with
  | [] => EmptyString
  | (lo, hi) :: l => (if first then EmptyString else ",") +:+ display lo +:+ "..=" +:+ display hi +:+ ranges_debug false l
  end.

(** [frame.rs:246-266] *)
Definition Ack_debug (a : Ack) : outcome string :=
  let! ranges := ack_ranges a in
  Ret ("Ack { largest: " +:+ display (ack_largest a) +:+ ", delay: " +:+ display (ack_delay a) +:+ ", ecn: " +:+
    ecn_debug (ack_ecn a) +:+ ", ranges: " +:+ quote ("[" +:+ ranges_debug true ranges +:+ "]") +:+ " }").

(** ** Characters *)

(** [c] is one character, wherever it stands. *)
Definition is_char (c : list Z) : Prop := c <> [] /\ forall rest, utf8_head (c ++ rest) = (true, length c).

(** Text: bytes that are characters. *)
Definition is_text (l : list Z) : Prop := exists cs, Forall is_char cs /\ l = concat cs.

Lemma continuation_range n k l ok j : continuation n k l = (ok, j) -> (k <= j <= k + length l)%nat /\ (ok = true -> j = k + n)%nat.
Proof.
  revert k l. induction n as [|n IH]; intros k l; cbn; [intros [= <- <-]; lia|]. destruct l as [|c l]; [intros [= <- <-]; split; [lia|done]|].
  destruct (between _ _ c); [|intros [= <- <-]; split; [cbn; lia|done]]. intros Hc. apply IH in Hc as [? Hn]. cbn. split; [lia|].
  intros Ht. specialize (Hn Ht). lia.
Qed.

(** Only the bytes that were read matter. *)
Lemma continuation_prefix n k l j rest : continuation n k l = (true, j) -> continuation n k (take (j - k) l ++ rest) = (true, j).
Proof.
  revert k l. induction n as [|n IH]; intros k l; cbn; [done|]. destruct l as [|c l]; [done|].
  destruct (between _ _ c) eqn:Hb; [|done]. intros Hc. pose proof (continuation_range _ _ _ _ _ Hc) as [? _].
  replace (j - k)%nat with (S (j - S k)) by lia. cbn. rewrite Hb. by apply IH.
Qed.

Lemma utf8_head_range l ok k : l <> [] -> utf8_head l = (ok, k) -> (1 <= k <= length l)%nat.
Proof.
  destruct l as [|a l]; [done|]. intros _. cbn. destruct (a <? 128); [intros [= <- <-]; lia|].
  destruct (second_byte a) as [[[lo hi] n]|]; [|intros [= <- <-]; lia]. destruct l as [|b l]; [intros [= <- <-]; cbn; lia|].
  destruct (between lo hi b); [|intros [= <- <-]; cbn; lia]. intros [? _]%continuation_range. cbn. lia.
Qed.

Lemma utf8_head_char l k : l <> [] -> utf8_head l = (true, k) -> is_char (take k l).
Proof.
  intros Hl Hh. pose proof (utf8_head_range _ _ _ Hl Hh) as Hk. split.
  { destruct l; [done|]. destruct k; [lia|]. done. }
  intros rest. rewrite length_take_le by lia. revert Hh. destruct l as [|a l]; [done|]. destruct k as [|k]; [lia|]. cbn.
  destruct (a <? 128); [by intros [= <-]|]. destruct (second_byte a) as [[[lo hi] n]|]; [|done]. destruct l as [|b l]; [done|].
  destruct (between lo hi b) eqn:Hb; [|done]. intros Hc. pose proof (continuation_range _ _ _ _ _ Hc) as [? _].
  destruct k as [|k]; [lia|]. cbn. rewrite Hb. apply (continuation_prefix _ _ _ _ rest) in Hc. by replace (S (S k) - 2)%nat with k in Hc by lia.
Qed.

Lemma replacement_char : is_char REPLACEMENT.
Proof. split; [done|]. intros rest. reflexivity. Qed.

Lemma lossy_text fuel l : is_text (lossy fuel l).
Proof.
  revert l. induction fuel as [|fuel IH]; intros l; [by exists []|]. destruct l as [|a l]; [by exists []|]. cbn [lossy].
  destruct (utf8_head (a :: l)) as [ok k] eqn:Hh. destruct (IH (drop k (a :: l))) as (cs & Hcs & ->).
  destruct ok.
  - exists (take k (a :: l) :: cs). split; [|done]. constructor; [by apply utf8_head_char|done].
  - exists (REPLACEMENT :: cs). split; [|done]. constructor; [apply replacement_char|done].
Qed.

Lemma lossy_of_text fuel l : is_text l -> (length l <= fuel)%nat -> lossy fuel l = l.
Proof.
  intros (cs & Hcs & ->). revert fuel. induction Hcs as [|c cs Hc Hcs IH]; intros fuel; [by destruct fuel|].
  cbn [concat]. rewrite length_app. destruct Hc as [Hne Hc]. destruct c as [|a c]; [done|]. cbn [length]. intros Hf.
  destruct fuel as [|fuel]; [lia|]. cbn [lossy app]. specialize (Hc (concat cs)). cbn [app] in Hc. rewrite Hc. cbn [length].
  rewrite firstn_cons, skipn_cons, take_app_length, drop_app_length. cbn. by rewrite IH by lia.
Qed.

(** Text is decoded as it is, anything else is decoded to text, with U+FFFD for
    what is no character; decoding twice changes nothing. *)
Theorem utf8_lossy_spec l : is_text (from_utf8_lossy l) /\ (is_text l -> from_utf8_lossy l = l) /\
  from_utf8_lossy (from_utf8_lossy l) = from_utf8_lossy l.
Proof.
  split; [apply lossy_text|]. split; [intros Ht; by apply lossy_of_text|]. apply lossy_of_text; [apply lossy_text|done].
Qed.

Lemma ascii_text l : Forall (fun x => x < 128) l -> is_text l.
Proof.
  intros Hl. exists (map (fun x => [x]) l). split.
  - rewrite Forall_map. eapply Forall_impl; [exact Hl|]. intros x Hx. split; [done|]. intros rest. cbn. by rewrite (proj2 (Z.ltb_lt _ _) Hx).
  - clear Hl. induction l as [|x l IH]; [done|]. cbn. by rewrite <- IH.
Qed.

Example lossy_euro : from_utf8_lossy [0x61; 0xE2; 0x82; 0xAC; 0xE2; 0x82; 0x62] = [0x61; 0xE2; 0x82; 0xAC; 0xEF; 0xBF; 0xBD; 0x62].
Proof. reflexivity. Qed.

(** ** Texts tell things apart *)

Lemma append_inj_len (s1 s2 t1 t2 : string) : String.length s1 = String.length s2 -> s1 +:+ t1 = s2 +:+ t2 -> s1 = s2 /\ t1 = t2.
Proof.
  revert s2. induction s1 as [|a s1 IH]; intros [|b s2] Hl; cbn in *; try lia; [done|]. intros [= -> Ht].
  destruct (IH s2) as [-> ->]; [lia|done|done].
Qed.

Lemma append_nil_r (s : string) : s +:+ EmptyString = s.
Proof. induction s as [|a s IH]; [done|]. exact (f_equal (String a) IH). Qed.

(** Different streams have different texts. *)
Theorem stream_id_text_inj id id' : 0 <= id < 2 ^ 64 -> 0 <= id' < 2 ^ 64 -> StreamId_fmt id = StreamId_fmt id' -> id = id'.
Proof.
  intros Hid Hid'. unfold StreamId_fmt.
  destruct (StreamId_views id) as (-> & -> & ->), (StreamId_views id') as (-> & -> & ->).
  destruct (Z.eqb_spec (id mod 2) 0), (Z.eqb_spec (id' mod 2) 0), (Z.eqb_spec (id / 2 mod 2) 0), (Z.eqb_spec (id' / 2 mod 2) 0); cbn; try done;
    intros [= Hi].
  all: unfold display, Z_display in Hi; apply pretty_Z_inj in Hi; Z.div_mod_to_equations; lia.
Qed.

(** The two digits of a byte *)

Lemma hex2_length b : is_byte b -> String.length (hex2 b) = 2%nat.
Proof.
  intros Hb. assert (Hf : Forall (fun b => String.length (hex2 b) = 2%nat) (seqZ 0 256)) by (by apply (bool_decide_unpack _); vm_compute).
  rewrite Forall_forall in Hf. apply Hf, elem_of_seqZ. done.
Qed.

(** Reading two digits *)
Definition unhex2 (s : string) : option Z := Z.of_N ∘ N.of_hex_uint <$> NilEmpty.uint_of_string s.

Lemma unhex2_hex2 b : is_byte b -> unhex2 (hex2 b) = Some b.
Proof.
  intros Hb. assert (Hf : Forall (fun b => unhex2 (hex2 b) = Some b) (seqZ 0 256)) by (by apply (bool_decide_unpack _); vm_compute).
  rewrite Forall_forall in Hf. apply Hf, elem_of_seqZ. done.
Qed.

Lemma hex_bytes_cons b l : hex_bytes (b :: l) = hex2 b +:+ hex_bytes l.
Proof.
  unfold hex_bytes. cbn. destruct (map hex2 l) as [|x xs]; [symmetry; apply append_nil_r|done].
Qed.

(** The text of a token or a connection identifier determines its bytes. *)
Theorem hex_bytes_inj l l' : Forall is_byte l -> Forall is_byte l' -> hex_bytes l = hex_bytes l' -> l = l'.
Proof.
  intros Hl. revert l'. induction Hl as [|b l Hb Hl IH]; intros l' Hl'; destruct Hl' as [|b' l' Hb' Hl']; rewrite ?hex_bytes_cons; [done| | |].
  - pose proof (hex2_length _ Hb'). by destruct (hex2 b').
  - pose proof (hex2_length _ Hb). by destruct (hex2 b).
  - intros Heq. apply append_inj_len in Heq as [Hx Hr]; [|by rewrite !hex2_length]. f_equal; [|by apply IH].
    apply (f_equal unhex2) in Hx. rewrite !unhex2_hex2 in Hx by done. by injection Hx.
Qed.

(** The codes of the specification have texts of their own. *)
Lemma error_tables : NoDup error_descriptions.*1 /\ NoDup error_descriptions.*2 /\ NoDup error_names.*2 /\
  NoDup frame_names.*1 /\ NoDup frame_names.*2 /\ error_names.*1 = error_descriptions.*1 /\ error_names.*1 = seqZ 0 17.
Proof. split_and!; by apply (bool_decide_unpack _); vm_compute. Qed.

Lemma string_of_string_bytes s : string_of_bytes (string_bytes s) = s.
Proof.
  induction s as [|a s IH]; [done|]. unfold string_of_bytes, string_bytes in *. cbn. rewrite IH, N2Z.id. by rewrite Ascii.ascii_N_embedding.
Qed.

(** What the application of the peer reads is what was said here.  A transport
    error that closes a connection is printed by the peer, which got its code
    and reason in a CONNECTION_CLOSE frame, with the same words but for the
    frame type, provided the reason is text. *)
Theorem close_text_agrees (e : TransportError) : is_text (string_bytes (te_reason e)) ->
  display (ConnectionError_from_close (ConnectionClose_from_error e)) =
  "aborted by peer: " +:+ display (mkTransportError (te_code e) None (te_reason e)).
Proof.
  intros Ht. apply utf8_lossy_spec in Ht. unfold display, ConnectionError_display, TransportError_display. cbn -[String.append].
  f_equal. unfold display, TransportClose_display. cbn [tc_error_code tc_reason te_code te_frame te_reason TransportClose_from_error]. f_equal.
  destruct (te_reason e) as [|a r] eqn:Hr; [done|]. rewrite bool_decide_false by done.
  assert (exists x l, string_bytes (String a r) = x :: l) as (x & l & Hx) by (by eexists _, _). rewrite Hx, <- Hx, Ht.
  by rewrite string_of_string_bytes.
Qed.

(** An ACK frame that was parsed can be printed. *)
Theorem parsed_ack_prints (a : Ack) : frame_wf (FAck a) -> exists s, Ack_debug a = Ret s.
Proof. intros (_ & _ & rs & Hw). unfold Ack_debug. rewrite (ack_ranges_spec _ _ Hw). by eexists. Qed.

(** ** Examples *)

Example stream_text : StreamId_fmt 14 = "client unidirectional stream 3".
Proof. reflexivity. Qed.

Example error_texts : map TransportErrorCode_fmt [7; 0x128; 0x5555] =
  ["received a frame that was badly formatted"; "the cryptographic handshake failed: error 40"; "unknown error"] /\
  map TransportErrorCode_debug [7; 0x105; 0xABCD] = ["FRAME_ENCODING_ERROR"; "Code::crypto(05)"; "Code(abcd)"].
Proof. split; vm_compute; reflexivity. Qed.

Example frame_type_texts : map FrameType_fmt [2; 0xA; 0x31; 0xAF; 0x40; 0x123] =
  ["ACK"; "STREAM"; "DATAGRAM"; "ACK_FREQUENCY"; "<unknown 40>"; "<unknown 123>"].
Proof. vm_compute. reflexivity. Qed.

Example close_texts :
  display (ApplicationClosed {| ac_error_code := 7; ac_reason := [0x62; 0x79; 0x65] |}) = "closed by peer: bye (code 7)" /\
  display (ETransportError (mkTransportError 10 (Some 6) "late")) =
  "detected an error with protocol compliance that was not covered by more specific error codes in CRYPTO: late".
Proof. split; vm_compute; reflexivity. Qed.

Example ack_text : Ack_debug sample_ack =
  Ret ("Ack { largest: 10, delay: 0, ecn: None, ranges: " +:+ quote "[8..=10,2..=3]" +:+ " }").
Proof. vm_compute. reflexivity. Qed.
