(* ===== verification/Programs.v ===== *)
(** * Programs: the handlers of the client and the server ([src/bin/client.rs], [src/bin/server.rs])

    A handler is the closure that a program gives to its endpoint: it is called
    with every event, may call the public operations of the connection, and
    keeps the variables it captured from one call to the next.  Here it is a
    function from those variables, the time, the event and the connection to
    the variables and the connection afterwards; an [unwrap], an [expect] or an
    [unreachable!] that fails is a panic, which ends the task of the
    connection.  Counters of type [i32] that count the chunks of one call are
    unbounded. *)
From S2P Require Import Prelude Time Buffers Common Packet Frame Timer Space Path Send Recv Streams Connection Accounting Driver.

(** [Result::unwrap] *)
Definition unwrap_ok {A E} (r : result A E) : outcome A :=
  match r with Ok a => Ret a | Err _ => Panic end.

(** The bytes of a string literal. *)
Definition bytes_of (s : string) : list Z := (fun a => Z.of_N (Ascii.N_of_ascii a)) <$> String.list_ascii_of_string s.

(** [usize::MAX] *)
Definition USIZE_MAX : Z := U64_MAX.

(** ** Calls on the handles of streams

    A handle borrows the connection: what it does is written back at once. *)
Definition write (id : StreamId) (data : list Z) (c : Connection) : outcome (Connection * result unit WriteError) :=
  let! '(ss, p, closed) := Connection.send_stream id c in
  let! '(ss, r) := SendStream.write id data closed ss in
  Ret (Connection.with_handle ss p c, r).

Definition finish (id : StreamId) (c : Connection) : outcome (Connection * result unit FinishError) :=
  let! '(ss, p, _) := Connection.send_stream id c in
  let! '(ss, r) := SendStream.finish id ss in
  Ret (Connection.with_handle ss p c, r).

Definition reset (id : StreamId) (error_code : Z) (c : Connection) : outcome (Connection * result unit ClosedStream) :=
  let! '(ss, p, _) := Connection.send_stream id c in
  let '(ss, p, r) := SendStream.reset id error_code p ss in
  Ret (Connection.with_handle ss p c, r).

Definition set_priority (id : StreamId) (prio : Z) (c : Connection) : outcome (Connection * result unit ClosedStream) :=
  let! '(ss, p, _) := Connection.send_stream id c in
  let '(ss, r) := SendStream.set_priority id prio ss in
  Ret (Connection.with_handle ss p c, r).

Definition stop (id : StreamId) (error_code : Z) (c : Connection) : outcome (Connection * result unit ClosedStream) :=
  let! '(ss, p) := Connection.recv_stream id c in
  let! '(ss, p, r) := RecvStream.stop id error_code p ss in
  Ret (Connection.with_handle ss p c, r).

Definition read (id : StreamId) (ordered : bool) (c : Connection)
    : outcome (Connection * result OpenChunks ReadableError) :=
  let! '(ss, p) := Connection.recv_stream id c in
  let! '(ss, r) := RecvStream.read id ordered ss in
  Ret (Connection.with_handle ss p c, r).

(** The end of the scope of [chunks]. *)
Definition drop_chunks (chunks : OpenChunks) (c : Connection) : Connection :=
  Connection.with_handle (RecvStream.drop chunks (c_streams c)) (Space.pending (space_of c SpData)) c.

(** ** Loops over chunks

    [body] is called with the result of [chunks.next(n)] and says whether the
    loop goes on.  The loops below go on after a chunk only; a chunk takes a
    buffer, or [n] bytes of one, so that the bytes and the buffers are fuel
    enough ([chunk_loop_enough]). *)
Fixpoint chunk_loop {St : Type} (fuel : nat) (n : Z) (body : St -> result (option Chunk) ReadError -> outcome (St * bool))
    (st : St) (chunks : OpenChunks) : option (outcome (St * OpenChunks)) :=
  match fuel with
  | O => None
  | S fuel =>
      match (let! '(chunks, r) := RecvStream.next n chunks in let! '(st, go_on) := body st r in Ret (st, chunks, go_on)) with
      | Panic => Some Panic
      | Ret (st, chunks, false) => Some (Ret (st, chunks))
      | Ret (st, chunks, true) => chunk_loop fuel n body st chunks
      end
  end.

Definition chunk_fuel (chunks : OpenChunks) : nat :=
  match oc_state chunks with
  | Readable rs => S (length (a_data (assembler rs)) + Z.to_nat (sumz bf_len (a_data (assembler rs))))
  | _ => 1
  end.

Definition for_chunks {St : Type} (n : Z) (body : St -> result (option Chunk) ReadError -> outcome (St * bool))
    (st : St) (chunks : OpenChunks) : outcome (St * OpenChunks) :=
  default Panic (chunk_loop (chunk_fuel chunks) n body st chunks).

(** [while let Ok(chunk) = chunks.next(n) { match chunk { Some(data) => .., None => { finished = true; break } } }] *)
Definition while_ok {St : Type} (on_chunk : St -> Chunk -> outcome St) (st : St * bool) (r : result (option Chunk) ReadError)
    : outcome (St * bool * bool) :=
  match r with
  | Ok (Some chunk) => let! s := on_chunk st.1 chunk in Ret (s, st.2, true)
  | Ok None => Ret (st.1, true, false)
  | Err _ => Ret (st, false)
  end.

(** ** Ping-pong: the client *)

(** [client.rs:54-58] *)
Fixpoint write_pings (cnt : nat) (remaining : Z) (id : StreamId) (c : Connection) : outcome (Z * Connection) :=
  match cnt with
  | O => Ret (remaining, c)
  | S cnt =>
      if 0 <? remaining then
        let! '(c, r) := write id (bytes_of "ping") c in
        let! _ := unwrap_ok r in
        write_pings cnt (remaining - 1) id c
      else Ret (remaining, c)
  end.

(** [client.rs:34-38] what a chunk does to [recv] and [cnt] *)
Definition count_chunk (id : StreamId) (st : option StreamId * nat) (_ : Chunk) : outcome (option StreamId * nat) :=
  Ret (Some id, S st.2).

(** [client.rs:12-64]; [remaining] starts at 19 *)
Definition client_pingpong (now : Instant) (remaining : Z) (event : Event) (c : Connection) : outcome (Z * Connection) :=
  let! '(c, recv, cnt, finished) :=
    match event with
    | Connected =>
        let! '(c, id) := Connection.open_stream Bi c in
        let! '(c, r) := write id (bytes_of "ping") c in
        let! _ := unwrap_ok r in
        Ret (c, None, 0%nat, false)
    | EvStream (EvReadable id) =>
        let! '(c, r) := read id true c in
        let! chunks := unwrap_ok r in
        let! '(recv, cnt, finished, chunks) := for_chunks 4 (while_ok (count_chunk id)) (None, 0%nat, false) chunks in
        Ret (drop_chunks chunks c, recv, cnt, finished)
    | _ => Ret (c, None, 0%nat, false)
    end in
  if finished then let! c := Connection.close now 0 (bytes_of "byebye") c in Ret (remaining, c)
  else
    match recv with
    | Some id =>
        let! '(remaining, c) := write_pings cnt remaining id c in
        if remaining =? 0 then
          let! '(c, r) := finish id c in
          let! _ := unwrap_ok r in
          Ret (remaining, c)
        else Ret (remaining, c)
    | None => Ret (remaining, c)
    end.

(** ** Ping-pong: the server *)

(** [for _ in 0..cnt { stream.write(data).unwrap() }] *)
Fixpoint write_times (cnt : nat) (data : list Z) (id : StreamId) (c : Connection) : outcome Connection :=
  match cnt with
  | O => Ret c
  | S cnt =>
      let! '(c, r) := write id data c in
      let! _ := unwrap_ok r in
      write_times cnt data id c
  end.

(** [server.rs:14-50] *)
Definition server_pingpong (event : Event) (c : Connection) : outcome Connection :=
  let! '(c, recv, cnt, finished) :=
    match event with
    | EvStream (EvReadable id) =>
        let! '(c, r) := read id true c in
        let! chunks := unwrap_ok r in
        let! '(recv, cnt, finished, chunks) := for_chunks 4 (while_ok (count_chunk id)) (None, 0%nat, false) chunks in
        Ret (drop_chunks chunks c, recv, cnt, finished)
    | _ => Ret (c, None, 0%nat, false)
    end in
  match recv with
  | Some id =>
      let! c := write_times cnt (bytes_of "pong") id c in
      if finished then
        let! '(c, r) := finish id c in
        let! _ := unwrap_ok r in
        Ret c
      else Ret c
  | None => Ret c
  end.

(** ** Stopping and resetting: the client *)

(** [client.rs:68-73] *)
Record PingStream := mkPingStream { pg_id : StreamId; pg_to_send : list Z; pg_send_remain : option Z; pg_finished : bool }.

Definition set_send_remain (n : Z) (s : PingStream) : PingStream := mkPingStream (pg_id s) (pg_to_send s) (Some n) (pg_finished s).
Definition set_ping_finished (s : PingStream) : PingStream := mkPingStream (pg_id s) (pg_to_send s) (pg_send_remain s) true.

(** [client.rs:67-67] what the random number [r] becomes *)
Definition pingpong_error_code (r : Z) : Z := Z.land 4095 r + 12288.

(** The variables the loop over the chunks changes: the state of the stream,
    [to_send], [to_reset] and [cnt]. *)
Definition ping_locals : Type := PingStream * option (StreamId * list Z) * option StreamId * nat.

(** [client.rs:106-120] one chunk *)
Definition ping_chunk (id : StreamId) (st : ping_locals) (_ : Chunk) : outcome ping_locals :=
  let '(s, to_send, to_reset, cnt) := st in
  match pg_send_remain s with
  | Some n =>
      if 0 <? n then Ret (set_send_remain (n - 1) s, Some (id, pg_to_send s), to_reset, S cnt)
      else Ret (s, to_send, Some id, cnt)
  | None => Ret (s, Some (id, pg_to_send s), to_reset, S cnt)
  end.

(** [.iter_mut().find(|state| state.id == id)]: the first, with its place *)
Definition find_by {A} (key : A -> StreamId) (id : StreamId) (l : list A) : option (nat * A) :=
  list_find (fun s => key s = id) l.

(** [client.rs:85-139] the event: the connection and the states of the streams,
    with [to_send], [to_reset] and [cnt] *)
Definition client_stop_event (random_error_code : Z) (states : list PingStream) (event : Event) (c : Connection)
    : outcome (Connection * list PingStream * option (StreamId * list Z) * option StreamId * nat) :=
  match event with
  | Connected =>
      let! '(c, id) := Connection.open_stream Bi c in
      let! '(c, r) := write id (bytes_of "ping") c in
      let! _ := unwrap_ok r in
      Ret (c, states ++ [mkPingStream id (bytes_of "ping") (Some 9) false], None, None, 0%nat)
  | EvStream (EvReadable id) =>
      let! _ := Connection.recv_stream id c in
      let! '(i, state) := unwrap (find_by pg_id id states) in
      let! '(c, r) := read id true c in
      let! chunks := unwrap_ok r in
      let! '(state, to_send, to_reset, cnt, finished, chunks) :=
        for_chunks (zlen (pg_to_send state)) (while_ok (ping_chunk id)) (state, None, None, 0%nat, false) chunks in
      let state := if (finished : bool) then set_ping_finished state else state in
      Ret (drop_chunks chunks c, <[i := state]> states, to_send, to_reset, cnt)
  | EvStream (EvStopped id error_code) =>
      let! s := unwrap (states !! 1%nat) in
      let! _ := assert (id =? pg_id s) in
      let! _ := assert (error_code =? random_error_code) in
      Ret (c, <[1%nat := set_ping_finished s]> states, None, None, 0%nat)
  | _ => Ret (c, states, None, None, 0%nat)
  end.

(** [client.rs:66-173] *)
Definition client_pingpong_stop (random_error_code : Z) (now : Instant) (states : list PingStream) (event : Event)
    (c : Connection) : outcome (list PingStream * Connection) :=
  let! '(c, states, to_send, to_reset, cnt) := client_stop_event random_error_code states event c in
  if (length (filter (fun s => pg_finished s = true) states) =? 2)%nat then
    let! c := Connection.close now 0 (bytes_of "byebye") c in Ret (states, c)
  else
    let! c :=
      match to_send with
      | Some (id, message) => write_times cnt message id c
      | None => Ret c
      end in
    match to_reset with
    | Some id =>
        let! '(c, _) := reset id random_error_code c in
        if (2 <=? length states)%nat then Ret (states, c)
        else
          let! '(c, id) := Connection.open_stream Bi c in
          let! '(c, r) := write id (bytes_of "ping ping") c in
          let! _ := unwrap_ok r in
          Ret (states ++ [mkPingStream id (bytes_of "ping ping") None false], c)
    | None => Ret (states, c)
    end.

(** ** Stopping and resetting: the server *)

(** [server.rs:55-59] *)
Inductive Action :=
| ActSend (id : StreamId) (data : list Z)
| ActFinish (id : StreamId)
| ActStop (id : StreamId) (error_code : Z).

(** The captured variables: [client_error_code] and [ping_ping_cnt]. *)
Record PongState := mkPongState { po_error_code : option Z; po_count : Z }.

(** [server.rs:74-101] a turn of the loop *)
Definition pong_turn (id : StreamId) (to_reply : list Z) (st : PongState * list Action) (r : result (option Chunk) ReadError)
    : outcome (PongState * list Action * bool) :=
  let '(p, actions) := st in
  match r with
  | Ok (Some _) =>
      let p := if decide (to_reply = bytes_of "pong pong") then mkPongState (po_error_code p) (po_count p + 1) else p in
      if po_count p <? 10 then Ret (p, actions ++ [ActSend id to_reply], true)
      else Ret (p, actions ++ [ActStop id (default 0 (po_error_code p)); ActFinish id], false)
  | Ok None => Panic
  | Err ReadBlocked => Ret (p, actions, false)
  | Err (ReadReset code) => Ret (mkPongState (Some code) (po_count p), actions ++ [ActFinish id], false)
  end.

(** [server.rs:111-124] the results are dropped with [ok] *)
Definition run_action (a : Action) (c : Connection) : outcome Connection :=
  match a with
  | ActSend id data => let! '(c, _) := write id data c in Ret c
  | ActFinish id => let! '(c, _) := finish id c in Ret c
  | ActStop id error_code => let! '(c, _) := stop id error_code c in Ret c
  end.

Fixpoint run_actions (l : list Action) (c : Connection) : outcome Connection :=
  match l with
  | [] => Ret c
  | a :: l => let! c := run_action a c in run_actions l c
  end.

(** [server.rs:52-127] *)
Definition server_pingpong_stop (p : PongState) (event : Event) (c : Connection) : outcome (PongState * Connection) :=
  let! '(p, actions, c) :=
    match event with
    | EvStream (EvReadable id) =>
        let to_reply := if id =? 0 then bytes_of "pong" else bytes_of "pong pong" in
        let! '(c, r) := read id true c in
        let! chunks := unwrap_ok r in
        let! '(p, actions, chunks) := for_chunks (zlen to_reply) (pong_turn id to_reply) (p, []) chunks in
        Ret (p, actions, drop_chunks chunks c)
    | EvStream (EvStopped id error_code) => Ret (p, [ActStop id error_code], c)
    | _ => Ret (p, [], c)
    end in
  let! c := run_actions actions c in
  Ret (p, c).

(** ** File transfer *)

(** [server.rs:129-147] the server sends the file it read at its start *)
Definition server_cc (content : list Z) (event : Event) (c : Connection) : outcome Connection :=
  match event with
  | Connected =>
      let! '(c, id) := Connection.open_stream Uni c in
      let! '(c, r) := write id content c in
      let! _ := unwrap_ok r in
      let! '(c, r) := finish id c in
      let! _ := unwrap_ok r in
      Ret c
  | _ => Ret c
  end.

Section File.
(** [File::write_all]: the file afterwards, or a failure. *)
Context (write_all : list Z -> list Z -> option (list Z)).

(** [client.rs:195-203] *)
Definition file_chunk (f : list Z) (chunk : Chunk) : outcome (list Z) := unwrap (write_all f (ch_bytes chunk)).

(** [client.rs:175-217] the client appends what it receives to a file *)
Definition client_cc (now : Instant) (f : list Z) (event : Event) (c : Connection) : outcome (list Z * Connection) :=
  match event with
  | EvStream (EvReadable id) =>
      let! '(c, r) := read id true c in
      match r with
      | Err _ => Ret (f, c)
      | Ok chunks =>
          let! '(f, finished, chunks) := for_chunks USIZE_MAX (while_ok file_chunk) (f, false) chunks in
          let c := drop_chunks chunks c in
          if (finished : bool) then let! c := Connection.close now 0 (bytes_of "finished") c in Ret (f, c)
          else Ret (f, c)
      end
  | _ => Ret (f, c)
  end.
End File.

(** ** Stream echo: the client *)

(** [client.rs:220-224] *)
Record EchoStream := mkEchoStream { ec_id : StreamId; ec_bytes : Z; ec_finished : bool }.

(** [client.rs:228-228] *)
Definition LARGE_MESSAGE_LEN : Z := 1024000.
Definition large_message : list Z := replicate (Z.to_nat LARGE_MESSAGE_LEN) 0.

(** [client.rs:236-247] a turn of the loop over the priorities *)
Definition echo_open (prio : Z) (acc : list EchoStream * Connection) : outcome (list EchoStream * Connection) :=
  let '(ss, c) := acc in
  let! '(c, id) := Connection.open_stream Bi c in
  let! '(c, r) := set_priority id prio c in
  let! _ := unwrap_ok r in
  let! '(c, r) := write id large_message c in
  let! _ := unwrap_ok r in
  let! '(c, r) := finish id c in
  let! _ := unwrap_ok r in
  Ret (ss ++ [mkEchoStream id 0 false], c).

(** [client.rs:259-267] *)
Definition echo_chunk (s : EchoStream) (chunk : Chunk) : outcome EchoStream :=
  let! n := u64_add (ec_bytes s) (zlen (ch_bytes chunk)) in
  Ret (mkEchoStream (ec_id s) n (ec_finished s)).

Definition set_echo_finished (s : EchoStream) : EchoStream := mkEchoStream (ec_id s) (ec_bytes s) true.

(** [client.rs:233-287] *)
Definition echo_event (ss : list EchoStream) (event : Event) (c : Connection) : outcome (list EchoStream * Connection) :=
  match event with
  | Connected => let! acc := echo_open 2 (ss, c) in echo_open 1 acc
  | EvStream (EvReadable id) =>
      let! _ := Connection.recv_stream id c in
      let! '(i, state) := unwrap (find_by ec_id id ss) in
      let! '(c, r) := read id true c in
      match r with
      | Err _ => Ret (ss, c)
      | Ok chunks =>
          let! '(state, finished, chunks) := for_chunks USIZE_MAX (while_ok echo_chunk) (state, false) chunks in
          let state := if (finished : bool) then set_echo_finished state else state in
          Ret (<[i := state]> ss, drop_chunks chunks c)
      end
  | EvStream (EvStopped id error_code) =>
      let! s := unwrap (ss !! 1%nat) in
      let! _ := assert (id =? ec_id s) in
      let! _ := assert (error_code =? 29489) in
      Ret (<[1%nat := set_echo_finished s]> ss, c)
  | _ => Ret (ss, c)
  end.

(** [client.rs:219-305] *)
Definition client_echo (now : Instant) (ss : list EchoStream) (event : Event) (c : Connection)
    : outcome (list EchoStream * Connection) :=
  let! '(ss, c) := echo_event ss event c in
  let! s0 := unwrap (ss !! 0%nat) in
  if negb (ec_finished s0) then
    if LARGE_MESSAGE_LEN / 16 <? ec_bytes s0 then let! '(c, _) := reset (ec_id s0) 4919 c in Ret (ss, c)
    else Ret (ss, c)
  else
    let! s1 := unwrap (ss !! 1%nat) in
    if negb (ec_finished s1) then
      if LARGE_MESSAGE_LEN / 4 <? ec_bytes s1 then let! '(c, _) := stop (ec_id s1) 29489 c in Ret (ss, c)
      else Ret (ss, c)
    else let! c := Connection.close now 0 (bytes_of "byebye") c in Ret (ss, c).

(** ** Stream echo: the server *)

(** [server.rs:161-190] the action an event leads to *)
Definition server_echo_event (event : Event) (c : Connection) : outcome (Connection * option Action) :=
  match event with
  | EvStream (EvReadable id) =>
      let! '(c, r) := read id true c in
      match r with
      | Err _ => Ret (c, None)
      | Ok chunks =>
          let! '(chunks, r) := RecvStream.next USIZE_MAX chunks in
          let! action :=
            match r with
            | Ok chunk => let! chunk := unwrap chunk in Ret (Some (ActSend id (ch_bytes chunk)))
            | Err ReadBlocked => Ret None
            | Err (ReadReset code) => Ret (Some (ActFinish id))
            end in
          Ret (drop_chunks chunks c, action)
      end
  | EvStream (EvStopped id error_code) => Ret (c, Some (ActStop id error_code))
  | _ => Ret (c, None)
  end.

(** [server.rs:149-205] *)
Definition server_echo (event : Event) (c : Connection) : outcome Connection :=
  let! '(c, action) := server_echo_event event c in
  match action with
  | Some (ActSend id bytes) => let! '(c, _) := write id bytes c in Ret c
  | Some (ActFinish id) => let! '(c, r) := finish id c in let! _ := unwrap_ok r in Ret c
  | Some (ActStop id error_code) => let! '(c, r) := stop id error_code c in let! _ := unwrap_ok r in Ret c
  | None => Ret c
  end.

(** ** The programs *)

(** A [TransportHandler] with the variables it starts with. *)
Record TransportHandler := mkHandler {
  th_state : Type;
  th_start : th_state;
  th_call : Instant -> th_state -> Event -> Connection -> outcome (th_state * Connection);
}.

(** [src/lib.rs:8-18] *)
Inductive Program := StreamEcho | PingPong | PingPongStop | FileTransfer.

(** A handler without variables. *)
Definition stateless (h : Event -> Connection -> outcome Connection) : TransportHandler :=
  mkHandler unit tt (fun _ _ event c => let! c := h event c in Ret (tt, c)).

(** [client.rs:320-330] the handler of a client; [r] is the number that
    [rand] yields *)
Definition client_handler (write_all : list Z -> list Z -> option (list Z)) (r : Z) (p : Program) : TransportHandler :=
  match p with
  | PingPong => mkHandler Z 19 client_pingpong
  | PingPongStop => mkHandler (list PingStream) [] (client_pingpong_stop (pingpong_error_code r))
  | StreamEcho => mkHandler (list EchoStream) [] client_echo
  | FileTransfer => mkHandler (list Z) [] (client_cc write_all)
  end.

(** [server.rs:220-230]; [content] is the file that is sent *)
Definition server_handler (content : list Z) (p : Program) : TransportHandler :=
  match p with
  | PingPong => stateless server_pingpong
  | PingPongStop => mkHandler PongState (mkPongState None 0) (fun _ => server_pingpong_stop)
  | StreamEcho => stateless server_echo
  | FileTransfer => stateless (server_cc content)
  end.

(** ** The loop of a connection with its handler *)
Section RunProgram.
Context {B : Type} `{Buf B} (h : TransportHandler).

(** [Driver.select], the event going to the handler; the time is the one the
    handler reads *)
Definition select (now : Instant) (r : Round B) (st : th_state h) (c : Connection) : outcome (th_state h * Connection) :=
  match Driver.take_event c with
  | Some (event, c) => th_call h now st event c
  | None => let! c := Driver.select r c in Ret (st, c)
  end.

(** [mod.rs:87-148] *)
Definition round (now : Instant) (r : Round B) (st : th_state h) (c : Connection) : outcome (th_state h * Connection) :=
  if State.is_drained (c_state c) then Ret (st, c)
  else
    let! c := Driver.burst Driver.MAX_SPINS (r_now r) c in
    let! c := Driver.send_queued (r_io r) c in
    select now r st c.

Fixpoint run_program (l : list (Instant * Round B)) (st : th_state h) (c : Connection) : outcome (th_state h * Connection) :=
  match l with
  | [] => Ret (st, c)
  | (now, r) :: l => let! '(st, c) := round now r st c in run_program l st c
  end.
End RunProgram.

(** The event that the program handles in a round. *)
Definition event_of {B} (r : Round B) (c : Connection) : option Event :=
  match (let! c := Driver.burst Driver.MAX_SPINS (r_now r) c in Driver.send_queued (r_io r) c) with
  | Ret c => fst <$> Driver.take_event c
  | Panic => None
  end.

Lemma take_event_spec c e c' : Driver.take_event c = Some (e, c') ->
  events (c_streams c) = e :: events (c_streams c') /\ c_state c' = c_state c /\ path c' = path c /\
  ss_recv (c_streams c') = ss_recv (c_streams c) /\ ss_side (c_streams c') = ss_side (c_streams c) /\
  ss_next (c_streams c') = ss_next (c_streams c) /\ ss_send (c_streams c') = ss_send (c_streams c).
Proof. unfold Driver.take_event. destruct (events (c_streams c)); [done|]. by intros [= -> <-]. Qed.

(** ** The loops over chunks end *)

(** What the buffers hold bounds how often [next] can yield a chunk. *)
Lemma read_shrinks n o a a' ch : 0 < n -> Assembler.read n o a = Ret (a', Some ch) ->
  (length (a_data a') + Z.to_nat (sumz bf_len (a_data a')) < length (a_data a) + Z.to_nat (sumz bf_len (a_data a)))%nat.
Proof.
  intros Hn Hr. unfold Assembler.read in Hr. destruct (negb o); [done|]. destruct (a_data a) as [|b rest]; [by injection Hr|].
  destruct (negb _); [by injection Hr|]. assert (Hs : 0 <= sumz bf_len rest) by (apply sumz_nonneg; intros; apply zlen_nonneg).
  pose proof (zlen_nonneg (bf_bytes b)). assert (Hb : bf_len b = zlen (bf_bytes b)) by done. destruct (Z.ltb_spec n (zlen (bf_bytes b))); outcome_inv; simplify_eq; cbn [length a_data sumz].
  - unfold bf_len at 1 3. cbn [bf_bytes]. rewrite zlen_drop by lia. lia.
  - lia.
Qed.

Lemma next_shrinks n chunks chunks' ch : 0 < n -> RecvStream.next n chunks = Ret (chunks', Ok (Some ch)) ->
  (chunk_fuel chunks' < chunk_fuel chunks)%nat.
Proof.
  intros Hn Hr. unfold RecvStream.next in Hr. apply obind_ret in Hr as ([[st rd] res] & Hr & Heq). injection Heq as <- ->.
  unfold Chunks.next in Hr. unfold chunk_fuel. cbn [oc_state]. destruct (oc_state chunks) as [rs|code|]; [|by simplify_eq..].
  apply obind_ret in Hr as ([a [ch'|]] & Ha & Hr).
  - outcome_inv. simplify_eq. cbn. apply read_shrinks in Ha; [lia|done].
  - cbn in Hr. destruct (r_state rs); outcome_inv; destruct (_ && _); by simplify_eq.
Qed.

(** A loop goes on only after a chunk. *)
Definition stops_without_chunk {St} (body : St -> result (option Chunk) ReadError -> outcome (St * bool)) : Prop :=
  forall st r st', body st r = Ret (st', true) -> exists ch, r = Ok (Some ch).

Lemma while_ok_stops {St} (f : St -> Chunk -> outcome St) : stops_without_chunk (while_ok f).
Proof. intros st [[ch|]|e] st' Hb; cbn in Hb; [by exists ch|by injection Hb|by injection Hb]. Qed.

Lemma pong_turn_stops id to_reply : stops_without_chunk (pong_turn id to_reply).
Proof. intros [p acts] [[ch|]|[|code]] st' Hb; cbn in Hb; [by exists ch|done|by injection Hb..]. Qed.

Section Loop.
Context {St : Type} (n : Z) (body : St -> result (option Chunk) ReadError -> outcome (St * bool)).
Context (n_pos : 0 < n) (body_stops : stops_without_chunk body).

Lemma chunk_loop_enough fuel st chunks : (chunk_fuel chunks <= fuel)%nat -> chunk_loop fuel n body st chunks <> None.
Proof.
  revert st chunks. induction fuel as [|fuel IH]; intros st chunks Hf; [unfold chunk_fuel in Hf; destruct (oc_state chunks); lia|].
  cbn [chunk_loop]. destruct (obind _ _) as [[[st' c'] [|]]|] eqn:Ht; [|done..]. apply IH.
  apply obind_ret in Ht as ([c1 r] & Hr & Ht). apply obind_ret in Ht as ([st1 go] & Hb & Ht). injection Ht as -> -> ->.
  apply body_stops in Hb as [ch ->]. apply next_shrinks in Hr; [lia|done].
Qed.

(** What a loop does to the reader is what some number of reads does. *)
Lemma chunk_loop_reads fuel st chunks st' chunks' : chunk_loop fuel n body st chunks = Some (Ret (st', chunks')) ->
  exists k, read_chunks (replicate k n) chunks = Ret chunks'.
Proof.
  revert st chunks. induction fuel as [|fuel IH]; intros st chunks; cbn [chunk_loop]; [done|].
  destruct (obind _ _) as [[[st1 c1] go]|] eqn:Ht; [|done].
  apply obind_ret in Ht as ([c2 r] & Hr & Ht). apply obind_ret in Ht as ([st2 go'] & Hb & Ht). injection Ht as -> -> ->.
  destruct go.
  - intros [k Hk]%IH. exists (S k). cbn [replicate read_chunks]. by rewrite Hr.
  - intros [= -> ->]. exists 1%nat. cbn [replicate read_chunks]. by rewrite Hr.
Qed.
End Loop.

Lemma for_chunks_reads {St} n (body : St -> result (option Chunk) ReadError -> outcome (St * bool)) st chunks st' chunks' :
  for_chunks n body st chunks = Ret (st', chunks') -> exists k, read_chunks (replicate k n) chunks = Ret chunks'.
Proof.
  unfold for_chunks. destruct (chunk_loop _ _ _ _ _) as [[r|]|] eqn:Hl; [|done..]. cbn. intros [= ->]. by apply chunk_loop_reads in Hl.
Qed.

(** ** Handlers use the public operations only *)

(** Some calls of the application lead from one connection to the other. *)
Definition app_calls (c c' : Connection) : Prop := exists ops, run_app_ops ops c = Ret c'.

Lemma run_app_ops_app l k c : run_app_ops (l ++ k) c = let! c := run_app_ops l c in run_app_ops k c.
Proof. revert c. induction l as [|op l IH]; intros c; cbn [run_app_ops app obind]; [done|]. by destruct (run_app op c); cbn [obind]. Qed.

#[export] Instance app_calls_preorder : PreOrder app_calls.
Proof.
  split; [by exists []|]. intros c1 c2 c3 [l Hl] [k Hk]. exists (l ++ k). by rewrite run_app_ops_app, Hl.
Qed.

Lemma app_call op c c' : run_app op c = Ret c' -> app_calls c c'.
Proof. intros Ho. exists [op]. cbn [run_app_ops]. by rewrite Ho. Qed.

(** Each call of a handler is one of the operations of [run_app]. *)
Ltac one_call op := intros Hc; apply (app_call op); cbn [run_app]; revert Hc.

Lemma write_app id data c c' r : write id data c = Ret (c', r) -> run_app (AppWrite id data) c = Ret c'.
Proof.
  cbn [run_app]. unfold write. destruct (Connection.send_stream id c) as [[[ss p] closed]|]; cbn [obind]; [|done].
  destruct (SendStream.write _ _ _ _) as [[ss' r']|]; cbn [obind]; [|done]. by intros [= <- _].
Qed.

Lemma write_calls id data c c' r : write id data c = Ret (c', r) -> app_calls c c'.
Proof. intros Hw%write_app. by eapply app_call. Qed.

Lemma finish_app id c c' r : finish id c = Ret (c', r) -> run_app (AppFinish id) c = Ret c'.
Proof.
  cbn [run_app]. unfold finish. destruct (Connection.send_stream id c) as [[[ss p] closed]|]; cbn [obind]; [|done].
  destruct (SendStream.finish _ _) as [[ss' r']|]; cbn [obind]; [|done]. by intros [= <- _].
Qed.

Lemma finish_calls id c c' r : finish id c = Ret (c', r) -> app_calls c c'.
Proof. intros Hf%finish_app. by eapply app_call. Qed.

Lemma reset_calls id code c c' r : reset id code c = Ret (c', r) -> app_calls c c'.
Proof.
  one_call (AppReset id code). unfold reset. destruct (Connection.send_stream id c) as [[[ss p] closed]|]; cbn [obind]; [|done].
  destruct (SendStream.reset _ _ _ _) as [[ss' p'] r']. by intros [= <- _].
Qed.

Lemma set_priority_calls id prio c c' r : set_priority id prio c = Ret (c', r) -> app_calls c c'.
Proof.
  one_call (AppPriority id prio). unfold set_priority. destruct (Connection.send_stream id c) as [[[ss p] closed]|]; cbn [obind]; [|done].
  destruct (SendStream.set_priority _ _ _) as [ss' r']. by intros [= <- _].
Qed.

Lemma stop_calls id code c c' r : stop id code c = Ret (c', r) -> app_calls c c'.
Proof.
  one_call (AppStop id code). unfold stop. destruct (Connection.recv_stream id c) as [[ss p]|]; cbn [obind]; [|done].
  destruct (RecvStream.stop _ _ _ _) as [[[ss' p'] r']|]; cbn [obind]; [|done]. by intros [= <- _].
Qed.

Lemma open_calls dir c c' id : Connection.open_stream dir c = Ret (c', id) -> app_calls c c'.
Proof. one_call (AppOpen dir). by intros ->. Qed.

Lemma close_calls now code reason c c' : Connection.close now code reason c = Ret c' -> app_calls c c'.
Proof. by one_call (AppClose now code reason). Qed.

Lemma with_handle_twice ss p ss' p' c : Connection.with_handle ss p (Connection.with_handle ss' p' c) = Connection.with_handle ss p c.
Proof. reflexivity. Qed.

Lemma read_fails_calls id ordered c c' e : read id ordered c = Ret (c', Err e) -> app_calls c c'.
Proof.
  one_call (AppRead id ordered []). unfold read. destruct (Connection.recv_stream id c) as [[ss p]|]; cbn [obind]; [|done].
  destruct (RecvStream.read _ _ _) as [[ss' r']|]; cbn [obind]; [|done]. by intros [= <- ->].
Qed.

(** Reading, and dropping the reader after some reads. *)
Lemma read_calls id ordered c c1 chunks sizes chunks' : read id ordered c = Ret (c1, Ok chunks) ->
  read_chunks sizes chunks = Ret chunks' -> app_calls c (drop_chunks chunks' c1).
Proof.
  intros Hr Hk. apply (app_call (AppRead id ordered sizes)). revert Hr. cbn [run_app]. unfold read.
  destruct (Connection.recv_stream id c) as [[ss p]|]; cbn [obind]; [|done].
  destruct (RecvStream.read _ _ _) as [[ss' r']|]; cbn [obind]; [|done]. intros [= <- ->]. by rewrite Hk.
Qed.

Create HintDb calls.
#[export] Hint Resolve write_calls finish_calls reset_calls set_priority_calls stop_calls open_calls close_calls read_fails_calls : calls.

(** Take the steps of a handler apart, one hypothesis per call; then follow the
    calls from the first connection to the last. *)
Ltac steps H :=
  repeat lazymatch type of H with
  | obind _ _ = Ret _ => let x := fresh "x" in let Hx := fresh "Hx" in apply obind_ret in H as (x & Hx & H)
  | (let '(_, _) := ?x in _) = Ret _ => destruct x
  end.
Ltac calls := repeat (etrans; [solve [eauto with calls]|]); solve [eauto with calls | reflexivity].

Lemma write_pings_calls cnt remaining id c remaining' c' : write_pings cnt remaining id c = Ret (remaining', c') -> app_calls c c'.
Proof.
  revert remaining c. induction cnt as [|cnt IH]; intros remaining c; cbn [write_pings]; [by intros [= _ ->]|].
  destruct (0 <? remaining); [|by intros [= _ ->]]. intros H. steps H. calls.
Qed.

Lemma write_times_calls cnt data id c c' : write_times cnt data id c = Ret c' -> app_calls c c'.
Proof.
  revert c. induction cnt as [|cnt IH]; intros c; cbn [write_times]; [by intros [= ->]|]. intros H. steps H. calls.
Qed.

Lemma run_actions_calls l c c' : run_actions l c = Ret c' -> app_calls c c'.
Proof.
  revert c. induction l as [|a l IH]; intros c; cbn [run_actions]; [by intros [= ->]|]. intros H. steps H.
  destruct a; cbn [run_action] in Hx; steps Hx; injection Hx as <-; calls.
Qed.

Lemma echo_open_calls prio ss c ss' c' : echo_open prio (ss, c) = Ret (ss', c') -> app_calls c c'.
Proof. cbn [echo_open]. intros H. steps H. injection H as _ <-. calls. Qed.

Lemma reader_calls {St} id n (body : St -> result (option Chunk) ReadError -> outcome (St * bool)) st c c1 chunks st' chunks' :
  read id true c = Ret (c1, Ok chunks) -> for_chunks n body st chunks = Ret (st', chunks') -> app_calls c (drop_chunks chunks' c1).
Proof. intros Hr [k Hk]%for_chunks_reads. by eapply read_calls. Qed.

#[export] Hint Resolve write_pings_calls write_times_calls run_actions_calls echo_open_calls reader_calls : calls.

Lemma unwrap_ok_ret {A E} (r : result A E) x : unwrap_ok r = Ret x -> r = Ok x.
Proof. destruct r; [by intros [= ->]|done]. Qed.

(** What a handler promises to the connection. *)
Class PublicCalls (h : TransportHandler) : Prop :=
  public_calls : forall now st event c st' c', th_call h now st event c = Ret (st', c') -> app_calls c c'.

#[export] Instance client_pingpong_calls : PublicCalls (mkHandler Z 19 client_pingpong).
Proof.
  intros now remaining event c st' c'. cbn [th_call]. unfold client_pingpong. intros H. apply obind_ret in H as ([[[c1 recv] cnt] finished] & He & H).
  transitivity c1.
  - destruct event as [|e|[id|id|id code]]; try (by injection He as <- _ _ _).
    + steps He. injection He as <- _ _ _. calls.
    + steps He. apply unwrap_ok_ret in Hx0 as ->. injection He as <- _ _ _. calls.
  - clear He. destruct finished; [steps H; injection H as _ <-; calls|]. destruct recv as [id|]; [|by injection H as _ <-].
    steps H. destruct (_ =? 0); steps H; injection H as _ <-; calls.
Qed.

#[export] Instance server_pingpong_calls : PublicCalls (stateless server_pingpong).
Proof.
  intros now [] event c [] c'. cbn [th_call stateless]. intros H. apply obind_ret in H as (c2 & H & Heq). injection Heq as <-.
  unfold server_pingpong in H. apply obind_ret in H as ([[[c1 recv] cnt] finished] & He & H). transitivity c1.
  - destruct event as [|e|[id|id|id code]]; try (by injection He as <- _ _ _).
    steps He. apply unwrap_ok_ret in Hx0 as ->. injection He as <- _ _ _. calls.
  - clear He. destruct recv as [id|]; [|by injection H as <-]. apply obind_ret in H as (c3 & Hw & H).
    destruct finished; [|injection H as <-; calls]. steps H. injection H as <-. calls.
Qed.

Lemma client_stop_event_calls code states event c c' states' to_send to_reset cnt :
  client_stop_event code states event c = Ret (c', states', to_send, to_reset, cnt) -> app_calls c c'.
Proof.
  intros He. destruct event as [|e|[id|id|id code']]; cbn [client_stop_event] in He; try (by injection He as <-).
  - steps He. injection He as <-. calls.
  - steps He. apply unwrap_ok_ret in Hx2 as ->. injection He as <-. calls.
  - steps He. by injection He as <-.
Qed.

#[export] Instance client_pingpong_stop_calls code : PublicCalls (mkHandler (list PingStream) [] (client_pingpong_stop code)).
Proof.
  intros now states event c st' c'. cbn [th_call]. unfold client_pingpong_stop. intros H.
  apply obind_ret in H as ([[[[c1 states1] to_send] to_reset] cnt] & He & H). transitivity c1; [by eapply client_stop_event_calls|].
  clear He. destruct (_ =? 2)%nat; [steps H; injection H as _ <-; calls|]. apply obind_ret in H as (c2 & Hs & H). transitivity c2.
  - destruct to_send as [[id message]|]; [calls|by injection Hs as <-].
  - clear Hs. destruct to_reset as [id|]; [|by injection H as _ <-]. apply obind_ret in H as ([c3 r] & Hr & H).
    destruct (2 <=? _)%nat; steps H; injection H as _ <-; calls.
Qed.

#[export] Instance server_pingpong_stop_calls : PublicCalls (mkHandler PongState (mkPongState None 0) (fun _ => server_pingpong_stop)).
Proof.
  intros now p event c st' c'. cbn [th_call]. unfold server_pingpong_stop. intros H. apply obind_ret in H as ([[p1 actions] c1] & He & H).
  steps H. injection H as _ <-. transitivity c1; [|calls].
  destruct event as [|e|[id|id|id code]]; try (by injection He as _ _ <-). steps He. apply unwrap_ok_ret in Hx1 as ->.
  injection He as _ _ <-. exact (reader_calls _ _ _ _ _ _ _ _ _ Hx0 Hx2).
Qed.

#[export] Instance server_cc_calls content : PublicCalls (stateless (server_cc content)).
Proof.
  intros now [] event c [] c'. cbn [th_call stateless]. intros H. apply obind_ret in H as (c2 & H & Heq). injection Heq as <-.
  destruct event; cbn [server_cc] in H; try (by injection H as <-). steps H. injection H as <-. calls.
Qed.

#[export] Instance client_cc_calls write_all : PublicCalls (mkHandler (list Z) [] (client_cc write_all)).
Proof.
  intros now f event c st' c'. cbn [th_call]. intros H. destruct event as [|e|[id|id|id code]]; cbn [client_cc] in H; try (by injection H as _ <-).
  apply obind_ret in H as ([c1 [chunks|e]] & Hr & H); [|injection H as _ <-; calls].
  apply obind_ret in H as ([[f1 finished] chunks'] & Hl & H). destruct finished; steps H; injection H as _ <-; calls.
Qed.

Lemma echo_event_calls ss event c ss' c' : echo_event ss event c = Ret (ss', c') -> app_calls c c'.
Proof.
  intros H. destruct event as [|e|[id|id|id code]]; cbn [echo_event] in H; try (by injection H as _ <-).
  - apply obind_ret in H as ([ss1 c1] & H1 & H). calls.
  - steps H. destruct r as [chunks|]; [|injection H as _ <-; calls].
    apply obind_ret in H as ([[state finished] chunks'] & Hl & H). injection H as _ <-. calls.
  - steps H. by injection H as _ <-.
Qed.

#[export] Instance client_echo_calls : PublicCalls (mkHandler (list EchoStream) [] client_echo).
Proof.
  intros now ss event c st' c'. cbn [th_call]. unfold client_echo. intros H. apply obind_ret in H as ([ss1 c1] & He & H).
  transitivity c1; [by eapply echo_event_calls|]. clear He. apply obind_ret in H as (s0 & _ & H).
  destruct (negb (ec_finished s0)); [destruct (_ <? _); steps H; injection H as _ <-; calls|]. apply obind_ret in H as (s1 & _ & H).
  destruct (negb (ec_finished s1)); [destruct (_ <? _)|]; steps H; injection H as _ <-; calls.
Qed.

Lemma server_echo_event_calls event c c' action : server_echo_event event c = Ret (c', action) -> app_calls c c'.
Proof.
  intros H. destruct event as [|e|[id|id|id code]]; cbn [server_echo_event] in H; try (by injection H as <- _).
  apply obind_ret in H as ([c1 [chunks|e]] & Hr & H); [|injection H as <- _; calls].
  apply obind_ret in H as ([chunks' r] & Hn & H). apply obind_ret in H as (a & _ & H). injection H as <- _.
  apply (read_calls id true c c1 chunks [USIZE_MAX]); [done|]. cbn [read_chunks]. by rewrite Hn.
Qed.

#[export] Instance server_echo_calls : PublicCalls (stateless server_echo).
Proof.
  intros now [] event c [] c'. cbn [th_call stateless]. intros H. apply obind_ret in H as (c2 & H & Heq). injection Heq as <-.
  unfold server_echo in H. apply obind_ret in H as ([c1 action] & He & H). transitivity c1; [by eapply server_echo_event_calls|].
  clear He. destruct action as [[id data|id|id code]|]; steps H; injection H as <-; calls.
Qed.

#[export] Instance client_public write_all r p : PublicCalls (client_handler write_all r p).
Proof. destruct p; apply _. Qed.

#[export] Instance server_public content p : PublicCalls (server_handler content p).
Proof. destruct p; apply _. Qed.

(** ** Rounds with a handler *)

(** The inputs of a round, with the calls the handler makes in it. *)
Definition with_ops {B} (ops : list app_op) (r : Round B) : Round B :=
  mkRound (r_now r) (r_io r) ops (r_poll r) (r_timeout r) (r_data r).

Section Refinement.
Context {B : Type} `{Buf B} (h : TransportHandler) `{Hcalls : !PublicCalls h}.

Lemma select_refines now (r : Round B) st c st' c' : select h now r st c = Ret (st', c') ->
  exists ops, Driver.select (with_ops ops r) c = Ret c'.
Proof.
  unfold select. destruct (Driver.take_event c) as [[event c1]|] eqn:He.
  - intros Hc. apply Hcalls in Hc as [ops Hc]. exists ops. unfold Driver.select. by rewrite He.
  - intros Hc. apply obind_ret in Hc as (c1 & Hc & Heq). injection Heq as _ <-. exists []. revert Hc. unfold Driver.select.
    by rewrite He.
Qed.

Lemma round_refines now (r : Round B) st c st' c' : round h now r st c = Ret (st', c') ->
  exists ops, Driver.round (with_ops ops r) c = Ret c'.
Proof.
  unfold round, Driver.round. destruct (State.is_drained (c_state c)); [by intros [= _ ->]; exists []|].
  intros Hc. apply obind_ret in Hc as (c1 & H1 & Hc). apply obind_ret in Hc as (c2 & H2 & Hc).
  apply select_refines in Hc as [ops Hc]. exists ops. cbn [with_ops r_now r_io]. rewrite H1. cbn [obind]. by rewrite H2.
Qed.

Lemma run_program_refines l st c st' c' : run_program (B:=B) h l st c = Ret (st', c') ->
  exists ops : list (list app_op), length ops = length l /\
    Driver.run_connection (zip_with (fun ops x => with_ops ops x.2) ops l) c = Ret c'.
Proof.
  revert st c. induction l as [|[now r] l IH]; intros st c; cbn [run_program]; [intros [= _ ->]; by exists []|].
  intros Hc. apply obind_ret in Hc as ([st1 c1] & H1 & Hc). apply round_refines in H1 as [ops H1].
  apply IH in Hc as (opss & Hlen & Hc). exists (ops :: opss). split; [cbn; lia|]. cbn [zip_with Driver.run_connection snd]. by rewrite H1.
Qed.
End Refinement.

(** ** Properties *)

(** What is proved of a connection holds under the real programs.  Over
    any rounds of any of the client and the server programs, whose handlers
    get the events and keep their variables, the connection does what it does
    over rounds in which the application makes some calls of the public
    operations.  So it stays within the connections that are reachable, for
    which books balance and states never go back. *)
Theorem programs_run_reachable {B : Type} `{Buf B} (h : TransportHandler) (l : list (Instant * Round B))
    (st st' : th_state h) (c c' : Connection) :
  (exists write_all r p, h = client_handler write_all r p) \/ (exists content p, h = server_handler content p) ->
  Driver.reachable (B:=B) c -> run_program h l st c = Ret (st', c') ->
  (exists ops : list (list app_op), length ops = length l /\
    Driver.run_connection (zip_with (fun ops x => with_ops ops x.2) ops l) c = Ret c') /\
  Driver.reachable (B:=B) c'.
Proof.
  intros Hh Hc Hr.
  assert (Hops : exists ops : list (list app_op), length ops = length l /\
    Driver.run_connection (zip_with (fun ops x => with_ops ops x.2) ops l) c = Ret c').
  { destruct Hh as [(w & r & p & ->)|(content & p & ->)];
      [exact (run_program_refines (client_handler w r p) _ _ _ _ _ Hr)|exact (run_program_refines (server_handler content p) _ _ _ _ _ Hr)]. }
  split; [done|]. destruct Hops as (ops & _ & Hops). by eapply run_reachable.
Qed.

(** A ping-pong client that gets the hello of the server, and the event of it. *)
Definition pingpong_rounds : list (Instant * Round (list Z)) :=
  [(31, sample_round 30 (Some server_hello)); (51, sample_round 50 None)].
Definition sample_handler : TransportHandler := client_handler (fun f d => Some (f ++ d)) 0 PingPong.

Lemma programs_run_reachable_witness : exists st c', run_program sample_handler pingpong_rounds 19 sample_client = Ret (st, c') /\
  c_state c' = Established /\ (unsent <$> (pending <$> ss_send (c_streams c') !! 0)) = Some 0 /\
  Driver.reachable (B:=list Z) c'.
Proof.
  destruct (run_program sample_handler pingpong_rounds 19 sample_client) as [[st c']|] eqn:Hr.
  - exists st, c'. split; [reflexivity|].
    split; [vm_compute in Hr; injection Hr as _ <-; reflexivity|].
    split; [vm_compute in Hr; injection Hr as _ <-; reflexivity|].
    apply (programs_run_reachable sample_handler pingpong_rounds 19 st sample_client c').
    + left. exists (fun f d => Some (f ++ d)), 0, PingPong. reflexivity.
    + exact sample_client_reachable.
    + exact Hr.
  - exfalso. vm_compute in Hr. discriminate.
Defined.
