(* ===== verification/Transfer.v ===== *)
(** * Transfer: the client of the file transfer writes the file that was sent

    [client_cc] of [Programs] together with the reassembly of [Recv]: frames of
    the file arrive in any order, split and repeated in any way, between the
    events that the handler gets. *)
From S2P Require Import Prelude Time Buffers Varint Common Packet Frame Timer Space Path Send Recv Streams Connection Accounting Driver Datagrams Programs.

Section Transfer.
(** The bytes of the file, its length, and the stream it comes on. *)
Context (stream : Z -> Z) (size : Z) (sid : StreamId).
Context (write_all : list Z -> list Z -> option (list Z)).

(** A STREAM frame with a part of the file; FIN only at its end. *)
Record content_frame (frame : Stream) : Prop := {
  cf_id : st_id frame = sid;
  cf_offset : 0 <= st_offset frame;
  cf_data : st_data frame = slice stream (st_offset frame) (zlen (st_data frame));
  cf_end : st_offset frame + zlen (st_data frame) <= size;
  cf_fin : st_fin frame = true -> st_offset frame + zlen (st_data frame) = size;
}.

(** Events that are not about another stream of the peer. *)
Definition about_file (event : Event) : Prop :=
  match event with EvStream (EvReadable id) => id = sid | _ => True end.

(** The file and the connection: a frame of the file is processed, the handler
    gets an event and does not end the transfer, or the connection does
    anything that leaves the stream alone. *)
Inductive transfer_step : list Z * Connection -> list Z * Connection -> Prop :=
| transfer_frame f c now id len frame c' r : content_frame frame ->
    Connection.data_frame now id len (FStream frame) c = Ret (c', r) -> transfer_step (f, c) (f, c')
| transfer_event f c now event f' c' : about_file event -> client_cc write_all now f event c = Ret (f', c') ->
    State.is_closed (c_state c') = false -> transfer_step (f, c) (f', c')
| transfer_other f c c' : ss_recv (c_streams c') !! sid = ss_recv (c_streams c) !! sid -> transfer_step (f, c) (f, c').

(** ** The invariant *)

(** What was written is what was read from the stream, which holds parts of the
    file only. *)
Record stream_holds (f : list Z) (r : Recv) : Prop := {
  sh_asm : asm_inv stream (assembler r);
  sh_end : a_end (assembler r) <= size;
  sh_open : stopped r = false;
  sh_state : r_state r = RsRecv None \/ r_state r = RsRecv (Some size);
  sh_file : f = slice stream 0 (bytes_read (assembler r));
}.

Definition streams_inv (f : list Z) (ss : StreamsState) : Prop :=
  match ss_recv ss !! sid with
  | None => f = []
  | Some r => stream_holds f r
  end.

Lemma insert_end offset bytes alloc a a' : Assembler.insert offset bytes alloc a = Ret a' ->
  a_end a' = Z.max (a_end a) (offset + zlen bytes).
Proof.
  unfold Assembler.insert. intros H. apply obind_ret in H as (u & _ & H). apply obind_ret in H as (e & [-> _]%u64_add_ret & H).
  cbv zeta in H. revert H. destruct (Assembler.is_nil bytes); [by intros [= <-]|]. destruct (_ <=? _); [by intros [= <-]|].
  intros H. apply obind_ret in H as ([[o bs]|] & _ & H); [|by injection H as <-]. revert H.
  destruct (Assembler.is_nil bs); [by intros [= <-]|]. intros H. apply obind_ret in H as (i & _ & H).
  apply obind_ret in H as ([[o1 bs1]|] & _ & H); [|by injection H as <-]. apply obind_ret in H as (e1 & _ & H).
  apply obind_ret in H as ([[[post bs2] bufd] alloc2] & _ & H). revert H.
  destruct (Assembler.is_nil bs2); [by intros [= <-]|]. intros H. outcome_inv. by subst.
Qed.

Lemma read_end n o a a' ch : Assembler.read n o a = Ret (a', ch) -> a_end a' = a_end a.
Proof.
  unfold Assembler.read. destruct (negb o); [done|]. destruct (a_data a) as [|b rest]; [by intros [= <- _]|].
  destruct (negb _); [by intros [= <- _]|]. destruct (_ <? _); intros H; outcome_inv; by subst.
Qed.

Lemma ingest_holds f r frame len r' res : stream_holds f r -> content_frame frame -> size <= VARINT_MAX ->
  Recv.ingest frame len r = Ret (r', res) -> stream_holds f r'.
Proof.
  intros [Ha He Ho Hs Hf] [Hid Hoff Hdata Hend Hfin] Hmax Hi.
  destruct (ingest_cases _ _ _ _ _ Hi) as [(_ & -> & _)|[(_ & _ & -> & _)|(_ & _ & _ & _ & Hst & _ & Hins & Hstate)]];
    [done..|].
  specialize (Hins Ho). assert (Hlen : 0 <= zlen (st_data frame) <= len).
  { pose proof (zlen_nonneg (st_data frame)). split; [lia|]. revert Hins. unfold Assembler.insert, assert.
    destruct (Z.leb_spec (zlen (st_data frame)) len); [done|]. cbn. done. }
  pose proof (insert_end _ _ _ _ _ Hins) as Hend'. rewrite Hdata in Hins.
  apply insert_inv in Hins as (Ha' & Hbr & _); [|done|lia|lia|lia].
  split; [done|rewrite Hend'; lia|by rewrite Hst| |by rewrite Hbr].
  rewrite Hstate. destruct Hs as [-> | ->]; destruct (st_fin frame) eqn:Hfn; cbn; rewrite ?Ho; cbn; auto; rewrite Hfin by done; auto.
Qed.

Context (size_bounds : 0 <= size <= VARINT_MAX).

Lemma default_holds : stream_holds [] Recv_default.
Proof. split; cbn; [apply asm_inv_default|lia|done|by left|done]. Qed.

Lemma received_inv f ss frame len ss' res : content_frame frame -> streams_inv f ss ->
  StreamsState.received frame len ss = Ret (ss', res) -> streams_inv f ss'.
Proof.
  intros Hc Hinv. unfold StreamsState.received. rewrite (cf_id _ Hc).
  destruct (StreamsState.validate_receive_id sid ss); [|by intros [= <- _]].   assert (He : forall rs, match ss_recv ss !! sid with
    | Some rs => Some rs
    | None => if decide (StreamId.initiator sid = ss_side ss) then None
              else if (0 <? st_offset frame) || st_fin frame then None else Some Recv_default
    end = Some rs -> stream_holds f rs).
  { intros rs. unfold streams_inv in *. destruct (ss_recv ss !! sid); [by intros [= <-]|]. subst f.
    destruct (decide _); [done|]. destruct (_ || _); [done|]. intros [= <-]. apply default_holds. }
  destruct (match ss_recv ss !! sid with Some rs => Some rs | None => _ end) as [rs|]; [|by intros [= <- _]]. specialize (He rs eq_refl).
  destruct (negb (Recv.is_receiving rs)).
  { intros [= <- _]. unfold streams_inv. cbn. by rewrite lookup_insert_eq. }
  intros H. apply obind_ret in H as ([rs' r] & Hi & H). pose proof (ingest_holds _ _ _ _ _ _ He Hc (proj2 size_bounds) Hi) as Hh.
  assert (Hn : stopped rs' = false) by apply Hh. rewrite Hn in H. cbn [negb] in H.
  destruct r as [[n closed]|e]; [destruct (_ || _)|]; injection H as <- _; unfold streams_inv; cbn; by rewrite lookup_insert_eq.
Qed.

(** *** The loop of the handler *)
Context (write_all_appends : forall f d f', write_all f d = Some f' -> f' = f ++ d).

(** A reader of the stream: it is at the end of the file, or the file is what
    it has read. *)
Definition reader_holds (f : list Z) (chunks : OpenChunks) : Prop :=
  oc_id chunks = sid /\ oc_ordered chunks = true /\ exists r, oc_state chunks = Readable r /\ stream_holds f r.

Lemma next_holds f chunks chunks' res : reader_holds f chunks -> RecvStream.next USIZE_MAX chunks = Ret (chunks', res) ->
  match res with
  | Ok (Some ch) => forall f', write_all f (ch_bytes ch) = Some f' -> reader_holds f' chunks'
  | Ok None => oc_state chunks' = Finished /\ f = slice stream 0 size
  | Err _ => reader_holds f chunks'
  end.
Proof.
  intros (Hid & Hord & r & Hr & [Ha He Ho Hs Hf]). unfold RecvStream.next. rewrite Hr, Hord. intros H.
  apply obind_ret in H as ([[st rd] res'] & H & Heq). injection Heq as <- ->. cbn [Chunks.next] in H.
  destruct (read_spec stream USIZE_MAX (assembler r) Ha) as (a' & ch & Hread & Ha' & _ & _ & Hch); [done|].
  pose proof (read_end _ _ _ _ _ Hread) as Hend. rewrite Hread in H. cbn [obind] in H. destruct ch as [ch|].
  - apply obind_ret in H as (rd' & _ & H). injection H as <- _ <-. intros f' ->%write_all_appends.
    split; [done|]. split; [done|]. eexists. split; [done|]. destruct Hch as (Hc & _ & _ & Hbr & _). split; cbn; try done; [by rewrite Hend|].
    rewrite Hbr, Hf. pose proof (zlen_nonneg (ch_bytes ch)). pose proof (ai_read _ _ Ha). rewrite slice_app by lia. f_equal. by rewrite Hc at 1.
  - destruct Hch as [-> _]. destruct Hs as [Hs|Hs]; cbn [r_state] in H; rewrite Hs in H.
    + injection H as <- _ <-. split; [done|]. split; [done|]. eexists. split; [done|]. split; cbn; auto.
    + destruct (bool_decide _ && _) eqn:Hb; injection H as <- _ <-.
      * split; [done|]. apply andb_true_iff in Hb as [Hb1%bool_decide_eq_true Hb2]. cbn in Hb1, Hb2. injection Hb1 as Hb1.
        rewrite Hf. f_equal. lia.
      * split; [done|]. split; [done|]. eexists. split; [done|]. split; cbn; auto.
Qed.

Lemma loop_holds fuel f finished chunks f' finished' chunks' : reader_holds f chunks -> finished = false ->
  chunk_loop fuel USIZE_MAX (while_ok (file_chunk write_all)) (f, finished) chunks = Some (Ret ((f', finished'), chunks')) ->
  if finished' then oc_state chunks' = Finished /\ f' = slice stream 0 size else reader_holds f' chunks'.
Proof.
  revert f finished chunks. induction fuel as [|fuel IH]; intros f finished chunks Hh Hfin; [done|]. cbn [chunk_loop].
  destruct (RecvStream.next USIZE_MAX chunks) as [[c1 res]|] eqn:Hn; [|done]. cbn [obind].
  pose proof (next_holds _ _ _ _ Hh Hn) as Hres. destruct res as [[ch|]|e]; cbn [while_ok fst snd obind].
  - unfold file_chunk. destruct (write_all f (ch_bytes ch)) as [f1|] eqn:Hw; cbn [unwrap obind]; [|done].
    apply IH; [by apply Hres|done].
  - by intros [= <- <- <-].
  - intros [= <- <- <-]. by rewrite Hfin.
Qed.

Lemma for_chunks_holds f chunks f' finished chunks' : reader_holds f chunks ->
  for_chunks USIZE_MAX (while_ok (file_chunk write_all)) (f, false) chunks = Ret ((f', finished), chunks') ->
  if finished then oc_state chunks' = Finished /\ f' = slice stream 0 size else reader_holds f' chunks'.
Proof.
  unfold for_chunks. intros Hh. destruct (chunk_loop _ _ _ _ _) as [[r|]|] eqn:Hl; [|done..]. cbn. intros [= ->].
  by eapply loop_holds.
Qed.

(** *** One event *)
Lemma close_is_closed now code reason c c' : Connection.close now code reason c = Ret c' -> State.is_closed (c_state c') = true.
Proof.
  unfold Connection.close. destruct (State.is_closed (c_state c)) eqn:Hc; cbn [negb]; [by intros [= <-]|].
  intros H. apply obind_ret in H as (c1 & _ & H). by injection H as <-.
Qed.

(** Reading the stream of the file. *)
Lemma read_holds f c c1 r : streams_inv f (c_streams c) -> read sid true c = Ret (c1, r) ->
  c_state c1 = c_state c /\
  match r with
  | Ok chunks => reader_holds f chunks /\ ss_recv (c_streams c1) !! sid = None
  | Err _ => c_streams c1 = c_streams c /\ f = []
  end.
Proof.
  intros Hinv. unfold read, Connection.recv_stream. intros H. apply obind_ret in H as ([ss p] & H1 & H).
  apply obind_ret in H1 as (u & _ & H1). injection H1 as <- <-. apply obind_ret in H as ([ss r'] & H1 & H). injection H as <- <-.
  split; [done|]. unfold RecvStream.read, streams_inv in *. destruct (ss_recv (c_streams c) !! sid) as [rs|]; [|by injection H1 as <- <-].
  rewrite (sh_open _ _ Hinv) in H1. apply obind_ret in H1 as (e & He & H1).
  assert (e = Ok tt) as ->.
  { revert He. unfold Assembler.ensure_ordering. cbn [andb negb]. rewrite (ai_ordered _ _ (sh_asm _ _ Hinv)). by intros [= <-]. }
  injection H1 as <- <-. cbn. rewrite lookup_delete_eq. split; [|done]. split; [done|]. split; [done|]. by exists rs.
Qed.

Lemma handler_holds now f event c f' c' : about_file event -> streams_inv f (c_streams c) ->
  client_cc write_all now f event c = Ret (f', c') ->
  (streams_inv f' (c_streams c') /\ c_state c' = c_state c) \/
  (f' = slice stream 0 size /\ State.is_closed (c_state c') = true).
Proof.
  intros Habout Hinv. destruct event as [|e|[id|id|id code]]; cbn [client_cc]; try (intros [= <- <-]; by left).
  cbn in Habout. subst id. intros H. apply obind_ret in H as ([c1 r] & Hr & H).
  destruct (read_holds _ _ _ _ Hinv Hr) as [Hst Hres]. destruct r as [chunks|e].
  - destruct Hres as [Hh Hnone]. apply obind_ret in H as ([[f1 finished] chunks'] & Hl & H).
    pose proof (for_chunks_holds _ _ _ _ _ Hh Hl) as Hl'. destruct finished.
    + apply obind_ret in H as (c2 & Hcl & H). injection H as -> ->. right. split; [by apply Hl'|]. by eapply close_is_closed.
    + injection H as -> <-. left. destruct Hl' as (Hid & _ & rs & Hrs & Hh'). split; [|done].
      unfold streams_inv, drop_chunks, RecvStream.drop. rewrite Hrs, Hid. cbn. by rewrite lookup_insert_eq.
  - destruct Hres as [Hs ->]. injection H as <- <-. left. by rewrite Hs.
Qed.

Lemma data_frame_holds now id len frame f c c' r : content_frame frame -> streams_inv f (c_streams c) ->
  Connection.data_frame now id len (FStream frame) c = Ret (c', r) -> streams_inv f (c_streams c').
Proof.
  intros Hc Hinv. cbn [Connection.data_frame]. intros H. apply obind_ret in H as ([ss res] & Hr & H). injection H as <- _.
  cbn. by eapply received_inv.
Qed.

Lemma transfer_holds x y : rtc transfer_step x y -> streams_inv x.1 (c_streams x.2) -> streams_inv y.1 (c_streams y.2).
Proof.
  induction 1 as [|x y z Hs _ IH]; [done|]. intros Hinv. apply IH. clear IH. destruct Hs as [f c now id len frame c' r Hc Hd|f c now event f' c' Ha He Hopen|f c c' Hs]; cbn [fst snd] in *.
  - exact (data_frame_holds _ _ _ _ _ _ _ _ Hc Hinv Hd).
  - destruct (handler_holds _ _ _ _ _ _ Ha Hinv He) as [[Hi _]|[_ Hcl]]; [done|congruence].
  - unfold streams_inv in *. by rewrite Hs.
Qed.

Lemma stream_holds_prefix f r : stream_holds f r -> f = slice stream 0 (zlen f) /\ zlen f <= size.
Proof.
  intros [Ha He _ _ Hf]. pose proof (ai_read _ _ Ha) as Hr. assert (Hz : zlen f = bytes_read (assembler r)) by (rewrite Hf; apply zlen_slice; lia).
  rewrite Hz. split; [done|lia].
Qed.

(** *** When everything is there *)

(** All bytes of the file that were not read are buffered, and its size is known. *)
Record all_there (r : Recv) : Prop := {
  at_bytes : forall y, bytes_read (assembler r) <= y < size -> holds (a_data (assembler r)) y;
  at_size : r_state r = RsRecv (Some size);
  at_end : r_end r = size;
}.

Lemma next_full f r chunks : stream_holds f r -> all_there r -> oc_id chunks = sid -> oc_ordered chunks = true ->
  oc_state chunks = Readable r -> 0 <= oc_read chunks <= bytes_read (assembler r) ->
  exists chunks' res, RecvStream.next USIZE_MAX chunks = Ret (chunks', res) /\
    match res with
    | Ok (Some ch) => oc_id chunks' = sid /\ oc_ordered chunks' = true /\ exists r', oc_state chunks' = Readable r' /\ all_there r' /\
        0 <= oc_read chunks' <= bytes_read (assembler r')
    | Ok None => True
    | Err _ => False
    end.
Proof.
  intros [Ha He _ _ _] [Hb Hs Hend] Hid Hord Hr Hrd. unfold RecvStream.next. rewrite Hr, Hord. cbn [Chunks.next].
  destruct (read_spec stream USIZE_MAX (assembler r) Ha) as (a' & ch & Hread & Ha' & _ & _ & Hch); [done|]. rewrite Hread. cbn [obind].
  destruct ch as [ch|].
  - destruct Hch as (_ & _ & _ & Hbr & Hcov). pose proof (zlen_nonneg (ch_bytes ch)). pose proof (ai_read _ _ Ha'). pose proof (ai_end _ _ Ha').
    rewrite u64_add_ok by varint_lia. cbn [obind]. eexists _, _. split; [done|]. split; [done|]. split; [done|]. eexists. split; [done|].
    split; [split; cbn; try done|cbn; lia].
    intros y Hy. assert (Hhy : holds (a_data (assembler r)) y) by (apply Hb; lia). apply Hcov in Hhy as [Hhy|Hhy]; [lia|done].
  - destruct Hch as [-> Hno]. cbn [r_state]. rewrite Hs. cbn [r_end]. rewrite Hend.
    assert (Hsz : bytes_read (assembler r) = size).
    { pose proof (ai_read _ _ Ha). destruct (Z.lt_ge_cases (bytes_read (assembler r)) size); [|lia]. exfalso. apply Hno, Hb. lia. }
    rewrite bool_decide_eq_true_2, Hsz, Z.eqb_refl by done. cbn [andb]. by eexists _, _.
Qed.

Context (write_all_works : forall f d, write_all f d <> None).

Lemma loop_completes fuel f r chunks : stream_holds f r -> all_there r -> oc_id chunks = sid -> oc_ordered chunks = true ->
  oc_state chunks = Readable r -> 0 <= oc_read chunks <= bytes_read (assembler r) ->
  chunk_loop fuel USIZE_MAX (while_ok (file_chunk write_all)) (f, false) chunks <> None ->
  exists chunks', chunk_loop fuel USIZE_MAX (while_ok (file_chunk write_all)) (f, false) chunks = Some (Ret ((slice stream 0 size, true), chunks')) /\
    oc_state chunks' = Finished.
Proof.
  revert f r chunks. induction fuel as [|fuel IH]; intros f r chunks Hh Ht Hid Hord Hr Hrd; [done|].
  destruct (next_full f r chunks Hh Ht Hid Hord Hr Hrd) as (c1 & res & Hn & Hres).
  assert (Hrh : reader_holds f chunks) by (split; [done|split; [done|by exists r]]).
  pose proof (next_holds _ _ _ _ Hrh Hn) as Hnh. cbn [chunk_loop]. rewrite Hn. cbn [obind].
  destruct res as [[ch|]|e]; cbn [while_ok fst snd obind]; [|intros _; destruct Hnh as [Hfin ->]; by eexists|done].
  unfold file_chunk. destruct (write_all f (ch_bytes ch)) as [f1|] eqn:Hw; [|by apply write_all_works in Hw].
  cbn [unwrap obind]. destruct (Hnh f1 eq_refl) as (Hid1 & Hord1 & r1 & Hr1 & Hh1).
  destruct Hres as (_ & _ & r1' & Hr1' & Ht1 & Hrd1). assert (r1' = r1) as -> by congruence. by apply (IH f1 r1).
Qed.
End Transfer.

(** ** Properties *)

(** The file transfer writes the file that was sent.  Let the stream be new
    at first, and let anything happen to the connection: frames with parts of
    the file arrive in any order, cut and repeated in any way, the handler gets
    events, and all other streams and packets do what they do.  Then what was
    written is at any time a prefix of the file that was sent; and when an
    event makes the handler close the connection, it is the whole file. *)
Theorem transfer_writes_the_file (stream : Z -> Z) (size : Z) (sid : StreamId)
    (write_all : list Z -> list Z -> option (list Z)) (c0 c : Connection) (f : list Z) :
  0 <= size <= VARINT_MAX -> (forall f d f', write_all f d = Some f' -> f' = f ++ d) ->
  ss_recv (c_streams c0) !! sid = None -> rtc (transfer_step stream size sid write_all) ([], c0) (f, c) ->
  (f = slice stream 0 (zlen f) /\ zlen f <= size) /\
  forall now f' c', State.is_closed (c_state c) = false ->
    client_cc write_all now f (EvStream (EvReadable sid)) c = Ret (f', c') ->
    State.is_closed (c_state c') = true -> f' = slice stream 0 size.
Proof.
  intros Hsize Hw Hnone Hr. pose proof (transfer_holds _ _ _ _ Hsize Hw _ _ Hr) as Hinv. cbn [fst snd] in Hinv.
  assert (Hstart : streams_inv stream size sid [] (c_streams c0)) by (unfold streams_inv; by rewrite Hnone). specialize (Hinv Hstart). split.
  - unfold streams_inv in Hinv. destruct (ss_recv (c_streams c) !! sid) as [r|]; [by eapply stream_holds_prefix|].
    subst f. by split; [|rewrite zlen_nil; lia].
  - intros now f' c' Hopen Hh Hcl. destruct (handler_holds _ _ _ _ Hw now f (EvStream (EvReadable sid)) c f' c' eq_refl Hinv Hh) as [[_ Hs]|[Hf _]]; [congruence|done].
Qed.

(** A file of six bytes on the first unidirectional stream of a server. *)
Definition sample_file (y : Z) : Z := (5 * y + 7) mod 256.
Definition append (f d : list Z) : option (list Z) := Some (f ++ d).
Definition open_client : Connection := with_state Established sample_client.
Definition part1 : Stream := {| st_id := 3; st_offset := 0; st_fin := false; st_data := slice sample_file 0 4 |}.
Definition part2 : Stream := {| st_id := 3; st_offset := 4; st_fin := true; st_data := slice sample_file 4 2 |}.

Lemma part1_content : content_frame sample_file 6 3 part1.
Proof. by split; vm_compute. Qed.
Lemma part2_content : content_frame sample_file 6 3 part2.
Proof. by split; vm_compute. Qed.

(** The first part, an event for it, and the second part. *)
Definition halfway : outcome (list Z * Connection * Connection * Connection * Connection.next_frame * Connection.next_frame) :=
  let! '(c1, r1) := Connection.data_frame 5 SpData 9 (FStream part1) open_client in
  let! '(f, c2) := client_cc append 6 [] (EvStream (EvReadable 3)) c1 in
  let! '(c3, r2) := Connection.data_frame 7 SpData 9 (FStream part2) c2 in
  Ret (f, c1, c2, c3, r1, r2).

Lemma transfer_writes_the_file_witness : exists f c f' c', zlen f = 4 /\
  client_cc append 8 f (EvStream (EvReadable 3)) c = Ret (f', c') /\ f' = slice sample_file 0 6.
Proof.
  assert (Hsize : 0 <= 6 <= VARINT_MAX) by (vm_compute; intuition congruence).
  destruct halfway as [[[[[[f c1] c2] c3] r1] r2]|] eqn:Hh; [|exfalso; vm_compute in Hh; discriminate].
  destruct (client_cc append 8 f (EvStream (EvReadable 3)) c3) as [[f' c']|] eqn:Hf.
  2: { exfalso. vm_compute in Hh. injection Hh as <- _ _ <- _ _. vm_compute in Hf. discriminate. }
  exists f, c3, f', c'. split; [vm_compute in Hh; injection Hh as <- _ _ _ _ _; reflexivity|]. split; [exact Hf|].
  assert (Hr : rtc (transfer_step sample_file 6 3 append) ([], open_client) (f, c3)).
  { unfold halfway in Hh. apply obind_ret in Hh as ([d1 q1] & H1 & Hh). apply obind_ret in Hh as ([g d2] & H2 & Hh).
    apply obind_ret in Hh as ([d3 q2] & H3 & Hh). injection Hh as <- <- <- <- <- <-.
    eapply rtc_l; [by eapply transfer_frame; [exact part1_content|exact H1]|].
    eapply rtc_l; [apply (transfer_event sample_file 6 3 append [] d1 6 (EvStream (EvReadable 3)) g d2 eq_refl H2)|].
    - vm_compute in H1. injection H1 as <- _. vm_compute in H2. injection H2 as _ <-. reflexivity.
    - apply rtc_once. eapply transfer_frame; [exact part2_content|exact H3]. }
  assert (Happ : forall g d g', append g d = Some g' -> g' = g ++ d) by (unfold append; congruence).
  apply (proj2 (transfer_writes_the_file sample_file 6 3 append open_client c3 f Hsize Happ eq_refl Hr) 8 f' c').
  - vm_compute in Hh. injection Hh as _ _ _ <- _ _. reflexivity.
  - exact Hf.
  - vm_compute in Hh. injection Hh as <- _ _ <- _ _. vm_compute in Hf. injection Hf as _ <-. reflexivity.
Defined.

(** Reading a stream that is there and was not stopped. *)
Lemma read_present id c r : StreamId.initiator id <> side c -> ss_recv (c_streams c) !! id = Some r -> stopped r = false ->
  a_state (assembler r) = Ordered ->
  read id true c = Ret (Connection.with_handle (StreamsState.with_recv (delete id (ss_recv (c_streams c))) (c_streams c))
                          (Space.pending (space_of c SpData)) c, Ok (mkChunks id true (Readable r) 0)).
Proof.
  intros Hside Hr Hst Ho. unfold read, Connection.recv_stream. rewrite (bool_decide_eq_true_2 (_ <> _)), orb_true_r by done.
  cbn [assert obind]. unfold RecvStream.read. rewrite Hr, Hst. unfold Assembler.ensure_ordering. by rewrite Ho.
Qed.

(** The file transfer ends.  Once all bytes of the file that the client has
    not read are buffered and the FIN has been seen, the next event for the
    stream writes all the rest of the file at once, whatever its length, and
    closes the connection. *)
Theorem transfer_completes (stream : Z -> Z) (size : Z) (sid : StreamId) (write_all : list Z -> list Z -> option (list Z))
    (now : Instant) (f : list Z) (c : Connection) (r : Recv) :
  0 <= size <= VARINT_MAX -> (forall f d, write_all f d = Some (f ++ d)) ->
  StreamId.initiator sid <> side c -> State.is_closed (c_state c) = false -> now + Connection.CLOSE_TIMEOUT < INSTANT_END ->
  ss_recv (c_streams c) !! sid = Some r -> stream_holds stream size f r -> all_there size r ->
  exists c', client_cc write_all now f (EvStream (EvReadable sid)) c = Ret (slice stream 0 size, c') /\
    State.is_closed (c_state c') = true /\ State.is_drained (c_state c') = false /\ side c' = side c /\
    c_streams c' = StreamsState.with_recv (delete sid (ss_recv (c_streams c))) (c_streams c).
Proof.
  intros Hsize Hw Hside Hopen Hnow Hr Hh Ht. cbn [client_cc]. rewrite (read_present sid c r); [|done|done|apply Hh|apply Hh].
  cbn [obind]. set (chunks := mkChunks sid true (Readable r) 0).
  pose proof (chunk_loop_enough USIZE_MAX (while_ok (file_chunk write_all)) eq_refl (while_ok_stops _) (chunk_fuel chunks) (f, false) chunks
    (Nat.le_refl _)) as Hfuel.
  assert (Happ : forall f d f', write_all f d = Some f' -> f' = f ++ d) by (intros f1 d f'; rewrite Hw; congruence).
  assert (Hworks : forall f d, write_all f d <> None) by (intros f1 d; by rewrite Hw).
  assert (Hrd : 0 <= 0 <= bytes_read (assembler r)) by (split; [done|apply (ai_read _ _ (sh_asm _ _ _ _ Hh))]).
  destruct (loop_completes stream size sid write_all Happ Hworks _ f r chunks Hh Ht eq_refl eq_refl eq_refl Hrd Hfuel) as (chunks' & Hloop & Hfin).
  unfold for_chunks. fold chunks. rewrite Hloop. cbn [default from_option obind id]. unfold drop_chunks, RecvStream.drop. rewrite Hfin.
  unfold Connection.close. set (c1 := Connection.with_handle _ _ _). assert (c_state c1 = c_state c) as -> by done. rewrite Hopen. cbn [negb].
  unfold Connection.set_close_timer. rewrite inst_add_ok by done. cbn [obind]. eexists. by split_and!.
Qed.

(** The stream of [part1] and [part2], before anything was read. *)
Definition all_received : outcome Connection :=
  let! '(c, _) := Connection.data_frame 5 SpData 9 (FStream part1) open_client in
  let! '(c, _) := Connection.data_frame 7 SpData 9 (FStream part2) c in
  Ret c.

Definition part_buffer (off n : Z) : Buffer := mkBuffer off (slice sample_file off n) 9 false.
Definition both_parts : Recv :=
  mkRecv (RsRecv (Some 6)) (mkAssembler Ordered [part_buffer 0 4; part_buffer 4 2] 6 18 0 6) 6 false.

Lemma both_parts_hold y : holds [part_buffer 0 4; part_buffer 4 2] y <-> 0 <= y < 6.
Proof.
  rewrite !holds_cons. unfold bf_end, bf_len, part_buffer. cbn [bf_bytes bf_offset]. rewrite !zlen_slice by lia.
  split; [intros [?|[?|[]%holds_nil]]; lia|lia].
Qed.

Lemma buffer_ok_slice stream off n alloc d : 0 < n -> n <= alloc -> off + n <= VARINT_MAX ->
  buffer_ok stream (mkBuffer off (slice stream off n) alloc d).
Proof. intros. split; unfold bf_end, bf_len; cbn [bf_bytes bf_offset bf_allocation_size]; rewrite zlen_slice by lia; [done|lia|lia]. Qed.

Lemma both_parts_of_file : stream_holds sample_file 6 [] both_parts.
Proof.
  split; [split| | |by right| ]; try (vm_compute; reflexivity); try (vm_compute; intuition congruence).
  - unfold both_parts. cbn [assembler a_data bytes_read chain bf_offset].
    split; [done|]. split; [by apply buffer_ok_slice|]. split; [done|]. split; [by apply buffer_ok_slice|done].
  - intros y Hy%both_parts_hold. cbn. lia.
Qed.

Lemma both_parts_there : all_there 6 both_parts.
Proof. split; [|done|done]; intros y Hy; by apply both_parts_hold. Qed.

Lemma transfer_completes_witness : exists c c', all_received = Ret c /\
  client_cc append 8 [] (EvStream (EvReadable 3)) c = Ret (slice sample_file 0 6, c') /\ State.is_closed (c_state c') = true.
Proof.
  destruct all_received as [c|] eqn:Hc; [|exfalso; vm_compute in Hc; discriminate]. exists c.
  assert (Hc0 : side c = Client /\ State.is_closed (c_state c) = false /\ ss_recv (c_streams c) !! 3 = Some both_parts)
    by (vm_compute in Hc; injection Hc as <-; vm_compute; repeat split).
  destruct Hc0 as (Hside & Hopen & Hr0).
  destruct (transfer_completes sample_file 6 3 append 8 [] c both_parts) as (c' & Hr & Hcl & _);
    [vm_compute; intuition congruence|reflexivity|rewrite Hside; discriminate|exact Hopen|reflexivity|exact Hr0|exact both_parts_of_file|exact both_parts_there|].
  exists c'. split; [reflexivity|]. split; [exact Hr|exact Hcl].
Defined.

(** The stream of a first frame that was read. *)
Definition after_first_read (data : list Z) : Recv :=
  mkRecv (RsRecv None) (mkAssembler Ordered [] 0 0 (zlen data) (zlen data)) (zlen data) false.

Lemma first_part_read sid (write_all : list Z -> list Z -> option (list Z)) data f now len c :
  (forall f d, write_all f d = Some (f ++ d)) -> StreamId.initiator sid <> side c ->
  ss_recv (c_streams c) !! sid = Some (after_first_frame data len) -> data <> [] -> zlen data < 2 ^ 62 -> zlen data <= len < U64 ->
  client_cc write_all now f (EvStream (EvReadable sid)) c =
    Ret (f ++ data, with_streams (StreamsState.with_recv (<[sid := after_first_read data]> (ss_recv (c_streams c))) (c_streams c))
                      (Connection.with_handle (c_streams c) (Space.pending (space_of c SpData)) c)).
Proof.
  intros Hw Hside Hr Hne Hmax Hlen. cbn [client_cc]. erewrite read_present; [|done|exact Hr|done|done]. cbn [obind].
  pose proof (zlen_nonneg data). assert (Hk : exists k, chunk_fuel (mkChunks sid true (Readable (after_first_frame data len)) 0) = S (S k)).
  { unfold chunk_fuel. cbn. by eexists. }
  destruct Hk as [k Hk]. unfold for_chunks. rewrite Hk. cbn [chunk_loop]. unfold RecvStream.next, Chunks.next, Assembler.read.
  cbn -[u64_add u64_sub USIZE_MAX]. destruct (Z.ltb_spec USIZE_MAX (zlen data)) as [Hbig|_]; [unfold USIZE_MAX in Hbig; u64_lia|].
  rewrite !u64_add_ok by u64_lia. cbn -[u64_add u64_sub]. rewrite !u64_sub_ok by lia. cbn -[u64_add]. rewrite u64_add_ok by u64_lia.
  cbn -[bytes_of Connection.close]. unfold file_chunk. rewrite Hw. cbn -[bytes_of Connection.close].
  rewrite (bool_decide_eq_false_2 (None = _)) by done. cbn -[bytes_of Connection.close].
  unfold drop_chunks, RecvStream.drop, StreamsState.with_recv. cbn. rewrite insert_delete_eq.
  unfold after_first_read. rewrite !Z.sub_diag, !Z.add_0_l. done.
Qed.

(** *** A first frame that comes again *)

(** What leaves the stream alone: it is not opened, read or stopped. *)
Record leaves_stream (sid : StreamId) (c c' : Connection) : Prop := {
  lv_recv : ss_recv (c_streams c') !! sid = ss_recv (c_streams c) !! sid;
  lv_side : side c' = side c;
  lv_streams_side : ss_side (c_streams c') = ss_side (c_streams c);
}.

(** A datagram that is a packet of the Data space with a number that is new to
    the connection, and with one STREAM frame. *)
Definition brings {B} `{Buf B} (d : B) (c : Connection) (frame : Stream) : Prop := exists h pn k p dd,
  Header.decode d (zlen FAKE_CID) SUPPORTED_VERSIONS = Ret (Ok (h, p)) /\ Header.space h = SpData /\ Header.number h = Some pn /\
  (let! expected := u64_add (rx_packet (space_of c SpData)) 1 in PacketNumber.expand pn expected) = Ret k /\
  Dedup_insert (dedup (space_of c SpData)) k = Ret (dd, false) /\
  parse_payload p = Ret (Ok [Ok (FStream frame)]) /\ remaining p < U64.

(** A closed connection that is not drained handles the frame. *)
Lemma closed_handles {B} `{BufBytes B} now (d : B) c frame : State.is_closed (c_state c) = true -> State.is_drained (c_state c) = false ->
  brings d c frame -> exists len c1, zlen (st_data frame) <= len < U64 /\ c_streams c1 = c_streams c /\ side c1 = side c /\ c_state c1 = c_state c /\
    forall c2, Connection.data_frame now SpData len (FStream frame) c1 = Ret (c2, Connection.GoOn) -> c_state c2 = c_state c ->
      Connection.handle_data now d c = Ret c2.
Proof.
  intros Hcl Hdr (h & pn & k & p & dd & Hdec & Hsp & Hnum & Hk & Hdup & Hp & Hlen).
  set (c1 := with_space SpData (space_with_rx dd (rx_packet (space_of c SpData)) (space_of c SpData)) c).
  exists (remaining p), c1. split; [split; [|done]|].
  { by apply (parse_payload_stream p [Ok (FStream frame)] frame Hp), list_elem_of_singleton. }
  split; [done|]. split; [done|]. split; [done|]. intros c2 Hd Hst. unfold Connection.handle_data. rewrite Hdec. cbn [obind]. rewrite Hsp, Hnum.
  apply obind_ret in Hk as (e & -> & Hk). cbn [obind]. rewrite Hk. cbn [obind]. rewrite Hdup. cbn [obind]. fold c1.
  assert (Hc1 : c_state c1 = c_state c) by done. assert (Hhs : State.is_handshake (c_state c1) = false) by (rewrite Hc1; by destruct (c_state c)).
  rewrite Hhs. cbn [andb]. unfold Connection.handle_packet, Connection.process_packet, Connection.process_payload. cbn [header payload].
  rewrite Hc1, Hcl, Hsp. cbn [negb obind]. pose proof (process_frames_fold (Connection.data_frame now SpData (remaining p)) p c1) as Hf.
  rewrite Hp in Hf. rewrite Hf. cbn [handle_frames]. rewrite Hd. cbn [obind handle_frames fst snd].
  unfold Connection.conclude. cbn [negb andb obind]. by rewrite Hst, Hdr, andb_false_r.
Qed.

(** C21: A repeated first frame spoils the file.  When all of the file is there
    the next event makes the client write it and close the connection; the
    stream is forgotten with that.  From then on, whatever happens that leaves
    the stream alone, while the connection is closed but not drained, and so
    still gets datagrams: a datagram that repeats a first part of the file is
    handled as the start of a new stream, the application is told that it is
    readable, and when it hears of it, whatever else has happened, the handler
    appends the part to the file once more. *)
Theorem late_first_frame_spoils_file {B : Type} `{BufBytes B} (stream : Z -> Z) (size : Z) (sid : StreamId)
    (write_all : list Z -> list Z -> option (list Z)) (now : Instant) (f : list Z) (c : Connection) (r : Recv) :
  0 <= size <= VARINT_MAX -> (forall f d, write_all f d = Some (f ++ d)) ->
  StreamId.initiator sid <> side c -> ss_side (c_streams c) = side c ->
  State.is_closed (c_state c) = false -> now + Connection.CLOSE_TIMEOUT < INSTANT_END ->
  ss_recv (c_streams c) !! sid = Some r -> stream_holds stream size f r -> all_there size r ->
  exists c1, client_cc write_all now f (EvStream (EvReadable sid)) c = Ret (slice stream 0 size, c1) /\
    State.is_closed (c_state c1) = true /\ State.is_drained (c_state c1) = false /\ ss_recv (c_streams c1) !! sid = None /\
    forall c2 now2 (d : B) m, leaves_stream sid c1 c2 -> State.is_closed (c_state c2) = true -> State.is_drained (c_state c2) = false ->
      0 < m <= size ->
      brings d c2 {| st_id := sid; st_offset := 0; st_fin := false; st_data := slice stream 0 m |} ->
      exists c3, Connection.handle_data now2 d c2 = Ret c3 /\ c_state c3 = c_state c2 /\
        events (c_streams c3) = events (c_streams c2) ++ [EvStream (EvReadable sid)] /\
        forall c4 now4, leaves_stream sid c3 c4 ->
          exists c5, client_cc write_all now4 (slice stream 0 size) (EvStream (EvReadable sid)) c4 =
            Ret (slice stream 0 size ++ slice stream 0 m, c5).
Proof.
  intros Hsize Hw Hside Hss Hopen Hnow Hr Hh Ht.
  destruct (transfer_completes stream size sid write_all now f c r) as (c1 & Hc1 & Hcl & Hdr & Hs1 & Hst1); try done.
  assert (Hgone : ss_recv (c_streams c1) !! sid = None) by (rewrite Hst1; cbn; apply lookup_delete_eq).
  exists c1. split; [done|]. split; [done|]. split; [done|]. split; [done|]. intros c2 now2 d m [L1 L2 L3] Hcl2 Hdr2 Hm Hb.
  destruct (closed_handles now2 d c2 _ Hcl2 Hdr2 Hb) as (len & c2' & Hlen & Hst2 & Hs2 & Hstate & Hd). cbn [st_data] in Hlen.
  assert (Hz : zlen (slice stream 0 m) = m) by (apply zlen_slice; lia). rewrite Hz in Hlen.
  assert (Hne : slice stream 0 m <> []) by (intros He; rewrite He, zlen_nil in Hz; lia).
  assert (Hrec : exists ss, StreamsState.received {| st_id := sid; st_offset := 0; st_fin := false; st_data := slice stream 0 m |} len (c_streams c2') =
    Ret (ss, Ok tt) /\ events ss = events (c_streams c2) ++ [EvStream (EvReadable sid)] /\
    ss_recv ss !! sid = Some (after_first_frame (slice stream 0 m) len)).
  { rewrite Hst2, first_frame_received; [|rewrite L3, Hst1; cbn; congruence|by rewrite L1|done|rewrite Hz; varint_lia|by rewrite Hz].
    eexists. split; [done|]. split; [done|]. cbn. apply lookup_insert_eq. }
  destruct Hrec as (ss & Hrec & Hev & Hrs). exists (with_streams ss c2').
  split; [apply Hd; [cbn [Connection.data_frame]; by rewrite Hrec|exact Hstate]|]. split; [exact Hstate|]. split; [done|].
  intros c4 now4 [L4 L5 _]. eexists. apply (first_part_read sid write_all (slice stream 0 m) (slice stream 0 size) now4 len); try done.
  - rewrite L5. cbn. rewrite Hs2, L2, Hs1. done.
  - by rewrite L4.
  - rewrite Hz. varint_lia.
  - by rewrite Hz.
Qed.

(** After the transfer of [part1] and [part2], a round of the loop that sends
    the close; and a packet with [part1] again. *)
Definition transferred : outcome (Connection * list Z * Connection * Connection) :=
  let! c := all_received in
  let! '(f, c1) := client_cc append 8 [] (EvStream (EvReadable 3)) c in
  let! '(_, c2) := round (client_handler append 0 FileTransfer) 9 (sample_round 9 None) f c1 in
  Ret (c, f, c1, c2).
Definition part1_again : in_memory := InMemory ([64] ++ FAKE_CID ++ [5; 10; 3; 4] ++ slice sample_file 0 4) eq_refl.

(** What is read off the connections of [transferred]. *)
Record transferred_facts (c : Connection) (f : list Z) (c1 c2 : Connection) : Prop := {
  tf_client : side c = Client /\ ss_side (c_streams c) = Client /\ State.is_closed (c_state c) = false;
  tf_stream : ss_recv (c_streams c) !! 3 = Some both_parts;
  tf_file : f = slice sample_file 0 6;
  tf_same : side c1 = Client /\ side c2 = Client /\ ss_side (c_streams c1) = Client /\ ss_side (c_streams c2) = Client;
  tf_gone : ss_recv (c_streams c1) !! 3 = None /\ ss_recv (c_streams c2) !! 3 = None;
  tf_closed : State.is_closed (c_state c2) = true /\ State.is_drained (c_state c2) = false;
  tf_numbers : rx_packet (space_of c2 SpData) = 0 /\ dedup (space_of c2 SpData) = Dedup_new;
}.

Lemma transferred_as_expected : exists c f c1 c2, transferred = Ret (c, f, c1, c2) /\ transferred_facts c f c1 c2 /\
  client_cc append 8 [] (EvStream (EvReadable 3)) c = Ret (f, c1).
Proof.
  destruct transferred as [[[[c f] c1] c2]|] eqn:Ht; [|exfalso; vm_compute in Ht; discriminate]. exists c, f, c1, c2. split; [done|]. split.
  - vm_compute in Ht. injection Ht as <- <- <- <-. split; vm_compute; by repeat split.
  - unfold transferred in Ht. apply obind_ret in Ht as (c0 & _ & Ht). apply obind_ret in Ht as ([g d1] & Hd & Ht).
    apply obind_ret in Ht as ([g' d2] & _ & Ht). by injection Ht as -> -> -> _.
Qed.

Lemma brings_part1 c : rx_packet (space_of c SpData) = 0 -> dedup (space_of c SpData) = Dedup_new -> brings part1_again c part1.
Proof.
  intros Hrx Hd. unfold brings. rewrite Hrx, Hd. destruct (Header.decode part1_again (zlen FAKE_CID) SUPPORTED_VERSIONS) as [[[h p]|e]|] eqn:Hdec;
    [|exfalso; vm_compute in Hdec; discriminate..].
  exists h, (PnU8 5), 5, p. vm_compute in Hdec. injection Hdec as <- <-. eexists. split_and!; by vm_compute.
Qed.

Lemma late_first_frame_spoils_file_witness : exists c f c1 c2 c3 c5, transferred = Ret (c, f, c1, c2) /\
  client_cc append 8 [] (EvStream (EvReadable 3)) c = Ret (slice sample_file 0 6, c1) /\
  Connection.handle_data 20 part1_again c2 = Ret c3 /\
  client_cc append 21 (slice sample_file 0 6) (EvStream (EvReadable 3)) c3 = Ret (slice sample_file 0 6 ++ slice sample_file 0 4, c5).
Proof.
  destruct transferred_as_expected as (c & f & c1 & c2 & Ht & [(Hs & Hss & Ho) Hr _ (Hs1 & Hs2 & Hs3 & Hs4) [Hg1 Hg2] [Hc2 Hd2] [Hn1 Hn2]] & Hcl).
  exists c, f, c1, c2. destruct (late_first_frame_spoils_file (B:=in_memory) sample_file 6 3 append 8 [] c both_parts) as (d1 & H1 & _ & _ & _ & H2).
  - vm_compute. split; discriminate.
  - reflexivity.
  - rewrite Hs. discriminate.
  - congruence.
  - exact Ho.
  - reflexivity.
  - exact Hr.
  - exact both_parts_of_file.
  - exact both_parts_there.
  - assert (d1 = c1) as -> by congruence.
    destruct (H2 c2 20 part1_again 4) as (c3 & H3 & _ & _ & H4).
    + split; congruence.
    + exact Hc2.
    + exact Hd2.
    + lia.
    + apply brings_part1; [exact Hn1|exact Hn2].
    + destruct (H4 c3 21) as (c5 & H5); [split; reflexivity|]. exists c3, c5.
      split; [exact Ht|]. split; [exact H1|]. split; [exact H3|exact H5].
Defined.

(** ** The whole transfer *)

(** What the server has after it wrote and finished a file on a new stream. *)
Record file_queued (content : list Z) (sid : StreamId) (ss : StreamsState) : Prop := {
  fq_stream : exists s, ss_send ss !! sid = Some s /\ Send.is_reset s = false /\ fin_pending s = true /\
    pending s = pending (just_written content s);
  fq_queue : exists q p, PendingStreamsQueue.pop (ss_pending ss) = (q, Some p) /\ ps_id p = sid /\
    PendingStreamsQueue.pop q = (q, None) /\ PendingStreamsQueue.iter q = [];
}.

Lemma send_stream_open id c : State.is_closed (c_state c) = false -> StreamId.dir id = Bi \/ StreamId.initiator id = side c ->
  Connection.send_stream id c = Ret (c_streams c, Space.pending (space_of c SpData), false).
Proof.
  intros Hopen Hid. unfold Connection.send_stream. rewrite Hopen.
  assert (bool_decide (StreamId.dir id = Bi) || bool_decide (StreamId.initiator id = side c) = true) as ->; [|done].
  rewrite orb_true_iff, !bool_decide_eq_true. exact Hid.
Qed.

(** The table after a stream is written and finished. *)
Definition written_and_finished (id : StreamId) (data : list Z) (prio : Z) (ss : StreamsState) : StreamsState :=
  let q := ss_pending ss in let r := q_recency q - 1 in
  StreamsState.with_pending (mkQueue (mkPendingStream prio r id :: streams q) (q_next q) r)
    (StreamsState.with_send (<[id := written_whole data prio]> (ss_send ss)) ss).

Lemma write_then_finish id data prio c : State.is_closed (c_state c) = false ->
  StreamId.dir id = Bi \/ StreamId.initiator id = side c -> ss_send (c_streams c) !! id = Some (unwritten prio) ->
  1 <= q_recency (ss_pending (c_streams c)) -> data <> [] -> zlen data <= VARINT_MAX ->
  exists c1, write id data c = Ret (c1, Ok tt) /\
    finish id c1 = Ret (Connection.with_handle (written_and_finished id data prio (c_streams c)) (Space.pending (space_of c SpData)) c, Ok tt).
Proof.
  intros Hopen Hid Hss Hrec Hne Hmax. unfold write. rewrite (send_stream_open id c Hopen Hid). cbn [obind].
  rewrite (write_first _ id data prio Hss Hrec Hmax). cbn [obind]. set (s1 := StreamsState.with_pending _ _). eexists. split; [done|].
  set (c1 := Connection.with_handle _ _ c). unfold finish. rewrite (send_stream_open id c1 Hopen Hid). change (c_streams c1) with s1. cbn [obind].
  rewrite (finish_written s1 id data prio); [|cbn; apply lookup_insert_eq|done]. cbn [obind].
  unfold c1, s1, written_and_finished, StreamsState.with_send, StreamsState.with_pending. cbn [ss_send]. by rewrite insert_insert_eq.
Qed.

Lemma open_stream_open dir c : State.is_closed (c_state c) = false -> 0 <= StreamsState.next_of dir (ss_next (c_streams c)) < U64_MAX ->
  exists ss, let id := StreamId.new (ss_side (c_streams c)) dir (StreamsState.next_of dir (ss_next (c_streams c))) in
  Connection.open_stream dir c = Ret (with_streams ss c, id) /\ ss_send ss = <[id := unwritten 0]> (ss_send (c_streams c)) /\
  ss_pending ss = ss_pending (c_streams c) /\ ss_side ss = ss_side (c_streams c) /\
  ss_next ss = StreamsState.set_next dir (StreamsState.next_of dir (ss_next (c_streams c)) + 1) (ss_next (c_streams c)).
Proof.
  intros Hopen Hidx. unfold Connection.open_stream, StreamsState.open. rewrite Hopen, u64_add_ok by u64_lia. cbn [obind].
  eexists. split; [done|]. by split_and!.
Qed.

Lemma server_queues_file content (c : Connection) : let ss := c_streams c in
  let sid := StreamId.new (ss_side ss) Uni (StreamsState.next_of Uni (ss_next ss)) in
  State.is_closed (c_state c) = false -> ss_side ss = side c -> PendingStreamsQueue.iter (ss_pending ss) = [] ->
  1 <= q_recency (ss_pending ss) -> 0 <= StreamsState.next_of Uni (ss_next ss) < 2 ^ 60 ->
  content <> [] -> zlen content <= VARINT_MAX ->
  exists c', server_cc content Connected c = Ret c' /\ file_queued content sid (c_streams c').
Proof.
  intros ss sid Hopen Hside [Hqn Hqs]%idle_queue Hrec Hidx Hne Hmax. cbn [server_cc].
  destruct (open_stream_open Uni c Hopen) as (s1 & -> & Hsend & Hpend & _); [fold ss; u64_lia|]. fold ss sid in Hsend, Hpend |- *. cbn [obind].
  assert (Hsid : StreamId.initiator sid = side c) by (rewrite <- Hside; apply StreamId_parts; lia).
  destruct (write_then_finish sid content 0 (with_streams s1 c)) as (c1 & -> & Hf); try done.
  - by right.
  - cbn. rewrite Hsend. apply lookup_insert_eq.
  - cbn. by rewrite Hpend.
  - cbn [obind unwrap_ok]. rewrite Hf. cbn [obind unwrap_ok]. eexists. split; [done|]. split; cbn; rewrite ?Hpend, ?Hqn, ?Hqs.
    + rewrite lookup_insert_eq. eexists. split; [done|]. by split_and!.
    + eexists _, _. split; [reflexivity|]. by split_and!.
Qed.

(** A loop that ends after its first turn: nothing else is queued. *)
Lemma write_only_turn {W : Type} `{BufMutLaws W} fair s (buf : W) s' buf' metas :
  PendingStreamsQueue.pop (ss_pending s') = (ss_pending s', None) ->
  StreamsState.write_turn fair (s, buf, []) = Ret (inl (s', buf', metas)) ->
  StreamsState.write_stream_frames buf fair s = Ret (s', buf', metas).
Proof.
  intros Hpop Ht. pose proof (write_turn_decreases _ _ _ Ht) as Hdec. unfold StreamsState.write_stream_frames.
  unfold turn_measure in Hdec. cbn [fst snd] in Hdec. unfold StreamsState.write_fuel.
  destruct (length (PendingStreamsQueue.iter (ss_pending s)) + Z.to_nat (remaining_mut buf))%nat as [|k] eqn:Hk; [lia|]. clear Hk.
  cbn [StreamsState.write_turns]. rewrite Ht. destruct k as [|k]; cbn [StreamsState.write_turns];
    unfold StreamsState.write_turn; (destruct (_ <? _); [done|]); rewrite Hpop; done.
Qed.

(** A file is transferred only when its size happens to be right.  The
    server writes and finishes the file when it is connected.  Let the next
    packet with room for STREAM frames have [remaining_mut buf] bytes left.
    When the file has that many bytes or more, putting it into the packet
    panics the server.  When it is at least eight bytes shorter, all of it goes
    into one frame, with the FIN, and the server has nothing more to send; but
    a client discards exactly such a frame for a stream it does not know, so
    that the application is never told of the file. *)
Theorem file_transfer_fails {B W : Type} `{BufBytes B} `{BufMutLaws W} (content : list Z) (c : Connection) (buf : W) :
  let ss := c_streams c in
  let sid := StreamId.new (ss_side ss) Uni (StreamsState.next_of Uni (ss_next ss)) in
  State.is_closed (c_state c) = false -> ss_side ss = side c -> PendingStreamsQueue.iter (ss_pending ss) = [] ->
  1 <= q_recency (ss_pending ss) -> 0 <= StreamsState.next_of Uni (ss_next ss) < 2 ^ 28 ->
  content <> [] -> zlen content <= VARINT_MAX -> StreamsState.STREAM_SIZE_BOUND <= remaining_mut buf <= VARINT_MAX_2 ->
  exists c', server_cc content Connected c = Ret c' /\
    (remaining_mut buf <= zlen content -> StreamsState.write_stream_frames buf true (c_streams c') = Panic) /\
    (zlen content + 8 <= remaining_mut buf ->
      let frame := {| st_id := sid; st_offset := 0; st_fin := true; st_data := content |} in
      exists ss' buf' bs metas, StreamsState.write_stream_frames buf true (c_streams c') = Ret (ss', buf', metas) /\
        StreamsState.can_send_stream_data ss' = false /\ written buf' = written buf ++ bs /\
        (forall fp : FrameParser B, view (fp_bytes fp) = bs ->
          exists ty b', try_next fp = Ret (Some ty, Ok (FStream frame, b')) /\ view b' = []) /\
        (forall len client, ss_side client <> ss_side ss -> ss_recv client !! sid = None ->
          StreamsState.received frame len client = Ret (client, Ok tt))).
Proof.
  intros ss sid Hopen Hside Hq Hrec Hidx Hne Hmax Hroom.
  assert (Hidx' : 0 <= StreamsState.next_of Uni (ss_next ss) < 2 ^ 60) by (split; [apply Hidx|]; etrans; [apply Hidx|done]).
  destruct (server_queues_file content c Hopen Hside Hq Hrec Hidx' Hne Hmax) as (c' & Hc & [(s & Hs & Hrst & Hfin & Hp) (q & p & Hpop & Hpid & Hq2 & Hq3)]).
  fold ss sid in Hs, Hpid. exists c'. split; [exact Hc|]. rewrite <- Hpid in Hs.
  assert (Hsid : 0 <= ps_id p <= VARINT_MAX_4 /\ StreamId.initiator sid = ss_side ss).
  { split; [|apply StreamId_parts; lia]. rewrite Hpid. unfold sid. rewrite StreamId_new_spec by lia. unfold VARINT_MAX_4.
    destruct (ss_side ss); cbn [Dir_as_u64 Side_as_u64]; lia. }
  destruct Hsid as [Hsid Hinit]. assert (Hpos : 0 < zlen content).
  { destruct content as [|x l]; [done|]. rewrite zlen_cons. pose proof (zlen_nonneg l). lia. }
  split.
  - intros Hbig. apply write_first_panics. apply (turn_overflows true _ buf [] q p s content); try done; [varint_lia|lia].
  - intros Hsmall frame.
    destruct (turn_frames_rest (B:=B) true (c_streams c') buf [] q p s content Hpop Hs Hrst Hsid) as
      (ss' & buf' & bs & s' & Ht & Hs' & Hdone & Hqs & Hwr & _ & Hparse).
    + rewrite Hp. by apply just_written_inv.
    + by rewrite Hp.
    + by rewrite Hp.
    + rewrite Hp. unfold base. cbn. lia.
    + done.
    + rewrite Hp. cbn [pending just_written offset unsent]. change (reserved 0 true) with 8. lia.
    + assert (Hu : unsent (pending s) = 0) by (by rewrite Hp). assert (Hb : base (pending s) = 0) by (rewrite Hp; unfold base; cbn; lia).
      cbn [rstart] in Hparse. rewrite Hfin, Hpid, Hb, Hu in Hparse. change (drop (Z.to_nat (0 - 0)) content) with content in Hparse.
      exists ss', buf', bs, [{| sm_id := ps_id p; sm_offsets := Range (unsent (pending s)) (offset (pending s)); sm_fin := fin_pending s |}].
      split_and!.
      * apply (write_only_turn true (c_streams c') buf ss' buf'); [by rewrite Hqs|done].
      * unfold StreamsState.can_send_stream_data. rewrite Hqs, Hq3. done.
      * done.
      * intros fp Hfp. apply (Hparse fp []). by rewrite app_nil_r.
      * intros len client Hcl Hnone. apply late_frame_dropped; cbn; [congruence|done|by right].
Qed.

Definition open_server : Connection :=
  mkConnection Server Established (path sample_client) (spaces sample_client) SpData (timers sample_client)
    (StreamsState.new Server) false false.

Lemma file_transfer_fails_witness : exists c' ss' buf' metas, server_cc [1; 2; 3] Connected open_server = Ret c' /\
  StreamsState.write_stream_frames (SliceBuf [] 100) true (c_streams c') = Ret (ss', buf', metas) /\
  StreamsState.can_send_stream_data ss' = false /\
  StreamsState.received {| st_id := 3; st_offset := 0; st_fin := true; st_data := [1; 2; 3] |} 6 (StreamsState.new Client) =
    Ret (StreamsState.new Client, Ok tt).
Proof.
  destruct (file_transfer_fails (B:=in_memory) [1; 2; 3] open_server (SliceBuf [] 100)) as (c' & Hc & _ & Hsmall).
  - reflexivity.
  - reflexivity.
  - reflexivity.
  - vm_compute. discriminate.
  - vm_compute. split; [discriminate|reflexivity].
  - discriminate.
  - vm_compute. discriminate.
  - vm_compute. split; discriminate.
  - destruct Hsmall as (ss' & buf' & bs & metas & Hw & Hd & _ & _ & Hr); [vm_compute; discriminate|].
    exists c', ss', buf', metas. split; [exact Hc|]. split; [exact Hw|]. split; [exact Hd|].
    apply (Hr 6 (StreamsState.new Client)); [discriminate|reflexivity].
Defined.
