(* ===== verification/PingPong.v ===== *)
(** * PingPong: what the handlers of [Programs] achieve and what they do not survive

    The number of pings a client writes, and the ends of streams that the
    handlers do not expect. *)
From S2P Require Import Prelude Time Buffers Common Packet Frame Timer Space Path Send Recv Streams Connection Accounting Driver Quiet Programs.

(** ** The send side of a stream under the calls of a handler *)

(** The send stream as the application sees it: what was written, and whether
    it is open for more. *)
Definition send_of (id : StreamId) (c : Connection) : option Send := ss_send (c_streams c) !! id.

Lemma send_stream_ret id c x : Connection.send_stream id c = Ret x ->
  x = (c_streams c, Space.pending (space_of c SpData), State.is_closed (c_state c)).
Proof. unfold Connection.send_stream. intros H. apply obind_ret in H as (u & _ & H). by injection H as <-. Qed.

Lemma recv_stream_ret id c x : Connection.recv_stream id c = Ret x -> x = (c_streams c, Space.pending (space_of c SpData)).
Proof. unfold Connection.recv_stream. intros H. apply obind_ret in H as (u & _ & H). by injection H as <-. Qed.

(** A successful [write] appends to an open stream, which stays open. *)
Lemma write_ok id data c c' : write id data c = Ret (c', Ok tt) -> exists s',
  ss_send (c_streams c') = <[id := s']> (ss_send (c_streams c)) /\ state s' = Ready /\
  Send.stream_offset s' = Send.stream_offset (default Send_default (send_of id c)) + zlen data.
Proof.
  unfold write. intros H. apply obind_ret in H as ([[ss p] closed] & H1 & H). apply send_stream_ret in H1. injection H1 as -> -> ->.
  apply obind_ret in H as ([ss r] & Hw & H). injection H as <- ->. unfold send_of. cbn. unfold SendStream.write in Hw.
  destruct (State.is_closed _); [done|]. set (s := default Send_default _) in *. apply obind_ret in Hw as ([s' res] & Hs & Hw).
  destruct res as [[]|e]; [|by injection Hw].
  assert (Hss : ss_send ss = <[id := s']> (ss_send (c_streams c))).
  { destruct (negb _); [apply obind_ret in Hw as (q & _ & Hw)|]; by injection Hw as <-. }
  exists s'. split; [done|]. unfold Send.write in Hs. unfold Send.is_writable in Hs.
  destruct (state s) eqn:Hst; cbn [negb] in Hs; [|by injection Hs..]. destruct (stop_reason s); [by injection Hs|].
  apply obind_ret in Hs as (b & Hb & Hs). injection Hs as <-. cbn. split; [done|]. unfold Send.stream_offset. cbn.
  unfold SendBuffer.write in Hb. outcome_inv. subst. done.
Qed.

(** A successful [finish] closes an open stream. *)
Lemma finish_ok id c c' : finish id c = Ret (c', Ok tt) -> exists s s',
  send_of id c = Some s /\ state s = Ready /\ ss_send (c_streams c') = <[id := s']> (ss_send (c_streams c)) /\ state s' <> Ready /\
  Send.stream_offset s' = Send.stream_offset s.
Proof.
  unfold finish. intros H. apply obind_ret in H as ([[ss p] closed] & H1 & H). apply send_stream_ret in H1. injection H1 as -> -> _.
  apply obind_ret in H as ([ss r] & Hf & H). injection H as <- ->. unfold send_of. cbn. unfold SendStream.finish in Hf.
  destruct (ss_send (c_streams c) !! id) as [s|] eqn:Hs; [|by injection Hf]. destruct (Send.finish s) as [s' res] eqn:Hfs.
  destruct res as [[]|e]; [|by injection Hf].
  assert (Hss : ss_send ss = <[id := s']> (ss_send (c_streams c))).
  { destruct (negb _); [apply obind_ret in Hf as (q & _ & Hf)|]; by injection Hf as <-. }
  exists s, s'. unfold Send.finish in Hfs. destruct (stop_reason s); [by injection Hfs|].
  destruct (decide (state s = Ready)); [|by injection Hfs]. injection Hfs as <-. by cbn.
Qed.

(** Reading leaves the send side alone. *)
Lemma read_send id c c1 r : read id true c = Ret (c1, r) -> ss_send (c_streams c1) = ss_send (c_streams c) /\ c_state c1 = c_state c.
Proof.
  unfold read. intros H. apply obind_ret in H as ([ss p] & H1 & H). apply recv_stream_ret in H1. injection H1 as -> ->.
  apply obind_ret in H as ([ss r'] & Hr & H). injection H as <- <-. cbn. split; [|done]. unfold RecvStream.read in Hr.
  destruct (ss_recv _ !! id) as [rs|]; [|by injection Hr as <- _]. destruct (stopped rs); [by injection Hr as <- _|].
  apply obind_ret in Hr as ([u|e] & _ & Hr); by injection Hr as <- _.
Qed.

Lemma drop_send chunks c : ss_send (c_streams (drop_chunks chunks c)) = ss_send (c_streams c).
Proof. unfold drop_chunks, RecvStream.drop. by destruct (oc_state chunks). Qed.

Lemma close_send now code reason c c' : Connection.close now code reason c = Ret c' -> c_streams c' = c_streams c.
Proof.
  unfold Connection.close. destruct (negb _); [|by intros [= <-]]. intros H. apply obind_ret in H as (c1 & H1 & H). injection H as <-.
  unfold Connection.set_close_timer in H1. apply obind_ret in H1 as (t & _ & H1). by injection H1 as <-.
Qed.

(** The calls of the handler announce nothing, and do not lead back to the
    handshake. *)
Record silent (c c' : Connection) : Prop := {
  si_events : events (c_streams c') = events (c_streams c);
  si_state : State.is_handshake (c_state c) = false -> State.is_handshake (c_state c') = false;
}.

#[export] Instance silent_preorder : PreOrder silent.
Proof. split; [done|]. intros c1 c2 c3 [] []. split; [congruence|auto]. Qed.

Lemma write_silent id data c c' r : write id data c = Ret (c', r) -> silent c c'.
Proof.
  unfold write. intros H. apply obind_ret in H as ([[ss p] closed] & H1%send_stream_ret & H). injection H1 as -> -> ->.
  apply obind_ret in H as ([ss r'] & Hw & H). injection H as <- _. split; [|done]. cbn. unfold SendStream.write in Hw.
  destruct (State.is_closed _); [by injection Hw as <- _|]. apply obind_ret in Hw as ([s' [u|e]] & _ & Hw); [|by injection Hw as <- _].
  destruct (negb _); [apply obind_ret in Hw as (q & _ & Hw)|]; by injection Hw as <- _.
Qed.

Lemma finish_silent id c c' r : finish id c = Ret (c', r) -> silent c c'.
Proof.
  unfold finish. intros H. apply obind_ret in H as ([[ss p] closed] & H1%send_stream_ret & H). injection H1 as -> -> ->.
  apply obind_ret in H as ([ss r'] & Hw & H). injection H as <- _. split; [|done]. cbn. unfold SendStream.finish in Hw.
  destruct (ss_send _ !! id) as [s|]; [|by injection Hw as <- _]. destruct (Send.finish s) as [s' [u|e]]; [|by injection Hw as <- _].
  destruct (negb _); [apply obind_ret in Hw as (q & _ & Hw)|]; by injection Hw as <- _.
Qed.

Lemma read_silent id c c1 r : read id true c = Ret (c1, r) -> silent c c1.
Proof.
  intros Hr. pose proof (read_send _ _ _ _ Hr) as [_ Hst]. split; [|by rewrite Hst]. unfold read in Hr.
  apply obind_ret in Hr as ([ss p] & H1%recv_stream_ret & Hr). injection H1 as -> ->.
  apply obind_ret in Hr as ([ss r'] & Hr & H). injection H as <- <-. cbn. unfold RecvStream.read in Hr.
  destruct (ss_recv _ !! id) as [rs|]; [|by injection Hr as <- _]. destruct (stopped rs); [by injection Hr as <- _|].
  apply obind_ret in Hr as ([u|e] & _ & Hr); by injection Hr as <- _.
Qed.

Lemma drop_silent chunks c : silent c (drop_chunks chunks c).
Proof. unfold drop_chunks, RecvStream.drop. by destruct (oc_state chunks). Qed.

Lemma close_silent now code reason c c' : Connection.close now code reason c = Ret c' -> silent c c'.
Proof.
  intros Hc. split; [by rewrite (close_send _ _ _ _ _ Hc)|]. revert Hc. unfold Connection.close.
  destruct (negb _); [|by intros [= <-]]. intros H. apply obind_ret in H as (c1 & _ & H). by injection H as <-.
Qed.

Lemma open_silent dir c c' id : Connection.open_stream dir c = Ret (c', id) -> silent c c' /\
  id = StreamId.new (ss_side (c_streams c)) dir (StreamsState.next_of dir (ss_next (c_streams c))) /\
  ss_send (c_streams c') = <[id := Send_default]> (ss_send (c_streams c)).
Proof.
  unfold Connection.open_stream. destruct (State.is_closed _); [done|]. intros H. apply obind_ret in H as ([ss id'] & Ho & H).
  injection H as <- <-. unfold StreamsState.open in Ho. apply obind_ret in Ho as (n & _ & Ho). injection Ho as <- <-. by split.
Qed.

(** ** The game of the client *)

(** [remaining] pings are left of twenty; the stream is open until then; and
    there is no other stream that the client sends on. *)
Record game (id : StreamId) (remaining : Z) (c : Connection) : Prop := {
  gm_remaining : 0 <= remaining <= 19;
  gm_written : forall s, send_of id c = Some s -> Send.stream_offset s = 4 * (20 - remaining) /\ (state s = Ready <-> 0 < remaining);
  gm_open : 0 < remaining -> is_Some (send_of id c);
  gm_only : forall i, is_Some (send_of i c) -> i = id;
}.

Lemma only_inserted id s m (m' : gmap StreamId Send) : m' = <[id := s]> m -> (forall i, is_Some (m !! i) -> i = id) ->
  forall i, is_Some (m' !! i) -> i = id.
Proof. intros -> Ho i [x [[<- _]|[_ Hx]]%lookup_insert_Some]; [done|]. apply Ho. by eexists. Qed.

Lemma write_pings_game id cnt remaining c remaining' c' :
  write_pings cnt remaining id c = Ret (remaining', c') -> 0 <= remaining <= 19 ->
  (forall s, send_of id c = Some s -> Send.stream_offset s = 4 * (20 - remaining) /\ (0 < remaining -> state s = Ready)) ->
  (0 < remaining -> is_Some (send_of id c)) -> (forall i, is_Some (send_of i c) -> i = id) ->
  remaining' = Z.max 0 (remaining - Z.of_nat cnt) /\
  (forall s, send_of id c' = Some s -> Send.stream_offset s = 4 * (20 - remaining') /\ (0 < remaining' -> state s = Ready)) /\
  (0 < remaining' -> is_Some (send_of id c')) /\ (forall i, is_Some (send_of i c') -> i = id).
Proof.
  revert remaining c. induction cnt as [|cnt IH]; intros remaining c; cbn [write_pings].
  { intros [= <- <-] ? ? ? ?. split_and!; try done. lia. }
  destruct (Z.ltb_spec 0 remaining) as [Hpos|Hzero].
  2: { intros [= <- <-] ? ? ? ?. split_and!; try done. lia. }
  intros H Hr Hw Ho Honly. apply obind_ret in H as ([c1 res] & H1 & H). apply obind_ret in H as (u & Hu & H). apply unwrap_ok_ret in Hu as ->.
  destruct u. destruct (Ho Hpos) as [s Hs]. destruct (Hw s Hs) as [Hoff _].
  apply write_ok in H1 as (s1 & Hins & Hready & Hoff1). rewrite Hs in Hoff1. change (default Send_default (Some s)) with s in Hoff1.
  assert (Hs1 : send_of id c1 = Some s1) by (unfold send_of; rewrite Hins; apply lookup_insert_eq).
  destruct (IH _ _ H) as (-> & Hrest); [lia| | |exact (only_inserted _ _ _ _ Hins Honly)|].
  - intros s2. rewrite Hs1. intros [= <-]. split; [|done]. rewrite Hoff1, Hoff. change (zlen (bytes_of "ping")) with 4. lia.
  - intros _. by rewrite Hs1.
  - split; [lia|exact Hrest].
Qed.

Lemma write_pings_silent id cnt remaining c remaining' c' : write_pings cnt remaining id c = Ret (remaining', c') -> silent c c'.
Proof.
  revert remaining c. induction cnt as [|cnt IH]; intros remaining c; cbn [write_pings]; [by intros [= _ ->]|].
  destruct (0 <? remaining); [|by intros [= _ ->]]. intros H. apply obind_ret in H as ([c1 res] & H1%write_silent & H).
  apply obind_ret in H as (u & _ & H). etrans; [exact H1|by eapply IH].
Qed.

Lemma game_same id remaining c c' : sends_kept (ss_send (c_streams c)) (ss_send (c_streams c')) -> game id remaining c -> game id remaining c'.
Proof.
  intros [Hs Hk] [Hr Hw Ho Honly]. split; [done| | |].
  - intros s' Hs'. destruct (Hs _ s' Hs') as (s & Hsc & -> & ->). by apply Hw.
  - intros Hpos. destruct (Ho Hpos) as [s Hsc]. apply (Hk _ s Hsc). by apply (Hw s Hsc).
  - intros i [s' Hs']. destruct (Hs _ s' Hs') as (s & Hsc & _). apply Honly. by exists s.
Qed.

Lemma game_same_eq id remaining c c' : ss_send (c_streams c') = ss_send (c_streams c) -> game id remaining c -> game id remaining c'.
Proof. intros He. apply game_same. by rewrite He. Qed.

(** The loop of the handlers of ping-pong counts the chunks. *)
Lemma count_loop id fuel n st0 chunks recv cnt finished chunks' :
  (st0.1.1 = None /\ st0.1.2 = 0%nat) \/ st0.1.1 = Some id ->
  chunk_loop fuel n (while_ok (count_chunk id)) st0 chunks = Some (Ret ((recv, cnt, finished), chunks')) ->
  (recv = None /\ cnt = 0%nat) \/ recv = Some id.
Proof.
  revert st0 chunks. induction fuel as [|fuel IH]; intros [[r0 n0] f0] chunks; cbn [chunk_loop fst snd]; [done|]. intros Hst.
  destruct (RecvStream.next n chunks) as [[c1 [[ch|]|e]]|]; cbn; [|by intros [= <- <- _ _]..|done].
  intros H. apply IH in H; [done|]. by right.
Qed.

Lemma count_chunks id chunks recv cnt finished chunks' :
  for_chunks 4 (while_ok (count_chunk id)) (None, 0%nat, false) chunks = Ret ((recv, cnt, finished), chunks') ->
  (recv = None /\ cnt = 0%nat) \/ recv = Some id.
Proof.
  unfold for_chunks. destruct (chunk_loop _ _ _ _ _) as [[x|]|] eqn:Hl; [|done..]. cbn. intros [= ->].
  eapply count_loop; [|exact Hl]. by left.
Qed.

(** The handler, after the event was looked at. *)
Definition game_answer (now : Instant) (remaining : Z) (c : Connection) (recv : option StreamId) (cnt : nat) (finished : bool)
    : outcome (Z * Connection) :=
  if finished then let! c := Connection.close now 0 (bytes_of "byebye") c in Ret (remaining, c)
  else
    match recv with
    | Some id =>
        let! '(remaining, c) := write_pings cnt remaining id c in
        if remaining =? 0 then let! '(c, r) := finish id c in let! _ := unwrap_ok r in Ret (remaining, c)
        else Ret (remaining, c)
    | None => Ret (remaining, c)
    end.

Lemma answer_game id now remaining c recv cnt finished remaining' c' : game id remaining c ->
  (recv = None /\ cnt = 0%nat) \/ recv = Some id ->
  game_answer now remaining c recv cnt finished = Ret (remaining', c') -> game id remaining' c' /\ silent c c'.
Proof.
  intros Hg Hrecv. unfold game_answer. intros H. destruct finished.
  { apply obind_ret in H as (c1 & H1 & H). injection H as <- <-. split; [|by eapply close_silent]. apply close_send in H1.
    eapply game_same_eq; [|exact Hg]. by rewrite H1. }
  destruct Hrecv as [[-> _]| ->]; [by injection H as <- <-|]. apply obind_ret in H as ([r1 c1] & H1 & H).
  pose proof (write_pings_silent _ _ _ _ _ _ H1) as Hs1. pose proof Hg as [Hr Hw Ho Honly].
  destruct (write_pings_game _ _ _ _ _ _ H1 Hr) as (Hr1 & Hw1 & Ho1 & Honly1); [|done..|].
  { intros s Hs. destruct (Hw s Hs) as [? ?]. tauto. }
  destruct (Z.eqb_spec r1 0) as [Hz|Hnz].
  - apply obind_ret in H as ([c2 res] & H2 & H). apply obind_ret in H as (u & Hu & H). apply unwrap_ok_ret in Hu as ->.
    injection H as <- <-. split; [|etrans; [exact Hs1|by eapply finish_silent]]. destruct u.
    apply finish_ok in H2 as (s & s' & Hs & Hst & Hins & Hst' & Hoff). split; [lia| |lia|exact (only_inserted _ _ _ _ Hins Honly1)].
    intros s2. unfold send_of. rewrite Hins, lookup_insert_eq. intros [= <-]. destruct (Hw1 s Hs) as [Hoff1 _]. split; [by rewrite Hoff|].
    split; [done|lia].
  - injection H as <- <-. split; [|done]. split; [lia| |done|done]. intros s Hs. destruct (Hw1 s Hs) as [? Hst]. split; [done|].
    split; [lia|done].
Qed.

(** An event that is not [Connected]. *)
Lemma event_game id now remaining c event remaining' c' : event <> Connected -> (forall i, readable_of event = Some i -> i = id) ->
  game id remaining c -> client_pingpong now remaining event c = Ret (remaining', c') -> game id remaining' c' /\ silent c c'.
Proof.
  intros Hne Habout Hg. unfold client_pingpong. intros H. apply obind_ret in H as ([[[c1 recv] cnt] finished] & He & H).
  change (game_answer now remaining c1 recv cnt finished = Ret (remaining', c')) in H.
  assert (Hc1 : game id remaining c1 /\ silent c c1 /\ ((recv = None /\ cnt = 0%nat) \/ recv = Some id)).
  { destruct event as [|e|[i|i|i code]]; try (injection He as <- <- <- _; split_and!; [done|done|by left]); [done|].
    specialize (Habout i eq_refl). subst i. apply obind_ret in He as ([c2 r] & Hr & He). apply obind_ret in He as (chunks & Hu & He).
    apply obind_ret in He as ([[[recv' cnt'] fin] chunks'] & Hl & He). injection He as <- <- <- <-.
    split_and!; [|etrans; [by eapply read_silent|apply drop_silent]|by eapply count_chunks].
    eapply game_same_eq; [|exact Hg]. rewrite drop_send. by apply read_send in Hr as [-> _]. }
  destruct Hc1 as (Hg1 & Hs1 & Hrecv). destruct (answer_game _ _ _ _ _ _ _ _ _ Hg1 Hrecv H) as [Hg' Hs']. split; [done|by etrans].
Qed.

(** The event [Connected], on a client that sends on no stream yet. *)
Lemma game_starts now remaining c0 r1 c1 : (forall i, send_of i c0 = None) -> client_pingpong now remaining Connected c0 = Ret (r1, c1) ->
  r1 = remaining /\ silent c0 c1 /\
  game (StreamId.new (ss_side (c_streams c0)) Bi (StreamsState.next_of Bi (ss_next (c_streams c0)))) 19 c1.
Proof.
  intros Hnone. unfold client_pingpong. intros H. apply obind_ret in H as ([[[c2 recv] cnt] finished] & He & H).
  apply obind_ret in He as ([c3 id] & Ho & He). apply obind_ret in He as ([c4 r] & Hw & He).
  apply obind_ret in He as (u & Hu & He). apply unwrap_ok_ret in Hu as ->. destruct u. injection He as <- <- <- <-.
  injection H as <- <-. split; [done|]. apply open_silent in Ho as (Hso & -> & Hop). pose proof (write_silent _ _ _ _ _ Hw) as Hsw.
  split; [by etrans|]. set (id := StreamId.new _ _ _) in *. apply write_ok in Hw as (s & Hins & Hready & Hoff).
  assert (Hs : send_of id c4 = Some s) by (unfold send_of; rewrite Hins; apply lookup_insert_eq).
  assert (Hoff' : Send.stream_offset s = 4) by (rewrite Hoff; unfold send_of; by rewrite Hop, lookup_insert_eq).
  split; [lia| |intros _; by rewrite Hs|].
  - intros s'. rewrite Hs. intros [= <-]. split; [by rewrite Hoff'|]. by rewrite Hready.
  - apply (only_inserted _ _ _ _ Hins). apply (only_inserted _ _ _ _ Hop). intros i. change (is_Some (send_of i c0) -> i = id).
    rewrite Hnone. by intros [? ?].
Qed.

(** ** Rounds of the client *)

(** The stream that the client opens. *)
Definition game_stream : StreamId := 0.

(** Nothing was opened, and so nothing can be received on the stream. *)
Record lobby (c : Connection) : Prop := {
  lb_side : ss_side (c_streams c) = Client;
  lb_next : StreamsState.next_of Bi (ss_next (c_streams c)) = 0;
  lb_send : forall i, send_of i c = None;
  lb_recv : ss_recv (c_streams c) !! game_stream = None;
  lb_once : (greetings (events (c_streams c)) <= 1)%nat;
  lb_early : State.is_handshake (c_state c) = true -> greetings (events (c_streams c)) = 0%nat;
}.

(** The client has yet to hear that it is connected; or it plays. *)
Inductive plays (remaining : Z) (c : Connection) : Prop :=
| plays_lobby : remaining = 19 -> lobby c -> plays remaining c
| plays_game : State.is_handshake (c_state c) = false -> greetings (events (c_streams c)) = 0%nat ->
    game game_stream remaining c -> plays remaining c.

Lemma calm_plays remaining c c' : calm c c' -> plays remaining c -> plays remaining c'.
Proof.
  intros [[Hsd Hn Hg Hs Hu] Hst] [Hr [L1 L2 L3 L4 L5 L6]|Hh He Hgame].
  - apply plays_lobby; [done|]. split; rewrite ?Hsd, ?Hn, ?Hg; try done.
    + intros i. destruct (send_of i c') as [s|] eqn:Hi; [|done]. destruct (sk_same _ _ Hs _ _ Hi) as (s0 & Hi0 & _). specialize (L3 i). unfold send_of in L3. congruence.
    + rewrite Hu; [done|by rewrite L1|]. change (StreamsState.next_of Bi (ss_next (c_streams c)) <= 0). lia.
    + intros Hh. by apply L6, Hst.
  - apply plays_game; [|by rewrite Hg|by eapply game_same]. destruct (State.is_handshake (c_state c')); [|done]. by rewrite <- Hh, Hst.
Qed.

Lemma greets_plays remaining c c' : greets c c' -> plays remaining c -> plays remaining c'.
Proof.
  intros [Hb Ha Hsd Hn Hg Hs Hr] [Heq [L1 L2 L3 L4 L5 L6]|Hh He Hgame]; [|congruence].
  apply plays_lobby; [done|]. unfold send_of in *. split; unfold send_of; rewrite ?Hsd, ?Hn, ?Hg, ?Hs, ?Hr; try done; [|congruence].
  rewrite (L6 Hb). lia.
Qed.

Section ClientRounds.
Context {B : Type} `{Buf B} (write_all : list Z -> list Z -> option (list Z)) (k : Z).

Lemma event_plays now remaining c e c1 remaining' c' : plays remaining c -> Driver.take_event c = Some (e, c1) ->
  (forall i, readable_of e = Some i -> i = game_stream) -> client_pingpong now remaining e c1 = Ret (remaining', c') -> plays remaining' c'.
Proof.
  intros Hp (He & Hst & _ & Hr & Hsd & Hn & Hs)%take_event_spec Habout Ha.
  assert (Hg : greetings (events (c_streams c)) = ((if is_connected e then 1 else 0) + greetings (events (c_streams c1)))%nat)
    by (rewrite He; unfold greetings; cbn; by destruct (is_connected e)).
  destruct Hp as [-> [L1 L2 L3 L4 L5 L6]|Hh Hno Hgame].
  - assert (Hlob : forall i, send_of i c1 = None) by (intros i; unfold send_of; rewrite Hs; apply L3).
    destruct (is_connected e) eqn:Hc.
    + destruct e; try done. apply game_starts in Ha as (-> & [Hev Hsst] & Hgame); [|done]. rewrite Hsd, Hn, L1, L2 in Hgame.
      apply plays_game; [|rewrite Hev; lia|exact Hgame]. apply Hsst. rewrite Hst. destruct (State.is_handshake (c_state c)); [|done].
      specialize (L6 eq_refl). lia.
    + assert (remaining' = 19 /\ c' = c1) as [-> ->].
      { destruct e as [|x|[i|i|i code]]; try done; try (cbn in Ha; by injection Ha as <- <-). specialize (Habout i eq_refl). subst i.
        exfalso. unfold client_pingpong, read in Ha. destruct (Connection.recv_stream _ c1) as [[ss p]|] eqn:Hrs; [|done].
        apply recv_stream_ret in Hrs. injection Hrs as -> ->. unfold RecvStream.read in Ha. cbn [obind] in Ha. by rewrite Hr, L4 in Ha. }
      apply plays_lobby; [done|]. split; rewrite ?Hsd, ?Hn, ?Hr, ?Hst; try done; [lia|]. intros Hh%L6. lia.
  - assert (Hg1 : game game_stream remaining c1) by (by apply (game_same_eq _ _ c)). assert (Hne : e <> Connected) by (intros ->; cbn in Hg; lia).
    destruct (event_game _ _ _ _ _ _ _ Hne Habout Hg1 Ha) as [Hgame' [Hev Hsst]]. apply plays_game; [apply Hsst; by rewrite Hst|rewrite Hev; lia|done].
Qed.

(** A round of the client in which it hears of no stream but its own. *)
Inductive game_step : Z * Connection -> Z * Connection -> Prop :=
| game_round now (r : Round B) (remaining : Z) c (remaining' : Z) c' :
    (forall i, event_of r c = Some (EvStream (EvReadable i)) -> i = game_stream) ->
    round (client_handler write_all k PingPong) now r remaining c = Ret (remaining', c') -> game_step (remaining, c) (remaining', c').

Lemma game_step_plays x y : game_step x y -> plays x.1 x.2 -> plays y.1 y.2.
Proof.
  intros [now r remaining c remaining' c' Habout Ha] Hp. cbn [fst snd] in *. unfold round in Ha.
  destruct (State.is_drained (c_state c)); [by injection Ha as <- <-|]. apply obind_ret in Ha as (c1 & Hb & Ha).
  apply obind_ret in Ha as (c2 & Hq & Ha). unfold event_of in Habout. rewrite Hb in Habout. cbn [obind] in Habout. rewrite Hq in Habout.
  apply burst_quiet, quiet_calm in Hb. apply send_queued_quiet, quiet_calm in Hq.
  apply (calm_plays _ _ _ Hb), (calm_plays _ _ _ Hq) in Hp. unfold select in Ha.
  destruct (Driver.take_event c2) as [[e c3]|] eqn:He.
  - change (client_pingpong now remaining e c3 = Ret (remaining', c')) in Ha.
    apply (event_plays now remaining c2 e c3 remaining' c' Hp He); [|exact Ha]. intros i Hi. apply Habout. by destruct e as [|err|[j|j|j code]]; try done; injection Hi as ->.
  - apply obind_ret in Ha as (c3 & Hs & Ha). injection Ha as <- <-.
    exact (no_event_keeps (plays remaining) (calm_plays remaining) (greets_plays remaining) r _ _ He Hs Hp).
Qed.

Lemma game_run_plays x y : rtc game_step x y -> plays x.1 x.2 -> plays y.1 y.2.
Proof. induction 1 as [|x y z Hs _ IH]; [done|]. intros Hp. by eapply IH, game_step_plays. Qed.
End ClientRounds.

Lemma new_client_plays now c : Connection.new now Client = Ret c -> plays 19 c.
Proof.
  unfold Connection.new. intros Hnew. apply obind_ret in Hnew as (np & _ & Hnew). injection Hnew as <-.
  apply plays_lobby; [done|]. split; unfold greetings, send_of; cbn; try done; lia.
Qed.

(** ** Streams that are at their end *)

(** All bytes were read, and the final size is known. *)
Record at_end (r : Recv) : Prop := {
  ae_data : a_data (assembler r) = [];
  ae_state : r_state r = RsRecv (Some (r_end r));
  ae_read : bytes_read (assembler r) = r_end r;
  ae_ordered : a_state (assembler r) = Ordered;
  ae_open : stopped r = false;
}.

Lemma next_at_end r n id rd : at_end r -> exists rd', RecvStream.next n (mkChunks id true (Readable r) rd) =
  Ret (mkChunks id true Finished rd', Ok None).
Proof.
  intros [Hd Hs Hb Ho Hst]. unfold RecvStream.next, Chunks.next, Assembler.read. cbn. rewrite Hd. cbn. rewrite Hs.
  rewrite bool_decide_eq_true_2, Hb, Z.eqb_refl by done. cbn. by eexists.
Qed.

Lemma for_chunks_at_end {St} r n id (body : St -> result (option Chunk) ReadError -> outcome (St * bool)) st : at_end r ->
  exists rd', for_chunks n body st (mkChunks id true (Readable r) 0) =
    match body st (Ok None) with
    | Panic => Panic
    | Ret (st', false) => Ret (st', mkChunks id true Finished rd')
    | Ret (st', true) => default Panic (chunk_loop (length (a_data (assembler r))) n body st' (mkChunks id true Finished rd'))
    end.
Proof.
  intros Hr. destruct (next_at_end r n id 0 Hr) as [rd' Hn]. exists rd'. unfold for_chunks, chunk_fuel. cbn [oc_state].
  rewrite (ae_data _ Hr). cbn [length sumz Nat.add Z.to_nat chunk_loop]. rewrite Hn. cbn [obind].
  destruct (body st (Ok None)) as [[st' [|]]|]; done.
Qed.

(** A reader of a stream that is there. *)
Lemma read_at_end id c r : StreamId.dir id = Bi \/ StreamId.initiator id <> side c -> ss_recv (c_streams c) !! id = Some r -> at_end r ->
  exists c1, read id true c = Ret (c1, Ok (mkChunks id true (Readable r) 0)) /\
    c_streams c1 = StreamsState.with_recv (delete id (ss_recv (c_streams c))) (c_streams c).
Proof.
  intros Hid Hr [_ _ _ Ho Hst]. unfold read, Connection.recv_stream.
  assert (bool_decide (StreamId.dir id = Bi) || bool_decide (StreamId.initiator id <> side c) = true) as ->.
  { apply orb_true_iff. destruct Hid; [left|right]; by apply bool_decide_eq_true_2. }
  cbn [assert obind]. unfold RecvStream.read. rewrite Hr, Hst. unfold Assembler.ensure_ordering. rewrite Ho. cbn [obind andb negb Assembler.is_ordered].
  eexists. split; [done|]. done.
Qed.

(** All bytes that came were read, and no FIN has come. *)
Record read_up (r : Recv) : Prop := {
  ru_data : a_data (assembler r) = [];
  ru_state : r_state r = RsRecv None;
  ru_read : bytes_read (assembler r) = r_end r;
  ru_ordered : a_state (assembler r) = Ordered;
  ru_open : stopped r = false;
  ru_bounds : 0 <= r_end r < 2 ^ 62;
}.

(** A FIN without data. *)
Definition lone_fin (id : StreamId) (off : Z) : Stream := {| st_id := id; st_offset := off; st_fin := true; st_data := [] |}.

Lemma lone_fin_ingested r id len : read_up r -> 0 <= len -> exists r', at_end r' /\
  Recv.ingest (lone_fin id (r_end r)) len r = Ret (r', Ok (0, false)).
Proof.
  intros [Hd Hs Hb Ho Hst Hbd] Hlen. unfold Recv.ingest, Recv.final_offset, Assembler.insert, assert, saturating_sub. cbn [lone_fin st_offset st_data st_fin].
  change (zlen (@nil Z)) with 0. rewrite u64_add_ok by u64_lia. rewrite Hs, Hst. cbn [obind negb andb].
  destruct (Z.leb_spec (2 ^ 62) (r_end r + 0)); [lia|]. destruct (Z.leb_spec 0 len); [|lia]. cbn [obind].
  eexists. split; [|replace (Z.max 0 (r_end r + 0 - r_end r)) with 0 by lia; reflexivity]. split; cbn; try done; [do 2 f_equal; lia|lia].
Qed.

Lemma lone_fin_received now sp len id r c : StreamId.initiator id <> ss_side (c_streams c) ->
  ss_recv (c_streams c) !! id = Some r -> read_up r -> 0 <= len ->
  exists r' ss, at_end r' /\ Connection.data_frame now sp len (FStream (lone_fin id (r_end r))) c = Ret (with_streams ss c, Connection.GoOn) /\
    ss_recv ss !! id = Some r' /\ ss_send ss = ss_send (c_streams c) /\ events ss = events (c_streams c) ++ [EvStream (EvReadable id)].
Proof.
  intros Hi Hr Hu Hlen. destruct (lone_fin_ingested r id len Hu Hlen) as (r' & Hend & Hin).
  cbn [Connection.data_frame]. unfold StreamsState.received, StreamsState.validate_receive_id. cbn [lone_fin st_id st_fin].
  rewrite decide_False by congruence. rewrite Hr. unfold Recv.is_receiving, Recv.final_offset_unknown. rewrite (ru_state _ Hu). cbn [negb].
  rewrite Hin. cbn [obind]. rewrite (ae_open _ Hend). cbn. exists r'. eexists. split; [done|]. split; [done|]. cbn.
  by rewrite lookup_insert_eq.
Qed.

(** The server forgets a stream that is at its end, and notes nothing. *)
Lemma server_at_end id c r : StreamId.dir id = Bi \/ StreamId.initiator id <> side c -> ss_recv (c_streams c) !! id = Some r -> at_end r ->
  exists c', server_pingpong (EvStream (EvReadable id)) c = Ret c' /\
    ss_send (c_streams c') = ss_send (c_streams c) /\ ss_recv (c_streams c') !! id = None.
Proof.
  intros Hid Hr Hend. destruct (read_at_end id c r Hid Hr Hend) as (c1 & Hread & Hc1).
  destruct (for_chunks_at_end r 4 id (while_ok (count_chunk id)) (None, 0%nat, false) Hend) as [rd Hl]. cbn [while_ok fst] in Hl.
  eexists. split; [unfold server_pingpong; rewrite Hread; cbn [obind unwrap_ok]; rewrite Hl; reflexivity|].
  unfold drop_chunks, RecvStream.drop. cbn. rewrite Hc1. split; [done|apply lookup_delete_eq].
Qed.

Lemma forgotten_panics id c : ss_recv (c_streams c) !! id = None -> server_pingpong (EvStream (EvReadable id)) c = Panic.
Proof.
  intros Hn. unfold server_pingpong, read, Connection.recv_stream. destruct (assert _) as [u|]; [|done]. cbn [obind].
  unfold RecvStream.read. by rewrite Hn.
Qed.

(** Without a FIN, a reader never comes to an end; with some bytes in place,
    the loop of ping-pong sees a chunk. *)
Lemma next_no_fin n chunks r chunks' res : oc_state chunks = Readable r -> r_state r = RsRecv None ->
  RecvStream.next n chunks = Ret (chunks', res) ->
  res <> Ok None /\ exists r', oc_state chunks' = Readable r' /\ r_state r' = RsRecv None.
Proof.
  intros Hst Hs. unfold RecvStream.next. rewrite Hst. cbn [Chunks.next]. intros H. apply obind_ret in H as ([[st rd] res'] & H & Heq).
  injection Heq as <- ->. apply obind_ret in H as ([a [ch|]] & _ & H).
  - apply obind_ret in H as (rd' & _ & H). injection H as <- _ <-. split; [done|]. by eexists.
  - cbn in H. rewrite Hs in H. injection H as <- _ <-. split; [done|]. by eexists.
Qed.

Lemma loop_no_fin id fuel n st0 chunks r st chunks' : oc_state chunks = Readable r -> r_state r = RsRecv None -> st0.2 = false -> st0.1.1 = Some id ->
  chunk_loop fuel n (while_ok (count_chunk id)) st0 chunks = Some (Ret (st, chunks')) -> st.1.1 = Some id /\ st.2 = false.
Proof.
  revert st0 chunks r. induction fuel as [|fuel IH]; intros [[r0 n0] f0] chunks r Hst Hs Hf Hr; cbn [chunk_loop fst snd] in *; [done|].
  destruct (RecvStream.next n chunks) as [[c1 res]|] eqn:Hn; cbn [obind]; [|done].
  destruct (next_no_fin _ _ _ _ _ Hst Hs Hn) as [Hres (r' & Hst' & Hs')]. destruct res as [[ch|]|e]; [|done|].
  - cbn [while_ok count_chunk obind fst snd]. intros Hl. by eapply (IH _ _ _ Hst' Hs'); [| |exact Hl].
  - cbn. intros [= <- _]. done.
Qed.

Lemma data_without_fin r b rest id st chunks' : r_state r = RsRecv None -> a_data (assembler r) = b :: rest ->
  bf_offset b = bytes_read (assembler r) ->
  for_chunks 4 (while_ok (count_chunk id)) (None, 0%nat, false) (mkChunks id true (Readable r) 0) = Ret (st, chunks') ->
  st.1.1 = Some id /\ st.2 = false.
Proof.
  intros Hs Hd Ho. unfold for_chunks. destruct (chunk_loop _ _ _ _ _) as [[x|]|] eqn:Hl; [|done..]. cbn. intros [= ->].
  unfold chunk_fuel in Hl. cbn [oc_state chunk_loop] in Hl.
  destruct (RecvStream.next 4 (mkChunks id true (Readable r) 0)) as [[c1 res]|] eqn:Hn; cbn [obind] in Hl; [|done].
  destruct (next_no_fin 4 (mkChunks id true (Readable r) 0) r c1 res eq_refl Hs Hn) as [Hres (r' & Hst' & Hs')].
  assert (Hsome : exists ch, res = Ok (Some ch)).
  { unfold RecvStream.next, Chunks.next, Assembler.read in Hn. cbn [oc_state oc_ordered negb] in Hn. rewrite Hd, Ho, Z.eqb_refl in Hn. cbn [negb] in Hn.
    destruct (4 <? zlen (bf_bytes b)); outcome_inv; simplify_eq; outcome_inv; simplify_eq; by eexists. }
  destruct Hsome as [ch ->]. cbn [while_ok count_chunk obind fst snd] in Hl. by eapply (loop_no_fin _ _ _ _ _ _ _ _ Hst' Hs'); [| |exact Hl].
Qed.

Lemma data_after_last_ping now id c r b rest : (forall s, send_of id c = Some s -> state s <> Ready) ->
  ss_recv (c_streams c) !! id = Some r -> stopped r = false -> a_state (assembler r) = Ordered -> r_state r = RsRecv None ->
  a_data (assembler r) = b :: rest -> bf_offset b = bytes_read (assembler r) ->
  client_pingpong now 0 (EvStream (EvReadable id)) c = Panic.
Proof.
  intros Hsend Hr Hst Hord Hs Hd Ho. destruct (client_pingpong _ _ _ _) as [[r' c']|] eqn:H; [|done]. exfalso.
  unfold client_pingpong in H. apply obind_ret in H as ([[[c1 recv] cnt] finished] & He & H).
  apply obind_ret in He as ([c2 res] & Hread & He). apply obind_ret in He as (chunks & Hu & He). apply unwrap_ok_ret in Hu as ->.
  assert (chunks = mkChunks id true (Readable r) 0) as ->.
  { unfold read in Hread. apply obind_ret in Hread as ([ss p] & H1 & Hread). apply recv_stream_ret in H1. injection H1 as -> ->.
    apply obind_ret in Hread as ([ss res] & H1 & Hread). injection Hread as _ ->. unfold RecvStream.read in H1. rewrite Hr, Hst in H1.
    unfold Assembler.ensure_ordering in H1. rewrite Hord in H1. by injection H1. }
  apply obind_ret in He as ([[[recv' cnt'] fin] chunks'] & Hloop & He). injection He as <- <- <- <-.
  apply (data_without_fin _ _ _ _ _ _ Hs Hd Ho) in Hloop as [Hrecv Hfin]. cbn [fst snd] in Hrecv, Hfin. subst recv' fin. apply read_send in Hread as [Hread _].
  assert (Hw : write_pings cnt' 0 id (drop_chunks chunks' c2) = Ret (0, drop_chunks chunks' c2)) by (by destruct cnt').
  cbn [fst snd] in H. rewrite Hw in H. cbn [obind] in H. rewrite Z.eqb_refl in H.
  apply obind_ret in H as ([c3 res] & Hf & H). apply obind_ret in H as (u & Hu & H). apply unwrap_ok_ret in Hu as ->. destruct u.
  apply finish_ok in Hf as (s & s' & Hs1 & Hready & _). apply (Hsend s); [|done]. unfold send_of in *. by rewrite drop_send, Hread in Hs1.
Qed.

(** ** Properties *)

(** C23: The ping-pong client sends twenty pings, on one stream.  Over any
    rounds of its loop from the start that do not panic, with any datagrams,
    timers and answers of the socket, in which every stream it hears of is its
    own, as when the server opens none, the client sends on that stream only;
    what it has written there is one ping, and one more for each that
    [remaining] has lost, never more than twenty; between the second ping and
    the last the stream is there; and it is open for more until the twentieth
    is written, and no longer. *)
Theorem pingpong_sends_twenty {B : Type} `{Buf B} (write_all : list Z -> list Z -> option (list Z)) (k : Z) (t : Instant)
    (c0 : Connection) (remaining : Z) (c : Connection) :
  Connection.new t Client = Ret c0 -> rtc (game_step (B:=B) write_all k) (19, c0) (remaining, c) ->
  0 <= remaining <= 19 /\
  (0 < remaining < 19 -> is_Some (send_of game_stream c)) /\
  forall id s, send_of id c = Some s -> id = game_stream /\
    Send.stream_offset s = zlen (bytes_of "ping") * (20 - remaining) /\ (state s = Ready <-> 0 < remaining).
Proof.
  intros Hnew%new_client_plays Hr. apply game_run_plays in Hr; [|exact Hnew]. cbn [fst snd] in Hr.
  destruct Hr as [-> [_ _ Hnone _ _ _]|_ _ [Hr Hw Ho Honly]].
  - split; [lia|]. split; [lia|]. intros id s. by rewrite Hnone.
  - split; [done|]. split; [intros Hp; apply Ho; lia|]. intros id s Hs. assert (id = game_stream) as -> by (apply Honly; by eexists).
    split; [done|]. by apply Hw.
Qed.

(** The datagrams of a server: its hello, and two pongs in a packet each. *)
Definition pong_packet (number : Z) (off : Z) : list Z := [64] ++ FAKE_CID ++ [number; 14; 0; off; 4] ++ bytes_of "pong".
Definition game_rounds : list (Instant * Round (list Z)) :=
  [(11, sample_round 10 None); (31, sample_round 30 (Some server_hello)); (41, sample_round 40 None);
   (51, sample_round 50 (Some (pong_packet 1 0))); (61, sample_round 60 None); (71, sample_round 70 (Some (pong_packet 2 4)));
   (81, sample_round 80 None)].

(** Every stream that the client hears of in these rounds is its own. *)
Fixpoint own_stream_only (w : list Z -> list Z -> option (list Z)) (k : Z) (l : list (Instant * Round (list Z))) (st : Z) (c : Connection) : bool :=
  match l with
  | [] => true
  | (now, r) :: l =>
      match event_of r c with Some (EvStream (EvReadable i)) => i =? game_stream | _ => true end &&
      match round (client_handler w k PingPong) now r st c with Ret (st, c) => own_stream_only w k l st c | Panic => true end
  end.

Lemma own_stream_run w k l st c st' c' : own_stream_only w k l st c = true ->
  run_program (client_handler w k PingPong) l st c = Ret (st', c') -> rtc (game_step (B:=list Z) w k) (st, c) (st', c').
Proof.
  revert st c. induction l as [|[now r] l IH]; intros st c; cbn [own_stream_only run_program]; [intros _ [= -> ->]; apply rtc_refl|].
  intros [Hi Ho]%andb_true_iff Ha. apply obind_ret in Ha as ([st1 c1] & H1 & Ha). rewrite H1 in Ho.
  eapply rtc_l; [apply (game_round w k now r st c st1 c1); [|exact H1]|by apply IH].
  intros i Hev. rewrite Hev in Hi. by apply Z.eqb_eq.
Qed.

Definition game_facts : outcome (Z * Connection * Connection * bool) :=
  let! c0 := Connection.new 0 Client in
  let! '(r, c) := run_program (client_handler (fun f d => Some (f ++ d)) 0 PingPong) game_rounds 19 c0 in
  Ret (r, c0, c, own_stream_only (fun f d => Some (f ++ d)) 0 game_rounds 19 c0).

Lemma pingpong_sends_twenty_witness : exists c0 c s, game_facts = Ret (17, c0, c, true) /\
  send_of game_stream c = Some s /\ Send.stream_offset s = 12 /\ state s = Ready.
Proof.
  destruct game_facts as [[[[r c0] c] b]|] eqn:Hg; [|exfalso; vm_compute in Hg; discriminate].
  assert (Hrb : r = 17 /\ b = true).
  { assert (Hx : match game_facts with Ret (r, _, _, b) => (r, b) | Panic => (0, false) end = (17, true)) by (vm_compute; reflexivity).
    rewrite Hg in Hx. injection Hx as -> ->. split; reflexivity. }
  destruct Hrb as [-> ->]. unfold game_facts in Hg. apply obind_ret in Hg as (d0 & Hnew & Hg). apply obind_ret in Hg as ([r d] & Hrun & Hg).
  assert (Heq : r = 17 /\ d0 = c0 /\ d = c /\ own_stream_only (fun f d => Some (f ++ d)) 0 game_rounds 19 d0 = true) by (split_and!; congruence).
  clear Hg. destruct Heq as (-> & -> & -> & Hown). pose proof (own_stream_run _ _ _ _ _ _ _ Hown Hrun) as Hrtc.
  destruct (pingpong_sends_twenty (fun f d => Some (f ++ d)) 0 0 c0 17 c Hnew Hrtc) as (_ & Hopen & Hall).
  destruct (Hopen (conj eq_refl eq_refl)) as [s Hs]. destruct (Hall _ _ Hs) as (_ & Hoff & Hready).
  exists c0, c, s. split; [reflexivity|]. split; [exact Hs|]. split; [exact Hoff|]. apply Hready. reflexivity.
Defined.

(** C24: Ping-pong needs the FIN to come with data.  When the server has read
    all of a stream and its FIN arrives alone, the application is told that the
    stream is readable; but the handler writes nothing and finishes no stream,
    and the connection forgets the stream, so that, as long as no repeated first
    frame opens it anew, a further event for it panics the handler.  And when
    data that comes without the FIN reaches the client after it has written its
    last ping and finished its stream, the handler finishes it a second time,
    and panics. *)
Theorem pingpong_needs_fin_with_data (id : StreamId) (c : Connection) (r : Recv) :
  ss_recv (c_streams c) !! id = Some r ->
  (StreamId.initiator id <> ss_side (c_streams c) -> ss_side (c_streams c) = side c -> read_up r ->
    forall now sp len, 0 <= len ->
    exists c1 c2, Connection.data_frame now sp len (FStream (lone_fin id (r_end r))) c = Ret (c1, Connection.GoOn) /\
      events (c_streams c1) = events (c_streams c) ++ [EvStream (EvReadable id)] /\
      server_pingpong (EvStream (EvReadable id)) c1 = Ret c2 /\
      ss_send (c_streams c2) = ss_send (c_streams c) /\ ss_recv (c_streams c2) !! id = None /\
      forall c3, ss_recv (c_streams c3) !! id = None -> server_pingpong (EvStream (EvReadable id)) c3 = Panic) /\
  (forall b rest now, (forall s, send_of id c = Some s -> state s <> Ready) -> stopped r = false ->
    a_state (assembler r) = Ordered -> r_state r = RsRecv None ->
    a_data (assembler r) = b :: rest -> bf_offset b = bytes_read (assembler r) ->
    client_pingpong now 0 (EvStream (EvReadable id)) c = Panic).
Proof.
  intros Hr. split; [|intros b rest now ??????; by eapply data_after_last_ping].
  intros Hi Hsd Hu now sp len Hlen. destruct (lone_fin_received now sp len id r c Hi Hr Hu Hlen) as (r' & ss & Hend & Hd & Hr' & Hs & He).
  destruct (server_at_end id (with_streams ss c) r') as (c2 & Hc2 & Hs2 & Hn2); [right; cbn; congruence|done|done|].
  exists (with_streams ss c), c2. split_and!; try done; [by rewrite Hs2, <- Hs|]. intros c3. apply forgotten_panics.
Qed.

(** A server that got a ping and answered it. *)
Definition pinged : outcome Connection :=
  let c := mkConnection Server Established (path sample_client) (spaces sample_client) SpData (timers sample_client)
             (StreamsState.new Server) false false in
  let! '(c, _) := Connection.data_frame 41 SpData 20 (FStream {| st_id := 0; st_offset := 0; st_fin := false; st_data := bytes_of "ping" |}) c in
  server_pingpong (EvStream (EvReadable 0)) c.

(** A client that gets nineteen pongs at once, and then the twentieth. *)
Definition pong_frame (off : Z) (cnt : nat) : Stream :=
  {| st_id := 0; st_offset := off; st_fin := false; st_data := concat (replicate cnt (bytes_of "pong")) |}.
Definition last_pong : outcome (Z * Connection) :=
  let! '(r, c) := client_pingpong 40 19 Connected (with_state Established sample_client) in
  let! '(c, _) := Connection.data_frame 41 SpData 80 (FStream (pong_frame 0 19)) c in
  let! '(r, c) := client_pingpong 42 r (EvStream (EvReadable 0)) c in
  let! '(c, _) := Connection.data_frame 43 SpData 20 (FStream (pong_frame 76 1)) c in
  Ret (r, c).

Lemma pingpong_needs_fin_with_data_witness :
  (exists c c1 c2, pinged = Ret c /\ Connection.data_frame 43 SpData 4 (FStream (lone_fin 0 4)) c = Ret (c1, Connection.GoOn) /\
    server_pingpong (EvStream (EvReadable 0)) c1 = Ret c2 /\ ss_send (c_streams c2) = ss_send (c_streams c) /\
    server_pingpong (EvStream (EvReadable 0)) c2 = Panic) /\
  (exists c, last_pong = Ret (0, c) /\ client_pingpong 44 0 (EvStream (EvReadable 0)) c = Panic).
Proof.
  split.
  - destruct pinged as [c|] eqn:Hc; [|exfalso; vm_compute in Hc; discriminate].
    destruct (ss_recv (c_streams c) !! 0) as [r|] eqn:Hr.
    2: { exfalso. vm_compute in Hc. injection Hc as <-. vm_compute in Hr. discriminate. }
    assert (Hu : read_up r /\ r_end r = 4 /\ side c = Server /\ ss_side (c_streams c) = Server).
    { vm_compute in Hc. injection Hc as <-. vm_compute in Hr. injection Hr as <-. split; [split; vm_compute; try reflexivity|repeat split].
      split; [discriminate|reflexivity]. }
    destruct Hu as (Hu & He & Hs1 & Hs2). destruct (pingpong_needs_fin_with_data 0 c r Hr) as [Hserver _].
    destruct (Hserver ltac:(rewrite Hs2; discriminate) ltac:(congruence) Hu 43 SpData 4 ltac:(lia)) as (c1 & c2 & H1 & _ & H2 & H3 & H4 & H5).
    rewrite He in H1. exists c, c1, c2. split; [reflexivity|]. split; [exact H1|]. split; [exact H2|]. split; [exact H3|exact (H5 c2 H4)].
  - destruct last_pong as [[rem c]|] eqn:Hc; [|exfalso; vm_compute in Hc; discriminate].
    destruct (ss_recv (c_streams c) !! 0) as [r|] eqn:Hr.
    2: { exfalso. vm_compute in Hc. injection Hc as _ <-. vm_compute in Hr. discriminate. }
    destruct (a_data (assembler r)) as [|b rest] eqn:Hd.
    { exfalso. vm_compute in Hc. injection Hc as _ <-. vm_compute in Hr. injection Hr as <-. vm_compute in Hd. discriminate. }
    exists c. destruct (pingpong_needs_fin_with_data 0 c r Hr) as [_ Hclient].
    vm_compute in Hc. injection Hc as <- Hc. split; [rewrite <- Hc; reflexivity|].
    assert (Hb : bf_offset b = bytes_read (assembler r) /\ stopped r = false /\ a_state (assembler r) = Ordered /\ r_state r = RsRecv None).
    { rewrite <- Hc in Hr. vm_compute in Hr. injection Hr as <-. vm_compute in Hd. injection Hd as <- _. repeat split. }
    destruct Hb as (Hb1 & Hb2 & Hb3 & Hb4). apply (Hclient b rest 44); try assumption.
    intros s Hs. rewrite <- Hc in Hs. vm_compute in Hs. injection Hs as <-. discriminate.
Defined.

(** The other servers do not survive the end of a stream.  When a client
    finishes a stream and the server has read it all, the next event for it
    panics the echo server and the server that stops streams, and so ends the
    connection; the echo client does finish its streams. *)
Theorem servers_panic_at_end (id : StreamId) (c : Connection) (r : Recv) (p : PongState) :
  StreamId.dir id = Bi \/ StreamId.initiator id <> side c -> ss_recv (c_streams c) !! id = Some r -> at_end r ->
  server_echo (EvStream (EvReadable id)) c = Panic /\ server_pingpong_stop p (EvStream (EvReadable id)) c = Panic.
Proof.
  intros Hid Hr Hend. destruct (read_at_end id c r Hid Hr Hend) as (c1 & Hread & _). split.
  - unfold server_echo, server_echo_event. rewrite Hread. cbn [obind]. destruct (next_at_end r USIZE_MAX id 0 Hend) as [rd ->]. done.
  - unfold server_pingpong_stop. rewrite Hread. cbn [obind unwrap_ok]. set (to_reply := if id =? 0 then _ else _).
    destruct (for_chunks_at_end r (zlen to_reply) id (pong_turn id to_reply) (p, []) Hend) as [rd ->]. done.
Qed.

(** The FIN follows alone. *)
Definition ended : outcome Connection :=
  let! c := pinged in let! '(c, _) := Connection.data_frame 43 SpData 4 (FStream (lone_fin 0 4)) c in Ret c.

Lemma servers_panic_at_end_witness : exists c, ended = Ret c /\ server_echo (EvStream (EvReadable 0)) c = Panic.
Proof.
  destruct ended as [c|] eqn:Hc; [|exfalso; vm_compute in Hc; discriminate].
  destruct (ss_recv (c_streams c) !! 0) as [r|] eqn:Hr.
  2: { exfalso. vm_compute in Hc. injection Hc as <-. vm_compute in Hr. discriminate. }
  assert (He : at_end r).
  { vm_compute in Hc. injection Hc as <-. vm_compute in Hr. injection Hr as <-. split; reflexivity. }
  exists c. split; [reflexivity|]. exact (proj1 (servers_panic_at_end 0 c r (mkPongState None 0) (or_introl eq_refl) Hr He)).
Defined.

(** The echo client indexes its streams before they exist.  Until
    [Connected] has been handled, every event, and so the loss of the
    connection during the handshake too, panics the handler. *)
Theorem echo_client_needs_connected (now : Instant) (event : Event) (c : Connection) :
  event <> Connected -> client_echo now [] event c = Panic.
Proof.
  intros Hne. unfold client_echo, echo_event. destruct event as [|e|[id|id|id code]]; try done.
  destruct (Connection.recv_stream id c); done.
Qed.

Lemma echo_client_needs_connected_witness :
  client_echo 5 [] (ConnectionLost (ETransportError (Connection.protocol_violation "refused"))) sample_client = Panic.
Proof. apply (echo_client_needs_connected 5). discriminate. Defined.
