(* ===== verification/Network.v ===== *)
(** * Network: the file transfer between the two programs

    A server and a client, each running its program on the loop of its
    connection, and between them a network that may lose, repeat, reorder and
    delay what the server sends: the datagrams that were ever sent are kept,
    and any of them may reach the client at any time.  What reaches the server
    is not restricted at all. *)
From S2P Require Import Prelude Time Buffers Varint Common ArrayRangeSet Packet Frame Timer Space Path Send Recv Streams Connection Accounting Driver Quiet Typed Wire Datagrams Closing Programs Transfer.

(** ** What the client receives *)

(** The byte of the file at an offset. *)
Definition byte_at (content : list Z) (y : Z) : Z := default 0 (content !! Z.to_nat y).

Lemma slice_byte_at content off k : 0 <= off -> 0 <= k -> off + k <= zlen content ->
  slice (byte_at content) off k = take (Z.to_nat k) (drop (Z.to_nat off) content).
Proof.
  intros Hoff Hk Hle. unfold zlen in Hle. apply list_eq. intros i. unfold slice. rewrite list_lookup_fmap.
  destruct (decide (i < Z.to_nat k)%nat) as [Hi|Hi].
  - rewrite lookup_seqZ_lt, lookup_take_lt, lookup_drop by lia. cbn. unfold byte_at.
    replace (Z.to_nat (off + Z.of_nat i)) with (Z.to_nat off + i)%nat by lia.
    destruct (lookup_lt_is_Some_2 content (Z.to_nat off + i)) as [x ->]; [lia|done].
  - rewrite lookup_seqZ_ge, lookup_take_ge by lia. done.
Qed.

Lemma received_readable frame len s s' res : StreamsState.received frame len s = Ret (s', res) ->
  readable (events s') = readable (events s) \/ readable (events s') = readable (events s) ++ [st_id frame].
Proof.
  unfold StreamsState.received. destruct (StreamsState.validate_receive_id _ s); [|intros [= <- _]; by left].
  destruct (match ss_recv s !! st_id frame with Some rs => Some rs | None => _ end) as [rs|]; [|intros [= <- _]; by left].
  destruct (negb (Recv.is_receiving rs)); [intros [= <- _]; by left|].
  intros Ha. apply obind_ret in Ha as ([rs' [[k closed]|e]] & _ & Ha); [|injection Ha as <- _; by left].
  destruct (negb (stopped rs')); [destruct (_ || _)|destruct closed]; injection Ha as <- _; try (by left). right. cbn. by rewrite readable_app.
Qed.

(** The first unidirectional stream of the server. *)
Definition file_stream : StreamId := StreamId.new Server Uni 0.

Section FileFrames.
Context {B : Type} `{BufBytes B} (content : list Z).

(** A frame that gives the client parts of the file only. *)
Definition file_frame (frame : Frame) : Prop :=
  match frame with
  | FStream f => content_frame (byte_at content) (zlen content) file_stream f
  | FResetStream _ => False
  | _ => True
  end.

(** A datagram with a packet of such frames. *)
Definition carries_file (datagram : list Z) : Prop :=
  forall d : B, view d = datagram -> exists h p fs,
    Header.decode d (zlen FAKE_CID) SUPPORTED_VERSIONS = Ret (Ok (h, p)) /\
    parse_payload p = Ret (payload_result fs) /\ Forall file_frame fs.

(** An invariant of the receive streams and of the events about them, which the
    parts of the file keep: datagrams and timeouts keep it. *)
Context (Inv : gmap StreamId Recv -> list StreamId -> Prop).
Definition invariant (c : Connection) : Prop := Inv (ss_recv (c_streams c)) (readable (events (c_streams c))).
Definition kept_by_parts : Prop := forall frame len s s' res, content_frame (byte_at content) (zlen content) file_stream frame ->
  StreamsState.received frame len s = Ret (s', res) ->
  Inv (ss_recv s) (readable (events s)) -> Inv (ss_recv s') (readable (events s')).
Context (parts : kept_by_parts).

Lemma quiet_invariant c c' : quiet c c' -> invariant c -> invariant c'.
Proof using. unfold invariant. by intros [[_ -> _ _ ->] _]. Qed.

Lemma early_frame_file now id frame c c' r : Connection.early_frame now id frame c = Ret (c', r) -> invariant c -> invariant c'.
Proof using.
  destruct frame; cbn [Connection.early_frame]; try (by intros [= <- <-]).
  - intros Ha. apply obind_ret in Ha as ([c1 res] & Ha%on_ack_quiet & Hst1). injection Hst1 as <- <-. by apply quiet_invariant.
  - set (c1 := if _ <? _ then _ else _). assert (Hk : quiet c c1) by (unfold c1; by destruct (_ <? _)).
    clearbody c1. intros Ha Hs%(quiet_invariant _ _ Hk). destruct (_ && _); injection Ha as <- _; [|done]. revert Hs.
    unfold invariant. cbn. by rewrite readable_app, app_nil_r.
  - intros [= <- _]. apply quiet_invariant, kill_quiet.
Qed.

Lemma data_frame_file now id len frame c c' r : file_frame frame -> Connection.data_frame now id len frame c = Ret (c', r) ->
  invariant c -> invariant c'.
Proof using parts.
  intros Hfile. destruct frame; cbn [Connection.data_frame file_frame] in *; try (by intros [= <- <-]).
  - intros Ha. apply obind_ret in Ha as ([c1 res] & Ha%on_ack_quiet & Hst1). injection Hst1 as <- <-. by apply quiet_invariant.
  - done.
  - intros [= <- <-]. apply quiet_invariant. split; [apply stopped_quiet|done].
  - intros Hd. apply obind_ret in Hd as ([ss res] & Hd & Heq). injection Heq as <- _. by apply (parts _ _ _ _ _ Hfile Hd).
  - intros [= <- _]. apply quiet_invariant, kill_quiet.
Qed.

Definition keeps_invariant (h : Frame -> Connection -> outcome (Connection * Connection.next_frame)) : Prop :=
  forall frame c c' r, file_frame frame -> h frame c = Ret (c', r) -> invariant c -> invariant c'.

Lemma handle_frames_file h l c c' r : keeps_invariant h -> Forall file_frame l ->
  handle_frames h (map Ok l) c = Ret (c', r) -> invariant c -> invariant c'.
Proof using.
  intros Hh Hl. revert c. induction Hl as [|x l Hx Hl IH]; intros c; cbn; [by intros [= -> _]|].
  intros Ha Hc. apply obind_ret in Ha as ([c1 next] & Hst1 & Ha). pose proof (Hh _ _ _ _ Hx Hst1 Hc) as Hc1.
  destruct next; [by apply (IH c1)|by injection Ha as <- _].
Qed.

Lemma process_frames_file h (payload : B) fs c c' r : keeps_invariant h -> Forall file_frame fs ->
  parse_payload payload = Ret (payload_result fs) -> Connection.process_frames h payload c = Ret (c', r) -> invariant c -> invariant c'.
Proof using.
  intros Hh Hfs Hp. pose proof (process_frames_fold h payload c) as Hf. rewrite Hp in Hf. destruct fs as [|x fs]; cbn [payload_result] in Hf; rewrite Hf.
  - by intros [= <- _].
  - by apply handle_frames_file.
Qed.

Lemma process_packet_file now number (packet : Packet B) fs c c' r : Forall file_frame fs ->
  parse_payload (payload packet) = Ret (payload_result fs) -> Connection.process_packet now number packet c = Ret (c', r) ->
  invariant c -> invariant c'.
Proof using parts.
  intros Hfs Hp. unfold Connection.process_packet, Connection.process_early_payload, Connection.process_payload.
  destruct (Header.space (header packet)); [| |destruct number; [|by intros [= <- _]]]; intros Ha;
    apply obind_ret in Ha as ([c1 r1] & Ha & Heq); injection Heq as <- _; revert Ha;
    apply (process_frames_file _ _ fs); try done; intros frame c0 c0' r0 Hx; first [apply early_frame_file|by apply data_frame_file].
Qed.

Lemma handle_data_file now datagram (d : B) c c' : carries_file datagram -> view d = datagram ->
  Connection.handle_data now d c = Ret c' -> invariant c -> invariant c'.
Proof using parts.
  intros Hd Hv. destruct (Hd d Hv) as (h & p & fs & Hdec & Hp & Hfs). unfold Connection.handle_data. rewrite Hdec. cbn [obind].
  intros Ha Hc. apply obind_ret in Ha as (number & _ & Ha). apply obind_ret in Ha as ([dd dup] & _ & Ha).
  set (c1 := with_space _ _ c) in Ha. assert (Hc1 : invariant c1) by done. clearbody c1.
  destruct dup; [by injection Ha as <-|]. destruct (_ && _); [by injection Ha as <-|].
  unfold Connection.handle_packet in Ha. apply obind_ret in Ha as (c2 & Hst2 & Ha). apply obind_ret in Ha as ([c3 res] & Hst3 & Ha%conclude_quiet).
  apply (quiet_invariant _ _ Ha). apply (process_packet_file now number {| header := h; payload := p |} fs c2 c3 res Hfs Hp Hst3).
  destruct (negb _); [|by injection Hst2 as <-]. apply authenticated_quiet in Hst2. by apply (quiet_invariant _ _ Hst2).
Qed.

Lemma no_event_file (r : Round B) c c' : (forall t d, r_data r = Some (t, d) -> carries_file (view d)) ->
  Driver.take_event c = None -> Driver.select r c = Ret c' -> invariant c -> invariant c'.
Proof using parts.
  intros Hdata He Hs Hc. unfold Driver.select in Hs. rewrite He in Hs. apply obind_ret in Hs as ([t fired] & _ & Hs).
  destruct fired as [timer|]; [apply timeout_quiet in Hs; by apply (quiet_invariant _ _ Hs)|].
  destruct (r_data r) as [[now d]|]; [|by injection Hs as <-]. by apply (handle_data_file now (view d) d _ _ (Hdata _ _ eq_refl) eq_refl Hs).
Qed.
End FileFrames.

Section FileClient.
Context {B : Type} `{BufBytes B} (content : list Z).

(** What was written is what was read of the stream of the file, and no event
    is about another stream. *)
Definition client_holds (f : list Z) (c : Connection) : Prop :=
  streams_inv (byte_at content) (zlen content) file_stream f (c_streams c) /\
  Forall (eq file_stream) (readable (events (c_streams c))).

Lemma keeps_holds f c c' : quiet c c' -> client_holds f c -> client_holds f c'.
Proof. unfold client_holds, streams_inv. by intros [[_ -> _ _ ->] _]. Qed.

Context (content_max : zlen content <= VARINT_MAX).

(** [client_holds] as an invariant of the receive streams and the events. *)
Definition holds_so_far (f : list Z) (m : gmap StreamId Recv) (l : list StreamId) : Prop :=
  match m !! file_stream with None => f = [] | Some r => stream_holds (byte_at content) (zlen content) f r end /\ Forall (eq file_stream) l.

Lemma parts_keep_holds f : kept_by_parts content (holds_so_far f).
Proof using content_max.
  intros frame len s s' res Hf Hd [Hs Hl].
  split; [exact (received_inv _ _ _ (conj (zlen_nonneg content) content_max) f s frame len s' res Hf Hs Hd)|].
  destruct (received_readable _ _ _ _ _ Hd) as [-> | ->]; [done|]. apply Forall_app. split; [done|]. apply Forall_singleton. by rewrite (cf_id _ _ _ _ Hf).
Qed.

(** *** A round of the client *)
Context (write_all : list Z -> list Z -> option (list Z)).
Context (write_all_appends : forall f d f', write_all f d = Some f' -> f' = f ++ d).

Lemma taken_holds f c e c' : Driver.take_event c = Some (e, c') -> client_holds f c -> client_holds f c' /\ about_file file_stream e.
Proof.
  intros (He & _ & _ & Hr & _)%take_event_spec. unfold client_holds, streams_inv. rewrite He, Hr. intros [Hs Hev]. unfold readable in Hev.
  destruct e as [|x|[id|id|id code]]; cbn in Hev; try done. apply Forall_cons in Hev as [<- Hev]. done.
Qed.

(** The client's program adds no events. *)
Lemma client_cc_events now f e c f' c' : client_cc write_all now f e c = Ret (f', c') -> events (c_streams c') = events (c_streams c).
Proof.
  destruct e as [|x|[id|id|id code]]; cbn [client_cc]; try (by intros [= _ <-]). intros Ha.
  apply obind_ret in Ha as ([c1 r] & Hr & Ha). assert (Hc1 : events (c_streams c1) = events (c_streams c)).
  { unfold read, Connection.recv_stream in Hr. apply obind_ret in Hr as ([ss p] & Hh & Hr). apply obind_ret in Hh as (u & _ & Hh). injection Hh as <- _.
    apply obind_ret in Hr as ([ss' r'] & Hh & Hr). injection Hr as <- _. cbn. unfold RecvStream.read in Hh.
    destruct (ss_recv (c_streams c) !! id) as [rs|]; [|by injection Hh as <- _]. destruct (stopped rs); [by injection Hh as <- _|].
    apply obind_ret in Hh as ([|] & _ & Hh); by injection Hh as <- _. }
  rewrite <- Hc1. destruct r as [chunks|e]; [|by injection Ha as _ <-]. apply obind_ret in Ha as ([[f1 fin] chunks'] & _ & Ha).
  assert (Hd : events (c_streams (drop_chunks chunks' c1)) = events (c_streams c1)).
  { unfold drop_chunks, RecvStream.drop. by destruct (oc_state chunks'). }
  rewrite <- Hd. destruct fin; [|by injection Ha as _ <-]. apply obind_ret in Ha as (c2 & Hcl & Ha). injection Ha as _ <-.
  unfold Connection.close in Hcl. destruct (negb _); [|by injection Hcl as <-].
  apply obind_ret in Hcl as (c3 & Ht & Hcl). apply obind_ret in Ht as (t & _ & Ht). injection Ht as <-. by injection Hcl as <-.
Qed.


Lemma no_event_holds (r : Round B) f c c' : (forall t d, r_data r = Some (t, d) -> carries_file (B:=B) content (view d)) ->
  Driver.take_event c = None -> Driver.select r c = Ret c' -> client_holds f c -> client_holds f c'.
Proof using content_max. exact (no_event_file content (holds_so_far f) (parts_keep_holds f) r c c'). Qed.

Lemma client_round now (r : Round B) f c f' c' : (forall t d, r_data r = Some (t, d) -> carries_file (B:=B) content (view d)) ->
  client_holds f c ->
  round (client_handler write_all 0 FileTransfer) now r f c = Ret (f', c') ->
  client_holds f' c' /\ (is_Some (event_of r c) -> State.is_closed (c_state c) = false -> State.is_closed (c_state c') = false) \/
  is_Some (event_of r c) /\ f' = content /\ State.is_closed (c_state c') = true.
Proof using content_max write_all_appends.
  intros Hdata Hc. unfold round. destruct (State.is_drained (c_state c)) eqn:Hdr.
  { intros [= <- <-]. left. split; [done|]. by destruct (c_state c). }
  unfold event_of in *. intros Ha. apply obind_ret in Ha as (c1 & Hb & Ha). apply obind_ret in Ha as (c2 & Hq & Ha).
  rewrite Hb in *. cbn [obind] in *. rewrite Hq in *. pose proof (sn_state _ _ (burst_sends _ _ _ _ Hb)) as Hst1.
  pose proof (proj1 (proj2 (send_queued_spec _ _ _ Hq))) as Hst2. apply burst_quiet in Hb. apply send_queued_quiet in Hq.
  assert (Hc2 : client_holds f c2) by (by apply (keeps_holds _ c1), (keeps_holds _ c)). unfold select in Ha.
  destruct (Driver.take_event c2) as [[e c3]|] eqn:He.
  - destruct (taken_holds _ _ _ _ He Hc2) as [[Hs3 Hev3] Habout]. apply take_event_spec in He as (_ & Hst3 & _).
    destruct (handler_holds (byte_at content) (zlen content) file_stream write_all write_all_appends now f e c3 f' c' Habout Hs3 Ha) as [[Hh Hst]|[Hf Hcl]].
    + left. split; [split; [done|by rewrite (client_cc_events _ _ _ _ _ _ Ha)]|]. intros _. by rewrite Hst, Hst3, Hst2, Hst1.
    + right. split; [done|]. split; [|done]. rewrite Hf, slice_byte_at by (try apply zlen_nonneg; lia). unfold zlen. rewrite Nat2Z.id, drop_0.
      by rewrite firstn_all.
  - apply obind_ret in Ha as (c3 & Hs & Ha). injection Ha as <- <-. left. split; [by eapply no_event_holds|]. by intros [? ?].
Qed.

Lemma client_holds_prefix f c : client_holds f c -> f `prefix_of` content.
Proof.
  intros Hc. assert (Hf : f = take (length f) content); [|exists (drop (length f) content); by rewrite Hf, take_drop at 1].
  destruct Hc as [Hs _]. revert Hs. unfold streams_inv. destruct (ss_recv (c_streams c) !! file_stream) as [rs|]; [|by intros ->].
  intros [Hf Hle]%stream_holds_prefix. rewrite Hf at 1. rewrite slice_byte_at by (try apply zlen_nonneg; lia).
  unfold zlen. by rewrite Nat2Z.id.
Qed.
(** *** What holds in every round, closed or not *)

Lemma loop_appends fuel f finished chunks f' finished' chunks' :
  chunk_loop fuel USIZE_MAX (while_ok (file_chunk write_all)) (f, finished) chunks = Some (Ret ((f', finished'), chunks')) ->
  f `prefix_of` f'.
Proof using write_all_appends.
  revert f finished chunks. induction fuel as [|fuel IH]; intros f finished chunks; [done|]. cbn [chunk_loop].
  destruct (RecvStream.next USIZE_MAX chunks) as [[c1 res]|]; [|done]. destruct res as [[ch|]|e]; cbn [while_ok fst snd obind].
  - unfold file_chunk. destruct (write_all f (ch_bytes ch)) as [f1|] eqn:Hw; cbn [unwrap obind]; [|done].
    intros Hl%IH. apply write_all_appends in Hw as ->. etrans; [|exact Hl]. by exists (ch_bytes ch).
  - by intros [= <- _ _].
  - by intros [= <- _ _].
Qed.

Lemma client_cc_appends now f e c f' c' : client_cc write_all now f e c = Ret (f', c') -> f `prefix_of` f'.
Proof using write_all_appends.
  destruct e as [|x|[id|id|id code]]; cbn [client_cc]; try (by intros [= <- _]). intros Ha.
  apply obind_ret in Ha as ([c1 [chunks|e]] & _ & Ha); [|by injection Ha as <- _].
  apply obind_ret in Ha as ([[f1 finished] chunks'] & Hl & Ha). unfold for_chunks in Hl.
  destruct (chunk_loop _ _ _ _ _) as [[r|]|] eqn:Hk; cbn in Hl; [injection Hl as ->|done..]. apply loop_appends in Hk.
  destruct finished; [apply obind_ret in Ha as (c2 & _ & Ha)|]; by injection Ha as <- _.
Qed.

(** The client only appends to its file, and a closed connection stays closed. *)
Lemma client_round_appends now (r : Round B) f c f' c' : round (client_handler write_all 0 FileTransfer) now r f c = Ret (f', c') ->
  f `prefix_of` f' /\ (State.is_closed (c_state c) = true -> State.is_closed (c_state c') = true).
Proof using write_all_appends.
  intros Ha. split.
  - unfold round in Ha. destruct (State.is_drained (c_state c)); [by injection Ha as <- _|].
    apply obind_ret in Ha as (c1 & _ & Ha). apply obind_ret in Ha as (c2 & _ & Ha). unfold select in Ha.
    destruct (Driver.take_event c2) as [[e c3]|]; [exact (client_cc_appends _ _ _ _ _ _ Ha)|].
    apply obind_ret in Ha as (c3 & _ & Ha). by injection Ha as <- _.
  - apply round_refines in Ha as [ops Ha]; [|apply _]. apply round_forward, fw_rank in Ha.
    destruct (c_state c), (c_state c'); cbn in *; try done; lia.
Qed.

(** Nothing but the file was written; or the transfer is over, and what was
    written starts with the file. *)
Definition client_wrote (f : list Z) (c : Connection) : Prop :=
  client_holds f c \/ (State.is_closed (c_state c) = true /\ content `prefix_of` f).

Lemma client_round_wrote now (r : Round B) f c f' c' : (forall t d, r_data r = Some (t, d) -> carries_file (B:=B) content (view d)) ->
  client_wrote f c -> round (client_handler write_all 0 FileTransfer) now r f c = Ret (f', c') -> client_wrote f' c'.
Proof using content_max write_all_appends.
  intros Hdata [Hc|[Hcl Hpre]] Ha.
  - destruct (client_round _ _ _ _ _ _ Hdata Hc Ha) as [[Hc' _]|(_ & -> & Hcl)]; [by left|by right].
  - destruct (client_round_appends _ _ _ _ _ _ Ha) as [Hf Hst]. right. split; [by apply Hst|by etrans].
Qed.
End FileClient.

(** ** What the server sends *)

Section FileServer.
Context {B : Type} `{BufBytes B} (content : list Z).

(** All that was done is to write the file to its stream, and to finish it. *)
Record serves (n : Written) : Prop := {
  sv_total : 0 <= total n <= zlen content;
  sv_writes : forall id, writes n id = [] \/ writes n id = [content];
  sv_finished : forall id k, finished_at n id = Some k -> k = zlen content;
  sv_resets : was_reset n = [];
  sv_only : forall id, id <> file_stream -> writes n id = [] /\ finished_at n id = None;
}.

Lemma serves_writes n id b : serves n -> writes_of n id b = [] \/ writes_of n id b = [content].
Proof. intros Hn. unfold writes_of. destruct (_ =? 0); [by left|apply Hn]. Qed.

Lemma serves_history n id b : serves n -> history n id b = [] \/ history n id b = content.
Proof. intros Hn. unfold history. destruct (serves_writes n id b Hn) as [-> | ->]; [by left|right; cbn; by rewrite app_nil_r]. Qed.

Lemma serves_whole n c : conn_typed n c -> serves n -> whole_writes (c_streams c).
Proof.
  intros Hc Hn id ss Hss. destruct (ct_streams _ _ Hc _ _ Hss) as (_ & _ & [_ _ (freed & Hw & _)] & _).
  assert (Hl : (length (writes_of n id (pending ss)) <= 1)%nat) by (destruct (serves_writes n id (pending ss) Hn) as [-> | ->]; cbn; lia).
  rewrite Hw, length_app in Hl. cbn. lia.
Qed.

(** STREAM frames are for the stream of the file only: a frame has data or ends
    its stream. *)
Lemma frame_of_file n c m f : conn_typed n c -> serves n -> stream_frame (c_streams c) m f -> sm_id m = file_stream.
Proof.
  intros Hc Hn (ss & Hss & Hr & _ & Hhigh & Hfin & Hsome & _). destruct (decide (sm_id m = file_stream)) as [|Hne]; [done|exfalso].
  destruct (sv_only _ Hn _ Hne) as [Hw Hf]. destruct (ct_streams _ _ Hc _ _ Hss) as (_ & _ & Hh & Hfp).
  destruct Hsome as [Hlt|[Hp _]%Hfin]; [|destruct (Hfp Hp) as [_ Hk]; congruence].
  pose proof (ho_offset _ _ _ Hh) as Hoff. unfold history, writes_of in Hoff. rewrite Hw in Hoff. unfold zlen in Hoff. destruct (_ =? 0); cbn in Hoff; lia.
Qed.

(** The STREAM frames are parts of the file. *)
Lemma serves_frame n c m f : conn_typed n c -> serves n -> stream_frame (c_streams c) m (FStream f) ->
  content_frame (byte_at content) (zlen content) file_stream f.
Proof.
  intros Hc Hn Hf. destruct (stream_frame_written _ _ _ _ Hc Hf) as (ss0 & Hss0 & Hdata). pose proof (frame_of_file _ _ _ _ Hc Hn Hf) as Hid.
  destruct Hf as (ss & Hss & Hr & Hlow & Hhigh & Hfin & _ & Hf). injection Hf as ->. cbn [st_id st_offset st_data st_fin] in *.
  rewrite Hss in Hss0. injection Hss0 as <-. destruct (ct_streams _ _ Hc _ _ Hss) as (_ & Hi & Hh & Hfp).
  set (r := sm_offsets m) in *. set (data := stream_slice (pending ss) r) in *.
  assert (Hlen : zlen data = rend r - rstart r).
  { destruct (Z.eq_dec (rstart r) (rend r)) as [Heq|Hne]; [unfold data, stream_slice; by rewrite Heq, !Z.sub_diag|].
    apply stream_slice_length; [done|split; [apply Hlow; lia|lia]|done]. }
  pose proof (ho_offset _ _ _ Hh) as Hoff.
  assert (Hend : rend r <= zlen content /\ (rend r = 0 \/ history n (sm_id m) (pending ss) = content)).
  { pose proof (zlen_nonneg content). destruct (serves_history n (sm_id m) (pending ss) Hn) as [E|E]; rewrite E in Hoff |- *; [|by split; [lia|right]].
    rewrite zlen_nil in Hoff. split; [lia|left; lia]. }
  destruct Hend as [Hend Hhist]. split; cbn [st_id st_offset st_data st_fin]; [done|lia| |lia|].
  - rewrite slice_byte_at by lia. rewrite Hlen. destruct Hhist as [Hz|Hhist].
    + assert (data = []) as -> by (apply zlen_0; lia). by replace (Z.to_nat (rend r - rstart r)) with 0%nat by lia.
    + rewrite Hdata at 1. rewrite Hhist. f_equal. unfold zlen in Hlen. lia.
  - intros [Hp Ho]%Hfin. destruct (Hfp Hp) as [_ Hk]. apply (sv_finished _ Hn) in Hk. lia.
Qed.

(** A packet that is queued. *)
Lemma packet_file n now id c m fs : conn_typed n c -> serves n -> packet_typed n m ->
  packet_frames now id c (record_of m) fs -> Forall (file_frame content) fs.
Proof.
  intros Hc Hn [_ Hm] (acks & resets & stops & streams & -> & Hacks & Hret & Hst & _).
  assert (Hres : resets = []).
  { destruct resets as [|x resets]; [done|exfalso]. cbn [sent_retransmits record_of] in Hret. rewrite Hret in Hm.
    unfold StreamsState.thin_push in Hm. destruct (hello _); cbn in Hm; destruct Hm as [Hm _]; cbn in Hm;
      apply Forall_cons in Hm as [(_ & _ & Hx) _]; rewrite (sv_resets _ Hn) in Hx; by apply not_elem_of_nil in Hx. }
  subst resets. rewrite !Forall_app. split_and!.
  - destruct (ArrayRangeSet.is_empty _); [by destruct Hacks as [-> _]|destruct Hacks as (a & -> & _)]. by apply Forall_singleton.
  - destruct (hello _); [by apply Forall_singleton|done].
  - destruct (_ && _); [by apply Forall_singleton|done].
  - done.
  - apply Forall_map, Forall_true. done.
  - apply Forall_forall. intros f Hf. apply list_elem_of_lookup in Hf as [i Hi].
    destruct (Forall2_lookup_r _ _ _ _ _ Hst Hi) as (x & _ & Hx). pose proof Hx as (ss & _ & _ & _ & _ & _ & _ & ->).
    exact (serves_frame n c x _ Hc Hn Hx).
Qed.

Definition queue_carries (s : Connection) : Prop :=
  Forall (fun x => carries_file (B:=B) content (sch_packet x)) (sending_queue (path s)).

Lemma understood_carries datagram id k la len fs : understood B datagram id k la len fs -> Forall (file_frame content) fs ->
  carries_file (B:=B) content datagram.
Proof. intros Hu Hfs d Hd. destruct (Hu d Hd) as (h & pn & p & Hdec & _ & _ & _ & _ & _ & Hp & _). by exists h, p, fs. Qed.

Lemma acks_only_carries datagram : acks_only (B:=B) datagram -> carries_file (B:=B) content datagram.
Proof.
  intros Ha d Hd. destruct (Ha d Hd) as (h & p & Hdec & Hp). destruct Hp as [Hp|[a Hp]].
  - exists h, p, []. split; [done|]. split; [|done]. by apply (parse_payload_all []); [constructor|].
  - exists h, p, [FAck a]. split; [done|]. split; [done|]. by apply Forall_singleton.
Qed.

Lemma poll_serves n now s s' again : conn_typed n s -> serves n -> queue_carries s ->
  Connection.poll_transmit now s = Ret (s', again) -> conn_typed n s' /\ queue_carries s'.
Proof.
  intros Hs Hn Hq Hp. pose proof (proj1 (sv_total _ Hn)) as Htot. pose proof (typed_poll n _ _ _ _ Hp Hs) as Hs'. split; [done|].
  unfold queue_carries. destruct (State.is_closed (c_state s)) eqn:Hcl.
  - destruct (poll_closing (B:=B) _ _ _ _ Hcl (fun id => st_ranges _ _ (ct_spaces _ _ Hs id)) Hp) as (_ & l & -> & Hl & _).
    apply Forall_app. split; [done|]. eapply Forall_impl; [exact Hl|]. intros x. apply acks_only_carries.
  - destruct (poll_understood (B:=B) n now s s' again Htot Hs (serves_whole n s Hs Hn) Hcl Hp) as (l & Heq & Hl).
    pose proof (ct_queue _ _ Hs') as Hm. unfold queued_packets in Hm. rewrite Heq in Hm |- *. rewrite map_app, Forall_app in Hm. destruct Hm as [_ Hm].
    apply Forall_app. split; [done|]. rewrite Forall_map in Hm. rewrite Forall_forall in Hl, Hm |- *. intros x Hx.
    destruct (Hl x Hx) as (len & fs & Hfr & Hu). apply (understood_carries _ _ _ _ _ _ Hu). eapply packet_file; [exact Hs|exact Hn|exact (Hm x Hx)|exact Hfr].
Qed.

Lemma burst_serves n k now s s' : conn_typed n s -> serves n -> queue_carries s -> Driver.burst k now s = Ret s' ->
  conn_typed n s' /\ queue_carries s'.
Proof.
  intros Hs Hn. revert s Hs. induction k as [|k IH]; intros s Hs Hq; cbn [Driver.burst]; [by intros [= <-]|].
  intros Ha. apply obind_ret in Ha as ([s1 again] & Hst1 & Ha). destruct (poll_serves _ _ _ _ _ Hs Hn Hq Hst1) as [Hs1 Hq1].
  destruct again; [by apply (IH s1)|by injection Ha as <-].
Qed.

(** *** A round of the server *)

Context (content_nonempty : content <> []) (content_size : 2 * zlen content <= VARINT_MAX).

(** The file bounds every stream, however many bytes were written in all. *)
Lemma serves_settled n s : conn_typed n s -> (forall id, writes n id = [] \/ writes n id = [content]) ->
  conn_typed (mkWritten (zlen content) (writes n) (finished_at n) (was_reset n)) s.
Proof.
  intros [Hsp Hq Hst] Hw. set (n' := mkWritten _ _ _ _). assert (Hg : grows n n') by exact (fun x Hx => Hx). split.
  - intros id. by eapply space_typed_grows.
  - eapply Forall_impl; [exact Hq|]. intros m. by apply packet_typed_grows.
  - intros id ss Hss. destruct (Hst id ss Hss) as (? & ? & [Ht Ho Hseg] & ?). split_and!; [done|done|split; [|done..]|done].
    cbn. pose proof (zlen_nonneg content). rewrite Ho. unfold history, writes_of. destruct (_ =? 0); [done|].
    destruct (Hw id) as [-> | ->]; cbn; [done|]. by rewrite app_nil_r.
Qed.

Lemma open_new dir c c' id : Connection.open_stream dir c = Ret (c', id) ->
  ss_send (c_streams c') !! id = Some Send_default /\ State.is_closed (c_state c') = false /\
  id = StreamId.new (ss_side (c_streams c)) dir (StreamsState.next_of dir (ss_next (c_streams c))).
Proof.
  unfold Connection.open_stream. destruct (State.is_closed (c_state c)) eqn:Hcl; [done|]. intros Ho.
  apply obind_ret in Ho as ([ss i] & Ho & Heq). injection Heq as <- <-. unfold StreamsState.open in Ho.
  apply obind_ret in Ho as (k & _ & Ho). injection Ho as <- <-. split; [apply lookup_insert_eq|done].
Qed.

Lemma write_new id data c c' r : ss_send (c_streams c) !! id = Some Send_default -> State.is_closed (c_state c) = false ->
  write id data c = Ret (c', r) -> exists ss, ss_send (c_streams c') !! id = Some ss /\ offset (pending ss) = zlen data.
Proof.
  intros Hnew Hopen. unfold write, Connection.send_stream. intros Hw. apply obind_ret in Hw as ([[ss p] closed] & Hs & Hw).
  apply obind_ret in Hs as (_ & _ & Hs). injection Hs as <- _ <-. rewrite Hopen in Hw. apply obind_ret in Hw as ([ss r'] & Hs & Heq).
  injection Heq as <- _. unfold SendStream.write in Hs. rewrite Hnew in Hs. cbn [default from_option] in Hs.
  apply obind_ret in Hs as ([ss' r2] & Hs2 & Hs). unfold Send.write in Hs2. apply obind_ret in Hs2 as (b & Hb & Hs2). injection Hs2 as <- <-.
  exists (Send.with_pending b Send_default). split.
  - destruct (negb _); [apply obind_ret in Hs as (q & _ & Hs)|]; injection Hs as <- _; apply lookup_insert_eq.
  - unfold SendBuffer.write in Hb. apply obind_ret in Hb as (l & _ & Hb). apply obind_ret in Hb as (o & [Ho' _]%u64_add_ret & Hb). injection Hb as <-. exact Ho'.
Qed.

(** The stream that is opened, written and finished at the first event. *)
Lemma connected_serves n c c' : conn_typed n c -> serves n ->
  ss_side (c_streams c) = Server -> StreamsState.next_of Uni (ss_next (c_streams c)) = 0 -> server_cc content Connected c = Ret c' ->
  exists n', conn_typed n' c' /\ serves n'.
Proof using content_nonempty content_size.
  intros Hc Hn Hside Hnext. pose proof (sv_total _ Hn) as Htot. cbn [server_cc]. intros Ha. pose proof (zlen_nonneg content) as Hz.
  apply obind_ret in Ha as ([c1 id] & Ho & Ha). apply obind_ret in Ha as ([c2 r] & Hw & Ha). apply obind_ret in Ha as (u & _ & Ha).
  apply obind_ret in Ha as ([c3 r3] & Hf & Ha). apply obind_ret in Ha as (u3 & _ & Ha). injection Ha as <-.
  assert (Hst1 : run_app (AppOpen Uni) c = Ret c1) by (cbn [run_app]; by rewrite Ho).
  apply (typed_app n) in Hst1; [|lia|done|cbn; lia|exact Hc]. cbn [written_by] in Hst1. destruct (open_new _ _ _ _ Ho) as (Hnew & Hopen & Hfile).
  rewrite Hside, Hnext in Hfile. change (id = file_stream) in Hfile.
  pose proof (proj1 (ct_streams _ _ Hst1 _ _ Hnew)) as Hid. destruct (write_new _ _ _ _ _ Hnew Hopen Hw) as (ss & Hss & Hoff).
  apply write_app in Hw. apply (typed_app n) in Hw; [|lia|by split|cbn; lia|exact Hst1].
  set (n2 := written_by _ _ _) in Hw. assert (Hn2 : n2 = mkWritten (total n + zlen content)
    (fun i => if decide (i = id) then [content] else writes n i) (finished_at n) (was_reset n)).
  { unfold n2. cbn [written_by]. unfold write_to. by rewrite Hnew, Hopen. }
  clearbody n2. apply finish_app in Hf. apply (typed_app n2) in Hf; [|rewrite Hn2; cbn; lia|done|rewrite Hn2; cbn; lia|exact Hw].
  cbn [written_by] in Hf. unfold finish_of in Hf. rewrite Hss, Hoff, Hn2 in Hf. cbn [total writes finished_at was_reset] in Hf.
  assert (Hwr : forall i, (if decide (i = id) then [content] else writes n i) = [] \/ (if decide (i = id) then [content] else writes n i) = [content]).
  { intros i. case_decide; [by right|apply Hn]. }
  apply serves_settled in Hf; [|exact Hwr]. eexists. split; [exact Hf|]. split; cbn; [lia|exact Hwr| |apply Hn|].
  - intros i k. case_decide; [by intros [= <-]|apply Hn].
  - intros i Hi. rewrite !decide_False by congruence. by apply (sv_only _ Hn).
Qed.

Definition server_holds (s : Connection) : Prop :=
  announced_once s /\ exists n, conn_typed n s /\ serves n /\ queue_carries s.

(** Receiving queues nothing. *)
Lemma authenticated_queue now id number c c' : Connection.on_packet_authenticated now id number c = Ret c' ->
  sending_queue (path c') = sending_queue (path c).
Proof.
  unfold Connection.on_packet_authenticated. destruct number as [k|]; [|by intros [= <-]]. intros Ha.
  apply obind_ret in Ha as (c1 & Hst1 & Ha). assert (Hq : sending_queue (path c1) = sending_queue (path c)).
  { destruct (_ && _); [|by injection Hst1 as <-]. by apply keeps_discard in Hst1 as [[] _]. }
  rewrite <- Hq. apply obind_ret in Ha as ([a arm] & _ & Ha).
  case_decide; [destruct arm; [apply obind_ret in Ha as (t & _ & Ha)|]|]; by injection Ha as <-.
Qed.

Lemma conclude_path now closed drained res c c' : Connection.conclude now closed drained res c = Ret c' -> path c' = path c.
Proof.
  unfold Connection.conclude. set (c1 := match res with Ok _ => c | Err _ => _ end). assert (Hp : path c1 = path c) by (by destruct res).
  clearbody c1. rewrite <- Hp. intros Ha. apply obind_ret in Ha as (c2 & Hst & Ha). injection Ha as <-.
  assert (Hp2 : path c2 = path c1); [|by destruct (negb drained && _)].
  destruct (_ && _); [|by injection Hst as <-]. destruct (negb _); [|by injection Hst as <-].
  unfold Connection.set_close_timer in Hst. apply obind_ret in Hst as (t & _ & Hst). by injection Hst as <-.
Qed.

Lemma handle_data_queue now (d : B) c c' : Connection.handle_data now d c = Ret c' -> sending_queue (path c') = sending_queue (path c).
Proof.
  unfold Connection.handle_data. intros Ha. apply obind_ret in Ha as (r & _ & Ha). destruct r as [[h p]|]; [|by injection Ha as <-].
  apply obind_ret in Ha as (number & _ & Ha). apply obind_ret in Ha as ([dd dup] & _ & Ha). set (c1 := with_space _ _ _) in Ha.
  change (path c) with (path c1). clearbody c1. destruct dup; [by injection Ha as <-|]. destruct (_ && _); [by injection Ha as <-|].
  unfold Connection.handle_packet in Ha. apply obind_ret in Ha as (c2 & Hst2 & Ha). apply obind_ret in Ha as ([c3 res] & [Hk _]%process_packet_good & Ha%conclude_path).
  rewrite Ha, (k_queue _ _ Hk). destruct (negb _); [by apply authenticated_queue in Hst2|by injection Hst2 as <-].
Qed.

Lemma timeout_queue timer now c c' : Connection.handle_timeout timer now c = Ret c' -> sending_queue (path c') = sending_queue (path c).
Proof. destruct timer; cbn [Connection.handle_timeout]; try (by intros [= <-]). by intros []%keeps_timeout. Qed.

Lemma no_event_queue (r : Round B) c c' : Driver.take_event c = None -> Driver.select r c = Ret c' ->
  sending_queue (path c') = sending_queue (path c).
Proof.
  unfold Driver.select. intros -> Ha. apply obind_ret in Ha as ([t fired] & _ & Ha).
  destruct fired as [timer|]; [by apply timeout_queue in Ha|].
  destruct (r_data r) as [[tm d]|]; [by apply handle_data_queue in Ha|by injection Ha as <-].
Qed.

(** What the server has sent when a round is over: every packet that it queued. *)
Definition sent_in (r : Round B) (s : Connection) : list (list Z) :=
  match Driver.burst Driver.MAX_SPINS (r_now r) s with
  | Ret s => map sch_packet (sending_queue (path s))
  | Panic => []
  end.

(** What the server's program leaves alone. *)
Record by_program (c c' : Connection) : Prop := {
  bp_path : path c' = path c;
  bp_state : c_state c' = c_state c;
  bp_side : ss_side (c_streams c') = ss_side (c_streams c);
  bp_events : events (c_streams c') = events (c_streams c);
}.

Lemma write_by_program id data c c' r : write id data c = Ret (c', r) -> by_program c c'.
Proof.
  unfold write, Connection.send_stream. intros Hw. apply obind_ret in Hw as ([[ss p] closed] & Hs & Hw).
  apply obind_ret in Hs as (_ & _ & Hs). injection Hs as <- _ <-. apply obind_ret in Hw as ([ss r'] & Hs & Heq). injection Heq as <- _.
  unfold SendStream.write in Hs. destruct (State.is_closed _); [by injection Hs as <- _|]. apply obind_ret in Hs as ([st' res] & _ & Hs).
  destruct res as [|e]; [|by injection Hs as <- _]. destruct (negb _); [apply obind_ret in Hs as (q & _ & Hs)|]; by injection Hs as <- _.
Qed.

Lemma finish_by_program id c c' r : finish id c = Ret (c', r) -> by_program c c'.
Proof.
  unfold finish, Connection.send_stream. intros Hw. apply obind_ret in Hw as ([[ss p] closed] & Hs & Hw).
  apply obind_ret in Hs as (_ & _ & Hs). injection Hs as <- _ _. apply obind_ret in Hw as ([ss r'] & Hs & Heq). injection Heq as <- _.
  unfold SendStream.finish in Hs. destruct (ss_send _ !! id) as [st|]; [|by injection Hs as <- _].
  destruct (Send.finish st) as [st' [u|e]]; [|by injection Hs as <- _].
  destruct (negb _); [apply obind_ret in Hs as (q & _ & Hs)|]; by injection Hs as <- _.
Qed.

Lemma server_cc_by_program e c c' : server_cc content e c = Ret c' -> by_program c c'.
Proof.
  destruct e; cbn [server_cc]; [|by intros [= <-]..]. intros Ha.
  apply obind_ret in Ha as ([c1 id] & Ho & Ha). apply obind_ret in Ha as ([c2 r] & [Hp2 Hs2 Hd2 He2]%write_by_program & Ha).
  apply obind_ret in Ha as (u & _ & Ha). apply obind_ret in Ha as ([c3 r3] & [Hp3 Hs3 Hd3 He3]%finish_by_program & Ha).
  apply obind_ret in Ha as (u3 & _ & Ha). injection Ha as <-. unfold Connection.open_stream in Ho. destruct (State.is_closed _); [done|].
  apply obind_ret in Ho as ([ss i] & Ho & Heq). injection Heq as <- _. unfold StreamsState.open in Ho. apply obind_ret in Ho as (k & _ & Ho).
  injection Ho as <- _. by split; etrans; try eassumption.
Qed.

(** The program hears once that it is connected, and serves the file then. *)
Lemma server_event e n s1 s s' : conn_typed n s1 -> serves n -> announced_once s1 -> Driver.take_event s1 = Some (e, s) ->
  server_cc content e s = Ret s' -> announced_once s' /\ exists n', conn_typed n' s' /\ serves n'.
Proof using content_nonempty content_size.
  intros Hs1 Hn Hone He Ha. pose proof (typed_event_taken _ _ _ _ He Hs1) as Hs. destruct (server_cc_by_program _ _ _ Ha) as [_ Hst Hsd Hev].
  apply take_event_spec in He as (He & Hst1 & _ & _ & Hsd1 & Hnx1 & _). destruct Hone as [Hside Hle Hearly Hnext]. rewrite He in Hle, Hearly, Hnext.
  assert (Hg : greetings (e :: events (c_streams s)) = ((if is_connected e then 1 else 0) + greetings (events (c_streams s)))%nat)
    by (unfold greetings; cbn; by destruct (is_connected e)).
  rewrite Hg in Hle, Hearly, Hnext. rewrite <- Hst1, <- Hst in Hearly, Hnext. rewrite <- Hev in Hle, Hearly, Hnext, Hg.
  assert (Hbase : ss_side (c_streams s') = Server) by congruence.
  destruct (is_connected e) eqn:Hc.
  - destruct e; try done. split.
    + split; [done|lia| |]; [intros Hh; specialize (Hearly Hh); lia|intros [Hh|?]; [specialize (Hearly Hh)|]; lia].
    + apply (connected_serves n s s' Hs Hn); [congruence| |exact Ha]. rewrite Hnx1. apply Hnext. right. lia.
  - assert (s' = s) as -> by (destruct e; [done|by injection Ha as ->..]). split; [|by exists n]. rewrite <- Hnx1 in Hnext. split; auto; lia.
Qed.

Lemma server_round now (r : Round B) s s' u : server_holds s -> round (server_handler content FileTransfer) now r tt s = Ret (u, s') ->
  server_holds s' /\ Forall (carries_file (B:=B) content) (sent_in r s).
Proof using Type*.
  intros (Hone & n & Hs & Hn & Hq). unfold round, sent_in. destruct (State.is_drained (c_state s)) eqn:Hdr.
  { intros [= _ <-]. split; [split; [done|by exists n]|]. destruct (Driver.burst _ _ s) as [s1|] eqn:Hb; [|done].
    destruct (burst_serves _ _ _ _ _ Hs Hn Hq Hb) as [_ Hq1]. by apply Forall_map. }
  intros Ha. apply obind_ret in Ha as (s1 & Hb & Ha). rewrite Hb. apply obind_ret in Ha as (s2 & Hse & Ha).
  destruct (burst_serves _ _ _ _ _ Hs Hn Hq Hb) as [Hs1 Hq1]. split; [|by apply Forall_map].
  apply (calm_once _ _ (quiet_calm _ _ (burst_quiet _ _ _ _ Hb))), (calm_once _ _ (quiet_calm _ _ (send_queued_quiet _ _ _ Hse))) in Hone.
  pose proof (typed_send_queued _ _ _ _ Hse Hs1) as Hs2. pose proof (proj2 (proj2 (send_queued_spec _ _ _ Hse))) as Hempty.
  unfold select in Ha. destruct (Driver.take_event s2) as [[e s3]|] eqn:He.
  - apply obind_ret in Ha as (s4 & Ha & Heq). injection Heq as _ <-. destruct (server_event _ _ _ _ _ Hs2 Hn Hone He Ha) as (Hone' & n' & Hs4 & Hn').
    split; [done|]. exists n'. split; [done|]. split; [done|]. apply take_event_spec in He as (_ & _ & Hp & _).
    unfold queue_carries. by rewrite (bp_path _ _ (server_cc_by_program _ _ _ Ha)), Hp, Hempty.
  - apply obind_ret in Ha as (s3 & Ha & Heq). injection Heq as _ <-.
    split; [exact (no_event_keeps announced_once calm_once greets_once r _ _ He Ha Hone)|].
    exists n. split; [by apply (typed_no_event _ _ _ _ He Ha)|]. split; [done|]. unfold queue_carries. by rewrite (no_event_queue _ _ _ He Ha), Hempty.
Qed.

(** A server that accepted a connection. *)
Lemma accepted_holds now now' (data p : B) h c s u : Connection.new now Server = Ret c ->
  Header.decode data (zlen FAKE_CID) SUPPORTED_VERSIONS = Ret (Ok (HInitial h, p)) ->
  Connection.handle_first_packet now' {| ip_header := h; ip_payload := p |} c = Ret (s, u) -> server_holds s.
Proof.
  intros Hnew Hdec Hf. split.
  { apply (first_packet_keeps announced_once calm_once greets_once _ _ _ _ _ Hf).
    unfold Connection.new in Hnew. apply obind_ret in Hnew as (np & _ & Hnew). injection Hnew as <-. split; unfold greetings; cbn; [done|lia|done|done]. }
  exists nothing_written. split; [|split].
  - apply (typed_first_packet nothing_written now' _ c s _) in Hf; [|exact (decode_number_nonneg _ _ _ _ _ _ Hdec eq_refl)].
    apply Hf. by eapply conn_typed_new.
  - split; cbn; try done; [split; [done|apply zlen_nonneg]|by left].
  - unfold Connection.handle_first_packet in Hf. apply obind_ret in Hf as (k & _ & Hf). apply obind_ret in Hf as (c1 & Hst1%authenticated_queue & Hf).
    apply process_packet_good in Hf as [Hk _]. unfold queue_carries. rewrite (k_queue _ _ Hk), Hst1.
    unfold Connection.new in Hnew. apply obind_ret in Hnew as (np & Hp & Hnew). unfold NetworkPath.new in Hp.
    apply obind_ret in Hp as (? & _ & Hp). injection Hp as <-. by injection Hnew as <-.
Qed.
End FileServer.

(** ** The two programs and the network *)

(** The connection of the server, the datagrams that it ever sent, the file
    that the client has written, and the connection of the client. *)
Record World := mkWorld {
  w_server : Connection;
  w_wire : list (list Z);
  w_file : list Z;
  w_client : Connection;
}.

Section Worlds.
Context {B : Type} `{BufBytes B} (content : list Z) (write_all : list Z -> list Z -> option (list Z)).

(** What the client gets in a round is a datagram that the server sent at some time. *)
Definition from_network (wire : list (list Z)) (r : Round B) : Prop := forall t d, r_data r = Some (t, d) -> view d ∈ wire.

(** A round of the server, with any inputs; or a round of the client with what
    the network gives it, before and after its program closes the connection. *)
Inductive world_step : World -> World -> Prop :=
| step_server now (r : Round B) s s' wire f c :
    round (server_handler content FileTransfer) now r tt s = Ret (tt, s') ->
    world_step (mkWorld s wire f c) (mkWorld s' (wire ++ sent_in r s) f c)
| step_client now (r : Round B) s wire f c f' c' : from_network wire r ->
    round (client_handler write_all 0 FileTransfer) now r f c = Ret (f', c') ->
    world_step (mkWorld s wire f c) (mkWorld s wire f' c').

(** A server that accepted a connection, and a client. *)
Inductive world_start : World -> Prop :=
| start t t' t'' (data p : B) h s0 s c : Connection.new t Server = Ret s0 ->
    Header.decode data (zlen FAKE_CID) SUPPORTED_VERSIONS = Ret (Ok (HInitial h, p)) ->
    Connection.handle_first_packet t' {| ip_header := h; ip_payload := p |} s0 = Ret (s, Ok tt) ->
    Connection.new t'' Client = Ret c -> world_start (mkWorld s [] [] c).

Record world_inv (w : World) : Prop := {
  wi_server : server_holds (B:=B) content (w_server w);
  wi_wire : Forall (carries_file (B:=B) content) (w_wire w);
  wi_client : client_wrote content (w_file w) (w_client w);
}.

Lemma start_inv w : world_start w -> world_inv w.
Proof.
  intros [t t' t'' data p h s0 s c Hnew Hdec Hf Hc]. split; [by eapply accepted_holds|done|].
  left. unfold Connection.new in Hc. apply obind_ret in Hc as (np & _ & Hc). by injection Hc as <-.
Qed.

Context (content_nonempty : content <> []) (content_size : 2 * zlen content <= VARINT_MAX).
Context (write_all_appends : forall f d f', write_all f d = Some f' -> f' = f ++ d).

Lemma content_max : zlen content <= VARINT_MAX.
Proof using content_size. pose proof (zlen_nonneg content). lia. Qed.

Lemma from_network_carries wire (r : Round B) : Forall (carries_file (B:=B) content) wire -> from_network wire r ->
  forall t d, r_data r = Some (t, d) -> carries_file (B:=B) content (view d).
Proof. intros Hw Hn t d Hd. rewrite Forall_forall in Hw. by apply Hw, (Hn t). Qed.

Lemma step_inv w w' : world_step w w' -> world_inv w -> world_inv w'.
Proof using Type*.
  intros [now r s s' wire f c Hs|now r s wire f c f' c' Hn Hc] [Hserver Hwire Hclient]; cbn [w_server w_wire w_file w_client] in *.
  - destruct (server_round content content_nonempty content_size now r s s' tt Hserver Hs) as [Hserver' Hsent].
    split; cbn; [done|by apply Forall_app|done].
  - split; [done..|]. exact (client_round_wrote content content_max write_all write_all_appends now r f c f' c'
      (from_network_carries wire r Hwire Hn) Hclient Hc).
Qed.

Lemma run_inv w w' : rtc world_step w w' -> world_inv w -> world_inv w'.
Proof using Type*. induction 1 as [|w1 w2 w3 Hs _ IH]; [done|]. intros Hw. by apply IH, (step_inv w1). Qed.
End Worlds.

(** C3: The file crosses the network.  Let a server that accepted a connection
    run its program on a file, and a client run its own, round after round and
    with any timers; let the network lose, repeat, reorder and delay the
    datagrams of the server as it likes, and let anything whatever reach the
    server.  The file is not empty, and twice its size fits a varint.  Then the
    client writes nothing but the file as long as its connection is not closed:
    what it has written is a prefix of it.  In the round in which its program
    closes the connection, what it has written is the file.  After that what it
    has written starts with the file; a closed client goes on handling frames,
    and a repeated one can make it append bytes again (another property). *)
Theorem file_crosses_network {B : Type} `{BufBytes B} (content : list Z) (write_all : list Z -> list Z -> option (list Z))
    (w0 w : World) :
  content <> [] -> 2 * zlen content <= VARINT_MAX -> (forall f d f', write_all f d = Some f' -> f' = f ++ d) ->
  world_start (B:=B) w0 -> rtc (world_step (B:=B) content write_all) w0 w ->
  (State.is_closed (c_state (w_client w)) = false -> w_file w `prefix_of` content) /\
  (w_file w `prefix_of` content \/ content `prefix_of` w_file w) /\
  forall now (r : Round B) f' c', from_network (w_wire w) r ->
    round (client_handler write_all 0 FileTransfer) now r (w_file w) (w_client w) = Ret (f', c') ->
    is_Some (event_of r (w_client w)) -> State.is_closed (c_state (w_client w)) = false -> State.is_closed (c_state c') = true ->
    f' = content.
Proof.
  intros Hne Hsize Hw Hstart Hrun. destruct (run_inv content write_all Hne Hsize Hw w0 w Hrun (start_inv content w0 Hstart)) as [_ Hwire Hclient].
  split; [|split].
  - intros Hopen. destruct Hclient as [Hc|[Hcl _]]; [by apply (client_holds_prefix content) in Hc|congruence].
  - destruct Hclient as [Hc|[_ Hpre]]; [left; by apply (client_holds_prefix content) in Hc|by right].
  - intros now r f' c' Hn Hr He Hopen Hcl. destruct Hclient as [Hc|[Hcl' _]]; [|congruence].
    destruct (client_round content (content_max content Hsize) write_all Hw now r _ _ f' c' (from_network_carries content _ r Hwire Hn) Hc Hr)
      as [[_ Hst]|(_ & Hf & _)]; [|done]. by rewrite (Hst He Hopen) in Hcl.
Qed.

(** *** A file of 1445 bytes, in two packets *)

Definition sample_content : list Z := (fun i => i mod 251) <$> seqZ 0 1445.

Definition to_memory (datagram : list Z) : option in_memory :=
  match decide (forallb (fun x => (0 <=? x) && (x <? 256)) datagram && (zlen datagram <? U64) = true) with
  | left ok => Some (InMemory datagram ok)
  | right _ => None
  end.

Lemma to_memory_view datagram d : to_memory datagram = Some d -> view d = datagram.
Proof. unfold to_memory. case_decide; [|done]. by intros [= <-]. Qed.

(** A round of the server without inputs. *)
Definition server_turn (now : Instant) (w : World) : outcome World :=
  let r := memory_round now [] None in
  let! '(_, s) := round (server_handler sample_content FileTransfer) now r tt (w_server w) in
  Ret (mkWorld s (w_wire w ++ sent_in r (w_server w)) (w_file w) (w_client w)).

(** A round of the client with one of the datagrams that were sent. *)
Definition client_turn (now : Instant) (k : nat) (w : World) : outcome World :=
  let r := memory_round now [] (w_wire w !! k ≫= to_memory) in
  let! '(f, c) := round (client_handler append 0 FileTransfer) now r (w_file w) (w_client w) in
  Ret (mkWorld (w_server w) (w_wire w) f c).

Lemma memory_from_network wire now k : from_network wire (memory_round now [] (wire !! k ≫= to_memory)).
Proof.
  intros t d. unfold memory_round. cbn [r_data]. destruct (wire !! k) as [x|] eqn:Hk; [|done]. cbn.
  destruct (to_memory x) as [m|] eqn:Hm; [|done]. intros [= _ <-]. apply to_memory_view in Hm. cbn in Hm |- *. rewrite Hm. by eapply list_elem_of_lookup_2.
Qed.

Lemma server_turn_step now w w' : server_turn now w = Ret w' -> world_step (B:=in_memory) sample_content append w w'.
Proof.
  unfold server_turn. destruct w as [s wire f c]. cbn [w_server w_wire w_file w_client]. intros Ha.
  apply obind_ret in Ha as ([[] s'] & Ha & Heq). injection Heq as <-. by eapply step_server.
Qed.

Lemma client_turn_step now k w w' : client_turn now k w = Ret w' -> world_step (B:=in_memory) sample_content append w w'.
Proof.
  unfold client_turn. destruct w as [s wire f c]. cbn [w_server w_wire w_file w_client]. intros Ha.
  apply obind_ret in Ha as ([f' c'] & Ha & Heq). injection Heq as <-.
  eapply step_client; [apply memory_from_network|exact Ha].
Qed.

(** The server accepts the client and sends the file; the client gets the
    Initial packet, is told that it is connected, gets the first packet with
    data twice, is told of it, and gets the second. *)
Definition sample_start : outcome World :=
  let! s0 := Connection.new 0 Server in
  let! r := Header.decode (InMemory initial_datagram eq_refl) (zlen FAKE_CID) SUPPORTED_VERSIONS in
  let! c := Connection.new 1 Client in
  match r with
  | Ok (HInitial h, p) =>
      let! '(s, r) := Connection.handle_first_packet 5 {| ip_header := h; ip_payload := p |} s0 in
      match r with Ok _ => Ret (mkWorld s [] [] c) | Err _ => Panic end
  | _ => Panic
  end.

Definition sample_run (w : World) : outcome World :=
  let! w := server_turn 10 w in let! w := server_turn 20 w in
  let! w := client_turn 30 0 w in let! w := client_turn 40 9 w in let! w := client_turn 50 1 w in
  let! w := client_turn 60 1 w in let! w := client_turn 70 1 w in let! w := client_turn 80 2 w in Ret w.

Lemma sample_run_steps w0 w : sample_run w0 = Ret w -> rtc (world_step (B:=in_memory) sample_content append) w0 w.
Proof.
  unfold sample_run. intros Ha. repeat (apply obind_ret in Ha as (? & Hst & Ha);
    eapply rtc_l; [first [exact (server_turn_step _ _ _ Hst)|exact (client_turn_step _ _ _ _ Hst)]|clear Hst]).
  injection Ha as ->. reflexivity.
Qed.

Lemma sample_start_starts w0 : sample_start = Ret w0 -> world_start (B:=in_memory) w0.
Proof.
  unfold sample_start. intros Ha. apply obind_ret in Ha as (s0 & Hs0 & Ha). apply obind_ret in Ha as (r & Hr & Ha).
  apply obind_ret in Ha as (c & Hc & Ha). destruct r as [[hd p]|]; [|done]. destruct hd as [h| | | |]; try done.
  apply obind_ret in Ha as ([s res] & Hf & Ha). destruct res as [[]|]; [|done]. injection Ha as <-. by eapply start.
Qed.

(** The last round of the client: the event for the second packet. *)
Definition last_round : Round in_memory := memory_round 90 [] None.

Lemma last_round_network wire : from_network wire last_round.
Proof. by intros t d. Qed.

Definition end_of (w : World) : outcome (nat * list Z * bool * bool * bool) :=
  let! '(f, c) := round (client_handler append 0 FileTransfer) 90 last_round (w_file w) (w_client w) in
  Ret (length (w_file w), f, bool_decide (is_Some (event_of last_round (w_client w))),
       State.is_closed (c_state (w_client w)), State.is_closed (c_state c)).

Definition sample_end : outcome (nat * list Z * bool * bool * bool) :=
  let! w0 := sample_start in let! w := sample_run w0 in end_of w.

Lemma sample_end_eq : sample_end = Ret (1442%nat, sample_content, true, false, true).
Proof. vm_compute. reflexivity. Qed.

Lemma file_crosses_network_witness : exists w0 w f c, sample_start = Ret w0 /\ sample_run w0 = Ret w /\
  length (w_file w) = 1442%nat /\ w_file w `prefix_of` sample_content /\
  round (client_handler append 0 FileTransfer) 90 last_round (w_file w) (w_client w) = Ret (f, c) /\ f = sample_content.
Proof.
  pose proof sample_end_eq as He. unfold sample_end, end_of in He.
  destruct sample_start as [w0|] eqn:H0; [|discriminate He]. cbn [obind] in He.
  destruct (sample_run w0) as [w|] eqn:H1; [|discriminate He]. cbn [obind] in He.
  destruct (round (client_handler append 0 FileTransfer) 90 last_round (w_file w) (w_client w)) as [[f c]|] eqn:Hl; [|discriminate He].
  cbn [obind] in He. injection He as Hlen _ Hev Hopen Hcl.
  assert (Happ : forall f d f', append f d = Some f' -> f' = f ++ d) by (unfold append; congruence).
  destruct (file_crosses_network (B:=in_memory) sample_content append w0 w) as (Hpre & _ & Hend).
  - discriminate.
  - vm_compute. discriminate.
  - exact Happ.
  - exact (sample_start_starts w0 H0).
  - exact (sample_run_steps w0 w H1).
  - exists w0, w, f, c. split; [reflexivity|]. split; [exact H1|]. split; [exact Hlen|]. split; [exact (Hpre Hopen)|]. split; [exact Hl|].
    apply bool_decide_eq_true in Hev. exact (Hend 90 last_round f c (last_round_network (w_wire w)) Hl Hev Hopen Hcl).
Defined.
