(* ===== verification/Delivery.v ===== *)
(** * Delivery: which files the file transfer delivers

    The server's side of the transfer packet by packet, down to the bytes of
    the room in a packet, and the client's side datagram by datagram: how the
    size of the file decides whether it arrives. *)
From S2P Require Import Prelude Time Buffers Varint Common ArrayRangeSet RangeSet Packet Frame Timer Space Path Send Recv Streams Connection Accounting Driver Quiet Typed Wire Datagrams Peers Handshake Programs Transfer Network.

(** ** The streams of the server *)

(** The stream of the file, written and finished, of which [u] bytes were sent. *)
Definition file_sent (content : list Z) (u : Z) (fin : bool) : Send :=
  mkSend (DataSent false) (mkSendBuffer [content] (zlen content) (zlen content) u ∅ ∅) 0 fin None.

Definition none_queued (k : Z) : PendingStreamsQueue := mkQueue [] None k.
Definition file_queue (k : Z) : PendingStreamsQueue := mkQueue [mkPendingStream 0 k file_stream] None k.

(** A server with this stream and no other. *)
Definition serving (content : list Z) (u : Z) (fin : bool) (q : PendingStreamsQueue) (l : list Event) : StreamsState :=
  mkStreams Server {[ file_stream := file_sent content u fin ]} ∅ (0, 1) q l.

Lemma serving_insert content u fin q l u' fin' q' :
  StreamsState.with_send (<[file_stream := file_sent content u' fin']> (ss_send (serving content u fin q l)))
    (StreamsState.with_pending q' (serving content u fin q l)) = serving content u' fin' q' l.
Proof. unfold serving, StreamsState.with_send. cbn. by rewrite insert_singleton_eq. Qed.

Lemma file_sent_inv content u fin : content <> [] -> 0 <= u <= zlen content -> zlen content <= VARINT_MAX ->
  send_inv (pending (file_sent content u fin)).
Proof.
  intros Hne Hu Hmax. pose proof (just_written_inv content Send_default Hne Hmax) as [Hl Ho _ Hs Ha Hr _].
  unfold base in *. cbn in *. split; cbn; try done; [unfold base; cbn; lia|lia|]. intros y (a & e & Hy & _). by simplify_map_eq.
Qed.

(** What [poll_transmit] chooses of the file, when it leaves room for the
    length. *)
Lemma file_transmit content u room : content <> [] -> 0 <= u < zlen content -> zlen content <= VARINT_MAX ->
  16 <= room <= VARINT_MAX -> zlen content - u < room - reserved u false ->
  let e := Z.min (zlen content) (u + (room - reserved u true)) in
  transmit room (file_sent content u true) =
    Ret (file_sent content e (negb (e =? zlen content)), Range u e, true, e =? zlen content).
Proof.
  intros Hne Hu Hmax Hroom Hfit e. pose proof (poll_transmit_eq room (pending (file_sent content u true))) as Hp.
  specialize (Hp (file_sent_inv content u true Hne ltac:(lia) Hmax) Hroom eq_refl). cbv zeta in Hp.
  cbn [pending file_sent unsent offset unacked_segments unacked_len acks retransmits] in Hp.
  destruct (Z.ltb_spec (zlen content - u) (room - reserved u false)); [|lia].
  assert (He : e = Z.min (zlen content) (u + (room - reserved u false - 8))) by (unfold e; rewrite reserved_enc; f_equal; lia).
  rewrite <- He in Hp.
  unfold transmit. cbn [pending file_sent]. rewrite Hp. cbn. by destruct (e =? zlen content).
Qed.

Section Turns.
Context {W : Type} `{BufMutLaws W} (content : list Z).
Context (content_nonempty : content <> []) (content_max : zlen content <= VARINT_MAX).

(** The queue when [e] bytes of the file were sent. *)
Definition queue_after (e k : Z) : PendingStreamsQueue := if e =? zlen content then none_queued k else file_queue (k - 1).

Lemma reserved_bound u enc : 0 <= u <= VARINT_MAX -> reserved u enc <= 16.
Proof. intros Hu. unfold reserved. pose proof (varint_bytes_length u Hu). destruct (u =? 0), enc; lia. Qed.

Lemma file_turn u k l (w : W) : 0 <= u < zlen content -> 1 <= k < U64 ->
  StreamsState.STREAM_SIZE_BOUND <= remaining_mut w <= VARINT_MAX_2 -> zlen content - u < remaining_mut w - reserved u false ->
  let e := Z.min (zlen content) (u + (remaining_mut w - reserved u true)) in
  exists w', remaining_mut w' < remaining_mut w - (e - u) /\
    StreamsState.write_turn true (serving content u true (file_queue k) l, w, []) =
      Ret (inl (serving content e (negb (e =? zlen content)) (queue_after e k) l, w',
        [{| sm_id := file_stream; sm_offsets := Range u e; sm_fin := e =? zlen content |}])).
Proof.
  intros Hu Hk Hroom Hfit e. pose proof (reserved_bound u true ltac:(lia)). unfold StreamsState.STREAM_SIZE_BOUND in *.
  assert (He : u < e <= zlen content) by lia. assert (Hroom' : 16 <= remaining_mut w <= VARINT_MAX) by varint_lia.
  pose proof (file_transmit content u (remaining_mut w) content_nonempty Hu content_max Hroom' Hfit) as Htr.
  cbv zeta in Htr. fold e in Htr.
  destruct (turn_frames (B:=in_memory) true (serving content u true (file_queue k) l) w [] (none_queued k) (mkPendingStream 0 k file_stream)
    (file_sent content u true) (file_sent content e (negb (e =? zlen content))) (Range u e) (e =? zlen content)) as (w' & bs & Ht & _ & Hr & _);
    try done.
  - unfold Send.is_pending. cbn. by rewrite orb_true_r.
  - by apply file_sent_inv; [|lia|].
  - unfold base. cbn. lia.
  - cbn. lia.
  - cbn. lia.
  - exists w'. split; [exact Hr|]. rewrite Ht. cbn [ps_id]. rewrite serving_insert. unfold queue_after.
    destruct (Z.eqb_spec e (zlen content)) as [->|Hne].
    + assert (Send.is_pending (file_sent content (zlen content) (negb true)) = false) as ->; [|done].
      unfold Send.is_pending, SendBuffer.has_unsent_data. cbn. by rewrite Z.eqb_refl.
    + assert (Send.is_pending (file_sent content e (negb false)) = true) as -> by (unfold Send.is_pending; cbn; by rewrite orb_true_r).
      unfold PendingStreamsQueue.push_pending. cbn -[u64_sub]. rewrite u64_sub_ok by lia. done.
Qed.

(** A packet takes the file from where it is, up to its end or to its own. *)
Lemma file_frames u k l (w : W) : 0 <= u < zlen content -> 1 <= k < U64 ->
  StreamsState.STREAM_SIZE_BOUND <= remaining_mut w <= VARINT_MAX_2 -> zlen content - u < remaining_mut w - reserved u false ->
  let e := Z.min (zlen content) (u + (remaining_mut w - reserved u true)) in
  exists w', remaining_mut w' <= remaining_mut w /\
    StreamsState.write_stream_frames w true (serving content u true (file_queue k) l) =
      Ret (serving content e (negb (e =? zlen content)) (queue_after e k) l, w',
        [{| sm_id := file_stream; sm_offsets := Range u e; sm_fin := e =? zlen content |}]).
Proof.
  intros Hu Hk Hroom Hfit e. destruct (file_turn u k l w Hu Hk Hroom Hfit) as (w' & Hr & Ht). fold e in Hr, Ht.
  pose proof (reserved_bound u true ltac:(lia)). unfold StreamsState.STREAM_SIZE_BOUND in *. assert (He : u < e) by lia.
  exists w'. split; [lia|]. unfold StreamsState.write_stream_frames.
  assert (Hlen : exists n, StreamsState.write_fuel (serving content u true (file_queue k) l, w, []) = S (S n)).
  { unfold StreamsState.write_fuel. cbn. destruct (Z.to_nat (remaining_mut w)) eqn:Hz; [lia|]. by eexists. }
  destruct Hlen as [n ->]. cbn [StreamsState.write_turns]. rewrite Ht. unfold StreamsState.write_turn.
  destruct (Z.ltb_spec (remaining_mut w') StreamsState.STREAM_SIZE_BOUND) as [_|Hge]; [done|].
  unfold StreamsState.STREAM_SIZE_BOUND in Hge. unfold queue_after in *. cbn [ss_pending serving].
  destruct (Z.eqb_spec e (zlen content)) as [->|Hne]; [done|exfalso; lia].
Qed.

(** A file that fills the room leaves none for the header of its frame. *)
Lemma file_panics k l (w : W) : StreamsState.STREAM_SIZE_BOUND <= remaining_mut w <= zlen content ->
  StreamsState.write_stream_frames w true (serving content 0 true (file_queue k) l) = Panic.
Proof.
  intros Hroom. apply write_first_panics.
  apply (turn_overflows true _ w [] (none_queued k) (mkPendingStream 0 k file_stream) (file_sent content 0 true) content); try done.
Qed.
End Turns.

(** ** A packet of the file *)

(** What is left of a packet behind the header of the Data space, when its
    packet number takes one byte. *)
Definition DATA_ROOM : Z := INITIAL_MTU - (1 + zlen FAKE_CID + 1).

(** A connection that has nothing to send but stream data. *)
Record only_data (s : Connection) : Prop := {
  od_open : State.is_closed (c_state s) = false;
  od_initial : SendableFrames_is_empty (Connection.space_can_send s SpInitial) = true;
  od_handshake : SendableFrames_is_empty (Connection.space_can_send s SpHandshake) = true;
  od_acks : ranges (pending_acks (space_of s SpData)) = [];
  od_pending : Space.pending (space_of s SpData) = Retransmits_default;
  od_ping : ping_pending (space_of s SpData) = false;
  od_immediate : immediate_ack_pending (space_of s SpData) = false;
  od_window : if_bytes (np_in_flight (path s)) < NewReno.window (congestion (path s));
}.

(** The next packet of the Data space has a number of one byte. *)
Record short_number (k : Z) (s : PacketSpace) : Prop := {
  sn_next : next_packet_number s = k;
  sn_acked : 0 <= k - default 0 (largest_acked_packet s) < 128;
  sn_max : 0 <= k < 2 ^ 62;
}.

Lemma data_header k la : 0 <= k - la < 128 -> 0 <= k < 2 ^ 62 -> exists h out,
  PacketNumber.new k la = Ret (PnU8 (as_u8 k)) /\ Connection.packet_header SpData (PnU8 (as_u8 k)) = Ret h /\
  Header.encode h (SliceBuf [] (Z.to_nat INITIAL_MTU)) = Ret out /\ remaining_mut out = DATA_ROOM.
Proof.
  intros Hk Hmax. exists (HShort false false fake_cid (PnU8 (as_u8 k))).
  assert (Hn : PacketNumber.new k la = Ret (PnU8 (as_u8 k))).
  { unfold PacketNumber.new. rewrite u64_sub_ok by lia. cbn [obind]. rewrite u64_mul_ok by u64_lia. cbn [obind].
    destruct (Z.ltb_spec ((k - la) * 2) (Z.shiftl 1 8)) as [|Hge]; [done|]. change (Z.shiftl 1 8) with 256 in Hge. lia. }
  assert (Hh : Connection.packet_header SpData (PnU8 (as_u8 k)) = Ret (HShort false false fake_cid (PnU8 (as_u8 k)))) by done.
  destruct (packet_header_wf SpData _ _ (pn_new_wf _ _ _ Hn) Hh) as [Hwf _].
  assert (Hz : zlen (header_bytes (HShort false false fake_cid (PnU8 (as_u8 k)))) = 22).
  { unfold header_bytes. rewrite !zlen_app, zlen_be_bytes. unfold pn_bytes. cbn [PacketNumber.len PacketNumber.value]. done. }
  destruct (emits_fits _ _ (SliceBuf [] (Z.to_nat INITIAL_MTU)) (emits_header _ _ _ Hwf)) as (out & Hout & _ & Hr); [rewrite Hz; vm_compute; discriminate|].
  exists out. split; [exact Hn|]. split; [exact Hh|]. split; [exact Hout|]. rewrite Hr, Hz. reflexivity.
Qed.

(** The connection that has queued a packet with data. *)
Record data_sent (k : Z) (x : ScheduledPacket) (metas : list StreamMeta) (ss : StreamsState) (s s' : Connection) : Prop := {
  ds_streams : c_streams s' = ss;
  ds_queue : sending_queue (path s') = sending_queue (path s) ++ [x];
  ds_id : space_id (meta_info x) = SpData /\ number (meta_info x) = k;
  ds_length : zlen (sch_packet x) <= INITIAL_MTU;
  ds_record : record_of (meta_info x) = mkSentFrames None None metas;
  ds_next : next_packet_number (space_of s' SpData) = k + 1;
  ds_acked : largest_acked_packet (space_of s' SpData) = largest_acked_packet (space_of s SpData);
  ds_only : only_data s';
}.

Lemma populate_data {W : Type} `{BufMut W} now (out : W) c : let s := space_of c SpData in
  ranges (pending_acks s) = [] -> Space.pending s = Retransmits_default -> ping_pending s = false ->
  Connection.populate_packet now SpData out c =
    let! '(ss, out, metas) := StreamsState.write_stream_frames out true (c_streams c) in
    Ret (with_streams ss (with_space SpData (space_with_pending (hi s) Retransmits_default false s) c), mkSentFrames None None metas, out).
Proof.
  destruct c as [sd st p [ini hs d] high tm strs pc lim]. destruct d as [hi dd rx pend acks num la las lae un sent loss ping imm infl].
  cbn -[StreamsState.write_stream_frames]. intros Ha -> ->. unfold Connection.populate_packet. cbn -[StreamsState.write_stream_frames].
  rewrite Ha, andb_false_r. cbn -[StreamsState.write_stream_frames]. case_decide; [|done]. cbn -[StreamsState.write_stream_frames].
  assert (StreamsState.write_control_frames out Retransmits_default None strs = Ret (out, Retransmits_default, None)) as ->.
  { unfold StreamsState.write_control_frames. cbn. by destruct (_ <? _); cbn; destruct (_ <? _). }
  cbn -[StreamsState.write_stream_frames]. by destruct (StreamsState.write_stream_frames out true strs) as [[[ss w] metas]|].
Qed.

Lemma take_number k s : next_packet_number s = k -> 0 <= k < 2 ^ 62 -> exists s', PacketSpace.get_tx_number s = Ret (s', k) /\
  pending_acks s' = pending_acks s /\ Space.pending s' = Space.pending s /\ ping_pending s' = ping_pending s /\
  immediate_ack_pending s' = immediate_ack_pending s /\ largest_acked_packet s' = largest_acked_packet s /\ next_packet_number s' = k + 1.
Proof.
  intros <- Hk. unfold PacketSpace.get_tx_number, assert. destruct (Z.ltb_spec (next_packet_number s) (2 ^ 62)); [|lia].
  cbn [obind]. rewrite u64_add_ok by u64_lia. cbn [obind]. eexists. split; [done|]. by split_and!.
Qed.

Lemma transmit_data now k s : only_data s -> short_number k (space_of s SpData) -> exists out, remaining_mut out = DATA_ROOM /\
  (StreamsState.write_stream_frames (W:=slice_buf) out true (c_streams s) = Panic -> Connection.transmit_space now false SpData true s = Panic) /\
  forall ss out' metas, StreamsState.write_stream_frames out true (c_streams s) = Ret (ss, out', metas) -> remaining_mut out' <= remaining_mut out ->
    exists x s', Connection.transmit_space now false SpData true s = Ret s' /\ data_sent k x metas ss s s'.
Proof.
  intros [Hopen Hi Hh Ha Hp Hping Himm Hw] [Hn Hla Hk].
  destruct (data_header k _ Hla Hk) as (h & out & Hpn & Hhd & Hout & Hroom). exists out. split; [exact Hroom|].
  destruct (take_number k _ Hn Hk) as (sp & Htx & Ha' & Hp' & Hping' & Himm' & Hla' & Hn').
  assert (Hrun : Connection.transmit_space now false SpData true s =
    let! '(ss, out, metas) := StreamsState.write_stream_frames out true (c_streams s) in
    let c := with_streams ss (with_space SpData (space_with_pending (hi sp) Retransmits_default false sp) (with_space SpData sp s)) in
    let! packet_len := u64_sub INITIAL_MTU (remaining_mut out) in
    let meta := mkSentPacket now (as_u16 packet_len) true None None metas k SpData in
    let p := path c in
    let scheduled := {| sch_packet := take (Z.to_nat packet_len) (written out); meta_info := meta |} in
    Ret (with_path (mkNetworkPath (sending_queue p ++ [scheduled]) (rtt p) (congestion p) (np_in_flight p) (first_packet p)) c)).
  { unfold Connection.transmit_space. rewrite Htx. cbn [obind]. rewrite Hla', Hpn. cbn [obind]. rewrite Hhd. cbn [obind].
    rewrite Hout. cbn [obind]. rewrite populate_data; autorewrite with conn; rewrite ?decide_True by done; [|congruence..].
    change (c_streams (with_space SpData sp s)) with (c_streams s).
    by destruct (StreamsState.write_stream_frames out true (c_streams s)) as [[[ss w] metas]|]. }
  split; [intros Hpanic; by rewrite Hrun, Hpanic|]. intros ss out' metas Hwr Hrem. rewrite Hrun, Hwr. cbn [obind].
  pose proof (remaining_mut_nonneg out'). assert (DATA_ROOM = 1450 /\ INITIAL_MTU = 1472) as [] by done.
  rewrite u64_sub_ok by lia. cbn [obind].
  eexists _, _. split; [done|]. split; autorewrite with conn; rewrite ?decide_True by done; try done.
  { cbn [sch_packet]. unfold zlen. rewrite length_take. lia. }
  split; autorewrite with conn; rewrite ?decide_True by done; cbn [space_with_pending pending_acks immediate_ack_pending];
    rewrite ?Ha', ?Himm'; done.
Qed.

Lemma poll_data now k s : only_data s -> short_number k (space_of s SpData) -> StreamsState.can_send_stream_data (c_streams s) = true ->
  exists out, remaining_mut out = DATA_ROOM /\
  (StreamsState.write_stream_frames (W:=slice_buf) out true (c_streams s) = Panic -> Connection.poll_transmit now s = Panic) /\
  forall ss out' metas, StreamsState.write_stream_frames out true (c_streams s) = Ret (ss, out', metas) -> remaining_mut out' <= remaining_mut out ->
    exists x s', Connection.poll_transmit now s = Ret (s', StreamsState.can_send_stream_data ss) /\ data_sent k x metas ss s s'.
Proof.
  intros Ho Hk Hsend. destruct (transmit_data now k s Ho Hk) as (out & Hroom & Hpanic & Hwrite). exists out. split; [exact Hroom|].
  pose proof Ho as [Hopen Hi Hh Ha Hp Hping Himm Hw].
  assert (Hpoll : Connection.poll_transmit now s =
    let! c := Connection.transmit_space now false SpData true s in
    let more := existsb (fun id => negb (SendableFrames_is_empty (Connection.space_can_send c id))) SpaceId_VARIANTS in
    let limited := negb more && (if_bytes (np_in_flight (path c)) <? NewReno.window (congestion (path c))) in
    Ret (with_app_limited limited c, more)).
  { unfold Connection.poll_transmit.
    assert (match c_state s with Drained => None | Draining | Closed _ => if pending_close s then Some true else None | _ => Some false end
      = Some false) as -> by (by destruct (c_state s)).
    destruct (Z.leb_spec (NewReno.window (congestion (path s))) (if_bytes (np_in_flight (path s)))); [lia|].
    unfold Connection.transmit_turns, Connection.transmit_turn. rewrite Hi. cbn [andb negb obind]. rewrite Hh. cbn [andb negb obind].
    assert (SendableFrames_is_empty (Connection.space_can_send s SpData) = false) as ->.
    { unfold Connection.space_can_send, SendableFrames_is_empty. cbn [sf_other sf_acks]. by rewrite Hsend, orb_true_r, andb_false_r. }
    cbn [andb negb]. rewrite (bool_decide_eq_false_2 (SpData = SpHandshake)), andb_false_r by done. cbn [andb obind]. rewrite Hsend, orb_true_r. cbn [andb].
    by destruct (Connection.transmit_space now false SpData true s) as [c|]. }
  split; [intros Hpa; by rewrite Hpoll, (Hpanic Hpa)|]. intros ss out' metas Hwr Hrem.
  destruct (Hwrite ss out' metas Hwr Hrem) as (x & s' & Ht & [Hs Hq Hid Hlen Hrec Hn Hla Ho']).
  rewrite Hpoll, Ht. cbn [obind]. pose proof Ho' as [Hopen' Hi' Hh' Ha' Hp' Hping' Himm' Hw'].
  assert (existsb (fun id => negb (SendableFrames_is_empty (Connection.space_can_send s' id))) SpaceId_VARIANTS =
    StreamsState.can_send_stream_data ss) as ->.
  { unfold SpaceId_VARIANTS. cbn [existsb]. rewrite Hi', Hh'. cbn [negb orb]. rewrite orb_false_r.
    unfold Connection.space_can_send, SendableFrames_is_empty, PacketSpace.can_send, PendingAcks.can_send. cbn [sf_other sf_acks].
    rewrite Ha', Hp', Hping', Himm', Hs. cbn. rewrite andb_false_r. cbn. by rewrite negb_involutive. }
  eexists x, _. split; [done|]. split; try done.
Qed.

(** ** The server's program *)

(** A server that was just connected, and has nothing to send. *)
Record fresh_server (k : Z) (l : list Event) (s : Connection) : Prop := {
  fs_side : side s = Server;
  fs_streams : c_streams s = mkStreams Server ∅ ∅ (0, 0) PendingStreamsQueue.new l;
  fs_typed : conn_typed nothing_written s;
  fs_only : only_data s;
  fs_number : short_number k (space_of s SpData);
  fs_after : k + 1 - default 0 (largest_acked_packet (space_of s SpData)) < 128 /\ k + 2 < 2 ^ 62;
}.

(** The packets of the Data space are numbered as before. *)
Definition same_numbers (s s' : Connection) : Prop :=
  next_packet_number (space_of s' SpData) = next_packet_number (space_of s SpData) /\
  largest_acked_packet (space_of s' SpData) = largest_acked_packet (space_of s SpData) /\
  sending_queue (path s') = sending_queue (path s).

Lemma handle_only ss s : let s' := Connection.with_handle ss (Space.pending (space_of s SpData)) s in
  only_data s -> only_data s' /\ same_numbers s s' /\ c_streams s' = ss /\ side s' = side s /\ c_state s' = c_state s.
Proof. intros s' []. by split; [split|]. Qed.

Lemma server_queues content k l s : content <> [] -> zlen content <= VARINT_MAX -> fresh_server k l s ->
  exists s', server_cc content Connected s = Ret s' /\
    c_streams s' = serving content 0 true (file_queue (U64_MAX - 1)) l /\ only_data s' /\ same_numbers s s'.
Proof.
  intros Hne Hmax [Hside Hs _ Ho _ _]. pose proof (od_open _ Ho) as Hopen. cbn [server_cc].
  destruct (open_stream_open Uni s Hopen) as (s1 & Hop & Hsend & Hpend & Hsd & Hnext); [by rewrite Hs|]. rewrite Hop. cbn [obind].
  rewrite Hs in Hsend, Hpend, Hsd, Hnext |- *. cbn [ss_side ss_next StreamsState.next_of fst snd] in *. change (StreamId.new Server Uni 0) with file_stream in *.
  assert (Ho1 : only_data (with_streams s1 s)) by (destruct Ho; by split).
  destruct (write_then_finish file_stream content 0 (with_streams s1 s)) as (c1 & -> & Hf); try done.
  - right. cbn. by rewrite Hside.
  - cbn. rewrite Hsend. apply lookup_insert_eq.
  - cbn. by rewrite Hpend.
  - cbn [obind unwrap_ok]. rewrite Hf. cbn [obind unwrap_ok].
    destruct (handle_only (written_and_finished file_stream content 0 s1) (with_streams s1 s) Ho1) as (Ho2 & Hn2 & Hs2 & _).
    eexists. split; [done|].
    split; [etrans; [exact Hs2|]|by split].
    unfold Connection.open_stream in Hop. rewrite (od_open _ Ho), Hs in Hop. injection Hop as Hop. cbn in Hop. by rewrite <- Hop.
Qed.

(** ** The packets of the file *)
Section Packets.
Context {B : Type} `{BufBytes B}.

Lemma data_understood n now k s s' again x metas ss : Connection.poll_transmit now s = Ret (s', again) -> data_sent k x metas ss s s' ->
  only_data s -> 0 <= total n -> conn_typed n s -> whole_writes (c_streams s) ->
  exists len fs, Forall2 (stream_frame (c_streams s)) metas fs /\
    understood B (sch_packet x) SpData k (default 0 (largest_acked_packet (space_of s SpData))) len fs.
Proof.
  intros Hp [_ Hq [Hid Hk] _ Hrec _ _ _] Ho Hn Hc Hw.
  destruct (poll_understood (B:=B) n now s s' again Hn Hc Hw (od_open _ Ho) Hp) as (l & Hl & Hall).
  rewrite Hq in Hl. apply app_inv_head in Hl. subst l. apply Forall_singleton in Hall as (len & fs & Hfr & Hu).
  rewrite Hid, Hrec, Hk in *. exists len, fs. split; [|exact Hu].
  destruct Hfr as (acks & resets & stops & streams & -> & Ha & Hr & Hs & _). cbn [sent_largest_acked sent_retransmits sent_stream_frames] in *.
  rewrite (od_acks _ Ho) in Ha. destruct Ha as [-> _]. rewrite (od_pending _ Ho) in Hr |- *. rewrite (od_ping _ Ho).
  cbn [hello Retransmits_default StreamsState.thin_push] in Hr. destruct resets, stops; try done.
Qed.

(** The frame with the bytes from [u] to [e] of the file. *)
Definition file_part (content : list Z) (u e : Z) (fin : bool) : Stream :=
  {| st_id := file_stream; st_offset := u; st_fin := fin; st_data := take (Z.to_nat (e - u)) (drop (Z.to_nat u) content) |}.

Lemma file_meta content u q l e fin f :
  stream_frame (serving content u true q l) {| sm_id := file_stream; sm_offsets := Range u e; sm_fin := fin |} f ->
  f = FStream (file_part content u e fin).
Proof.
  intros (ss & Hss & _ & _ & _ & _ & _ & ->). unfold serving in Hss. cbn [sm_id ss_send] in *. rewrite lookup_singleton_eq in Hss. injection Hss as <-.
  unfold file_part. cbn [sm_offsets sm_id sm_fin rstart rend]. unfold stream_slice, Send.buffered, base. cbn.
  by rewrite app_nil_r, Z.sub_diag, Z.sub_0_r.
Qed.

(** A server that has sent the file up to [u], and has a number for the next
    packet. *)
Record sending_file (content : list Z) (n : Written) (u k q : Z) (l : list Event) (s : Connection) : Prop := {
  sf_streams : c_streams s = serving content u true (file_queue q) l;
  sf_only : only_data s;
  sf_number : short_number k (space_of s SpData);
  sf_typed : conn_typed n s;
  sf_serves : serves content n;
}.

Lemma file_packet content n u k q l now s : content <> [] -> zlen content <= VARINT_MAX -> 0 <= u < zlen content -> 1 <= q < U64 ->
  sending_file content n u k q l s -> zlen content - u < DATA_ROOM - reserved u false ->
  let e := Z.min (zlen content) (u + (DATA_ROOM - reserved u true)) in
  exists x s' len, Connection.poll_transmit now s = Ret (s', negb (e =? zlen content)) /\
    sending_queue (path s') = sending_queue (path s) ++ [x] /\ zlen (sch_packet x) <= INITIAL_MTU /\
    understood B (sch_packet x) SpData k (default 0 (largest_acked_packet (space_of s SpData))) len
      [FStream (file_part content u e (e =? zlen content))] /\
    c_streams s' = serving content e (negb (e =? zlen content)) (queue_after content e q) l /\
    only_data s' /\ conn_typed n s' /\ next_packet_number (space_of s' SpData) = k + 1 /\
    largest_acked_packet (space_of s' SpData) = largest_acked_packet (space_of s SpData).
Proof.
  intros Hne Hmax Hu Hq [Hs Ho Hk Hc Hn] Hfit e.
  destruct (poll_data now k s Ho Hk) as (out & Hroom & _ & Hwrite); [by rewrite Hs|].
  destruct (file_frames (W:=slice_buf) content Hne Hmax u q l out Hu Hq) as (out' & Hrem & Hwr); [by rewrite Hroom|by rewrite Hroom|].
  rewrite Hroom in Hwr. fold e in Hwr. rewrite <- Hs in Hwr.
  destruct (Hwrite _ _ _ Hwr Hrem) as (x & s' & Hp & Hd).
  destruct (data_understood n _ _ _ _ _ _ _ _ Hp Hd Ho (proj1 (sv_total _ _ Hn)) Hc (serves_whole content n s Hc Hn)) as (len & fs & Hfs & Hun).
  apply Forall2_cons_inv_l in Hfs as (f & fs' & Hf & Hfs & ->). apply Forall2_nil_inv_l in Hfs as ->. rewrite Hs in Hf. apply file_meta in Hf as ->.
  pose proof (typed_poll n _ _ _ _ Hp Hc) as Hc'. destruct Hd as [Hs' Hq' _ Hlen _ Hn' Hla' Ho'].
  exists x, s', len. split_and!; try done. rewrite Hp. do 2 f_equal.
  unfold queue_after. by destruct (e =? zlen content).
Qed.
End Packets.

(** ** What the client receives *)

(** A connected client that has received no packet of the Data space with the
    number [k] or a greater one; [la] is the number that the server knows to be
    acknowledged. *)
Record awaits (k la : Z) (c : Connection) : Prop := {
  aw_side : side c = Client /\ ss_side (c_streams c) = Client;
  aw_state : c_state c = Established;
  aw_acks : acks_inv (pending_acks (space_of c SpData));
  aw_counts : ack_eliciting_since_last_ack_sent (pending_acks (space_of c SpData)) <= k /\
    non_ack_eliciting_since_last_ack_sent (pending_acks (space_of c SpData)) < U64_MAX;
  aw_dedup : next (dedup (space_of c SpData)) <= k /\ exists S, dedup_inv (dedup (space_of c SpData)) S;
  aw_window : in_window k la (space_of c SpData);
}.

Lemma packet_counts p now pn d p' arm : PendingAcks.packet_received p now pn true d = Ret (p', arm) ->
  ack_eliciting_since_last_ack_sent p' = ack_eliciting_since_last_ack_sent p + 1 /\
  non_ack_eliciting_since_last_ack_sent p' = non_ack_eliciting_since_last_ack_sent p.
Proof.
  unfold PendingAcks.packet_received, PendingAcks.insert_one. intros Hp. apply obind_ret in Hp as (p1 & Hi & Hp).
  apply obind_ret in Hi as ([r b] & _ & Hi). injection Hi as <-. apply obind_ret in Hp as (p2 & Hi & Hp).
  apply obind_ret in Hi as (n & [-> _]%u64_add_ret & Hi). injection Hi as <-. apply obind_ret in Hp as (im & _ & Hp).
  destruct im; by injection Hp as <- _.
Qed.

(** A new number passes the filter, and is the highest then. *)
Lemma dedup_new d S k : dedup_inv d S -> next d <= k -> 0 <= k < 2 ^ 62 -> exists d' S', Dedup_insert d k = Ret (d', false) /\
  next d' = k + 1 /\ dedup_inv d' S'.
Proof.
  intros Hd Hk Hmax. destruct (dedup_insert_spec d S k Hd Hmax) as (d' & dup & Hi & Hd' & _ & Hdup).
  assert (dup = false) as ->.
  { destruct dup; [|done]. destruct (Hdup eq_refl) as [Hin%(di_below _ _ Hd)|Hw]; [lia|]. unfold WINDOW_SIZE in Hw. lia. }
  exists d', ({[k]} ∪ S). split; [done|]. split; [|exact Hd']. unfold Dedup_insert, checked_sub in Hi.
  destruct (Z.leb_spec (next d) k); [|lia]. apply obind_ret in Hi as (n & [-> _]%u64_add_ret & Hi). by injection Hi as <-.
Qed.

(** A packet with a new number is noted. *)
Lemma authenticated_data now k d S c : side c = Client -> acks_inv (pending_acks (space_of c SpData)) -> dedup (space_of c SpData) = d ->
  dedup_inv d S -> 0 <= k <= VARINT_MAX -> ack_eliciting_since_last_ack_sent (pending_acks (space_of c SpData)) < U64_MAX ->
  non_ack_eliciting_since_last_ack_sent (pending_acks (space_of c SpData)) < U64_MAX -> now + from_millis 25 < INSTANT_END ->
  exists c', Connection.on_packet_authenticated now SpData (Some k) c = Ret c' /\
    c_streams c' = c_streams c /\ c_state c' = c_state c /\ side c' = side c /\
    dedup (space_of c' SpData) = d /\ rx_packet (space_of c' SpData) = Z.max (rx_packet (space_of c SpData)) k /\
    acks_inv (pending_acks (space_of c' SpData)) /\
    ack_eliciting_since_last_ack_sent (pending_acks (space_of c' SpData)) = ack_eliciting_since_last_ack_sent (pending_acks (space_of c SpData)) + 1 /\
    non_ack_eliciting_since_last_ack_sent (pending_acks (space_of c' SpData)) = non_ack_eliciting_since_last_ack_sent (pending_acks (space_of c SpData)).
Proof.
  intros Hside Ha <- Hd Hk Hc1 Hc2 Hnow. unfold Connection.on_packet_authenticated.
  rewrite Hside, (bool_decide_eq_false_2 (Client = Server)) by done. cbn [andb obind]. set (s := space_of c SpData) in *.
  destruct (packet_received_spec (pending_acks s) now k true (dedup s) S Ha Hd Hk Hc1 Hc2) as (a & arm & Hp & Ha' & _).
  rewrite Hp. cbn [obind]. apply packet_counts in Hp as [Hn1 Hn2]. set (s1 := if _ <=? _ then _ else _).
  assert (Hs1 : dedup s1 = dedup s /\ rx_packet s1 = Z.max (rx_packet s) k /\ pending_acks s1 = a).
  { unfold s1. cbn [rx_packet space_with_acks]. destruct (Z.leb_spec (rx_packet s) k); [rewrite Z.max_r by done|rewrite Z.max_l by lia]; by split_and!. }
  destruct Hs1 as (Hs1 & Hs2 & Hs3). clearbody s1. rewrite decide_True by done.
  assert (Hc : forall t, let c' := with_timers t (with_space SpData s1 c) in space_of c' SpData = s1).
  { intros t. cbv zeta. autorewrite with conn. by rewrite decide_True. }
  assert (Hc' : space_of (with_space SpData s1 c) SpData = s1) by (autorewrite with conn; by rewrite decide_True).
  destruct arm; [rewrite inst_add_ok by done; cbn [obind]|]; (eexists; split; [done|]); rewrite ?Hc, ?Hc', Hs1, Hs2, Hs3, Hn1, Hn2; by split_and!.
Qed.

Lemma deliver_stream now k la len f c ss : awaits k la c -> 0 <= k -> k + 1 < 2 ^ 62 -> now + from_millis 25 < INSTANT_END ->
  StreamsState.received f len (c_streams c) = Ret (ss, Ok tt) -> ss_side ss = Client ->
  exists c', deliver now SpData k len [FStream f] c = Ret c' /\ c_streams c' = ss /\ awaits (k + 1) la c'.
Proof.
  intros [[Hside Hss] Hst Ha [Hc1 Hc2] [Hdk (S & Hd)] [Hw1 Hw2]] Hk Hmax Hnow Hr Hss'. unfold deliver.
  destruct (dedup_new _ S k Hd Hdk) as (d & S' & -> & Hdn & Hd'); [lia|]. cbn [obind]. set (c1 := with_space SpData _ c).
  assert (Hs1 : space_of c1 SpData = space_with_rx d (rx_packet (space_of c SpData)) (space_of c SpData)) by (unfold c1; autorewrite with conn; by rewrite decide_True).
  change (c_state c1) with (c_state c). rewrite Hst. cbn [State.is_handshake State.is_closed State.is_drained orb andb negb].
  destruct (authenticated_data now k d S' c1) as (c2 & Hauth & H1 & H2 & H3 & H4 & H5 & H6 & H7 & H8);
    rewrite ?Hs1; cbn [pending_acks dedup space_with_rx]; try done; [varint_lia|u64_lia|].
  rewrite Hs1 in H5, H7, H8. cbn [rx_packet pending_acks space_with_rx] in H5, H7, H8.
  rewrite Hauth. cbn [obind]. unfold handle_payload. cbn [payload_result map frame_handler handle_frames Connection.data_frame].
  rewrite H1. change (c_streams c1) with (c_streams c). rewrite Hr. cbn [obind fst snd handle_frames transport_result].
  assert (Hst2 : c_state (with_streams ss c2) = Established) by (cbn; by rewrite H2).
  unfold Connection.conclude. rewrite Hst2. cbn [State.is_closed andb negb obind]. rewrite Hst2. cbn [State.is_drained andb negb]. eexists. split; [done|]. split; [done|].
  split; autorewrite with conn.
  - split; [by rewrite <- Hside; exact H3|done].
  - cbn. by rewrite H2.
  - done.
  - rewrite H7, H8. lia.
  - rewrite H4. split; [lia|by exists S'].
  - unfold in_window. autorewrite with conn. rewrite H5. lia.
Qed.

(** *** The stream of the file at the client *)
Section Client.
Context (content : list Z) (content_max : zlen content <= VARINT_MAX).

(** The first [m] bytes of the file have come in one frame, and the program
    has read them or not. *)
Definition part_came (m len : Z) (was_read : bool) : Recv :=
  let data := take (Z.to_nat m) content in if was_read then after_first_read data else after_first_frame data len.

Definition part_file (m : Z) (was_read : bool) : list Z := if was_read then take (Z.to_nat m) content else [].

Lemma zlen_part m : 0 <= m <= zlen content -> zlen (take (Z.to_nat m) content) = m.
Proof. intros. rewrite zlen_take by lia. lia. Qed.

Lemma part_slice m : 0 <= m <= zlen content -> take (Z.to_nat m) content = slice (byte_at content) 0 m.
Proof. intros Hm. by rewrite slice_byte_at, drop_0 by lia. Qed.

Lemma part_holds m len was_read : 0 < m <= zlen content -> m <= len ->
  stream_holds (byte_at content) (zlen content) (part_file m was_read) (part_came m len was_read).
Proof.
  intros Hm Hlen. pose proof (zlen_part m ltac:(lia)) as Hz. destruct was_read; cbn [part_came part_file].
  - unfold after_first_read. rewrite Hz. split; cbn; [|lia|done|by left|by apply part_slice; lia].
    split; cbn; try done; try lia. by intros y ?%holds_nil.
  - unfold after_first_frame. rewrite Hz, part_slice by lia. split; cbn; [|lia|done|by left|done].
    assert (Hy : forall y, Recv.holds [mkBuffer 0 (slice (byte_at content) 0 m) len false] y -> y < m).
    { intros y [Hy|[]%holds_nil]%holds_cons. unfold bf_end in Hy. cbn in Hy. rewrite zlen_slice in Hy by lia. lia. }
    split; cbn; try done; try lia.
    + split; [done|]. split; [|done]. apply buffer_ok_slice; lia.
    + unfold bf_len. cbn. rewrite zlen_slice by lia. lia.
Qed.

(** The rest of the file comes, with its end. *)
Lemma rest_ingested m len was_read len' : 0 < m < zlen content -> m <= len -> zlen content - m <= len' -> len + len' < U64 ->
  let n := zlen content in
  exists r, Recv.ingest (file_part content m n true) len' (part_came m len was_read) = Ret (r, Ok (n - m, false)) /\
    stopped r = false /\ stream_holds (byte_at content) n (part_file m was_read) r /\ all_there n r.
Proof using content_max.
  intros Hm Hlen Hlen' Hmax n. pose proof (part_holds m len was_read ltac:(lia) Hlen) as [Ha He Ho Hs Hf].
  pose proof (zlen_part m ltac:(lia)) as Hz.
  set (r0 := part_came m len was_read) in *. assert (Hdata : st_data (file_part content m n true) = slice (byte_at content) m (n - m)).
  { cbn. rewrite slice_byte_at by lia. done. }
  assert (Hr0 : r_state r0 = RsRecv None /\ r_end r0 = m /\ allocated (assembler r0) <= len /\
    (forall b, b ∈ a_data (assembler r0) -> bf_end b = m) /\ forall y, bytes_read (assembler r0) <= y < m -> Recv.holds (a_data (assembler r0)) y).
  { unfold r0, part_came. destruct was_read; cbn; rewrite Hz; split_and!; try done; try lia.
    - intros b []%not_elem_of_nil.
    - intros b ->%list_elem_of_singleton. unfold bf_end. cbn. lia.
    - intros y Hy. apply holds_cons. left. unfold bf_end. cbn. lia. }
  destruct Hr0 as (Hst & Hend & Hal & Hb & Hhave).
  assert (Hns : no_straddle (assembler r0) (Z.max m (bytes_read (assembler r0)))).
  { intros b Hin. rewrite (Hb b Hin). lia. }
  destruct (insert_total (byte_at content) m (n - m) len' (assembler r0) Ha) as (a & Hins); [lia..|done|lia|].
  destruct (insert_inv (byte_at content) m (n - m) len' (assembler r0) a Ha) as (Ha' & Hrd & _ & Honly & Hnew & Hold & _); [lia..|done|].
  assert (Hns' : no_straddle (assembler r0) (Z.max m (bytes_read (assembler r0)))) by done. specialize (Hold Hns').
  exists (mkRecv (RsRecv (Some n)) a n false). split.
  - unfold Recv.ingest. rewrite Hdata, zlen_slice by lia. cbn [file_part st_offset st_fin]. rewrite u64_add_ok by varint_lia. cbn [obind].
    replace (m + (n - m)) with n by lia. destruct (Z.leb_spec (2 ^ 62) n); [varint_lia|]. unfold Recv.final_offset. rewrite Hst, Ho. cbn [negb].
    rewrite Hins. cbn [obind andb negb]. rewrite Hend, Z.max_r by lia. do 3 f_equal. unfold saturating_sub. by rewrite Z.max_r by lia.
  - split; [done|]. split; split; cbn; try done; try lia.
    + pose proof (insert_end _ _ _ _ _ Hins) as ->. rewrite zlen_slice by lia. lia.
    + by right.
    + by rewrite Hrd.
    + intros y Hy. rewrite Hrd in Hy. destruct (Z.lt_ge_cases y m); [apply Hold, Hhave; lia|apply Hnew; lia].
Qed.

Lemma rest_received m len was_read len' s : 0 < m < zlen content -> m <= len -> zlen content - m <= len' -> len + len' < U64 ->
  ss_side s = Client -> ss_recv s !! file_stream = Some (part_came m len was_read) ->
  let n := zlen content in
  exists s' r, StreamsState.received (file_part content m n true) len' s = Ret (s', Ok tt) /\ ss_side s' = Client /\
    events s' = events s ++ [EvStream (EvReadable file_stream)] /\
    ss_recv s' !! file_stream = Some r /\ stream_holds (byte_at content) n (part_file m was_read) r /\ all_there n r.
Proof using content_max.
  intros Hm Hlen Hlen' Hmax Hside Hr n. destruct (rest_ingested m len was_read len' Hm Hlen Hlen' Hmax) as (r & Hi & Hst & Hh & Ht). fold n in Hi, Hh, Ht.
  unfold StreamsState.received. cbn [file_part st_id st_offset st_fin]. unfold StreamsState.validate_receive_id. rewrite Hside.
  rewrite (decide_False (P := Client = _)) by done. rewrite Hr.
  assert (Recv.is_receiving (part_came m len was_read) = true) as -> by (by destruct was_read). cbn [negb].
  change {| st_id := file_stream; st_offset := m; st_fin := true; st_data := _ |} with (file_part content m n true). rewrite Hi. cbn [obind].
  rewrite Hst. cbn [negb]. destruct (Z.ltb_spec 0 (n - m)); [|lia]. cbn [orb].
  eexists _, r. split; [done|]. split; [done|]. split; [done|]. split; [cbn; apply lookup_insert_eq|done].
Qed.
End Client.

(** *** The client, datagram by datagram *)
Section Receives.
Context {B : Type} `{BufBytes B} (content : list Z) (write_all : list Z -> list Z -> option (list Z)).
Context (content_max : zlen content <= VARINT_MAX) (write_all_works : forall f d, write_all f d = Some (f ++ d)).

Definition readable_event : Event := EvStream (EvReadable file_stream).

(** The time of a datagram or an event is within the range of the clock. *)
Definition in_time (t : Instant) : Prop := t + Connection.CLOSE_TIMEOUT < INSTANT_END.

(** Whatever the datagram is held in, the client takes note of the packet and
    of no data. *)
Definition gets_nothing (k la : Z) (x : list Z) : Prop := forall (d : B) t c, view d = x -> in_time t -> awaits k la c ->
  ss_recv (c_streams c) !! file_stream = None ->
  exists c', Connection.handle_data t d c = Ret c' /\ c_streams c' = c_streams c.

(** The client that gets the one packet and then the other has written the
    file, and closes the connection.  Before the second packet comes, its
    program may have handled the event for the first, and the connection may
    have done whatever leaves the stream alone. *)
Definition gets_file (k la : Z) (x1 x2 : list Z) : Prop := forall (d1 d2 : B) t1 t2 t3 t4 c, view d1 = x1 -> view d2 = x2 ->
  in_time t1 -> in_time t3 -> in_time t4 -> awaits k la c -> ss_recv (c_streams c) !! file_stream = None ->
  exists c1 part c1', Connection.handle_data t1 d1 c = Ret c1 /\ awaits (k + 1) la c1 /\
    events (c_streams c1) = events (c_streams c) ++ [readable_event] /\
    client_cc write_all t2 [] readable_event c1 = Ret (part, c1') /\ awaits (k + 1) la c1' /\
    forall f c2, awaits (k + 1) la c2 ->
      f = [] /\ ss_recv (c_streams c2) !! file_stream = ss_recv (c_streams c1) !! file_stream \/
      f = part /\ ss_recv (c_streams c2) !! file_stream = ss_recv (c_streams c1') !! file_stream ->
      exists c3 c4, Connection.handle_data t3 d2 c2 = Ret c3 /\
        events (c_streams c3) = events (c_streams c2) ++ [readable_event] /\
        client_cc write_all t4 f readable_event c3 = Ret (content, c4) /\ State.is_closed (c_state c4) = true.

(** A packet with one STREAM frame. *)
Lemma packet_delivered k la len f x (d : B) t c : understood B x SpData k la len [FStream f] -> view d = x -> zlen x <= INITIAL_MTU ->
  0 <= k -> k + 1 < 2 ^ 62 -> in_time t -> awaits k la c ->
  (zlen (st_data f) <= len <= INITIAL_MTU) /\
  forall ss, StreamsState.received f len (c_streams c) = Ret (ss, Ok tt) -> ss_side ss = Client ->
  exists c', Connection.handle_data t d c = Ret c' /\ c_streams c' = ss /\ awaits (k + 1) la c'.
Proof.
  intros Hu Hd Hx Hk Hmax Ht Hc. split.
  - destruct (Hu d Hd) as (h & pn & p & _ & _ & _ & _ & _ & Hl & Hp & Hle). subst len. split; [|lia].
    by apply (parse_payload_stream p [Ok (FStream f)] f Hp), list_elem_of_singleton.
  - intros ss Hr Hss. rewrite (understood_delivers x SpData k la len [FStream f] t d c Hu Hd (aw_window _ _ _ Hc)).
    apply deliver_stream with (1 := Hc); try done. unfold in_time in Ht. assert (from_millis 25 <= Connection.CLOSE_TIMEOUT) by done. lia.
Qed.

Lemma awaits_handled k la ss ss' p c : ss_side ss' = Client -> awaits k la c -> awaits k la (with_streams ss' (Connection.with_handle ss p c)).
Proof. intros Hs [[Hside _] Hst Ha Hc Hd Hw]. split; [by split|done..]. Qed.

Lemma whole_file_dropped k la len x : understood B x SpData k la len [FStream (file_part content 0 (zlen content) true)] ->
  zlen x <= INITIAL_MTU -> 0 <= k -> k + 1 < 2 ^ 62 -> gets_nothing k la x.
Proof.
  intros Hu Hx Hk Hmax d t c Hd Ht Hc Hnone.
  destruct (packet_delivered k la len _ x d t c Hu Hd Hx Hk Hmax Ht Hc) as [_ Hdel]. pose proof (aw_side _ _ _ Hc) as [_ Hside].
  destruct (Hdel (c_streams c)) as (c' & Hh & Hs & _); [|done|by exists c'].
  apply late_frame_dropped; [by rewrite Hside|done|by right].
Qed.

Lemma two_parts_delivered k la m len1 len2 x1 x2 : 0 < m < zlen content ->
  understood B x1 SpData k la len1 [FStream (file_part content 0 m false)] ->
  understood B x2 SpData (k + 1) la len2 [FStream (file_part content m (zlen content) true)] ->
  zlen x1 <= INITIAL_MTU -> zlen x2 <= INITIAL_MTU -> 0 <= k -> k + 2 < 2 ^ 62 -> gets_file k la x1 x2.
Proof using All.
  intros Hm Hu1 Hu2 Hx1 Hx2 Hk Hmax d1 d2 t1 t2 t3 t4 c Hd1 Hd2 Ht1 Ht3 Ht4 Hc Hnone.
  destruct (packet_delivered k la len1 _ x1 d1 t1 c Hu1 Hd1 Hx1) as [Hlen1 Hdel1]; [lia..|done|done|].
  assert (Hdata : st_data (file_part content 0 m false) = take (Z.to_nat m) content) by (cbn; by rewrite Z.sub_0_r).
  pose proof (zlen_part content m ltac:(lia)) as Hz. rewrite Hdata, Hz in Hlen1. assert (INITIAL_MTU = 1472) as Hmtu by done.
  pose proof (aw_side _ _ _ Hc) as [Hside Hss]. assert (Hne : take (Z.to_nat m) content <> []) by (intros Heq; rewrite Heq, zlen_nil in Hz; lia).
  assert (Hfirst : StreamsState.received (file_part content 0 m false) len1 (c_streams c) = Ret (StreamsState.send_event (EvReadable file_stream)
    (StreamsState.with_recv (<[file_stream := part_came content m len1 false]> (ss_recv (c_streams c))) (c_streams c)), Ok tt)).
  { unfold file_part. rewrite Z.sub_0_r, drop_0. apply first_frame_received; [by rewrite Hss|done|done|rewrite Hz; varint_lia|rewrite Hz; u64_lia]. }
  destruct (Hdel1 _ Hfirst Hss) as (c1 & Hh1 & Hs1 & Hc1). pose proof (aw_side _ _ _ Hc1) as [Hside1 _].
  assert (Hr1 : ss_recv (c_streams c1) !! file_stream = Some (part_came content m len1 false)) by (rewrite Hs1; cbn; apply lookup_insert_eq).
  exists c1, (take (Z.to_nat m) content). eexists. split; [exact Hh1|]. split; [exact Hc1|]. split; [by rewrite Hs1|]. split.
  { unfold readable_event. rewrite (first_part_read file_stream write_all (take (Z.to_nat m) content) [] t2 len1 c1); try done.
    - by rewrite Hside1.
    - rewrite Hz. varint_lia.
    - rewrite Hz. u64_lia. }
  split; [by apply awaits_handled; [by rewrite Hs1|]|]. intros f c2 Hc2 Hf. pose proof (aw_side _ _ _ Hc2) as [Hside2 Hss2].
  destruct (packet_delivered (k + 1) la len2 _ x2 d2 t3 c2 Hu2 Hd2 Hx2) as [Hlen2 Hdel2]; [lia..|done|done|].
  assert (Hz2 : zlen (st_data (file_part content m (zlen content) true)) = zlen content - m).
  { cbn. rewrite zlen_take; [done|]. rewrite zlen_drop; lia. }
  rewrite Hz2 in Hlen2. assert (Hr2 : exists b, f = part_file content m b /\ ss_recv (c_streams c2) !! file_stream = Some (part_came content m len1 b)).
  { destruct Hf as [[-> ->]|[-> ->]]; [by exists false|exists true]. split; [done|]. cbn. by rewrite lookup_insert_eq. }
  destruct Hr2 as (b & -> & Hr2).
  destruct (rest_received content content_max m len1 b len2 (c_streams c2)) as (s' & r & Hrec & Hs' & He & Hr & Hh & Hat); try done; try lia; [u64_lia|].
  destruct (Hdel2 s' Hrec Hs') as (c3 & Hh3 & Hs3 & Hc3). exists c3.
  destruct (transfer_completes (byte_at content) (zlen content) file_stream write_all t4 (part_file content m b) c3 r) as (c4 & Hcc & Hcl & _); try done.
  - pose proof (zlen_nonneg content). lia.
  - by rewrite (proj1 (aw_side _ _ _ Hc3)).
  - by rewrite (aw_state _ _ _ Hc3).
  - by rewrite Hs3.
  - exists c4. split; [exact Hh3|]. split; [by rewrite Hs3|]. split; [|exact Hcl]. unfold readable_event. rewrite Hcc. do 2 f_equal.
    rewrite <- part_slice by (pose proof (zlen_nonneg content); lia). unfold zlen. by rewrite Nat2Z.id, firstn_all.
Qed.
End Receives.
Arguments gets_nothing B {_} k la x.
Arguments gets_file B {_} content write_all k la x1 x2.

(** ** The size of the file decides *)

Lemma sending_starts content k l s s0 : content <> [] -> 2 * zlen content <= VARINT_MAX -> fresh_server k l s ->
  server_cc content Connected s = Ret s0 -> c_streams s0 = serving content 0 true (file_queue (U64_MAX - 1)) l -> only_data s0 -> same_numbers s s0 ->
  exists n, sending_file content n 0 k (U64_MAX - 1) l s0.
Proof.
  intros Hne Hmax [_ Hs Ht _ [Hn Hla Hk] _] Hcc Hs0 Ho (Hn0 & Hla0 & _). pose proof (zlen_nonneg content).
  destruct (connected_serves content Hne Hmax nothing_written s s0 Ht) as (n & Ht0 & Hsv); try (by rewrite Hs); [|done|].
  - split; cbn; try done; by left.
  - exists n. split; try done. split; [by rewrite Hn0|by rewrite Hla0|done].
Qed.

(** C4: The size of the file decides whether it is transferred.  A server that
    has just been connected, and has nothing else to send, gets its event, and
    writes and finishes a file that is not empty.  A file of 1450 bytes or more, which is the
    room of a packet of the Data space, panics the server with the next packet.
    A file of 1442 bytes or less makes one packet; a client that gets it takes
    note of the packet only: no byte arrives, its application is told nothing,
    and the server has nothing more to send.  A file in between makes two
    packets, and arrives: a client that gets both, in the buffers and at the
    times that may be, and whether or not its program runs between them, hears
    of both, has written exactly the file after the second, and closes the
    connection. *)
Theorem file_size_decides {B : Type} `{BufBytes B} (content : list Z) (write_all : list Z -> list Z -> option (list Z))
    (k : Z) (l : list Event) (now now' : Instant) (s : Connection) :
  content <> [] -> 2 * zlen content <= VARINT_MAX -> (forall f d, write_all f d = Some (f ++ d)) -> fresh_server k l s ->
  let la := default 0 (largest_acked_packet (space_of s SpData)) in
  exists s0, server_cc content Connected s = Ret s0 /\
    (DATA_ROOM <= zlen content -> Connection.poll_transmit now s0 = Panic) /\
    (zlen content <= DATA_ROOM - 8 -> exists x s1, Connection.poll_transmit now s0 = Ret (s1, false) /\
      map sch_packet (sending_queue (path s1)) = map sch_packet (sending_queue (path s)) ++ [x] /\
      StreamsState.can_send_stream_data (c_streams s1) = false /\ gets_nothing B k la x) /\
    (DATA_ROOM - 8 < zlen content < DATA_ROOM -> exists x1 x2 s1 s2,
      Connection.poll_transmit now s0 = Ret (s1, true) /\ Connection.poll_transmit now' s1 = Ret (s2, false) /\
      map sch_packet (sending_queue (path s2)) = map sch_packet (sending_queue (path s)) ++ [x1; x2] /\
      gets_file B content write_all k la x1 x2).
Proof.
  intros Hne Hmax Hw Hs la. pose proof Hs as [_ _ _ _ [Hn Hla Hk] [Hla2 Hk2]]. assert (Hmax' : zlen content <= VARINT_MAX) by (pose proof (zlen_nonneg content); lia).
  destruct (server_queues content k l s Hne Hmax' Hs) as (s0 & Hcc & Hs0 & Ho & Hnum). exists s0. split; [exact Hcc|].
  destruct (sending_starts content k l s s0 Hne Hmax Hs Hcc Hs0 Ho Hnum) as [n Hf]. destruct Hnum as (_ & Hla0 & Hq0).
  assert (Hroom : DATA_ROOM = 1450) by done. assert (Hpos : 0 < zlen content) by (destruct content; [done|rewrite zlen_cons; pose proof (zlen_nonneg content); lia]).
  split; [|split].
  - intros Hbig. destruct (poll_data now k s0 Ho (sf_number _ _ _ _ _ _ _ Hf)) as (out & Hrm & Hpanic & _); [by rewrite Hs0|].
    apply Hpanic. rewrite Hs0. apply file_panics; [done|]. rewrite Hrm. unfold StreamsState.STREAM_SIZE_BOUND. lia.
  - intros Hsmall. destruct (file_packet (B:=B) content n 0 k (U64_MAX - 1) l now s0 Hne Hmax') as (x & s1 & len & Hp & Hq & Hx & Hu & Hs1 & _);
      [lia|done|done|change (reserved 0 false) with 0; lia|].
    change (reserved 0 true) with 8 in *. rewrite Z.min_l, Z.eqb_refl in Hp, Hu, Hs1 by lia. rewrite Hla0 in Hu.
    exists (sch_packet x), s1. split; [exact Hp|]. split; [by rewrite Hq, map_app, Hq0|]. split.
    + rewrite Hs1. unfold queue_after. by rewrite Z.eqb_refl.
    + apply (whole_file_dropped content k la len); [exact Hu|exact Hx|lia|lia].
  - intros Hmid. destruct (file_packet (B:=B) content n 0 k (U64_MAX - 1) l now s0 Hne Hmax')
      as (x1 & s1 & len1 & Hp1 & Hq1 & Hx1 & Hu1 & Hs1 & Ho1 & Ht1 & Hn1 & Hla1); [lia|done|done|change (reserved 0 false) with 0; lia|].
    change (reserved 0 true) with 8 in *. rewrite Z.min_r in Hp1, Hu1, Hs1 by lia. change (0 + (DATA_ROOM - 8)) with 1442 in *.
    destruct (Z.eqb_spec 1442 (zlen content)) as [|Hneq]; [lia|]. cbn [negb] in *. rewrite Hla0 in Hla1, Hu1.
    assert (Hf1 : sending_file content n 1442 (k + 1) (U64_MAX - 1 - 1) l s1).
    { destruct Hf as [_ _ _ _ Hsv]. split; try done; [|split; [done|rewrite Hla1; lia|lia]]. rewrite Hs1. unfold queue_after.
      by destruct (Z.eqb_spec 1442 (zlen content)). }
    destruct (file_packet (B:=B) content n 1442 (k + 1) (U64_MAX - 1 - 1) l now' s1 Hne Hmax')
      as (x2 & s2 & len2 & Hp2 & Hq2 & Hx2 & Hu2 & _); [lia|done|done|change (reserved 1442 false) with 2; lia|].
    change (reserved 1442 true) with 10 in *. rewrite Z.min_l, Z.eqb_refl in Hp2, Hu2 by lia. rewrite Hla1 in Hu2.
    exists (sch_packet x1), (sch_packet x2), s1, s2. split; [exact Hp1|]. split; [exact Hp2|]. split.
    + by rewrite Hq2, Hq1, !map_app, Hq0, <- app_assoc.
    + eapply (two_parts_delivered content write_all Hmax' Hw k la 1442); try done; lia.
Qed.

(** ** After the handshake *)

(** The server of [Handshake] when its answer was sent, at [t]. *)
Definition server_sent (t3 t4 t size : Instant) : Connection :=
  mkConnection Server Established
    (mkNetworkPath [] initial_rtt (NewReno.new t3) (mkInFlight size 1) (Some 0))
    (mkSpaces (mkPacketSpace true Dedup_new 0 Retransmits_default (PendingAcks.acks_sent (first_received t4)) 1 None t3 0 0
        {[ 0 := hello_packet t size (Some 0) ]} None false false size)
      (PacketSpace.new t3) (PacketSpace.new t3)) SpInitial
    (TimerTable.set LossDetection (t + (MIN_RTT * 3 + TIMER_GRANULARITY)) TimerTable_default)
    (mkStreams Server ∅ ∅ (0, 0) (ss_pending (StreamsState.new Server)) [Connected]) false true.

Lemma server_sends t3 t4 t5 t size y : 0 < size <= INITIAL_MTU -> t + 10 ^ 9 < INSTANT_END ->
  Driver.send_queued (fun _ => Some t) (server_answered t3 t4 t5 size y true) = Ret (server_sent t3 t4 t size).
Proof.
  intros Hsize Ht. assert (INITIAL_MTU = 1472) as Hmtu by done. unfold Driver.send_queued. change (S (length _)) with 2%nat. cbn [Driver.send_loop].
  assert (Hs : NetworkPath.send_one (Some t) (spaces (server_answered t3 t4 t5 size y true)) (path (server_answered t3 t4 t5 size y true)) =
    Ret (path (server_sent t3 t4 t size), spaces (server_sent t3 t4 t size), Some {| psi_ack_eliciting := true; psi_send_time := t |})).
  { unfold NetworkPath.send_one, InFlight.insert, PacketSpace.sent. cbn -[u64_add]. rewrite !u64_add_ok by u64_lia. cbn -[Z.add].
    unfold saturating_sub. rewrite Z.sub_0_r, Z.add_0_l, Z.max_r by lia. done. }
  rewrite Hs. cbn [psi_ack_eliciting]. set (c := with_spaces _ _).
  assert (Hloss : Connection.set_loss_detection_timer c = Ret (server_sent t3 t4 t size)).
  { unfold Connection.set_loss_detection_timer. change (State.is_closed (c_state c)) with false. cbn iota.
    change (Connection.loss_time_and_space c) with (@None (Instant * SpaceId)). cbn iota.
    assert (Connection.has_in_flight c = (0 <? size) || (false || (false || false))) as -> by reflexivity.
    destruct (Z.ltb_spec 0 size); [|lia]. cbn [orb]. change (RttEstimator.conservative (rtt (path c))) with MIN_RTT.
    rewrite dur_mul_ok by reflexivity. cbn [obind]. rewrite dur_add_ok by reflexivity. cbn [obind].
    change (Connection.earliest_sent c) with (Some t). cbn iota. rewrite inst_add_ok; [done|].
    replace (MIN_RTT * 3 + TIMER_GRANULARITY) with (10 ^ 9) by reflexivity. exact Ht. }
  rewrite Hloss. done.
Qed.

(** The handshake leads to the transfer: the server whose answer was sent takes
    its event as a fresh server, and the client that has heard the answer
    awaits the packets of the server, whatever the times. *)
Lemma handshake_leads_on t3 t4 t5 t : t + 10 ^ 9 < INSTANT_END -> exists c1 c2 s,
  Driver.burst Driver.MAX_SPINS t5 (server_greeted t3 t4) = Ret c1 /\ Driver.send_queued (fun _ => Some t) c1 = Ret c2 /\
  Driver.take_event c2 = Some (Connected, s) /\ fresh_server 0 [] s /\ largest_acked_packet (space_of s SpData) = None.
Proof.
  intros Ht. destruct (server_answers t3 t4 t5) as (size & y & Hsize & Hp & Hb).
  exists (server_answered t3 t4 t5 size y true), (server_sent t3 t4 t size). eexists. split; [exact Hb|].
  pose proof (server_sends t3 t4 t5 t size y Hsize Ht) as Hsent. split; [exact Hsent|]. split; [reflexivity|]. split; [|reflexivity].
  pose proof (typed_poll nothing_written _ _ _ _ Hp (server_greeted_typed t3 t4)) as Hc. pose proof (typed_send_queued nothing_written _ _ _ Hsent Hc) as Hc2.
  split; [reflexivity|reflexivity| | |done|by split].
  - refine (typed_event_taken nothing_written _ Connected _ _ Hc2). reflexivity.
  - split; try done. cbn. assert (INITIAL_MTU = 1472) as Hmtu by done. rewrite Hmtu in Hsize. lia.
Qed.

Lemma connected_client_awaits t0 r f s t l : awaits 0 0 (client_hearing t0 Established r f s t l) /\
  ss_recv (c_streams (client_hearing t0 Established r f s t l)) !! file_stream = None.
Proof.
  split; [|done]. split; [done|done|apply acks_inv_new|done| |by split]. split; [done|]. exists ∅. apply dedup_inv_new.
Qed.

(** A client that was connected by the handshake. *)
Definition waiting_client : Connection :=
  client_hearing 0 Established initial_rtt (mkInFlight 0 0) (answered_initial 0 20 (Some 0) ∅ 0) TimerTable_default [].

Lemma file_size_decides_witness : exists s s0 s1 s2 x1 x2 c1 c3 c4, fresh_server 0 [] s /\
  server_cc sample_content Connected s = Ret s0 /\ Connection.poll_transmit 30 s0 = Ret (s1, true) /\
  Connection.poll_transmit 40 s1 = Ret (s2, false) /\ map sch_packet (sending_queue (path s2)) = [x1; x2] /\
  (exists d1 : in_memory, view d1 = x1 /\ Connection.handle_data 50 d1 waiting_client = Ret c1) /\
  (exists d2 : in_memory, view d2 = x2 /\ Connection.handle_data 60 d2 c1 = Ret c3) /\
  client_cc append 70 [] readable_event c3 = Ret (sample_content, c4) /\ State.is_closed (c_state c4) = true.
Proof.
  destruct (handshake_leads_on 3 4 10 20 eq_refl) as (a1 & a2 & s & Hb & Hsent & Htake & Hs & Hla).
  destruct (file_size_decides (B:=in_memory) sample_content append 0 [] 30 40 s) as (s0 & Hcc & _ & _ & Hmid).
  - discriminate.
  - vm_compute. discriminate.
  - reflexivity.
  - exact Hs.
  - rewrite Hla in Hmid. destruct Hmid as (x1 & x2 & s1 & s2 & Hp1 & Hp2 & Hq & Hfile); [vm_compute; split; reflexivity|].
    vm_compute in Hb. injection Hb as <-. vm_compute in Hsent. injection Hsent as <-. vm_compute in Htake. injection Htake as <-.
    vm_compute in Hcc. injection Hcc as <-. vm_compute in Hp1. injection Hp1 as <-. vm_compute in Hp2. injection Hp2 as <-.
    vm_compute in Hq. injection Hq as <- <-.
    match type of Hfile with gets_file _ _ _ _ _ ?y1 ?y2 =>
      destruct (Hfile (InMemory y1 eq_refl) (InMemory y2 eq_refl) 50 55 60 70 waiting_client eq_refl eq_refl eq_refl eq_refl eq_refl)
        as (c1 & part & c1' & H1 & Haw & _ & _ & _ & H2); [apply connected_client_awaits..|] end.
    destruct (H2 [] c1 Haw) as (c3 & c4 & H3 & _ & H4 & H5); [left; by split|].
    do 9 eexists. split; [exact Hs|]. split; [vm_compute; reflexivity|]. split; [vm_compute; reflexivity|].
    split; [vm_compute; reflexivity|]. split; [vm_compute; reflexivity|].
    split; [eexists; split; [|exact H1]; reflexivity|]. split; [eexists; split; [|exact H3]; reflexivity|].
    split; [exact H4|exact H5].
Defined.
