(* ===== verification/Gaps.v ===== *)
(** * Gaps: data that arrives behind the end of the stream

    The receive streams announce a frame when it raises the highest offset
    received, or brings the FIN first.  A frame that fills a gap does neither:
    what this means for the client of the file transfer. *)
From S2P Require Import Prelude Time Buffers Varint Common Packet Frame Timer Space Path Send Recv Streams Connection Driver Quiet Typed Wire Datagrams Programs Transfer Network Delivery.

Section Gaps.
Context {B : Type} `{BufBytes B} (content : list Z).

(** The client has seen the FIN and the last byte, has written [f], and waits
    for an event. *)
Definition silent (f : list Z) (m : gmap StreamId Recv) (l : list StreamId) : Prop :=
  l = [] /\ exists r, m !! file_stream = Some r /\ stream_holds (byte_at content) (zlen content) f r /\
    r_state r = RsRecv (Some (zlen content)) /\ r_end r = zlen content.

Context (content_max : zlen content <= VARINT_MAX).

Lemma parts_are_silent f : kept_by_parts content (silent f).
Proof using content_max.
  intros frame len s s' res Hf Hd (Hl & r & Hr & Hh & Hst & Hend). unfold StreamsState.received in Hd. rewrite (cf_id _ _ _ _ Hf), Hr in Hd.
  destruct (StreamsState.validate_receive_id _ s); [|injection Hd as <- _; split; [done|by exists r]].
  assert (Recv.is_receiving r = true /\ Recv.final_offset_unknown r = false) as [Hrec Hfin].
  { unfold Recv.is_receiving, Recv.final_offset_unknown. by rewrite Hst. }
  rewrite Hrec, Hfin in Hd. cbn [negb] in Hd. apply obind_ret in Hd as ([r' ing] & Hi & Hd). cbv zeta in Hd.
  pose proof (ingest_holds _ _ _ _ _ _ _ _ _ Hh Hf content_max Hi) as Hh'.
  pose proof (cf_end _ _ _ _ Hf) as He. pose proof (sh_open _ _ _ _ Hh) as Ho. pose proof (sh_open _ _ _ _ Hh') as Ho'.
  assert (Hsame : r_state r' = r_state r /\ r_end r' = r_end r /\ forall n closed, ing = Ok (n, closed) -> n = 0).
  { destruct (ingest_cases _ _ _ _ _ Hi) as [(_ & -> & ? & ->)|[(_ & _ & -> & ? & ->)|(_ & _ & -> & -> & _ & _ & _ & ->)]]; [done..|].
    rewrite Hst, Ho, Hend. split_and!; [|lia|intros n closed [= <- _]; lia]. destruct (st_fin frame) eqn:Hfn; [|done]. cbn. by rewrite (cf_fin _ _ _ _ Hf Hfn). }
  destruct Hsame as (Hst' & Hend' & Hnew). rewrite Ho' in Hd. cbn [negb] in Hd.
  assert (Hres : s' = StreamsState.with_recv (<[file_stream := r']> (<[file_stream := r]> (ss_recv s))) (StreamsState.with_recv (<[file_stream := r]> (ss_recv s)) s)).
  { destruct ing as [[n closed]|e]; [rewrite (Hnew n closed eq_refl), andb_false_r in Hd|]; by injection Hd as <- _. }
  rewrite Hres. split; [exact Hl|]. exists r'. split; [apply lookup_insert_eq|]. split; [exact Hh'|]. by rewrite Hst', Hend'.
Qed.

Lemma silent_holds f c : invariant (silent f) c -> exists r, ss_recv (c_streams c) !! file_stream = Some r /\
  stream_holds (byte_at content) (zlen content) f r.
Proof. intros (_ & r & Hr & Hh & _). by exists r. Qed.

Context (write_all : list Z -> list Z -> option (list Z)) (code : Z).

Lemma silent_round now (r : Round B) f c f' c' : (forall t d, r_data r = Some (t, d) -> carries_file (B:=B) content (view d)) ->
  invariant (silent f) c -> round (client_handler write_all code FileTransfer) now r f c = Ret (f', c') ->
  f' = f /\ invariant (silent f) c'.
Proof using content_max.
  intros Hdata Hc. unfold round. destruct (State.is_drained (c_state c)); [by intros [= <- <-]|]. intros Ha.
  apply obind_ret in Ha as (c1 & Hb%burst_quiet & Ha). apply obind_ret in Ha as (c2 & Hq%send_queued_quiet & Ha).
  assert (Hc2 : invariant (silent f) c2) by (by apply (quiet_invariant _ c1), (quiet_invariant _ c)). unfold select in Ha.
  destruct (Driver.take_event c2) as [[e c3]|] eqn:He.
  - apply take_event_spec in He as (He & _ & _ & Hr & _).
    assert (Hc3 : invariant (silent f) c3 /\ forall id, e <> EvStream (EvReadable id)).
    { revert Hc2. unfold invariant. rewrite Hr, He. intros [Hl Hc2]. unfold readable in Hl.
      destruct e as [|x|[id|id|id x]]; cbn in Hl; try done; (split; [by split|done]). }
    destruct Hc3 as [Hc3 Hne]. destruct e as [|x|[id|id|id x]]; cbn in Ha; try (by injection Ha as <- <-). by destruct (Hne id).
  - apply obind_ret in Ha as (c3 & Hs & Ha). injection Ha as <- <-. split; [done|].
    by apply (no_event_file content _ (parts_are_silent f) r c2).
Qed.

Lemma silent_run l f c f' c' : Forall (fun x => forall t d, r_data x.2 = Some (t, d) -> carries_file (B:=B) content (view d)) l ->
  invariant (silent f) c -> run_program (client_handler write_all code FileTransfer) l f c = Ret (f', c') ->
  f' = f /\ invariant (silent f) c'.
Proof using content_max.
  intros Hl. revert c. induction Hl as [|[now r] l Hr Hl IH]; intros c Hc; cbn [run_program]; [by intros [= <- <-]|].
  intros Ha. apply obind_ret in Ha as ([f1 c1] & Hst & Ha). destruct (silent_round _ _ _ _ _ _ Hr Hc Hst) as [-> Hc1]. by apply (IH c1).
Qed.
End Gaps.

(** C20: A gap that is filled last is not announced.  Let the client of the file
    transfer have seen the FIN and the last byte of the file, and have no
    event left for the stream.  Whatever rounds follow, in which the peer sends
    any parts of the file, the missing ones too, the client gets no further
    event for the stream, and writes nothing more.  All of the file may have
    arrived: then a single event would have made the client write the rest, and
    close. *)
Theorem filled_gap_is_silent {B : Type} `{BufBytes B} (content : list Z) (write_all : list Z -> list Z -> option (list Z)) (code : Z)
    (l : list (Instant * Round B)) (f f' : list Z) (c c' : Connection) (r : Recv) :
  zlen content <= VARINT_MAX -> (forall f d, write_all f d = Some (f ++ d)) ->
  readable (events (c_streams c)) = [] -> ss_recv (c_streams c) !! file_stream = Some r ->
  stream_holds (byte_at content) (zlen content) f r -> r_state r = RsRecv (Some (zlen content)) -> r_end r = zlen content ->
  Forall (fun x => forall t d, r_data x.2 = Some (t, d) -> carries_file (B:=B) content (view d)) l ->
  run_program (client_handler write_all code FileTransfer) l f c = Ret (f', c') ->
  f' = f /\ readable (events (c_streams c')) = [] /\ exists r', ss_recv (c_streams c') !! file_stream = Some r' /\
    stream_holds (byte_at content) (zlen content) f r' /\
    forall now, all_there (zlen content) r' -> side c' = Client -> State.is_closed (c_state c') = false -> now + Connection.CLOSE_TIMEOUT < INSTANT_END ->
      exists c'', client_cc write_all now f (EvStream (EvReadable file_stream)) c' = Ret (content, c'') /\ State.is_closed (c_state c'') = true.
Proof.
  intros Hmax Hw Hev Hr Hh Hst Hend Hl Hrun.
  destruct (silent_run content Hmax write_all code l f c f' c' Hl) as [-> Hc']; [split; [done|by exists r]|done|].
  split; [done|]. split; [apply Hc'|]. destruct (silent_holds _ _ _ Hc') as (r' & Hr' & Hh'). exists r'. split; [done|]. split; [done|].
  intros now Hall Hside Hopen Hnow. pose proof (zlen_nonneg content).
  destruct (transfer_completes (byte_at content) (zlen content) file_stream write_all now f c' r') as (c'' & Hcc & Hcl & _); try done.
  - by rewrite Hside.
  - exists c''. split; [|done]. rewrite Hcc, slice_byte_at by lia. unfold zlen. rewrite Nat2Z.id, drop_0. by rewrite firstn_all.
Qed.

(** A file of six bytes in three packets. *)
Definition six_bytes : list Z := [1; 2; 3; 4; 5; 6].
Definition part_datagram (k ty off : Z) (data : list Z) : list Z :=
  header_bytes (HShort false false fake_cid (PnU8 (as_u8 k))) ++ [ty; 3; off; 2] ++ data.
Definition part_bytes (k : Z) : list Z :=
  part_datagram k (if k =? 1 then 15 else 14) (if k =? 0 then 0 else if k =? 1 then 4 else 2)
    (if k =? 0 then [1; 2] else if k =? 1 then [5; 6] else [3; 4]).

(** The client gets the first part and the last one, its program handles both
    events, and then the part between comes. *)
Definition part_round (k now : Z) : Round in_memory :=
  mkRound now (fun _ => Some (now + 1)) [] (now + 2) (now + 3)
    (match k with 0 => Some (now + 4, InMemory (part_bytes 0) eq_refl) | 1 => Some (now + 4, InMemory (part_bytes 1) eq_refl)
     | 2 => Some (now + 4, InMemory (part_bytes 2) eq_refl) | _ => None end).

Definition ends_heard : outcome (list Z * Connection) :=
  run_program (client_handler append 0 FileTransfer)
    [(100, part_round 0 100); (200, part_round 3 200); (300, part_round 1 300); (400, part_round 3 400)] [] waiting_client.

Definition gap_rounds : list (Instant * Round in_memory) := [(500, part_round 2 500); (600, part_round 3 600); (700, part_round 3 700)].

Definition gap_filled : outcome (list Z * Connection) :=
  let! '(f, c) := ends_heard in run_program (client_handler append 0 FileTransfer) gap_rounds f c.

Definition gap_buffer (off : Z) : Buffer := mkBuffer off (slice (byte_at six_bytes) off 2) 6 false.
Definition ends_there : Recv := mkRecv (RsRecv (Some 6)) (mkAssembler Ordered [gap_buffer 4] 2 6 2 6) 6 false.
Definition all_parts_there : Recv := mkRecv (RsRecv (Some 6)) (mkAssembler Ordered [gap_buffer 2; gap_buffer 4] 4 12 2 6) 6 false.

Lemma ends_there_holds : stream_holds (byte_at six_bytes) (zlen six_bytes) [1; 2] ends_there.
Proof.
  split; [|vm_compute; congruence|done|by right|done]. split; try done.
  intros y [Hy|[]%holds_nil]%holds_cons. revert Hy. unfold bf_end. vm_compute; intros [_ ?]; assumption.
Qed.

Lemma all_parts_hold y : 2 <= y < 6 -> Recv.holds [gap_buffer 2; gap_buffer 4] y.
Proof.
  intros Hy. rewrite !holds_cons. unfold bf_end, gap_buffer. cbn [bf_bytes bf_offset]. rewrite !zlen_slice by lia.
  destruct (Z.lt_ge_cases y 4); [left; lia|right; left; lia].
Qed.

Lemma gap_rounds_carry : Forall (fun x => forall t d, r_data x.2 = Some (t, d) -> carries_file (B:=in_memory) six_bytes (view d)) gap_rounds.
Proof.
  constructor; [|constructor; [by intros ? ?|constructor; [by intros ? ?|constructor]]]. intros t d [= <- <-] [l Hl] Hd. cbn in Hd. subst l.
  eexists _, _, [FStream {| st_id := 3; st_offset := 2; st_fin := false; st_data := [3; 4] |}].
  split; [vm_compute; reflexivity|]. split; [vm_compute; reflexivity|]. apply Forall_singleton. by split.
Qed.

Lemma filled_gap_is_silent_witness : exists c c', ends_heard = Ret ([1; 2], c) /\ gap_filled = Ret ([1; 2], c') /\
  ss_recv (c_streams c') !! file_stream = Some all_parts_there /\ events (c_streams c') = [] /\
  exists c'', client_cc append 800 [1; 2] (EvStream (EvReadable file_stream)) c' = Ret (six_bytes, c'').
Proof.
  destruct ends_heard as [[f c]|] eqn:Hc; [|vm_compute in Hc; discriminate].
  destruct gap_filled as [[f' c']|] eqn:Hc'; [|vm_compute in Hc'; discriminate].
  assert (Hf : f = [1; 2] /\ readable (events (c_streams c)) = [] /\ ss_recv (c_streams c) !! file_stream = Some ends_there)
    by (vm_compute in Hc; injection Hc as <- <-; vm_compute; repeat split). destruct Hf as (-> & Hev & Hr).
  assert (Hf' : ss_recv (c_streams c') !! file_stream = Some all_parts_there /\ events (c_streams c') = [] /\ side c' = Client /\
    State.is_closed (c_state c') = false) by (vm_compute in Hc'; injection Hc' as _ <-; vm_compute; repeat split).
  destruct Hf' as (Hr' & Hev' & Hside & Hopen).
  destruct (filled_gap_is_silent six_bytes append 0 gap_rounds [1; 2] f' c c' ends_there) as (-> & _ & r & Hrr & _ & Hall).
  - vm_compute. discriminate.
  - reflexivity.
  - exact Hev.
  - exact Hr.
  - exact ends_there_holds.
  - reflexivity.
  - reflexivity.
  - exact gap_rounds_carry.
  - unfold gap_filled in Hc'. rewrite Hc in Hc'. exact Hc'.
  - rewrite Hr' in Hrr. injection Hrr as <-. destruct (Hall 800) as (c'' & Hcc & _).
    + split; [exact all_parts_hold|reflexivity|reflexivity].
    + exact Hside.
    + exact Hopen.
    + reflexivity.
    + exists c, c'. split; [reflexivity|]. split; [reflexivity|]. split; [exact Hr'|]. split; [exact Hev'|]. exists c''. exact Hcc.
Defined.
