(* ===== verification/Echo.v ===== *)
(** * Echo: the programs that echo streams

    The client opens two streams and writes a large message to each; the
    server sends back what it reads. *)
From S2P Require Import Prelude Time Buffers Varint Common Packet Frame Timer Space Path Send Recv Streams Connection Driver Programs Handshake Transfer Delivery.

(** ** The client *)

(** A client that has nothing to send. *)
Record idle_client (k : Z) (c : Connection) : Prop := {
  ic_side : side c = Client;
  ic_table : ss_side (c_streams c) = Client;
  ic_only : only_data c;
  ic_number : short_number k (space_of c SpData);
  ic_queue : PendingStreamsQueue.iter (ss_pending (c_streams c)) = [];
  ic_recency : 2 <= q_recency (ss_pending (c_streams c));
  ic_next : 0 <= StreamsState.next_of Bi (ss_next (c_streams c)) < 2 ^ 59;
}.

Lemma large_message_length : zlen large_message = LARGE_MESSAGE_LEN.
Proof. unfold large_message, zlen. rewrite length_replicate. by rewrite Z2Nat.id. Qed.

#[local] Opaque large_message.

Lemma large_message_nonempty : large_message <> [].
Proof. intros Heq. pose proof large_message_length as Hl. by rewrite Heq in Hl. Qed.

(** The connection after a stream was opened and its message written, and
    what is unchanged. *)
Record echo_opened (id : StreamId) (prio : Z) (c c' : Connection) : Prop := {
  eo_send : ss_send (c_streams c') = <[id := written_whole large_message prio]> (ss_send (c_streams c));
  eo_queue : let q := ss_pending (c_streams c) in
    ss_pending (c_streams c') = mkQueue (mkPendingStream prio (q_recency q - 1) id :: streams q) (q_next q) (q_recency q - 1);
  eo_side : side c' = side c;
  eo_table : ss_side (c_streams c') = ss_side (c_streams c);
  eo_next : StreamsState.next_of Bi (ss_next (c_streams c')) = StreamsState.next_of Bi (ss_next (c_streams c)) + 1;
  eo_only : only_data c';
  eo_numbers : same_numbers c c';
}.

Lemma echo_open_works prio l c : only_data c -> 1 <= q_recency (ss_pending (c_streams c)) ->
  0 <= StreamsState.next_of Bi (ss_next (c_streams c)) < 2 ^ 60 ->
  let id := StreamId.new (ss_side (c_streams c)) Bi (StreamsState.next_of Bi (ss_next (c_streams c))) in
  exists c', echo_open prio (l, c) = Ret (l ++ [mkEchoStream id 0 false], c') /\ echo_opened id prio c c'.
Proof.
  intros Ho Hrec Hidx id. pose proof (od_open _ Ho) as Hopen. unfold echo_open.
  destruct (open_stream_open Bi c Hopen) as (s1 & -> & Hsend & Hpend & Hsd & Hnext); [u64_lia|]. fold id in Hsend |- *. cbn [obind].
  assert (Hid : StreamId.dir id = Bi) by (apply StreamId_parts; lia).
  assert (Ho1 : only_data (with_streams s1 c)) by (destruct Ho; by split).
  unfold set_priority. rewrite (send_stream_open id (with_streams s1 c) Hopen (or_introl Hid)). cbn [obind].
  unfold SendStream.set_priority. change (c_streams (with_streams s1 c)) with s1. rewrite Hsend, lookup_insert_eq. cbn [obind unwrap_ok].
  set (s2 := StreamsState.with_send _ _). destruct (handle_only s2 _ Ho1) as (Ho2 & Hn2 & Hs2 & Hd2 & Hst2). set (c2 := Connection.with_handle s2 _ _) in *.
  destruct (write_then_finish id large_message prio c2) as (c3 & -> & Hf).
  - by rewrite Hst2.
  - by left.
  - rewrite Hs2. apply lookup_insert_eq.
  - rewrite Hs2. cbn. by rewrite Hpend.
  - apply large_message_nonempty.
  - rewrite large_message_length. done.
  - cbn [obind unwrap_ok]. rewrite Hf. cbn [obind unwrap_ok]. eexists. split; [done|].
    destruct (handle_only (written_and_finished id large_message prio (c_streams c2)) c2 Ho2) as (Ho3 & Hn3 & Hs3 & Hd3 & _).
    split; rewrite ?Hs3, ?Hs2; cbn; try done.
    + by rewrite !insert_insert_eq.
    + by rewrite Hpend.
    + by rewrite Hnext.
Qed.

(** Of the two streams the first is more urgent. *)
Lemma two_queued r id1 id2 : PendingStreamsQueue.pop (mkQueue [mkPendingStream 1 (r - 1 - 1) id2; mkPendingStream 2 (r - 1) id1] None (r - 1 - 1)) =
  (mkQueue [mkPendingStream 1 (r - 1 - 1) id2] None (r - 1 - 1), Some (mkPendingStream 2 (r - 1) id1)).
Proof. reflexivity. Qed.

(** C22: The echo client does not survive its own message.  A client that was
    just connected, with nothing else to send, room in its congestion window
    and a packet number of one byte, handles the event: it opens two streams,
    and writes 1024000 bytes to each.  Then the next round of its connection
    panics, whatever the round brings, for a message is larger than what is
    left of any packet. *)
Theorem echo_client_panics {B : Type} `{BufBytes B} (write_all : list Z -> list Z -> option (list Z)) (code k : Z)
    (now now' : Instant) (r : Round B) (c : Connection) :
  idle_client k c -> exists ss c', client_echo now [] Connected c = Ret (ss, c') /\
    round (client_handler write_all code StreamEcho) now' r ss c' = Panic.
Proof.
  intros [Hside Htable Ho Hnum Hidle Hrec Hidx]. apply idle_queue in Hidle as [Hqn Hqs].
  destruct (echo_open_works 2 [] c Ho) as (c1 & Hopen1 & [Hs1 Hq1 Hd1 Ht1 Hn1 Ho1 Hm1]); [lia|lia|]. cbv zeta in Hopen1, Hs1, Hq1.
  set (i := StreamsState.next_of Bi _) in *. set (id1 := StreamId.new _ Bi i) in *.
  destruct (echo_open_works 1 ([] ++ [mkEchoStream id1 0 false]) c1 Ho1) as (c2 & Hopen2 & [Hs2 Hq2 Hd2 Ht2 Hn2 Ho2 Hm2]);
    [rewrite Hq1; cbn; lia|rewrite Hn1; lia|]. cbv zeta in Hopen2, Hs2, Hq2. rewrite Ht1, Hn1 in Hopen2, Hs2, Hq2. set (id2 := StreamId.new _ Bi (i + 1)) in *.
  rewrite Hq1 in Hq2. cbn [q_recency streams q_next] in Hq2. rewrite Hqn, Hqs in Hq2.
  assert (Hne : id1 <> id2) by (unfold id1, id2; rewrite !StreamId_new_spec by lia; lia).
  eexists _, c2. split.
  - unfold client_echo, echo_event. rewrite Hopen1. cbn [obind]. rewrite Hopen2. cbn [obind app]. done.
  - unfold round. pose proof (od_open _ Ho2) as Hcl. assert (State.is_drained (c_state c2) = false) as -> by (by destruct (c_state c2)).
    assert (Hnum2 : short_number k (space_of c2 SpData)).
    { destruct Hnum as [Ha Hb Hc], Hm1 as (E1 & E2 & _), Hm2 as (E3 & E4 & _). split; [by rewrite E3, E1|by rewrite E4, E2|done]. }
    destruct (poll_data (r_now r) k c2 Ho2 Hnum2) as (out & Hroom & Hpanic & _).
    { unfold StreamsState.can_send_stream_data. rewrite Hq2. unfold PendingStreamsQueue.iter. cbn. by rewrite Hs2, lookup_insert_eq. }
    assert (Hpoll : Connection.poll_transmit (r_now r) c2 = Panic).
    { apply Hpanic, write_first_panics. assert (DATA_ROOM = 1450 /\ StreamsState.STREAM_SIZE_BOUND = 25) as [] by done.
      apply (turn_overflows true _ out [] _ _ (written_whole large_message 2) large_message ltac:(rewrite Hq2; apply two_queued)).
      - cbn [ps_id]. rewrite Hs2, lookup_insert_ne, Hs1 by done. apply lookup_insert_eq.
      - reflexivity.
      - reflexivity.
      - cbn [ps_id]. unfold id1. rewrite StreamId_new_spec by lia. rewrite Htable. cbn [Dir_as_u64 Side_as_u64]. varint_lia.
      - rewrite large_message_length. unfold LARGE_MESSAGE_LEN. lia.
      - rewrite large_message_length. done. }
    unfold Driver.MAX_SPINS. change 128%nat with (S 127). cbn [Driver.burst]. by rewrite Hpoll.
Qed.

(** The client of the handshake, when the packet that acknowledges the answer
    was sent. *)
Definition greeted_client : outcome Connection :=
  let! c := Driver.burst Driver.MAX_SPINS 30 (client_hearing 0 Established initial_rtt (mkInFlight 0 0)
              (answered_initial 0 20 (Some 0) ∅ 0) TimerTable_default [Connected]) in
  Driver.send_queued (fun _ => Some 31) c.

Definition sample_round : Round in_memory := mkRound 50 (fun _ => Some 51) [] 52 53 None.

Lemma echo_client_panics_witness : exists c0 c ss c', greeted_client = Ret c0 /\ Driver.take_event c0 = Some (Connected, c) /\
  client_echo 40 [] Connected c = Ret (ss, c') /\ round (client_handler append 0 StreamEcho) 60 sample_round ss c' = Panic.
Proof.
  destruct greeted_client as [c0|] eqn:Hc0; [|vm_compute in Hc0; discriminate].
  destruct (Driver.take_event c0) as [[e c]|] eqn:He.
  2: { vm_compute in Hc0. injection Hc0 as <-. vm_compute in He. discriminate. }
  assert (Hi : idle_client 0 c /\ e = Connected).
  { vm_compute in Hc0. injection Hc0 as <-. vm_compute in He. injection He as <- <-.
    split; [|reflexivity]. split; try reflexivity; [split; reflexivity|split; vm_compute; intuition congruence|vm_compute; congruence|vm_compute; intuition congruence]. }
  destruct Hi as [Hi ->]. destruct (echo_client_panics append 0 0 40 60 sample_round c Hi) as (ss & c' & Hh & Hr).
  exists c0, c, ss, c'. split; [reflexivity|]. split; [exact He|]. split; [exact Hh|exact Hr].
Defined.
